(* ===== verification/_CoqProject ===== *)
-Q . S2P
Prelude.v
Json.v
GoTime.v
Crypto.v
Encoding.v
Totp.v
SimStore.v
SimWalk.v
JsonText.v
Model.v
Events.v
Conflict.v
Backoff.v
Float64.v
Buckets.v
Tables.v
Effects.v
Store.v
AuthStore.v
TenantStore.v
Schema.v
Migrate.v
MigrateSpec.v
Broker.v
Frame.v
Interleave.v
Connectors.v
Run.v
Adapters.v
Worker.v
WorkerFrame.v
WorkerCalls.v
Sample.v
WorkerSpec.v
WorkerApply.v
Retry.v
Ingestion.v
BrokerSpec.v
Simulator.v
SimSpec.v
SimHooks.v
SimList.v
Operator.v
Auth.v
Accounts.v
Admin.v
Oidc.v
Idp.v
Config.v
Api.v
OperatorSpec.v
History.v
AuthSpec.v
AccountsSpec.v
AdminSpec.v
SeedSpec.v
LoginSpec.v
OidcSpec.v
SsoSpec.v
ApiSpec.v
Middleware.v
Reconcile.v
SyncJob.v
ReconcileSpec.v
SweepSpec.v
SimSweep.v
JobSpec.v
System.v
SimMain.v
Metrics.v
Startup.v
LoadTest.v
Races.v
