(* ===== verification/Prelude.v ===== *)
(** * A verification library for SyncForge

    SyncForge keeps customer records of several providers (Salesforce, HubSpot)
    in step, for several tenants.  This library models the Go sources under
    [src/internal] as executable definitions and proves what the components
    promise, alone and together.  Paths below are relative to [src].

    ** How the program works, and where it is modelled

    A provider announces a change with a signed webhook.  The gateway stores it
    once as a source event and ingestion publishes it to the broker
    ([internal/api/webhooks.go], [internal/ingestion]: [Ingestion]).  The broker
    ([internal/eventbus]: [Broker]) hands the event to the sync worker
    ([internal/syncworker]: [Worker]), which claims it, finds the canonical
    record, drops duplicates, stale events and echoes of its own writes, merges
    field by field ([internal/conflict]: [Conflict]), writes the result to the
    other providers ([internal/connectors]: [Connectors] for the client and the
    interface of an adapter, [Adapters] for the adapters and the registry) and
    persists it.  A failure becomes a row of the retry queue, drained with
    exponential backoff ([internal/retry], [internal/backoff]: [Retry],
    [Backoff]), or a dead letter.  Operators settle conflicts, dead letters and
    findings through the HTTP API ([internal/api]: [Operator]; the whole surface
    with its mux is [Api], the middleware around it [Middleware]).  Reconciliation runs and full synchronizations walk a
    provider's pages ([internal/reconcile], [internal/syncjob]: [Reconcile],
    [SyncJob]).

    Around this core: the customer and its fingerprint ([internal/model]:
    [Model]); the event and its JSON ([internal/events]: [Events]); sessions,
    keys, logins and second factors ([internal/api], [internal/totp]: [Auth],
    [Accounts], [Totp]); sign-in with an ID token ([internal/oidc]: [Oidc]);
    tenants, connections, inspection and the demo seed ([Admin]); the
    configuration and the health checks ([internal/config]: [Config]); start-up
    and shutdown of the processes ([cmd/api], [cmd/engine], [internal/db/db.go]:
    [Startup]); the instruments ([internal/observability]: [Metrics]); the
    migrations ([internal/db/migrate.go]: [Migrate]); the rate limiters
    ([Buckets]); the simulated provider ([internal/simulator]: [SimStore],
    [Simulator]), the commands that start it with their seed data
    ([cmd/sim-salesforce], [cmd/sim-hubspot]: [SimMain]) and its mock identity
    provider ([Idp]); the load generator ([load_test], [cmd/loadgen]:
    [LoadTest]).

    The database is the state the components share.  [Tables] has a record per
    table, [Store], [AuthStore] and [TenantStore] a definition per function of
    [internal/store], [Schema] the constraints the migrations declare.

    ** How effects are modelled

    A handler is a run in the monad [M] of [Effects], from a state [St] to an
    error or a value and the next state.  The state holds the database, the
    outside world, the requests made, the messages published, the clock, the
    numbers that will be drawn, the ids that will be generated, and an oracle of
    faults: every transaction commits, fails before its commit ([Ffail]), or
    commits without its caller learning so ([Flost]).  A theorem that says
    nothing of the oracle holds under every pattern of faults; one about success
    says that no fault is left.  The database belongs to no run: before the n-th transaction of a run the
    others may have changed it in any way ([others] of the class [Outside]), and
    the state keeps a log of the transactions committed, each with the database
    it met and the one it left.  A theorem over [Outside] holds whatever the
    others do; one over [Transport] is about a run that has the database for
    itself.  Errors are values with the fields the code inspects.  Integers wrap at 64 bits where the code could reach that
    ([wrap64]; [Backoff] and [Buckets] also round as [float64] does), times are
    nanoseconds, maps are [gmap]s.  The parts of the Go standard library that
    decide what the program does are executable as well and proved where the
    program depends on it: [Json], [JsonText], [GoTime], [Crypto] (SHA-1, SHA-256,
    HMAC), [Encoding] (base64, base32), [Float64].

    ** What is a parameter

    Code outside the repository is a class, with what the program relies on as
    laws: [Outside] (HTTP peers, the broker, and the other runs; no laws), [Bcrypt], [Rsa] with
    [RsaKeys] and [RsaLaws], [Kgo] with [KgoLaws] (the Kafka client), [Postgres]
    (for the migrations, which run arbitrary scripts).  What Redis counts, what
    the random source returns and the order in which Go visits a map are
    arguments.  Every theorem with such a parameter has a witness in which it is
    a concrete function; [Sample] holds a small concrete system.  An adapter is a
    record of operations with laws ([LawfulAdapter]): the worker, the jobs and
    the sweep are proved against it, and both adapters are instances.

    ** What the theorems show

    - The system ([System]): any number of runs of the components at once, their
      transactions interleaved in any order and each run left at any point
      ([Interleaved] of [Interleave]).  Nothing recorded is taken back
      ([history_kept], by the preorder [Kept] of [History]), the schema's
      constraints hold ([schema_kept]), of all the runs that process an event
      with success one talks to providers ([exactly_once]) and a session that was
      logged out stays so ([logout_final]).  [Races] shows what is not kept: an
      older update checked before a newer one is persisted overwrites it
      ([old_overwrites_new]), a dismissal overwrites a resolution made meanwhile
      ([resolved_conflict_dismissed]), and a discarded dead letter can be replayed
      ([discarded_letter_replayed]).
    - The worker ([WorkerSpec], [WorkerApply]; frames in [Frame], [WorkerFrame]
      and [WorkerCalls]): isolation of tenants transaction by transaction, what
      an apply persists, what is dropped, conflicts that are parked, failures
      that become durable.
    - Conflicts: the merge is pointwise, and independent of the order of two
      different writes of two sources that are later than what they meet, under a
      time-based strategy.
    - Delivery ([Ingestion], [BrokerSpec], [Broker], [Retry]): authentic webhooks,
      no loss on the way to the broker (with event ids unique in a tenant), what a
      committed offset and a mark mean at every commit of the consumer, the
      in-process bus with its cancelled subscribers as a refinement of a feed per subscriber, the outcomes of a
      retry, bounds of its delay.
    - Operators and the HTTP surface ([OperatorSpec], [ApiSpec], [AdminSpec],
      [SeedSpec]): credentials and roles guard every route, requests stay inside
      their tenant, decisions are queued as asked, seeding again changes
      only the times of updates and uses.
    - Accounts ([AuthSpec], [LoginSpec], [AccountsSpec], [OidcSpec], [SsoSpec]): a
      login succeeds only with the right credentials and does succeed with them,
      the lockout, no escalation, revocation, single sign-on both ways.
    - Sweeps and jobs ([ReconcileSpec], [SweepSpec], [JobSpec]): a fresh manual run
      reports exactly the divergences, each once, with the right counters; a job
      ends.
    - Providers ([SimWalk], [SimSpec], [SimHooks], [SimList], [SimSweep]): an
      adapter talking to the simulator implements an abstract map of records;
      page walks are complete while others write; a change is announced and
      ingested; a run over a simulated provider finds what its store holds.
    - Operation ([Metrics], [Middleware], [Startup]): the counters account for every
      message; a request is answered and recorded once, panics included; a process
      serves only a migrated database and closes what it opened.
    - The load generator ([LoadTest]): every request counted once, percentiles
      that are latencies of the burst and in order, rounding included; a burst is
      stored once, however often it is sent.
    - Round trips of events and tokens, the rate limit over any span of a bucket's
      life with its rounding, and migrations applied in order, once ([MigrateSpec]).

    Several lemmas are runs that show behaviour the documentation does not
    promise: [unrecorded_migration], [failed_message_committed],
    [early_publish_lost], [finished_run_starves], [engine_health_always_200],
    [old_overwrites_new], [seeded_customers_merged], [refused_conflict_lost],
    [stale_delete_applied], [cancelled_subscriber_blocks], [reset_keeps_lockout],
    [reset_unrevoked], [logout_unrevoked], [unexpiring_token_signs_in] and others.

    ** Fuel

    The page walks of [Reconcile] and [SyncJob] take fuel, because nothing in the
    program bounds the number of pages a provider serves; running out is a value
    of its own ([None]), never a success, and [job_ends] and the theorems on
    sweeps show that the number of pages is enough when cursors make progress.
    [Subscribe] serves for ever: [rounds] is the number of polls looked at, and
    its theorems hold for every number.  [JsonText] reads with as much fuel as
    the text has bytes.  All other recursion is structural.

    ** What is not modelled

    Logging, spans, durations and the exporters of metrics and traces (increments
    are kept as names); the tickers and listening loops around the runs; the handle
    of [internal/cache]; the settings of the connection pools (row-level security
    appears as the tenant condition of each statement).  A transaction is one atomic step of
    the database: PostgreSQL runs them at READ COMMITTED, where the statements of
    two transactions of several statements can interleave.  The theorems over [Transport]
    are about runs that meet no other run's transactions.

    ** This file

    Machine integers, strings, lists and maps as the components share them. *)

From Stdlib Require Export ZArith Lia String Ascii Sorted.
From stdpp Require Export base list gmap strings numbers pretty.

#[export] Set Default Goal Selector "!".

(** ** Machine integers *)

(** Go's [int64] (and [int] on 64-bit targets): two's-complement wrap-around. *)
Definition int64_min : Z := - 2 ^ 63.
Definition int64_max : Z := 2 ^ 63 - 1.
Definition wrap64 (z : Z) : Z := (z + 2 ^ 63) `mod` 2 ^ 64 - 2 ^ 63.

(** Membership in the [int64] range, as a boolean so that it computes. *)
Definition in_int64 (z : Z) : bool := (int64_min <=? z)%Z && (z <=? int64_max)%Z.

Lemma wrap64_id z : in_int64 z = true -> wrap64 z = z.
Proof.
  unfold in_int64, wrap64, int64_min, int64_max. intros H.
  apply andb_prop in H as [H1%Z.leb_le H2%Z.leb_le].
  rewrite Z.mod_small; lia.
Qed.

Lemma wrap64_range z : (int64_min <= wrap64 z <= int64_max)%Z.
Proof.
  unfold wrap64, int64_min, int64_max.
  pose proof (Z.mod_pos_bound (z + 2 ^ 63) (2 ^ 64) ltac:(lia)). lia.
Qed.

Lemma wrap64_in z : in_int64 (wrap64 z) = true.
Proof. pose proof (wrap64_range z). unfold in_int64. apply andb_true_intro. split; apply Z.leb_le; lia. Qed.

(** ** Strings *)

(** String equality as a boolean: the [==] of the Go sources. *)
Definition seqb (a b : string) : bool := bool_decide (a = b).

Declare Scope sf_scope.
Delimit Scope sf_scope with sf.
Notation "a =s b" := (seqb a b) (at level 70, no associativity) : sf_scope.
Open Scope sf_scope.

Lemma seqb_true a b : (a =s b) = true <-> a = b.
Proof. unfold seqb. apply bool_decide_eq_true. Qed.

Lemma seqb_false a b : (a =s b) = false <-> a <> b.
Proof. unfold seqb. apply bool_decide_eq_false. Qed.

Lemma seqb_refl a : (a =s a) = true.
Proof. by apply seqb_true. Qed.

Lemma seqb_ne a b : a <> b -> (a =s b) = false.
Proof. by intros; apply seqb_false. Qed.

(** [strings.Repeat]. *)
Fixpoint str_repeat (s : string) (n : nat) : string :=
  match n with O => "" | S n => s +:+ str_repeat s n end.

(** Concatenation with a separator: [strings.Join]. *)
Fixpoint str_join (sep : string) (l : list string) : string :=
  match l with
  | [] => ""
  | [x] => x
  | x :: l => x +:+ sep +:+ str_join sep l
  end.

(** ** Sorting by a boolean order ([sort.Slice], [sort.Strings]) *)

Section isort.
Context {A : Type} (leb : A -> A -> bool).

Fixpoint insert_sorted (x : A) (l : list A) : list A :=
  match l with
  | [] => [x]
  | y :: l' => if leb x y then x :: l else y :: insert_sorted x l'
  end.

Fixpoint isort (l : list A) : list A :=
  match l with
  | [] => []
  | x :: l => insert_sorted x (isort l)
  end.

Lemma insert_sorted_perm x l : insert_sorted x l ≡ₚ x :: l.
Proof.
  induction l as [|y l IH]; simpl; [done|].
  destruct (leb x y); [done|]. rewrite IH. by constructor.
Qed.

Lemma isort_perm l : isort l ≡ₚ l.
Proof.
  induction l as [|x l IH]; simpl; [done|].
  by rewrite insert_sorted_perm, IH.
Qed.

Lemma elem_of_isort x l : x ∈ isort l <-> x ∈ l.
Proof. by rewrite isort_perm. Qed.

Lemma length_isort l : length (isort l) = length l.
Proof. by rewrite isort_perm. Qed.

Context (leb_total : forall x y, leb x y = false -> leb y x = true).

Lemma isort_sorted l : Sorted (fun x y => leb x y = true) (isort l).
Proof using leb_total.
  induction l as [|x l IH]; simpl; [constructor|].
  induction IH as [|y l' HS IH Hd]; simpl; [by repeat constructor|].
  destruct (leb x y) eqn:E.
  - repeat constructor; auto.
  - constructor; [done|]. destruct l' as [|z l'']; simpl.
    + constructor. auto.
    + inversion Hd; subst. destruct (leb x z); constructor; auto.
Qed.
End isort.

(** ** Tables: rows in insertion order

    A PostgreSQL table is the list of its rows in insertion order; the
    statements of [internal/store] are the combinators below, with the [WHERE]
    clause as a boolean predicate. *)

Section table.
Context {A : Type}.
Implicit Types (p q : A -> bool) (f : A -> A) (t : list A) (r : A).

(** [SELECT ... WHERE p LIMIT 1]. *)
Definition select_one p t : option A := List.find p t.
(** [SELECT ... WHERE p], in insertion order. *)
Definition select_where p t : list A := List.filter p t.
(** [UPDATE ... SET f WHERE p]. *)
Definition update_where p f t : list A :=
  List.map (fun r => if p r then f r else r) t.
(** [DELETE ... WHERE p]. *)
Definition delete_where p t : list A := List.filter (fun r => negb (p r)) t.
(** [INSERT r ON CONFLICT (p) DO UPDATE SET f]. *)
Definition upsert p f r t : list A :=
  if List.existsb p t then update_where p f t else t ++ [r].
(** [INSERT r ON CONFLICT (p) DO NOTHING]: [None] when no row was inserted. *)
Definition insert_new p r t : option (list A) :=
  if List.existsb p t then None else Some (t ++ [r]).

Lemma elem_of_update_where p f t r :
  r ∈ update_where p f t <-> exists x, x ∈ t /\ r = (if p x then f x else x).
Proof.
  unfold update_where. rewrite list_elem_of_In, in_map_iff.
  by split; intros (x & H1 & H2); exists x; [rewrite list_elem_of_In|rewrite <- list_elem_of_In].
Qed.

(** What the rows selected by [q] look like after a statement that only
    touches rows outside [q]. *)
Lemma select_update_where_out q p f t :
  (forall r, p r = true -> q r = false /\ q (f r) = false) ->
  select_where q (update_where p f t) = select_where q t.
Proof.
  intros H. unfold select_where, update_where.
  induction t as [|r t IH]; simpl; [done|].
  destruct (p r) eqn:E; simpl.
  - destruct (H r E) as [H1 H2]. by rewrite H1, H2, IH.
  - by rewrite IH.
Qed.

Lemma select_delete_where_out q p t :
  (forall r, p r = true -> q r = false) ->
  select_where q (delete_where p t) = select_where q t.
Proof.
  intros H. unfold select_where, delete_where.
  induction t as [|r t IH]; simpl; [done|].
  destruct (p r) eqn:E; simpl.
  - by rewrite (H r E), IH.
  - by rewrite IH.
Qed.

Lemma select_app q t1 t2 :
  select_where q (t1 ++ t2) = select_where q t1 ++ select_where q t2.
Proof. apply List.filter_app. Qed.

Lemma select_snoc_out q r t :
  q r = false -> select_where q (t ++ [r]) = select_where q t.
Proof. intros H. rewrite select_app. simpl. rewrite H. apply app_nil_r. Qed.

Lemma select_upsert_out q p f r t :
  (forall r, p r = true -> q r = false /\ q (f r) = false) ->
  q r = false ->
  select_where q (upsert p f r t) = select_where q t.
Proof.
  intros H1 H2. unfold upsert. destruct (List.existsb p t).
  - by apply select_update_where_out.
  - by apply select_snoc_out.
Qed.

Lemma select_insert_new_out q p r t t' :
  q r = false -> insert_new p r t = Some t' ->
  select_where q t' = select_where q t.
Proof.
  unfold insert_new. intros Hq. destruct (List.existsb p t); intros [= <-].
  by apply select_snoc_out.
Qed.

Lemma select_one_Some p t r :
  select_one p t = Some r -> r ∈ t /\ p r = true.
Proof. intros H. apply List.find_some in H as [H ?]. by apply list_elem_of_In in H. Qed.

Lemma select_one_None p t r :
  select_one p t = None -> r ∈ t -> p r = false.
Proof. intros H Hr. apply list_elem_of_In in Hr. by eapply List.find_none. Qed.

Lemma existsb_select_one p t :
  List.existsb p t = match select_one p t with Some _ => true | None => false end.
Proof.
  unfold select_one. induction t as [|r t IH]; simpl; [done|]. by destruct (p r).
Qed.

Lemma select_one_snoc p r t :
  List.existsb p t = false -> p r = true -> select_one p (t ++ [r]) = Some r.
Proof.
  unfold select_one.
  induction t as [|x t IH]; simpl; intros H Hr; [by rewrite Hr|].
  apply orb_false_elim in H as [-> H]. auto.
Qed.

Lemma select_one_update p f t :
  (forall r, p r = true -> p (f r) = true) ->
  select_one p (update_where p f t) = f <$> select_one p t.
Proof.
  intros H. unfold select_one, update_where.
  induction t as [|r t IH]; simpl; [done|].
  destruct (p r) eqn:E; simpl; [by rewrite (H r E)|]. by rewrite E.
Qed.

(** After an upsert the key is present: the old row updated, or the new one. *)
Lemma select_one_upsert p f r t :
  (forall r, p r = true -> p (f r) = true) -> p r = true ->
  select_one p (upsert p f r t) =
    Some (match select_one p t with Some r0 => f r0 | None => r end).
Proof.
  intros H Hr. unfold upsert. rewrite existsb_select_one.
  destruct (select_one p t) as [r0|] eqn:E.
  - by rewrite select_one_update, E.
  - apply select_one_snoc; [|done]. by rewrite existsb_select_one, E.
Qed.

Lemma select_one_delete p t : select_one p (delete_where p t) = None.
Proof.
  unfold select_one, delete_where.
  induction t as [|r t IH]; simpl; [done|].
  destruct (p r) eqn:E; simpl; [done|]. by rewrite E.
Qed.

(** A lookup is unaffected by an update that keeps the predicate's verdict
    and only touches rows the predicate rejects. *)
Lemma select_one_update_out q p f t :
  (forall r, p r = true -> q r = false /\ q (f r) = false) ->
  select_one q (update_where p f t) = select_one q t.
Proof.
  intros H. unfold select_one, update_where.
  induction t as [|r t IH]; simpl; [done|].
  destruct (p r) eqn:E; simpl.
  - destruct (H r E) as [-> ->]. done.
  - destruct (q r); done.
Qed.

Lemma select_one_upsert_out q p f r t :
  (forall r, p r = true -> q r = false /\ q (f r) = false) -> q r = false ->
  select_one q (upsert p f r t) = select_one q t.
Proof.
  intros H Hr. unfold upsert. destruct (List.existsb p t).
  - by apply select_one_update_out.
  - unfold select_one. induction t as [|x t IH]; simpl; [by rewrite Hr|].
    by destruct (q x).
Qed.
End table.

Create HintDb sf discriminated.
Create Rewrite HintDb sf.
#[export] Hint Resolve seqb_refl : sf.
#[export] Hint Rewrite seqb_refl : sf.

(** Case analysis on the first boolean or option scrutinee of the goal. *)
Ltac case_if :=
  match goal with
  | |- context [if ?b then _ else _] =>
      let E := fresh "E" in destruct b eqn:E
  end.

(** Turn [(a =s b) = true/false] hypotheses into (dis)equalities. *)
Ltac seqb_simpl :=
  repeat match goal with
  | H : (_ =s _) = true |- _ => apply seqb_true in H
  | H : (_ =s _) = false |- _ => apply seqb_false in H
  | H : (_ && _)%bool = true |- _ => apply andb_prop in H; destruct H
  | H : negb _ = true |- _ => apply negb_true_iff in H
  | H : negb _ = false |- _ => apply negb_false_iff in H
  end.
