(* ===== verification/Json.v ===== *)
(** * JSON values, [encoding/json] and [fmt.Sprint]

    The [any] of the Go sources that comes out of [encoding/json] or of a
    [jsonb] column: [Json].  Two printers of the standard library decide what
    the program sees of such a value: [json.Marshal] ([marshal]), used by
    [conflict.valuesEqual] and [model.str], and [fmt.Sprint] ([sprint]), used by
    the provider adapters and by [reconcile.sameFields].

    Numbers are integers; fractions do not occur in the entities the program
    handles.  Where the program reads a number into an [any], it goes through
    [float64]: [int64_of_float] of [Connectors] does that for versions, and the
    numbers among an entity's fields are taken to be ones a [float64] represents
    exactly.
    Strings are byte strings; [marshal] passes bytes above 127 through, which is
    what the encoder does with well-formed UTF-8 (U+2028/2029 excepted). *)

From S2P Require Import Prelude.
Local Open Scope string_scope.
#[export] Set Warnings "-register-all".

Inductive Json : Type :=
| JNull
| JBool (b : bool)
| JNum (n : Z)
| JStr (s : string)
| JArr (l : list Json)
| JObj (kvs : list (string * Json)).

#[global] Instance Json_eq_dec : EqDecision Json.
Proof.
  unfold EqDecision. fix rec 1. intros a b.
  refine (match a, b with
  | JNull, JNull => left eq_refl
  | JBool x, JBool y => cast_if (decide (x = y))
  | JNum x, JNum y => cast_if (decide (x = y))
  | JStr x, JStr y => cast_if (decide (x = y))
  | JArr x, JArr y => cast_if (List.list_eq_dec rec x y)
  | JObj x, JObj y => cast_if (List.list_eq_dec
      (fun p q => match p, q with (k, v), (k', v') => cast_if_and (decide (k = k')) (rec v v') end) x y)
  | _, _ => right _
  end); clear rec; congruence.
Defined.

(** Induction with the hypothesis inside arrays and objects. *)
Section json_ind.
Context (P : Json -> Prop)
  (Hnull : P JNull) (Hbool : forall b, P (JBool b)) (Hnum : forall n, P (JNum n))
  (Hstr : forall s, P (JStr s)) (Harr : forall l, Forall P l -> P (JArr l))
  (Hobj : forall kvs, Forall (fun kv => P kv.2) kvs -> P (JObj kvs)).

Fixpoint json_ind' (j : Json) : P j :=
  match j with
  | JNull => Hnull
  | JBool b => Hbool b
  | JNum n => Hnum n
  | JStr s => Hstr s
  | JArr l =>
      Harr l ((fix go l : Forall P l :=
        match l with
        | [] => List.Forall_nil _
        | x :: l => List.Forall_cons _ x l (json_ind' x) (go l)
        end) l)
  | JObj kvs =>
      Hobj kvs ((fix go l : Forall (fun kv => P kv.2) l :=
        match l with
        | [] => List.Forall_nil _
        | x :: l => List.Forall_cons _ x l (json_ind' x.2) (go l)
        end) kvs)
  end.
End json_ind.

(** A Go [map[string]any]. *)
Abbreviation Fields := (gmap string Json).

(** [v.(map[string]any)]: the type assertion on a decoded value. *)
Definition as_object (j : Json) : option Fields :=
  match j with JObj kvs => Some (list_to_map kvs) | _ => None end.

(** [v.(string)]. *)
Definition as_string (j : Json) : option string :=
  match j with JStr s => Some s | _ => None end.

(** A map as a JSON object value. *)
Definition of_fields (m : Fields) : Json := JObj (map_to_list m).

Lemma as_object_of_fields m : as_object (of_fields m) = Some m.
Proof. unfold of_fields. simpl. by rewrite list_to_map_to_list. Qed.

(** [m[k]] on a possibly absent key: the zero value of [any] is [nil]. *)
Definition mget (m : Fields) (k : string) : Json := default JNull (m !! k).

(** ** [json.Marshal] *)

Definition hex_digit (n : N) : ascii :=
  if (n <? 10)%N then ascii_of_N (48 + n) else ascii_of_N (87 + n).

(** [\u00XY] escape of a byte. *)
Definition u00 (c : ascii) : string :=
  "\u00" +:+ String (hex_digit (N.div (N_of_ascii c) 16))
               (String (hex_digit (N.modulo (N_of_ascii c) 16)) "").

(** The encoder's string escapes, HTML escapes included (the default). *)
Definition escape_char (c : ascii) : string :=
  match N_of_ascii c with
  | 34%N => "\" +:+ String c ""
  | 92%N => "\\"
  | 8%N => "\b" | 9%N => "\t" | 10%N => "\n" | 12%N => "\f" | 13%N => "\r"
  | 60%N | 62%N | 38%N => u00 c
  | n => if (n <? 32)%N then u00 c else String c ""
  end.

Fixpoint escape (s : string) : string :=
  match s with
  | "" => ""
  | String c s => escape_char c +:+ escape s
  end.

Definition dquote : string := String "034" "".

Definition marshal_string (s : string) : string := dquote +:+ escape s +:+ dquote.

(** Object members are emitted in key order. *)
Definition key_leb {A} (x y : string * A) : bool := String.leb x.1 y.1.

Fixpoint marshal (j : Json) : string :=
  match j with
  | JNull => "null"
  | JBool b => if b then "true" else "false"
  | JNum n => pretty n
  | JStr s => marshal_string s
  | JArr l => "[" +:+ str_join "," (List.map marshal l) +:+ "]"
  | JObj kvs =>
      "{" +:+ str_join ","
        (List.map (fun kv => marshal_string kv.1 +:+ ":" +:+ kv.2)
           (isort key_leb (List.map (fun kv => (kv.1, marshal kv.2)) kvs))) +:+ "}"
  end.

(** ** [fmt.Sprint] of one operand *)

(** Drop the trailing zeros of a decimal mantissa. *)
Fixpoint trim_zeros (s : string) : string :=
  match s with
  | "" => ""
  | String c s' =>
      match trim_zeros s' with
      | "" => if Ascii.eqb c "0" then "" else String c ""
      | t => String c t
      end
  end.

(** [%v] of an integral [float64] is the shortest [%g]: scientific notation as
    soon as the decimal exponent reaches 6, i.e. from one million on. *)
Definition sprint_num (n : Z) : string :=
  let d := pretty (Z.abs_N n) in
  let e := (String.length d - 1)%nat in
  let sign := if (n <? 0)%Z then "-" else "" in
  if (e <? 6)%nat then sign +:+ d
  else
    match trim_zeros d with
    | "" => sign +:+ d
    | String c rest =>
        sign +:+ String c (if rest =s "" then "" else "." +:+ rest) +:+ "e+" +:+
        (if (e <? 10)%nat then "0" else "") +:+ pretty e
    end.

Fixpoint sprint (j : Json) : string :=
  match j with
  | JNull => "<nil>"
  | JBool b => if b then "true" else "false"
  | JNum n => sprint_num n
  | JStr s => s
  | JArr l => "[" +:+ str_join " " (List.map sprint l) +:+ "]"
  | JObj kvs =>
      "map[" +:+ str_join " "
        (List.map (fun kv => kv.1 +:+ ":" +:+ kv.2)
           (isort key_leb (List.map (fun kv => (kv.1, sprint kv.2)) kvs))) +:+ "]"
  end.

Example sprint_small : sprint (JNum 555123) = "555123".
Proof. vm_compute. reflexivity. Qed.
Example sprint_large : sprint (JNum 5551234567) = "5.551234567e+09".
Proof. vm_compute. reflexivity. Qed.
Example marshal_obj :
  marshal (JObj [("b", JNum 2); ("a", JStr "x<y")])
  = "{" +:+ dquote +:+ "a" +:+ dquote +:+ ":" +:+ dquote +:+ "x\u003cy" +:+ dquote +:+ ","
    +:+ dquote +:+ "b" +:+ dquote +:+ ":2}".
Proof. vm_compute. reflexivity. Qed.

(** ** Facts *)

#[local] Arguments String.append !_ _ /.

(** One escaped byte can be read back: the escapes form a prefix code. *)
Definition unescape1 (s : string) : option (ascii * string) :=
  match s with
  | String "092" (String "u" (String _ (String _ (String h (String l r))))) =>
      let v (c : ascii) := let n := N_of_ascii c in
        if (n <? 58)%N then (n - 48)%N else (n - 87)%N in
      Some (ascii_of_N (16 * v h + v l), r)
  | String "092" (String c r) =>
      Some (match N_of_ascii c with
            | 98%N => "008" | 116%N => "009" | 110%N => "010"
            | 102%N => "012" | 114%N => "013" | _ => c end%char, r)
  | String c r => Some (c, r)
  | "" => None
  end.

Lemma str_app_assoc (a b c : string) : (a +:+ b) +:+ c = a +:+ b +:+ c.
Proof. induction a as [|x a IH]; simpl; [done|]. by rewrite IH. Qed.

Lemma str_app_nil_r (a : string) : a +:+ "" = a.
Proof. induction a as [|x a IH]; simpl; [done|]. by rewrite IH. Qed.

Lemma str_app_inj_l (a b c : string) : a +:+ b = a +:+ c -> b = c.
Proof. induction a as [|x a IH]; simpl; [done|]. intros [= ?]. auto. Qed.

Lemma unescape1_escape c r : unescape1 (escape_char c +:+ r) = Some (c, r).
Proof. destruct c as [[] [] [] [] [] [] [] []]; reflexivity. Qed.

Lemma escape_inj s1 s2 : escape s1 = escape s2 -> s1 = s2.
Proof.
  revert s2. induction s1 as [|c1 s1 IH]; intros [|c2 s2]; simpl; intros H; [done|..].
  - pose proof (unescape1_escape c2 (escape s2)) as E. by rewrite <- H in E.
  - pose proof (unescape1_escape c1 (escape s1)) as E. by rewrite H in E.
  - pose proof (unescape1_escape c1 (escape s1)) as E1.
    rewrite H, unescape1_escape in E1. injection E1 as -> E1. by rewrite (IH s2).
Qed.

Lemma str_length_app (a b : string) :
  String.length (a +:+ b) = (String.length a + String.length b)%nat.
Proof. induction a as [|x a IH]; simpl; [done|]. by rewrite IH. Qed.

Lemma str_app_inj_r (a b c : string) : a +:+ c = b +:+ c -> a = b.
Proof.
  revert b. induction a as [|x a IH]; intros [|y b]; simpl; [done|..].
  - intros H. apply (f_equal String.length) in H. simpl in H.
    rewrite str_length_app in H. lia.
  - intros H. apply (f_equal String.length) in H. simpl in H.
    rewrite str_length_app in H. lia.
  - intros [= -> H]. by rewrite (IH b H).
Qed.

(** Marshalling is injective on strings: no two different string values of a
    field are ever compared equal. *)
Lemma marshal_string_inj s1 s2 : marshal (JStr s1) = marshal (JStr s2) -> s1 = s2.
Proof.
  simpl. unfold marshal_string. intros H.
  apply str_app_inj_l in H. apply str_app_inj_r in H. by apply escape_inj.
Qed.
