(* ===== verification/GoTime.v ===== *)
(** * [time.Time]: instants and their RFC 3339 text

    An instant is its number of nanoseconds since the Unix epoch; Go's zero
    [time.Time] is [time_zero].  [time_marshal] is [Time.MarshalJSON] for a UTC
    instant ([RFC3339Nano], an error outside the years 0..9999) and [time_parse]
    is the strict RFC 3339 parser behind [Time.UnmarshalJSON].  Both are used
    for every event and every provenance entry that goes through a [jsonb]
    column, so their round trip is what makes the retry queue faithful. *)

From S2P Require Import Prelude Json.
Local Open Scope string_scope.
Local Open Scope Z_scope.

#[local] Arguments String.append !_ _ /.

(** ** Civil dates: days since 1970-01-01 and back *)

Definition yoe_of (doe : Z) : Z :=
  (doe - doe / 1460 + doe / 36524 - doe / 146096) / 365.

Definition doy_of (doe : Z) : Z :=
  doe - (365 * yoe_of doe + yoe_of doe / 4 - yoe_of doe / 100).

(** Month and day of a day of the (March-based) era year. *)
Definition month_of (doe : Z) : Z :=
  let mp := (5 * doy_of doe + 2) / 153 in if mp <? 10 then mp + 3 else mp - 9.

Definition day_of (doe : Z) : Z :=
  let mp := (5 * doy_of doe + 2) / 153 in doy_of doe - (153 * mp + 2) / 5 + 1.

Definition civil_from_days (days : Z) : Z * Z * Z :=
  let z := days + 719468 in
  let era := z / 146097 in
  let doe := z mod 146097 in
  let m := month_of doe in
  (yoe_of doe + era * 400 + (if m <=? 2 then 1 else 0), m, day_of doe).

Definition days_from_civil (y m d : Z) : Z :=
  let y' := if m <=? 2 then y - 1 else y in
  let era := y' / 400 in
  let yoe := y' mod 400 in
  let doy := (153 * (if 2 <? m then m - 3 else m + 9) + 2) / 5 + d - 1 in
  era * 146097 + (yoe * 365 + yoe / 4 - yoe / 100 + doy) - 719468.

Definition is_leap (y : Z) : bool :=
  (y mod 4 =? 0) && (negb (y mod 100 =? 0) || (y mod 400 =? 0)).

Definition days_in (y m : Z) : Z :=
  if m =? 2 then (if is_leap y then 29 else 28)
  else if (m =? 4) || (m =? 6) || (m =? 9) || (m =? 11) then 30 else 31.

(** What has to hold of one day of the 400-year era. *)
Definition era_day_ok (doe : Z) : Prop :=
  let m := month_of doe in
  let y := yoe_of doe in
  0 <= y < 400 /\ 1 <= m <= 12 /\
  1 <= day_of doe <= days_in (y + (if m <=? 2 then 1 else 0)) m /\
  y * 365 + y / 4 - y / 100 +
    ((153 * (if 2 <? m then m - 3 else m + 9) + 2) / 5 + day_of doe - 1) = doe.

(** First day of a year of the era; the era ends after year 399. *)
Definition year_start (y : Z) : Z := y * 365 + y / 4 - y / 100.
Definition year_end (y : Z) : Z := if y =? 399 then 146097 else year_start (y + 1).

(** The [n] integers from 0 on. *)
Definition upto (n : nat) : list Z := List.map Z.of_nat (List.seq 0 n).

Lemma upto_spec n (p : Z -> bool) :
  List.forallb p (upto n) = true -> forall i, 0 <= i < Z.of_nat n -> p i = true.
Proof.
  intros H i Hi. rewrite List.forallb_forall in H. apply H, List.in_map_iff.
  exists (Z.to_nat i). split; [lia|]. apply List.in_seq. lia.
Qed.

(** The year formula is exact at both ends of each of the 400 years, and a year
    has a 366th day exactly when it is a leap year. *)
Lemma year_bounds y :
  0 <= y < 400 ->
  yoe_of (year_start y) = y /\ yoe_of (year_end y - 1) = y /\
  (year_end y - year_start y = if is_leap (y + 1) then 366 else 365).
Proof.
  intros H.
  pose proof (upto_spec 400 (fun y => (yoe_of (year_start y) =? y) &&
     (yoe_of (year_end y - 1) =? y) &&
     (year_end y - year_start y =? if is_leap (y + 1) then 366 else 365))
     ltac:(vm_compute; reflexivity) y ltac:(lia)) as E.
  cbv beta in E. rewrite !andb_true_iff, !Z.eqb_eq in E. tauto.
Qed.

Lemma yoe_mono a b : 0 <= a <= b -> yoe_of a <= yoe_of b.
Proof.
  intros H. unfold yoe_of. apply Z.div_le_mono; [lia|].
  change 146096 with (36524 * 4). rewrite <- !Z.div_div by lia.
  pose proof (Z.div_le_mono a b 36524 ltac:(lia) ltac:(lia)).
  assert (b / 1460 - a / 1460 <= b - a) by (Z.div_mod_to_equations; lia).
  assert (forall p q, p <= q -> p - p / 4 <= q - q / 4) as M
    by (intros; Z.div_mod_to_equations; lia).
  specialize (M _ _ H0). lia.
Qed.

Lemma era_year doe :
  0 <= doe < 146097 -> exists y, 0 <= y < 400 /\ year_start y <= doe < year_end y.
Proof.
  intros H.
  assert (forall n : nat, (n <= 400)%nat -> doe < year_end (Z.of_nat n - 1) ->
    exists y, 0 <= y < Z.of_nat n /\ year_start y <= doe < year_end y) as G.
  { induction n as [|n IH]; intros Hn Hd; [change (year_end (Z.of_nat 0 - 1)) with 0 in Hd; lia|].
    replace (Z.of_nat (S n) - 1) with (Z.of_nat n) in Hd by lia.
    destruct (Z_lt_le_dec doe (year_start (Z.of_nat n))) as [Hlt|Hle].
    - destruct IH as (y & ? & ?); [lia| |exists y; split; lia].
      unfold year_end. destruct (Z.eqb_spec (Z.of_nat n - 1) 399) as [E|E]; [lia|].
      by replace (Z.of_nat n - 1 + 1) with (Z.of_nat n) by lia.
    - exists (Z.of_nat n). lia. }
  destruct (G 400%nat) as (y & Hy); [lia|change (year_end (Z.of_nat 400 - 1)) with 146097; lia|]. exists y. lia.
Qed.

Lemma yoe_unique doe y :
  0 <= y < 400 -> year_start y <= doe < year_end y -> yoe_of doe = y.
Proof.
  intros Hy H. destruct (year_bounds y Hy) as (E1 & E2 & _).
  assert (0 <= year_start y) by (unfold year_start; Z.div_mod_to_equations; lia).
  pose proof (yoe_mono (year_start y) doe ltac:(lia)).
  pose proof (yoe_mono doe (year_end y - 1) ltac:(lia)). lia.
Qed.

(** The month and day of the [doy]-th day of a March-based year. *)
Lemma doy_ok doy :
  0 <= doy < 366 ->
  let mp := (5 * doy + 2) / 153 in
  let m := if mp <? 10 then mp + 3 else mp - 9 in
  let d := doy - (153 * mp + 2) / 5 + 1 in
  1 <= m <= 12 /\ 1 <= d /\ d <= (if m =? 2 then if doy =? 365 then 29 else 28 else days_in 0 m) /\
  (153 * (if 2 <? m then m - 3 else m + 9) + 2) / 5 + d - 1 = doy /\
  (doy = 365 -> m = 2).
Proof.
  intros H.
  pose proof (upto_spec 366 (fun doy =>
    let mp := (5 * doy + 2) / 153 in
    let m := if mp <? 10 then mp + 3 else mp - 9 in
    let d := doy - (153 * mp + 2) / 5 + 1 in
    (1 <=? m) && (m <=? 12) && (1 <=? d) &&
    (d <=? if m =? 2 then if doy =? 365 then 29 else 28 else days_in 0 m) &&
    ((153 * (if 2 <? m then m - 3 else m + 9) + 2) / 5 + d - 1 =? doy) &&
    (negb (doy =? 365) || (m =? 2))) ltac:(vm_compute; reflexivity) doy ltac:(lia)) as E.
  cbv beta zeta in E |- *.
  rewrite !andb_true_iff, orb_true_iff, negb_true_iff, !Z.leb_le, !Z.eqb_eq, Z.eqb_neq in E.
  intuition lia.
Qed.

Lemma era_ok doe : 0 <= doe < 146097 -> era_day_ok doe.
Proof.
  intros H. destruct (era_year doe H) as (y & Hy & Hd).
  destruct (year_bounds y Hy) as (_ & _ & Hlen).
  unfold era_day_ok, month_of, day_of, doy_of.
  rewrite (yoe_unique doe y Hy Hd).
  set (doy := doe - (365 * y + y / 4 - y / 100)).
  assert (doe = year_start y + doy) as Hdoy by (unfold year_start, doy; lia).
  assert (0 <= doy < if is_leap (y + 1) then 366 else 365) as Hl by lia.
  assert (0 <= doy < 366) as Hr by (destruct (is_leap (y + 1)); lia).
  destruct (doy_ok doy Hr) as (M1 & M2 & M3 & M4 & M5). cbv zeta in *.
  set (mp := (5 * doy + 2) / 153) in *.
  set (m := if mp <? 10 then mp + 3 else mp - 9) in *.
  repeat split; [lia..| |unfold year_start in Hdoy; lia].
  unfold days_in in *. destruct (Z.eqb_spec m 2) as [E2|E2]; [|done].
  rewrite E2. change (2 <=? 2) with true. cbv iota.
  destruct (Z.eqb_spec doy 365), (is_leap (y + 1)); lia.
Qed.

Lemma is_leap_era y e : is_leap (y + e * 400) = is_leap y.
Proof.
  unfold is_leap.
  replace ((y + e * 400) mod 4) with (y mod 4) by (Z.div_mod_to_equations; lia).
  replace ((y + e * 400) mod 100) with (y mod 100) by (Z.div_mod_to_equations; lia).
  by rewrite Z_mod_plus_full.
Qed.

Lemma civil_roundtrip days :
  let '(y, m, d) := civil_from_days days in
  days_from_civil y m d = days /\ 1 <= m <= 12 /\ 1 <= d <= days_in y m.
Proof.
  unfold civil_from_days, days_from_civil.
  set (z := days + 719468). set (doe := z mod 146097). set (era := z / 146097).
  assert (0 <= doe < 146097) as Hr by (apply Z.mod_pos_bound; lia).
  destruct (era_ok doe Hr) as (Ey & Em & Ed & Ee).
  assert (z = era * 146097 + doe) as Hz
    by (unfold era, doe; pose proof (Z.div_mod z 146097); lia).
  split; [|split; [lia|]].
  - set (y := yoe_of doe + era * 400).
    assert ((if month_of doe <=? 2 then (y + (if month_of doe <=? 2 then 1 else 0)) - 1
             else y + (if month_of doe <=? 2 then 1 else 0)) = y) as ->
      by (destruct (month_of doe <=? 2); lia).
    assert (y / 400 = era) as -> by (unfold y; Z.div_mod_to_equations; lia).
    assert (y mod 400 = yoe_of doe) as -> by (unfold y; Z.div_mod_to_equations; lia).
    lia.
  - split; [lia|].
    replace (yoe_of doe + era * 400 + (if month_of doe <=? 2 then 1 else 0))
      with ((yoe_of doe + (if month_of doe <=? 2 then 1 else 0)) + era * 400) by lia.
    unfold days_in in *. rewrite is_leap_era. lia.
Qed.

(** ** Fixed-width decimal digits *)

Definition digit (d : Z) : ascii := ascii_of_N (48 + Z.to_N d).

Definition digit_val (c : ascii) : option Z :=
  let n := N_of_ascii c in
  if (48 <=? n)%N && (n <=? 57)%N then Some (Z.of_N n - 48) else None.

Lemma digit_val_digit d : 0 <= d < 10 -> digit_val (digit d) = Some d.
Proof.
  intros H.
  assert (d = 0 \/ d = 1 \/ d = 2 \/ d = 3 \/ d = 4 \/ d = 5 \/ d = 6 \/ d = 7 \/ d = 8 \/ d = 9)
    as Hd by lia.
  repeat (destruct Hd as [->|Hd]; [reflexivity|]). subst. reflexivity.
Qed.

Fixpoint digits (w : nat) (n : Z) : string :=
  match w with
  | O => ""
  | S w => String (digit ((n / 10 ^ Z.of_nat w) mod 10)) (digits w n)
  end.

Fixpoint parse_digits (w : nat) (acc : Z) (s : string) : option (Z * string) :=
  match w, s with
  | O, _ => Some (acc, s)
  | S w, String c s => d ← digit_val c; parse_digits w (10 * acc + d) s
  | S _, "" => None
  end.

Lemma mod_pow10_succ n w :
  n mod 10 ^ Z.of_nat (S w)
  = (n / 10 ^ Z.of_nat w) mod 10 * 10 ^ Z.of_nat w + n mod 10 ^ Z.of_nat w.
Proof.
  rewrite Nat2Z.inj_succ, Z.pow_succ_r by lia.
  rewrite (Z.mul_comm 10), Z.rem_mul_r by lia. lia.
Qed.

Lemma parse_digits_digits w acc n r :
  parse_digits w acc (digits w n +:+ r)
  = Some (acc * 10 ^ Z.of_nat w + n mod 10 ^ Z.of_nat w, r).
Proof.
  revert acc. induction w as [|w IH]; intros acc.
  - simpl. rewrite Z.mod_1_r. do 2 f_equal. lia.
  - cbn [digits parse_digits]. simpl String.append. cbn [parse_digits].
    rewrite digit_val_digit by (apply Z.mod_pos_bound; lia).
    simpl. rewrite IH, mod_pow10_succ.
    rewrite Nat2Z.inj_succ, Z.pow_succ_r by lia. do 2 f_equal. lia.
Qed.

Lemma parse_digits_small w n r :
  0 <= n < 10 ^ Z.of_nat w -> parse_digits w 0 (digits w n +:+ r) = Some (n, r).
Proof. intros H. rewrite parse_digits_digits, Z.mod_small by done. done. Qed.

(** ** Fractional seconds *)

Definition frac (ns : Z) : string :=
  if ns =? 0 then "" else String "." (trim_zeros (digits 9 ns)).

(** Digits after the point, most significant first; digits beyond the ninth
    weigh nothing. *)
Fixpoint parse_frac (weight acc : Z) (s : string) : Z * string :=
  match s with
  | "" => (acc, "")
  | String c s' =>
      match digit_val c with
      | Some d => parse_frac (weight / 10) (acc + d * weight) s'
      | None => (acc, s)
      end
  end.

Definition weight (k : nat) : Z := 10 ^ Z.of_nat k / 10.

Definition no_digit (s : string) : Prop :=
  match s with "" => True | String c _ => digit_val c = None end.

Lemma parse_frac_stop w acc r : no_digit r -> parse_frac w acc r = (acc, r).
Proof. destruct r as [|c r]; simpl; [done|]. by intros ->. Qed.

Lemma weight_succ k : weight (S k) = 10 ^ Z.of_nat k /\ weight (S k) / 10 = weight k.
Proof.
  unfold weight. rewrite Nat2Z.inj_succ, Z.pow_succ_r by lia.
  rewrite (Z.mul_comm 10), Z.div_mul by lia. done.
Qed.

Lemma digit_zero_iff d : 0 <= d < 10 -> Ascii.eqb (digit d) "0" = (d =? 0).
Proof.
  intros H.
  assert (d = 0 \/ d = 1 \/ d = 2 \/ d = 3 \/ d = 4 \/ d = 5 \/ d = 6 \/ d = 7 \/ d = 8 \/ d = 9)
    as Hd by lia.
  repeat (destruct Hd as [->|Hd]; [reflexivity|]). subst. reflexivity.
Qed.

Lemma parse_frac_trim k acc n r :
  no_digit r ->
  parse_frac (weight k) acc (trim_zeros (digits k n) +:+ r)
  = (acc + n mod 10 ^ Z.of_nat k, r).
Proof.
  intros Hr. revert acc. induction k as [|k IH]; intros acc.
  - simpl. rewrite Z.mod_1_r, parse_frac_stop by done. f_equal. lia.
  - cbn [digits trim_zeros]. rewrite mod_pow10_succ.
    set (d := (n / 10 ^ Z.of_nat k) mod 10).
    assert (0 <= d < 10) as Hd by (apply Z.mod_pos_bound; lia).
    destruct (weight_succ k) as [W1 W2].
    destruct (trim_zeros (digits k n)) as [|c t] eqn:E.
    + specialize (IH 0). simpl in IH. rewrite parse_frac_stop in IH by done.
      injection IH as IH. rewrite digit_zero_iff by done.
      destruct (Z.eqb_spec d 0) as [->|]; simpl.
      * rewrite parse_frac_stop by done. f_equal. lia.
      * rewrite digit_val_digit by done. rewrite parse_frac_stop by done.
        f_equal. rewrite W1. lia.
    + change (String (digit d) (String c t) +:+ r)
        with (String (digit d) (String c t +:+ r)).
      cbn [parse_frac]. rewrite digit_val_digit by done.
      rewrite W2, IH, W1. f_equal. lia.
Qed.

(** ** RFC 3339 *)

Definition time_zero : Z := -62135596800 * 10 ^ 9.

Definition time_marshal (t : Z) : option string :=
  let s := t / 10 ^ 9 in
  let ns := t mod 10 ^ 9 in
  let sod := s mod 86400 in
  let '(y, m, d) := civil_from_days (s / 86400) in
  if (0 <=? y) && (y <=? 9999) then
    Some (digits 4 y +:+ "-" +:+ digits 2 m +:+ "-" +:+ digits 2 d +:+ "T" +:+
          digits 2 (sod / 3600) +:+ ":" +:+ digits 2 (sod / 60 mod 60) +:+ ":" +:+
          digits 2 (sod mod 60) +:+ frac ns +:+ "Z")
  else None.

Definition expect (c : ascii) (s : string) : option string :=
  match s with String c' s => if Ascii.eqb c c' then Some s else None | "" => None end.

(** The zone: [Z] or a numeric offset, in seconds east of UTC. *)
Definition parse_zone (s : string) : option Z :=
  match s with
  | "Z" => Some 0
  | String c s =>
      sign ← (if Ascii.eqb c "+" then Some 1 else if Ascii.eqb c "-" then Some (-1) else None);
      '(h, s) ← parse_digits 2 0 s;
      s ← expect ":" s;
      '(mi, s) ← parse_digits 2 0 s;
      if (h <=? 24) && (mi <? 60) && (s =s "") then Some (sign * (h * 3600 + mi * 60)) else None
  | "" => None
  end.

Definition time_parse (s : string) : option Z :=
  '(y, s) ← parse_digits 4 0 s; s ← expect "-" s;
  '(m, s) ← parse_digits 2 0 s; s ← expect "-" s;
  '(d, s) ← parse_digits 2 0 s; s ← expect "T" s;
  '(h, s) ← parse_digits 2 0 s; s ← expect ":" s;
  '(mi, s) ← parse_digits 2 0 s; s ← expect ":" s;
  '(sec, s) ← parse_digits 2 0 s;
  let '(ns, s) :=
    match expect "." s with
    | Some s' => parse_frac (10 ^ 8) 0 s'
    | None => (0, s)
    end in
  off ← parse_zone s;
  if (1 <=? m) && (m <=? 12) && (1 <=? d) && (d <=? days_in y m) &&
     (h <? 24) && (mi <? 60) && (sec <? 60)
  then Some ((days_from_civil y m d * 86400 + h * 3600 + mi * 60 + sec - off) * 10 ^ 9 + ns)
  else None.

Lemma expect_app c s : expect c (String c "" +:+ s) = Some s.
Proof. unfold expect. simpl. by rewrite Ascii.eqb_refl. Qed.

Lemma some_bind {A B} (x : A) (f : A -> option B) : Some x ≫= f = f x.
Proof. done. Qed.

(** The time of every marshalled instant reads back exactly. *)
Lemma time_roundtrip t s : time_marshal t = Some s -> time_parse s = Some t.
Proof.
  unfold time_marshal. set (sec := t / 10 ^ 9). set (ns := t mod 10 ^ 9).
  pose proof (civil_roundtrip (sec / 86400)) as HC.
  destruct (civil_from_days (sec / 86400)) as [[y m] d].
  destruct HC as (HC & Hm & Hd).
  assert (days_in y m <= 31) as H31
    by (unfold days_in; repeat case_match; lia).
  destruct ((0 <=? y) && (y <=? 9999))%bool eqn:E; [|done]. intros <-%(inj Some).
  apply andb_prop in E as [E1%Z.leb_le E2%Z.leb_le].
  assert (0 <= sec mod 86400 < 86400) as Hs by (apply Z.mod_pos_bound; lia).
  assert (0 <= ns < 10 ^ 9) as Hns by (apply Z.mod_pos_bound; lia).
  set (sod := sec mod 86400) in *.
  assert (0 <= sod / 3600 < 24) as H1 by (Z.div_mod_to_equations; lia).
  assert (0 <= sod / 60 mod 60 < 60) as H2 by (apply Z.mod_pos_bound; lia).
  assert (0 <= sod mod 60 < 60) as H3 by (apply Z.mod_pos_bound; lia).
  assert (sod / 3600 * 3600 + sod / 60 mod 60 * 60 + sod mod 60 = sod) as HS
    by (Z.div_mod_to_equations; lia).
  unfold time_parse.
  do 6 (rewrite parse_digits_small, some_bind by (simpl Z.of_nat; lia); cbv beta iota;
        try (rewrite expect_app, some_bind; cbv beta iota)).
  assert ((match expect "." (frac ns +:+ "Z") with
           | Some s' => parse_frac (10 ^ 8) 0 s'
           | None => (0, frac ns +:+ "Z") end) = (ns, "Z")) as ->.
  { unfold frac. destruct (Z.eqb_spec ns 0) as [->|]; [done|].
    change (String "." (trim_zeros (digits 9 ns)) +:+ "Z")
      with (String "." "" +:+ (trim_zeros (digits 9 ns) +:+ "Z")).
    rewrite expect_app. change (10 ^ 8) with (weight 9).
    rewrite parse_frac_trim by done. rewrite Z.mod_small by (simpl Z.of_nat; lia). done. }
  cbv beta iota. change (parse_zone "Z") with (Some 0). rewrite some_bind.
  repeat match goal with |- context [(?a <=? ?b)] =>
    replace (a <=? b) with true by (symmetry; apply Z.leb_le; lia) end.
  repeat match goal with |- context [(?a <? ?b)] =>
    replace (a <? b) with true by (symmetry; apply Z.ltb_lt; lia) end.
  simpl andb. cbv iota. f_equal. rewrite HC.
  pose proof (Z.div_mod sec 86400 ltac:(lia)). pose proof (Z.div_mod t (10 ^ 9) ltac:(lia)).
  unfold sod, ns, sec in *. lia.
Qed.

Example time_zero_text : time_marshal time_zero = Some "0001-01-01T00:00:00Z".
Proof. vm_compute. reflexivity. Qed.
Example time_offset_text : time_parse "2024-02-29T12:30:00.25+02:00" = Some (1709202600250000000).
Proof. vm_compute. reflexivity. Qed.
