(* ===== verification/Crypto.v ===== *)
(** * [crypto/sha256], [crypto/sha1], [crypto/hmac], [encoding/hex]

    The hash functions of the Go standard library that the program calls: for
    the loop-prevention fingerprint ([model.Customer.Fingerprint]), for API keys
    and backup codes, for webhook and session signatures ([HMAC-SHA256]) and for
    TOTP codes ([HMAC-SHA1]).  They are executable definitions on byte lists,
    checked against published test vectors below; nothing is assumed about them,
    and a theorem that needs collision freedom says so. *)

From S2P Require Import Prelude Json.
Local Open Scope Z_scope.

Definition mask32 : Z := 4294967295.
Definition add32 (a b : Z) : Z := Z.land (a + b) mask32.
Definition shr (n x : Z) : Z := Z.shiftr x n.
Definition rotr (n x : Z) : Z :=
  Z.lor (Z.shiftr x n) (Z.land (Z.shiftl x (32 - n)) mask32).
Definition rotl (n x : Z) : Z := rotr (32 - n) x.
Definition not32 (x : Z) : Z := Z.lxor x mask32.

(** ** Bytes *)

Fixpoint bytes_of_string (s : string) : list Z :=
  match s with
  | EmptyString => []
  | String c s => Z.of_N (N_of_ascii c) :: bytes_of_string s
  end.

Fixpoint string_of_bytes (l : list Z) : string :=
  match l with
  | [] => EmptyString
  | b :: l => String (ascii_of_N (Z.to_N b)) (string_of_bytes l)
  end.

(** [n] big-endian bytes of [x]. *)
Fixpoint be_bytes (n : nat) (x : Z) : list Z :=
  match n with
  | O => []
  | S n => Z.land (Z.shiftr x (8 * Z.of_nat n)) 255 :: be_bytes n x
  end.

(** Big-endian 32-bit words of a byte list. *)
Fixpoint be_words (l : list Z) : list Z :=
  match l with
  | a :: b :: c :: d :: l =>
      Z.lor (Z.shiftl a 24) (Z.lor (Z.shiftl b 16) (Z.lor (Z.shiftl c 8) d)) :: be_words l
  | _ => []
  end.

(** Merkle-Damgard padding to 64-byte blocks. *)
Definition md_pad (msg : list Z) : list Z :=
  let n := length msg in
  msg ++ [128] ++ repeat 0 ((119 - n `mod` 64) `mod` 64)%nat ++ be_bytes 8 (8 * Z.of_nat n).

(** The 64-byte blocks of a padded message; [fuel] bounds their number. *)
Fixpoint blocks (fuel : nat) (l : list Z) : list (list Z) :=
  match fuel, l with
  | S fuel, _ :: _ => take 64 l :: blocks fuel (drop 64 l)
  | _, _ => []
  end.

Definition nth_word (l : list Z) (i : nat) : Z := nth i l 0.

(** ** SHA-256 (FIPS 180-4) *)

Definition sha256_k : list Z := [
  1116352408; 1899447441; 3049323471; 3921009573; 961987163; 1508970993; 2453635748; 2870763221;
  3624381080; 310598401; 607225278; 1426881987; 1925078388; 2162078206; 2614888103; 3248222580;
  3835390401; 4022224774; 264347078; 604807628; 770255983; 1249150122; 1555081692; 1996064986;
  2554220882; 2821834349; 2952996808; 3210313671; 3336571891; 3584528711; 113926993; 338241895;
  666307205; 773529912; 1294757372; 1396182291; 1695183700; 1986661051; 2177026350; 2456956037;
  2730485921; 2820302411; 3259730800; 3345764771; 3516065817; 3600352804; 4094571909; 275423344;
  430227734; 506948616; 659060556; 883997877; 958139571; 1322822218; 1537002063; 1747873779;
  1955562222; 2024104815; 2227730452; 2361852424; 2428436474; 2756734187; 3204031479; 3329325298].

Definition sha256_init : list Z := [
  1779033703; 3144134277; 1013904242; 2773480762; 1359893119; 2600822924; 528734635; 1541459225].

(** One round: the working variables and the sliding 16-word schedule. *)
Definition sha256_round (st : list Z * list Z) (k : Z) : list Z * list Z :=
  let '(v, w) := st in
  match v with
  | [a; b; c; d; e; f; g; h] =>
      let w0 := nth_word w 0 in
      let s1 := Z.lxor (rotr 6 e) (Z.lxor (rotr 11 e) (rotr 25 e)) in
      let ch := Z.lxor (Z.land e f) (Z.land (not32 e) g) in
      let t1 := add32 (add32 (add32 h s1) (add32 ch k)) w0 in
      let s0 := Z.lxor (rotr 2 a) (Z.lxor (rotr 13 a) (rotr 22 a)) in
      let maj := Z.lxor (Z.land a b) (Z.lxor (Z.land a c) (Z.land b c)) in
      let w1 := nth_word w 1 in
      let w14 := nth_word w 14 in
      let g0 := Z.lxor (rotr 7 w1) (Z.lxor (rotr 18 w1) (shr 3 w1)) in
      let g1 := Z.lxor (rotr 17 w14) (Z.lxor (rotr 19 w14) (shr 10 w14)) in
      let w16 := add32 (add32 g1 (nth_word w 9)) (add32 g0 w0) in
      ([add32 t1 (add32 s0 maj); a; b; c; add32 d t1; e; f; g], drop 1 w ++ [w16])
  | _ => st
  end.

Definition sha256_block (h : list Z) (block : list Z) : list Z :=
  zip_with add32 h (foldl sha256_round (h, be_words block) sha256_k).1.

Definition sha256 (msg : list Z) : list Z :=
  let p := md_pad msg in
  mbind (be_bytes 4) (foldl sha256_block sha256_init (blocks (length p) p)).

(** ** SHA-1 *)

Definition sha1_init : list Z := [1732584193; 4023233417; 2562383102; 271733878; 3285377520].

Definition sha1_round (st : list Z * list Z) (t : nat) : list Z * list Z :=
  let '(v, w) := st in
  match v with
  | [a; b; c; d; e] =>
      let '(f, k) :=
        if (t <? 20)%nat then (Z.lor (Z.land b c) (Z.land (not32 b) d), 1518500249)
        else if (t <? 40)%nat then (Z.lxor b (Z.lxor c d), 1859775393)
        else if (t <? 60)%nat then
          (Z.lor (Z.land b c) (Z.lor (Z.land b d) (Z.land c d)), 2400959708)
        else (Z.lxor b (Z.lxor c d), 3395469782) in
      let w0 := nth_word w 0 in
      let tmp := add32 (add32 (rotl 5 a) f) (add32 (add32 e k) w0) in
      let w16 := rotl 1 (Z.lxor (nth_word w 13) (Z.lxor (nth_word w 8)
                   (Z.lxor (nth_word w 2) w0))) in
      ([tmp; a; rotl 30 b; c; d], drop 1 w ++ [w16])
  | _ => st
  end.

Definition sha1_block (h : list Z) (block : list Z) : list Z :=
  zip_with add32 h (foldl sha1_round (h, be_words block) (seq 0 80)).1.

Definition sha1 (msg : list Z) : list Z :=
  let p := md_pad msg in
  mbind (be_bytes 4) (foldl sha1_block sha1_init (blocks (length p) p)).

(** ** HMAC (RFC 2104) over a hash with 64-byte blocks *)

Definition hmac (hash : list Z -> list Z) (key msg : list Z) : list Z :=
  let key := if (64 <? length key)%nat then hash key else key in
  let key := key ++ repeat 0 (64 - length key) in
  hash (List.map (Z.lxor 92) key ++ hash (List.map (Z.lxor 54) key ++ msg)).

(** ** [encoding/hex] *)

Fixpoint hex_encode (l : list Z) : string :=
  match l with
  | [] => EmptyString
  | b :: l =>
      String (hex_digit (Z.to_N (b / 16))) (String (hex_digit (Z.to_N (b mod 16))) (hex_encode l))
  end.

Definition hex_val (c : ascii) : option Z :=
  let n := Z.of_N (N_of_ascii c) in
  if (48 <=? n) && (n <=? 57) then Some (n - 48)
  else if (97 <=? n) && (n <=? 102) then Some (n - 87)
  else if (65 <=? n) && (n <=? 70) then Some (n - 55)
  else None.

Fixpoint hex_decode (s : string) : option (list Z) :=
  match s with
  | EmptyString => Some []
  | String a (String b s) =>
      x ← hex_val a; y ← hex_val b; l ← hex_decode s; Some (16 * x + y :: l)
  | _ => None
  end.

(** [hex.EncodeToString(sha256.Sum256([]byte(s)))]. *)
Definition sha256_hex (s : string) : string := hex_encode (sha256 (bytes_of_string s)).

(** ** Test vectors *)

Example sha256_abc : sha256_hex "abc"
  = "ba7816bf8f01cfea414140de5dae2223b00361a396177a9cb410ff61f20015ad"%string.
Proof. vm_compute. reflexivity. Qed.

Example sha1_abc : hex_encode (sha1 (bytes_of_string "abc"))
  = "a9993e364706816aba3e25717850c26c9cd0d89d"%string.
Proof. vm_compute. reflexivity. Qed.

Example hmac_sha256_rfc4231_2 :
  hex_encode (hmac sha256 (bytes_of_string "Jefe") (bytes_of_string "what do ya want for nothing?"))
  = "5bdcc146bf60754e6a042426089575c75a003f089d2739839dec58b964ec3843"%string.
Proof. vm_compute. reflexivity. Qed.

(** ** Facts *)

Definition is_byte (b : Z) : Prop := 0 <= b < 256.

Lemma hex_val_digit n : 0 <= n < 16 -> hex_val (hex_digit (Z.to_N n)) = Some n.
Proof.
  intros H. assert (n ∈ seqZ 0 16) as Hn by (apply elem_of_seqZ; lia).
  clear H. revert n Hn. apply Forall_forall. repeat constructor.
Qed.

Lemma hex_roundtrip l : Forall is_byte l -> hex_decode (hex_encode l) = Some l.
Proof.
  induction 1 as [|b l Hb _ IH]; [done|]. simpl. unfold is_byte in Hb.
  rewrite !hex_val_digit by (Z.div_mod_to_equations; lia).
  simpl. rewrite IH. simpl. do 2 f_equal. Z.div_mod_to_equations; lia.
Qed.

Lemma be_bytes_byte n x : Forall is_byte (be_bytes n x).
Proof.
  induction n as [|n IH]; simpl; constructor; [|done].
  unfold is_byte. change 255 with (Z.ones 8). rewrite Z.land_ones by lia.
  by apply Z.mod_pos_bound.
Qed.

Lemma be_words_bytes (ws : list Z) : Forall is_byte (ws ≫= be_bytes 4).
Proof.
  induction ws as [|w ws IH]; [constructor|].
  change ((w :: ws) ≫= be_bytes 4) with (be_bytes 4 w ++ (ws ≫= be_bytes 4)).
  apply Forall_app. split; [apply be_bytes_byte|done].
Qed.

Lemma sha256_bytes msg : Forall is_byte (sha256 msg).
Proof. apply be_words_bytes. Qed.

Lemma bytes_of_string_inj s1 s2 : bytes_of_string s1 = bytes_of_string s2 -> s1 = s2.
Proof.
  revert s2. induction s1 as [|c s IH]; intros [|c2 s2]; simpl; try done.
  intros [= H1 H2]. apply N2Z.inj in H1.
  assert (c = c2) as -> by (rewrite <- (ascii_N_embedding c), H1; apply ascii_N_embedding).
  by rewrite (IH s2).
Qed.

#[global] Opaque sha256 sha1.
