(* ===== verification/Encoding.v ===== *)
(** * [encoding/base64], [encoding/base32] and [strings]

    The text encodings of the Go standard library that session tokens and TOTP
    secrets go through: unpadded URL-safe base64 ([RawURLEncoding]), padded
    base32 ([StdEncoding]), and the string functions used with them.  Decoders
    skip line breaks and ignore trailing bits, as Go's do.  Both encodings are
    shown to read back what they wrote. *)

From S2P Require Import Prelude Json Crypto.
Local Open Scope Z_scope.

(** ** Characters *)

Definition chr (n : Z) : ascii := ascii_of_N (Z.to_N n).
Definition ord (c : ascii) : Z := Z.of_N (N_of_ascii c).

Definition is_newline (c : ascii) : bool := (ord c =? 10) || (ord c =? 13).

(** The characters of a text without line breaks. *)
Definition printable (s : string) : list ascii :=
  List.filter (fun c => negb (is_newline c)) (String.list_ascii_of_string s).

(** [strings.ToUpper] and [strings.ToLower] on ASCII. *)
Definition upper_char (c : ascii) : ascii :=
  if (97 <=? ord c) && (ord c <=? 122) then chr (ord c - 32) else c.
Definition lower_char (c : ascii) : ascii :=
  if (65 <=? ord c) && (ord c <=? 90) then chr (ord c + 32) else c.

Fixpoint str_map (f : ascii -> ascii) (s : string) : string :=
  match s with
  | EmptyString => EmptyString
  | String c s => String (f c) (str_map f s)
  end.

Definition ToUpper : string -> string := str_map upper_char.
Definition ToLower : string -> string := str_map lower_char.

(** [strings.TrimSpace] on ASCII. *)
Definition is_space (c : ascii) : bool :=
  (ord c =? 32) || ((9 <=? ord c) && (ord c <=? 13)).

Fixpoint trim_left (p : ascii -> bool) (l : list ascii) : list ascii :=
  match l with
  | [] => []
  | c :: l' => if p c then trim_left p l' else l
  end.

Definition trim_right (p : ascii -> bool) (l : list ascii) : list ascii :=
  reverse (trim_left p (reverse l)).

Definition TrimSpace (s : string) : string :=
  String.string_of_list_ascii
    (trim_right is_space (trim_left is_space (String.list_ascii_of_string s))).

(** ** base64.RawURLEncoding *)

Definition b64_char (n : Z) : ascii :=
  if n <? 26 then chr (65 + n)
  else if n <? 52 then chr (97 + (n - 26))
  else if n <? 62 then chr (48 + (n - 52))
  else if n =? 62 then "-"%char else "_"%char.

Definition b64_val (c : ascii) : option Z :=
  let n := ord c in
  if (65 <=? n) && (n <=? 90) then Some (n - 65)
  else if (97 <=? n) && (n <=? 122) then Some (n - 97 + 26)
  else if (48 <=? n) && (n <=? 57) then Some (n - 48 + 52)
  else if n =? 45 then Some 62
  else if n =? 95 then Some 63
  else None.

(** The sextet of weight [w] of a 24-bit group. *)
Definition sextet (n w : Z) : ascii := b64_char (n / w mod 64).

Fixpoint b64_chars (l : list Z) : list ascii :=
  match l with
  | a :: b :: c :: l =>
      let n := a * 65536 + b * 256 + c in
      sextet n 262144 :: sextet n 4096 :: sextet n 64 :: sextet n 1 :: b64_chars l
  | [a; b] => let n := a * 65536 + b * 256 in [sextet n 262144; sextet n 4096; sextet n 64]
  | [a] => let n := a * 65536 in [sextet n 262144; sextet n 4096]
  | [] => []
  end.

Definition b64_encode (l : list Z) : string := String.string_of_list_ascii (b64_chars l).

(** The byte of weight [w] of a group. *)
Definition octet (n w : Z) : Z := n / w mod 256.

Fixpoint b64_values (l : list Z) : option (list Z) :=
  match l with
  | a :: b :: c :: d :: l =>
      let n := a * 262144 + b * 4096 + c * 64 + d in
      match b64_values l with
      | Some r => Some (octet n 65536 :: octet n 256 :: octet n 1 :: r)
      | None => None
      end
  | [a; b; c] => let n := a * 262144 + b * 4096 + c * 64 in Some [octet n 65536; octet n 256]
  | [a; b] => let n := a * 262144 + b * 4096 in Some [octet n 65536]
  | [_] => None
  | [] => Some []
  end.

Definition b64_decode (s : string) : option (list Z) :=
  vs ← mapM b64_val (printable s); b64_values vs.

Lemma forall_below (n : nat) (P : Z -> bool) :
  forallb P (Z.of_nat <$> seq 0 n) = true -> forall k, 0 <= k < Z.of_nat n -> P k = true.
Proof.
  intros H k Hk. rewrite forallb_forall in H. apply H. apply list_elem_of_In.
  apply list_elem_of_fmap. exists (Z.to_nat k). split; [lia|]. apply elem_of_seq. lia.
Qed.

Lemma b64_val_char n : 0 <= n < 64 -> b64_val (b64_char n) = Some n.
Proof.
  intros Hn. assert (match b64_val (b64_char n) with Some m => m =? n | None => false end = true) as H.
  { apply (forall_below 64 (fun n => match b64_val (b64_char n) with
                                     | Some m => m =? n | None => false end));
      [vm_compute; reflexivity|lia]. }
  destruct (b64_val _); [|done]. f_equal. lia.
Qed.

Lemma b64_char_printable n : 0 <= n < 64 -> is_newline (b64_char n) = false.
Proof.
  intros Hn. apply negb_true_iff.
  apply (forall_below 64 (fun n => negb (is_newline (b64_char n)))); [vm_compute; reflexivity|lia].
Qed.

(** Induction by groups of three. *)
Lemma list_ind3 {A} (P : list A -> Prop) :
  P [] -> (forall a, P [a]) -> (forall a b, P [a; b]) ->
  (forall a b c l, P l -> P (a :: b :: c :: l)) -> forall l, P l.
Proof.
  intros H0 H1 H2 H3 l. remember (length l) as n eqn:Hn. revert l Hn.
  induction n as [n IH] using lt_wf_ind. intros l ->.
  destruct l as [|a [|b [|c l]]]; auto. apply H3. eapply IH; [|done]. simpl. lia.
Qed.

(** Linear arithmetic with division by constants. *)
Ltac div_lia := Z.div_mod_to_equations; lia.

Ltac sextets :=
  repeat first [ rewrite b64_val_char by (apply Z.mod_pos_bound; lia)
               | rewrite b64_char_printable by (apply Z.mod_pos_bound; lia) ].

Lemma b64_chars_decode l :
  Forall is_byte l ->
  List.filter (fun c => negb (is_newline c)) (b64_chars l) = b64_chars l /\
  exists vs, mapM b64_val (b64_chars l) = Some vs /\ b64_values vs = Some l.
Proof.
  induction l as [|a|a b|a b c l IH] using list_ind3; intros Hl.
  - split; [done|]. by exists [].
  - apply Forall_cons in Hl as [Ha _]. unfold is_byte in Ha. cbn [b64_chars]. unfold sextet.
    split; [cbn; sextets; done|].
    eexists. split; [cbn; sextets; cbn; reflexivity|].
    cbn. unfold octet. do 2 f_equal. cbn. div_lia.
  - apply Forall_cons in Hl as [Ha [Hb _]%Forall_cons]. unfold is_byte in *. cbn [b64_chars].
    unfold sextet. split; [cbn; sextets; done|].
    eexists. split; [cbn; sextets; cbn; reflexivity|].
    cbn. unfold octet. cbn. repeat f_equal; div_lia.
  - apply Forall_cons in Hl as [Ha [Hb [Hc Hl]%Forall_cons]%Forall_cons]. unfold is_byte in Ha, Hb, Hc.
    destruct (IH Hl) as (H1 & vs & H2 & H3). cbn [b64_chars]. unfold sextet.
    split; [cbn; sextets; cbn; by rewrite H1|].
    eexists. split; [cbn; sextets; cbn; rewrite H2; reflexivity|].
    cbn. rewrite H3. unfold octet. cbn. repeat f_equal; div_lia.
Qed.

Lemma b64_roundtrip l : Forall is_byte l -> b64_decode (b64_encode l) = Some l.
Proof.
  intros Hl. destruct (b64_chars_decode l Hl) as (H1 & vs & H2 & H3).
  unfold b64_decode, b64_encode, printable.
  rewrite String.list_ascii_of_string_of_list_ascii, H1, H2. exact H3.
Qed.

(** ** base32.StdEncoding *)

Definition b32_char (n : Z) : ascii := if n <? 26 then chr (65 + n) else chr (50 + (n - 26)).

Definition b32_val (c : ascii) : option Z :=
  let n := ord c in
  if (65 <=? n) && (n <=? 90) then Some (n - 65)
  else if (50 <=? n) && (n <=? 55) then Some (n - 50 + 26)
  else None.

Definition is_pad (c : ascii) : bool := Ascii.eqb c "=".

(** The quintets of a 40-bit group that carry [k] bytes, without padding. *)
Definition quintets (n : Z) (k : nat) : list ascii :=
  (fun w => b32_char (n / w mod 32)) <$>
    take k [34359738368; 1073741824; 33554432; 1048576; 32768; 1024; 32; 1].

(** The groups of the encoding, each with the padding that completes it. *)
Fixpoint b32_chars (l : list Z) : list ascii :=
  match l with
  | [] => []
  | [a] => quintets (a * 4294967296) 2 ++ repeat "="%char 6
  | [a; b] => quintets (a * 4294967296 + b * 16777216) 4 ++ repeat "="%char 4
  | [a; b; c] => quintets (a * 4294967296 + b * 16777216 + c * 65536) 5 ++ repeat "="%char 3
  | [a; b; c; d] =>
      quintets (a * 4294967296 + b * 16777216 + c * 65536 + d * 256) 7 ++ repeat "="%char 1
  | a :: b :: c :: d :: e :: l =>
      quintets (a * 4294967296 + b * 16777216 + c * 65536 + d * 256 + e) 8 ++ b32_chars l
  end.

Definition b32_encode (l : list Z) : string := String.string_of_list_ascii (b32_chars l).

(** Reading one group of eight characters, [k] of them still to come: the
    quintets, what is left of the input, and whether padding ended it. *)
Fixpoint b32_quantum (k : nat) (dbuf : list Z) (src : list ascii)
    : option (list Z * list ascii * bool) :=
  match k with
  | O => Some (dbuf, src, false)
  | S k' =>
      match src with
      | [] => None
      | c :: src =>
          let j := (8 - k)%nat in
          if is_pad c && (2 <=? j)%nat && (length src <? 8)%nat then
            if (length src + j <? 7)%nat then None
            else if List.existsb (fun c => negb (is_pad c)) (take (7 - j) src) then None
            else if bool_decide (j = 3 \/ j = 6)%nat then None
            else Some (dbuf, src, true)
          else match b32_val c with
               | None => None
               | Some v => b32_quantum k' (dbuf ++ [v]) src
               end
      end
  end.

(** The bytes the quintets of a group carry. *)
Definition b32_pack (dbuf : list Z) : list Z :=
  let n := foldl (fun n wv => n + wv.1 * wv.2) 0
             (zip [34359738368; 1073741824; 33554432; 1048576; 32768; 1024; 32; 1] dbuf) in
  take (length dbuf * 5 / 8)%nat
    [octet n 4294967296; octet n 16777216; octet n 65536; octet n 256; octet n 1].

(** The groups one after the other; [fuel] bounds their number. *)
Fixpoint b32_groups (fuel : nat) (src : list ascii) : option (list Z) :=
  match fuel, src with
  | _, [] => Some []
  | O, _ => None
  | S fuel, _ =>
      match b32_quantum 8 [] src with
      | None => None
      | Some (dbuf, _, true) => Some (b32_pack dbuf)
      | Some (dbuf, src, false) =>
          match b32_groups fuel src with
          | Some r => Some (b32_pack dbuf ++ r)
          | None => None
          end
      end
  end.

Definition b32_decode (s : string) : option (list Z) :=
  b32_groups (S (length (printable s))) (printable s).

Lemma b32_val_char n : 0 <= n < 32 -> b32_val (b32_char n) = Some n /\ is_pad (b32_char n) = false /\
  is_newline (b32_char n) = false /\ is_space (b32_char n) = false /\
  upper_char (b32_char n) = b32_char n.
Proof.
  intros Hn.
  assert ((match b32_val (b32_char n) with Some m => m =? n | None => false end) &&
          negb (is_pad (b32_char n)) && negb (is_newline (b32_char n)) &&
          negb (is_space (b32_char n)) && Ascii.eqb (upper_char (b32_char n)) (b32_char n) = true) as H.
  { apply (forall_below 32 (fun n =>
      (match b32_val (b32_char n) with Some m => m =? n | None => false end) &&
      negb (is_pad (b32_char n)) && negb (is_newline (b32_char n)) &&
      negb (is_space (b32_char n)) && Ascii.eqb (upper_char (b32_char n)) (b32_char n)));
      [vm_compute; reflexivity|lia]. }
  destruct (b32_val _); [|done]. rewrite !andb_true_iff, !negb_true_iff, Ascii.eqb_eq in H.
  destruct H as ((((H & ?) & ?) & ?) & ?). split; [f_equal; lia|done].
Qed.

(** The values the characters of a group stand for. *)
Definition quintet_values (n : Z) (k : nat) : list Z :=
  (fun w => n / w mod 32) <$>
    take k [34359738368; 1073741824; 33554432; 1048576; 32768; 1024; 32; 1].

Lemma quintets_values n k : quintets n k = b32_char <$> quintet_values n k.
Proof. unfold quintets, quintet_values. by rewrite <- list_fmap_compose. Qed.

Lemma quintet_values_range n k : Forall (fun v => 0 <= v < 32) (quintet_values n k).
Proof.
  unfold quintet_values. apply Forall_fmap, Forall_forall. intros w _. simpl.
  apply Z.mod_pos_bound. lia.
Qed.

(** Reading proper characters. *)
Lemma b32_quantum_values vs k dbuf src :
  Forall (fun v => 0 <= v < 32) vs ->
  b32_quantum (length vs + k) dbuf ((b32_char <$> vs) ++ src) = b32_quantum k (dbuf ++ vs) src.
Proof.
  intros Hvs. revert dbuf. induction Hvs as [|v vs Hv Hvs IH]; intros dbuf; simpl.
  - by rewrite app_nil_r.
  - destruct (b32_val_char v Hv) as (-> & -> & _). simpl.
    rewrite IH, <- app_assoc. done.
Qed.

(** A number is the sum of its digits. *)
Lemma digit_step n w w' : 0 < w -> w' = w * 32 -> n mod w' = n mod w + w * (n / w mod 32).
Proof. intros Hw ->. rewrite Z.rem_mul_r by lia. done. Qed.

Lemma octets_of n a b c d e :
  is_byte a -> is_byte b -> is_byte c -> is_byte d -> is_byte e ->
  n = a * 4294967296 + b * 16777216 + c * 65536 + d * 256 + e ->
  octet n 4294967296 = a /\ octet n 16777216 = b /\ octet n 65536 = c /\ octet n 256 = d /\
  octet n 1 = e.
Proof. unfold is_byte, octet. intros. repeat split; div_lia. Qed.

(** The first [k] digits are the number with the lower ones cleared. *)
Lemma pack_values n (k : nat) :
  0 <= n < 1099511627776 -> (k <= 8)%nat ->
  foldl (fun n wv => n + wv.1 * wv.2) 0
    (zip [34359738368; 1073741824; 33554432; 1048576; 32768; 1024; 32; 1] (quintet_values n k))
  = n - n mod (32 ^ Z.of_nat (8 - k)).
Proof.
  intros Hn Hk. unfold quintet_values.
  pose proof (digit_step n 1 32 eq_refl eq_refl).
  pose proof (digit_step n 32 1024 eq_refl eq_refl).
  pose proof (digit_step n 1024 32768 eq_refl eq_refl).
  pose proof (digit_step n 32768 1048576 eq_refl eq_refl).
  pose proof (digit_step n 1048576 33554432 eq_refl eq_refl).
  pose proof (digit_step n 33554432 1073741824 eq_refl eq_refl).
  pose proof (digit_step n 1073741824 34359738368 eq_refl eq_refl).
  pose proof (digit_step n 34359738368 1099511627776 eq_refl eq_refl).
  assert (E0 : n mod 1 = 0) by apply Z.mod_1_r.
  assert (E9 : n mod 1099511627776 = n) by (apply Z.mod_small; lia).
  do 9 (destruct k as [|k]; [
    match goal with |- context [32 ^ ?e] =>
      let v := eval vm_compute in (32 ^ e) in change (32 ^ e) with v end;
    cbn [take fmap list_fmap zip zip_with foldl fst snd]; lia|]). lia.
Qed.

(** What a group of [k] characters carries is what was put into it. *)
Lemma b32_pack_values n (k : nat) :
  0 <= n < 1099511627776 -> (k <= 8)%nat ->
  let m := n - n mod (32 ^ Z.of_nat (8 - k)) in
  b32_pack (quintet_values n k) =
  take (k * 5 / 8)%nat [octet m 4294967296; octet m 16777216; octet m 65536; octet m 256; octet m 1].
Proof.
  intros Hn Hk. cbv zeta. unfold b32_pack. rewrite pack_values by done.
  unfold quintet_values. rewrite length_fmap, length_take_le by (simpl; lia). done.
Qed.

Lemma list_ind5 {A} (P : list A -> Prop) :
  P [] -> (forall a, P [a]) -> (forall a b, P [a; b]) -> (forall a b c, P [a; b; c]) ->
  (forall a b c d, P [a; b; c; d]) ->
  (forall a b c d e l, P l -> P (a :: b :: c :: d :: e :: l)) -> forall l, P l.
Proof.
  intros H0 H1 H2 H3 H4 H5 l. remember (length l) as n eqn:Hn. revert l Hn.
  induction n as [n IH] using lt_wf_ind. intros l ->.
  destruct l as [|a [|b [|c [|d [|e l]]]]]; auto. apply H5. eapply IH; [|done]. simpl. lia.
Qed.

(** One padded group. *)
Lemma b32_tail n (k : nat) fuel :
  (k = 2 \/ k = 4 \/ k = 5 \/ k = 7)%nat ->
  b32_groups (S fuel) (quintets n k ++ repeat "="%char (8 - k)) = Some (b32_pack (quintet_values n k)).
Proof.
  intros Hk. rewrite quintets_values. cbn [b32_groups].
  assert (Hl : length (quintet_values n k) = k)
    by (unfold quintet_values; rewrite length_fmap, length_take_le; simpl; lia).
  assert (E : b32_quantum 8 [] ((b32_char <$> quintet_values n k) ++ repeat "="%char (8 - k)) =
              b32_quantum (8 - k) (quintet_values n k) (repeat "="%char (8 - k))).
  { replace 8%nat with (length (quintet_values n k) + (8 - k))%nat at 1 by lia.
    rewrite b32_quantum_values by apply quintet_values_range. done. }
  rewrite E. destruct ((b32_char <$> quintet_values n k) ++ repeat "="%char (8 - k)) eqn:E0.
  { apply (f_equal length) in E0. rewrite length_app, length_fmap in E0. simpl in E0. lia. }
  by destruct Hk as [-> | [-> | [-> | ->]]].
Qed.

(** A whole group of bytes reads back from its quintets; bytes that are not
    there are zero. *)
Lemma b32_group n (k : nat) a b c d e :
  is_byte a -> is_byte b -> is_byte c -> is_byte d -> is_byte e -> (k <= 8)%nat ->
  n = a * 4294967296 + b * 16777216 + c * 65536 + d * 256 + e ->
  n mod (32 ^ Z.of_nat (8 - k)) = 0 ->
  b32_pack (quintet_values n k) = take (k * 5 / 8)%nat [a; b; c; d; e].
Proof.
  intros Ha Hb Hc Hd He Hk Hn Hm.
  rewrite b32_pack_values by (unfold is_byte in *; lia). cbv zeta. rewrite Hm, Z.sub_0_r.
  by destruct (octets_of n a b c d e) as (-> & -> & -> & -> & ->).
Qed.

Ltac pow_const :=
  repeat match goal with |- context [32 ^ ?e] =>
    let v := eval vm_compute in (32 ^ e) in change (32 ^ e) with v end.

Lemma b32_groups_chars l fuel :
  Forall is_byte l -> (length l < fuel)%nat -> b32_groups fuel (b32_chars l) = Some l.
Proof.
  revert fuel. induction l as [|a|a b|a b c|a b c d|a b c d e l IH] using list_ind5;
    intros [|fuel] Hl Hfuel; try (simpl in Hfuel; lia); [done|..];
    repeat match goal with H : Forall _ (_ :: _) |- _ => apply Forall_cons in H as [? H] end;
    assert (is_byte 0) by (unfold is_byte; lia); cbn [b32_chars].
  - rewrite b32_tail by lia. rewrite (b32_group _ 2 a 0 0 0 0); try done; [lia..|pow_const; div_lia].
  - rewrite b32_tail by lia. rewrite (b32_group _ 4 a b 0 0 0); try done; [lia..|pow_const; div_lia].
  - rewrite b32_tail by lia. rewrite (b32_group _ 5 a b c 0 0); try done; [lia..|pow_const; div_lia].
  - rewrite b32_tail by lia. rewrite (b32_group _ 7 a b c d 0); try done; [lia..|pow_const; div_lia].
  - set (n := a * _ + _ + _ + _ + e). rewrite quintets_values. cbn [b32_groups].
    assert (E : b32_quantum 8 [] ((b32_char <$> quintet_values n 8) ++ b32_chars l) =
                Some (quintet_values n 8, b32_chars l, false)).
    { exact (b32_quantum_values (quintet_values n 8) 0 [] _ (quintet_values_range n 8)). }
    rewrite E, IH by (done || simpl in Hfuel; lia).
    rewrite (b32_group n 8 a b c d e) by (try done; try lia; apply Z.mod_1_r). done.
Qed.
