(* ===== verification/Totp.v ===== *)
(** * [internal/totp]: time-based one-time passwords (RFC 6238)

    Codes are six digits of an HMAC-SHA1 over the number of the 30-second
    window; validation accepts the window of the clock and its two neighbours.
    Times are nanoseconds since the epoch.  Secrets are the base32 texts that
    [NewSecret] makes, so [ToUpper] and [TrimSpace] are modelled on ASCII. *)

From S2P Require Import Prelude Json Crypto Encoding.
Local Open Scope Z_scope.

(** [DefaultPeriod], in seconds and in nanoseconds. *)
Definition period_seconds : Z := 30.
Definition DefaultPeriod : Z := 30000000000.

(** [NewSecret] over the 20 bytes the random source gave. *)
Definition NewSecret (raw : list Z) : string :=
  String.string_of_list_ascii (trim_right is_pad (String.list_ascii_of_string (b32_encode raw))).

(** [decodeSecret]. *)
Definition decodeSecret (secret : string) : option (list Z) :=
  let clean := ToUpper (TrimSpace secret) in
  let pad := ((8 - String.length clean mod 8) mod 8)%nat in
  b32_decode (clean +:+ String.string_of_list_ascii (repeat "="%char pad)).

(** [itoa]: the digits of [n] into a buffer of twenty bytes. *)
Fixpoint itoa_digits (buf : nat) (n : Z) (acc : string) : string :=
  match buf with
  | O => acc
  | S buf => if 0 <? n then itoa_digits buf (n / 10) (String (chr (48 + n mod 10)) acc) else acc
  end.
Definition itoa (n : Z) : string := if n =? 0 then "0"%string else itoa_digits 20 n "".

(** [pad6]. *)
Definition pad6 (n : Z) : string :=
  let s := itoa n in
  if (6 <=? String.length s)%nat then s
  else String.string_of_list_ascii (repeat "0"%char (6 - String.length s)) +:+ s.

(** The counter of the window [t] falls into: [t.Unix() / 30] as a [uint64]. *)
Definition counter (t : Z) : Z := Z.quot (t / 1000000000) period_seconds mod 2 ^ 64.

(** The dynamic truncation of a digest. *)
Definition truncate (sum : list Z) : Z :=
  let offset := Z.to_nat (Z.land (nth_word sum (length sum - 1)) 15) in
  Z.lor (Z.shiftl (Z.land (nth_word sum offset) 127) 24)
    (Z.lor (Z.shiftl (nth_word sum (offset + 1)) 16)
       (Z.lor (Z.shiftl (nth_word sum (offset + 2)) 8) (nth_word sum (offset + 3)))).

(** [codeAt]. *)
Definition codeAt (key : list Z) (t : Z) : string :=
  pad6 (truncate (hmac sha1 key (be_bytes 8 (counter t))) mod 1000000).

(** [Code]. *)
Definition Code (secret : string) (t : Z) : option string :=
  match decodeSecret secret with
  | Some key => Some (codeAt key t)
  | None => None
  end.

(** [Validate]; [None] is the error of a secret that does not decode. *)
Definition Validate (secret code : string) (t : Z) : option bool :=
  match decodeSecret secret with
  | None => None
  | Some key =>
      Some (List.existsb (fun offset => codeAt key (t + offset * DefaultPeriod) =s code) [0; -1; 1])
  end.

(** [URI]. *)
Definition URI (issuer account secret : string) : string :=
  ("otpauth://totp/" +:+ issuer +:+ ":" +:+ account +:+ "?secret=" +:+ secret +:+ "&issuer=" +:+
   issuer +:+ "&algorithm=SHA1&digits=6&period=30")%string.

(** ** The test vectors of RFC 6238 (SHA-1, last six of eight digits) *)

Definition rfc_secret : string := "GEZDGNBVGY3TQOJQGEZDGNBVGY3TQOJQ".

Example rfc6238 :
  Code rfc_secret 59000000000 = Some "287082"%string /\
  Code rfc_secret 1111111109000000000 = Some "081804"%string /\
  Code rfc_secret 1111111111000000000 = Some "050471"%string /\
  Code rfc_secret 1234567890000000000 = Some "005924"%string /\
  Code rfc_secret 20000000000000000000 = Some "353130"%string.
Proof. vm_compute. done. Qed.

(** ** Secrets *)

(** The text of an encoding: proper characters, then the padding its length
    calls for. *)
Lemma b32_chars_shape l :
  exists vs, b32_chars l = (b32_char <$> vs) ++ repeat "="%char ((8 - length vs mod 8) mod 8) /\
    Forall (fun v => 0 <= v < 32) vs.
Proof.
  induction l as [|a|a b|a b c|a b c d|a b c d e l (vs & IH & Hvs)] using list_ind5; cbn [b32_chars].
  1: by exists [].
  1-4: rewrite quintets_values; 
    match goal with |- context [quintet_values ?n ?k] => exists (quintet_values n k) end;
    (split; [reflexivity|apply quintet_values_range]).
  set (n := a * _ + _ + _ + _ + e). exists (quintet_values n 8 ++ vs). split.
  - rewrite IH, quintets_values, fmap_app, <- app_assoc. do 3 f_equal.
    rewrite length_app. change (length (quintet_values n 8)) with (1 * 8)%nat.
    by rewrite (Nat.add_comm (1 * 8)), Nat.Div0.mod_add.
  - apply Forall_app. split; [apply quintet_values_range|done].
Qed.

Lemma b32_chars_length l : (length l <= length (b32_chars l))%nat.
Proof.
  induction l as [|a|a b|a b c|a b c d|a b c d e l IH] using list_ind5; cbn [b32_chars]; simpl; lia.
Qed.

Lemma trim_left_none p l : Forall (fun c => p c = false) l -> trim_left p l = l.
Proof. by intros [|c l' Hc _]; simpl; [|rewrite Hc]. Qed.

Lemma trim_left_repeat p c k l : p c = true -> trim_left p (repeat c k ++ l) = trim_left p l.
Proof. intros Hc. induction k as [|k IH]; simpl; [done|]. by rewrite Hc. Qed.

Lemma reverse_repeat {A} (x : A) k : reverse (repeat x k) = repeat x k.
Proof.
  induction k as [|k IH]; [done|]. cbn [repeat]. rewrite reverse_cons, IH.
  clear IH. induction k as [|k IH]; [done|]. simpl. by rewrite IH.
Qed.

Lemma trim_right_repeat p c k l :
  p c = true -> Forall (fun c => p c = false) l -> trim_right p (l ++ repeat c k) = l.
Proof.
  intros Hc Hl. unfold trim_right. rewrite reverse_app, reverse_repeat, trim_left_repeat by done.
  rewrite trim_left_none by by apply Forall_reverse. apply reverse_involutive.
Qed.

Lemma Forall_b32 (P : ascii -> Prop) vs :
  (forall v, 0 <= v < 32 -> P (b32_char v)) -> Forall (fun v => 0 <= v < 32) vs ->
  Forall P (b32_char <$> vs).
Proof. intros HP Hvs. apply Forall_fmap. by eapply Forall_impl. Qed.

Lemma str_map_list f l :
  str_map f (String.string_of_list_ascii l) = String.string_of_list_ascii (List.map f l).
Proof. induction l as [|c l IH]; simpl; [done|]. by rewrite IH. Qed.

Lemma string_of_list_app l1 l2 :
  String.string_of_list_ascii (l1 ++ l2)
  = String.string_of_list_ascii l1 +:+ String.string_of_list_ascii l2.
Proof. induction l1 as [|c l IH]; simpl; [done|]. by rewrite IH. Qed.

Lemma length_string_of_list l : String.length (String.string_of_list_ascii l) = length l.
Proof. induction l as [|c l IH]; simpl; [done|]. by rewrite IH. Qed.

(** The secret an authenticator is enrolled with decodes to the bytes it was
    made of. *)
Lemma secret_roundtrip raw : Forall is_byte raw -> decodeSecret (NewSecret raw) = Some raw.
Proof.
  intros Hraw. destruct (b32_chars_shape raw) as (vs & Eq & Hvs).
  set (cs := b32_char <$> vs) in *.
  assert (Hcs : Forall (fun c => is_pad c = false /\ is_newline c = false /\ is_space c = false /\
                                 upper_char c = c) cs).
  { apply Forall_b32; [|done]. intros v Hv. by apply b32_val_char. }
  assert (NewSecret raw = String.string_of_list_ascii cs) as ->.
  { unfold NewSecret, b32_encode. rewrite String.list_ascii_of_string_of_list_ascii, Eq.
    rewrite trim_right_repeat; [done|done|]. by eapply Forall_impl; [exact Hcs|]; intros c (? & _). }
  unfold decodeSecret, TrimSpace. rewrite String.list_ascii_of_string_of_list_ascii.
  assert (Hsp : Forall (fun c => is_space c = false) cs)
    by (eapply Forall_impl; [exact Hcs|]; by intros c (_ & _ & ? & _)).
  rewrite (trim_left_none is_space cs Hsp).
  assert (trim_right is_space cs = cs) as ->.
  { rewrite <- (app_nil_r cs) at 1. by apply (trim_right_repeat is_space " "%char 0). }
  unfold ToUpper. rewrite str_map_list.
  assert (List.map upper_char cs = cs) as ->.
  { rewrite <- (map_id cs) at 2. apply map_ext_in. intros c Hc%list_elem_of_In.
    by apply (proj1 (Forall_forall _ _) Hcs). }
  rewrite length_string_of_list, <- string_of_list_app.
  assert (length cs = length vs) as -> by apply length_fmap. rewrite <- Eq.
  unfold b32_decode, printable. rewrite String.list_ascii_of_string_of_list_ascii.
  assert (List.filter (fun c => negb (is_newline c)) (b32_chars raw) = b32_chars raw) as ->.
  { rewrite Eq, List.filter_app. f_equal.
    - clear -Hcs. induction Hcs as [|c l (_ & H & _) _ IH]; simpl; [done|]. by rewrite H, IH.
    - generalize ((8 - length vs mod 8) mod 8)%nat as k. induction k as [|k IH]; simpl; [done|].
      by rewrite IH. }
  apply b32_groups_chars; [done|]. pose proof (b32_chars_length raw). lia.
Qed.

(** ** Codes *)

(** The digest the truncation indexes into has twenty bytes, and the four it
    reads are among them. *)
Lemma sha1_round_length st t : length st.1 = 5%nat -> length (sha1_round st t).1 = 5%nat.
Proof.
  destruct st as [v w]. intros Hv. simpl in Hv. unfold sha1_round.
  destruct v as [|a [|b [|c [|d [|e [|]]]]]]; try discriminate Hv. by repeat case_match.
Qed.

Lemma sha1_block_length h b : length h = 5%nat -> length (sha1_block h b) = 5%nat.
Proof.
  intros Hh. unfold sha1_block. rewrite length_zip_with.
  enough (length (foldl sha1_round (h, be_words b) (seq 0 80)).1 = 5%nat) by lia.
  generalize (seq 0 80), (be_words b). intros ts. revert h Hh.
  induction ts as [|t ts IH]; intros h Hh w; cbn [foldl]; [done|].
  destruct (sha1_round (h, w) t) as [h' w'] eqn:E. apply IH.
  change h' with (h', w').1. rewrite <- E. by apply sha1_round_length.
Qed.

Lemma be_bytes_length n x : length (be_bytes n x) = n.
Proof. induction n as [|n IH]; simpl; [done|]. by rewrite IH. Qed.

#[local] Transparent sha1 hmac.

Lemma sha1_length msg : length (sha1 msg) = 20%nat.
Proof.
  unfold sha1. cbv zeta. generalize (blocks (length (md_pad msg)) (md_pad msg)). intros bs.
  assert (length (foldl sha1_block sha1_init bs) = 5%nat) as H.
  { assert (length sha1_init = 5%nat) as H0 by done. revert H0. generalize sha1_init.
    induction bs as [|b bs IH]; intros h Hh; simpl; [done|]. by apply IH, sha1_block_length. }
  destruct (foldl sha1_block sha1_init bs) as [|a [|b [|c [|d [|e [|]]]]]]; try discriminate H.
  unfold mbind, list_bind. rewrite !length_app, !be_bytes_length. done.
Qed.

Lemma truncate_in_bounds key msg :
  let sum := hmac sha1 key msg in
  (Z.to_nat (Z.land (nth_word sum (length sum - 1)) 15) + 3 < length sum)%nat.
Proof.
  cbv zeta. set (sum := hmac sha1 key msg).
  assert (length sum = 20%nat) as -> by apply sha1_length.
  change 15 with (Z.ones 4). rewrite Z.land_ones by lia. change (2 ^ 4) with 16.
  pose proof (Z.mod_pos_bound (nth_word sum (20 - 1)) 16 eq_refl). lia.
Qed.

(** A decimal text. *)
Definition is_digit (c : ascii) : Prop := 48 <= ord c <= 57.
Definition digit (n : Z) : ascii := chr (48 + n mod 10).

Definition decimal (s : string) : Z :=
  foldl (fun n c => 10 * n + (ord c - 48)) 0 (String.list_ascii_of_string s).

Lemma ord_digit n : ord (digit n) = 48 + n mod 10.
Proof.
  pose proof (Z.mod_pos_bound n 10 eq_refl). unfold digit, ord, chr.
  rewrite N_ascii_embedding by lia. lia.
Qed.

Lemma itoa_digits_pos k n acc :
  0 < n -> itoa_digits (S k) n acc = itoa_digits k (n / 10) (String (digit n) acc).
Proof. intros Hn. simpl. destruct (Z.ltb_spec 0 n); [done|lia]. Qed.

Lemma itoa_digits_zero k acc : itoa_digits k 0 acc = acc.
Proof. by destruct k. Qed.

Lemma digit_zero n : n = 0 -> digit n = "0"%char.
Proof. by intros ->. Qed.

(** The six digits of a number below a million. *)
Lemma pad6_digits n : 0 <= n < 1000000 ->
  pad6 n = String.string_of_list_ascii
    [digit (n / 100000); digit (n / 10000); digit (n / 1000); digit (n / 100); digit (n / 10); digit n].
Proof.
  intros Hn. unfold pad6, itoa.
  assert (n / 10 / 10 = n / 100) as D2 by (by rewrite Z.div_div).
  assert (n / 100 / 10 = n / 1000) as D3 by (by rewrite Z.div_div).
  assert (n / 1000 / 10 = n / 10000) as D4 by (by rewrite Z.div_div).
  assert (n / 10000 / 10 = n / 100000) as D5 by (by rewrite Z.div_div).
  assert (n / 100000 / 10 = 0) as D6 by div_lia.
  destruct (Z.eqb_spec n 0) as [->|Hn0]; [done|].
  rewrite itoa_digits_pos by lia.
  destruct (Z.eq_dec (n / 10) 0) as [H1|H1].
  { rewrite H1, itoa_digits_zero. simpl.
    rewrite (digit_zero (n / 100000)), (digit_zero (n / 10000)), (digit_zero (n / 1000)),
      (digit_zero (n / 100)); [done|div_lia..]. }
  rewrite itoa_digits_pos, D2 by div_lia.
  destruct (Z.eq_dec (n / 100) 0) as [H2|H2].
  { rewrite H2, itoa_digits_zero. simpl.
    rewrite (digit_zero (n / 100000)), (digit_zero (n / 10000)), (digit_zero (n / 1000)); [done|div_lia..]. }
  rewrite itoa_digits_pos, D3 by div_lia.
  destruct (Z.eq_dec (n / 1000) 0) as [H3|H3].
  { rewrite H3, itoa_digits_zero. simpl.
    rewrite (digit_zero (n / 100000)), (digit_zero (n / 10000)); [done|div_lia..]. }
  rewrite itoa_digits_pos, D4 by div_lia.
  destruct (Z.eq_dec (n / 10000) 0) as [H4|H4].
  { rewrite H4, itoa_digits_zero. simpl. rewrite (digit_zero (n / 100000)); [done|div_lia]. }
  rewrite itoa_digits_pos, D5 by div_lia.
  destruct (Z.eq_dec (n / 100000) 0) as [H5|H5].
  { rewrite H5, itoa_digits_zero. done. }
  rewrite itoa_digits_pos, D6, itoa_digits_zero by div_lia. done.
Qed.

Lemma truncate_nonneg sum : Forall is_byte sum -> 0 <= truncate sum.
Proof.
  intros Hs. assert (Hb : forall i, 0 <= nth_word sum i).
  { intros i. unfold nth_word. destruct (Nat.lt_ge_cases i (length sum)) as [Hi|Hi].
    - apply (nth_In sum 0) in Hi. apply list_elem_of_In in Hi.
      destruct (proj1 (Forall_forall _ _) Hs _ Hi). done.
    - by rewrite nth_overflow. }
  unfold truncate. repeat (apply Z.lor_nonneg; split); rewrite ?Z.shiftl_nonneg; try apply Hb.
  apply Z.land_nonneg. by left.
Qed.

Lemma codeAt_digits key t :
  exists n, 0 <= n < 1000000 /\ codeAt key t = String.string_of_list_ascii
    [digit (n / 100000); digit (n / 10000); digit (n / 1000); digit (n / 100); digit (n / 10); digit n].
Proof.
  unfold codeAt. eexists. split; [by apply Z.mod_pos_bound|].
  apply pad6_digits. by apply Z.mod_pos_bound.
Qed.

(** ** Windows *)

Lemma counter_window t : 0 <= t -> counter t = t / DefaultPeriod mod 2 ^ 64.
Proof.
  intros Ht. unfold counter, period_seconds, DefaultPeriod. f_equal.
  rewrite Z.quot_div_nonneg by div_lia. rewrite Z.div_div by lia. done.
Qed.

Lemma codeAt_window key t u : 0 <= t -> 0 <= u -> t / DefaultPeriod = u / DefaultPeriod ->
  codeAt key t = codeAt key u.
Proof. intros Ht Hu E. unfold codeAt. by rewrite !counter_window, E. Qed.

Lemma window_shift t k : (t + k * DefaultPeriod) / DefaultPeriod = t / DefaultPeriod + k.
Proof. apply Z.div_add. done. Qed.

Lemma decimal_digits n : 0 <= n < 1000000 ->
  10 * (10 * (10 * (10 * (10 * (10 * 0 + (48 + n / 100000 mod 10 - 48)) +
    (48 + n / 10000 mod 10 - 48)) + (48 + n / 1000 mod 10 - 48)) + (48 + n / 100 mod 10 - 48)) +
    (48 + n / 10 mod 10 - 48)) + (48 + n mod 10 - 48) = n.
Proof.
  intros Hn.
  assert (D : forall m w, 0 < w -> m / (w * 10) * 10 + m / w mod 10 = m / w).
  { intros m w Hw. rewrite <- Z.div_div by lia. pose proof (Z.div_mod (m / w) 10). lia. }
  pose proof (D n 1 eq_refl). pose proof (D n 10 eq_refl). pose proof (D n 100 eq_refl).
  pose proof (D n 1000 eq_refl). pose proof (D n 10000 eq_refl).
  rewrite Z.div_1_r in *. change (1 * 10) with 10 in *. change (10 * 10) with 100 in *.
  change (100 * 10) with 1000 in *. change (1000 * 10) with 10000 in *.
  change (10000 * 10) with 100000 in *.
  assert (n / 100000 mod 10 = n / 100000) by (apply Z.mod_small; div_lia). lia.
Qed.

(** Every code is a text of exactly six decimal digits whose value is the
    truncated digest modulo a million, leading zeros kept, and the truncation
    reads bytes of the digest only. *)
Theorem totp_code_format (key : list Z) (t : Z) :
  let sum := hmac sha1 key (be_bytes 8 (counter t)) in
  String.length (codeAt key t) = 6%nat /\
  Forall is_digit (String.list_ascii_of_string (codeAt key t)) /\
  decimal (codeAt key t) = truncate sum mod 1000000 /\
  (Z.to_nat (Z.land (nth_word sum (length sum - 1)) 15) + 3 < length sum)%nat.
Proof.
  cbv zeta. unfold codeAt. set (n := truncate _ mod 1000000).
  assert (0 <= n < 1000000) as Hn by by apply Z.mod_pos_bound.
  rewrite pad6_digits by done. split; [done|]. split; [|split; [|apply truncate_in_bounds]].
  - rewrite String.list_ascii_of_string_of_list_ascii. unfold is_digit.
    repeat apply Forall_cons_2; try apply Forall_nil_2; rewrite ord_digit;
      match goal with |- context [?x mod 10] => pose proof (Z.mod_pos_bound x 10 eq_refl) end; lia.
  - unfold decimal. rewrite String.list_ascii_of_string_of_list_ascii. simpl.
    rewrite !ord_digit. apply decimal_digits. lia.
Qed.

(** Validation accepts a code exactly when it is the code of the window the
    clock is in or of one of its two neighbours, under the secret the user was
    enrolled with: codes survive a drift of one window either way and are of no
    use two windows later. *)
Theorem totp_window (raw : list Z) (code : string) (t : Z) :
  Forall is_byte raw -> DefaultPeriod <= t ->
  Validate (NewSecret raw) code t = Some true <->
  exists u, 0 <= u /\ Z.abs (u / DefaultPeriod - t / DefaultPeriod) <= 1 /\
    Code (NewSecret raw) u = Some code.
Proof.
  intros Hraw Ht. unfold Validate, Code. rewrite secret_roundtrip by done.
  assert (Hp : 0 < DefaultPeriod) by done. split.
  - intros H. apply (inj Some), existsb_exists in H as (k & Hk & Hc). seqb_simpl. subst code.
    exists (t + k * DefaultPeriod). rewrite window_shift.
    destruct Hk as [<-|[<-|[<-|[]]]]; (split; [lia|]); (split; [lia|done]).
  - intros (u & Hu & Hw & [= <-]). f_equal. apply existsb_exists.
    exists (u / DefaultPeriod - t / DefaultPeriod). split.
    + assert (u / DefaultPeriod - t / DefaultPeriod = 0 \/ u / DefaultPeriod - t / DefaultPeriod = -1
              \/ u / DefaultPeriod - t / DefaultPeriod = 1) as [-> | [-> | ->]] by lia; simpl; auto.
    + apply seqb_true. apply codeAt_window; [|done|rewrite window_shift; lia].
      assert (1 <= t / DefaultPeriod) by (apply Z.div_le_lower_bound; lia). nia.
Qed.

Lemma totp_window_witness :
  Validate rfc_secret "287082" 89000000000 = Some true.
Proof.
  apply (totp_window (bytes_of_string "12345678901234567890") "287082" 89000000000).
  - repeat constructor; done.
  - vm_compute. discriminate.
  - exists 59000000000. split; [done|]. split; vm_compute; done.
Defined.
