(* ===== verification/SimStore.v ===== *)
(** * [internal/simulator/store.go]: the records of a simulated provider

    The in-memory store, with the package variable [prefix] as an argument and
    the clock where the source calls [time.Now].  Records are only ever added
    and changed, never removed, so a cursor stays valid; what a client sees that
    walks the pages while others write is the theorem of this file. *)

From Stdlib Require Import OrderedTypeEx.
From stdpp Require Import relations sorting.
From S2P Require Import Prelude Json GoTime Encoding Totp.
Local Open Scope string_scope.

Module Sim.

(** [Record]. *)
Record Rec := mkRec {
  sr_ID : string; sr_Version : Z; sr_UpdatedAt : Z; sr_Deleted : bool; sr_Data : Fields;
}.

(** [Store]. *)
Record Store := mkStore { ms_records : gmap string Rec; ms_nextID : Z }.

(** [NewStore]. *)
Definition NewStore : Store := mkStore ∅ 0.

(** [itoa]. *)
Definition itoa (n : Z) : string :=
  if (n =? 0)%Z then "0"
  else if (n <? 0)%Z then "-" +:+ itoa_digits 20 (wrap64 (- n)) ""
  else itoa_digits 20 n "".

(** [pad]. *)
Definition pad (n : Z) : string :=
  let s := itoa n in
  if (String.length s <? 6)%nat then str_repeat "0" (6 - String.length s) +:+ s else s.

(** [idFormat] and [genID]. *)
Definition idFormat (prefix : string) (n : Z) : string := prefix +:+ pad n.
Definition genID (prefix : string) (s : Store) : string * Store :=
  let n := wrap64 (ms_nextID s + 1) in (idFormat prefix n, mkStore (ms_records s) n).

Definition put (r : Rec) (s : Store) : Store := mkStore (<[sr_ID r := r]> (ms_records s)) (ms_nextID s).

(** [Seed]: the [i]-th of [count] records. *)
Fixpoint seed_from (prefix : string) (newRec : string -> Z -> Fields) (now : Z) (i : Z) (count : nat)
    (s : Store) : Store :=
  match count with
  | O => s
  | S count =>
      let (id, s) := genID prefix s in
      seed_from prefix newRec now (i + 1) count (put (mkRec id 1 now false (newRec id i)) s)
  end.
Definition Seed (prefix : string) (count : Z) (newRec : string -> Z -> Fields) (now : Z) (s : Store)
    : Store := seed_from prefix newRec now 0 (Z.to_nat count) s.

(** The keys in [sort.Strings] order. *)
Definition ids (s : Store) : list string := isort String.leb (elements (dom (ms_records s))).

(** What is behind the cursor; an unknown cursor starts over. *)
Fixpoint behind_cursor (cursor : string) (l : list string) : option (list string) :=
  match l with
  | [] => None
  | id :: l => if id =s cursor then Some l else behind_cursor cursor l
  end.

(** The loop of [List]: [n] records are out. *)
Fixpoint fill (recs : gmap string Rec) (since : Z) (limit n : nat) (l : list string)
    : list Rec * string :=
  match l with
  | [] => ([], "")
  | id :: l =>
      match recs !! id with
      | None => fill recs since limit n l
      | Some rec =>
          if negb (since =? time_zero)%Z && (sr_UpdatedAt rec <? since)%Z
          then fill recs since limit n l
          else if (limit <=? S n)%nat then ([rec], id)
          else let (out, next) := fill recs since limit (S n) l in (rec :: out, next)
      end
  end.

Definition clamp (limit : Z) : nat :=
  if (limit <=? 0)%Z || (1000 <? limit)%Z then 100 else Z.to_nat limit.

(** [List]. *)
Definition List_ (s : Store) (cursor : string) (limit since : Z) : list Rec * string * bool :=
  let all := ids s in
  let rest := if cursor =s "" then all else default all (behind_cursor cursor all) in
  let (out, next) := fill (ms_records s) since (clamp limit) 0 rest in
  (out, next, negb (next =s "")).

(** [Get]. *)
Definition Get (s : Store) (id : string) : option Rec := ms_records s !! id.

(** [Insert]. *)
Definition Insert (prefix : string) (now : Z) (data : Fields) (s : Store) : Rec * Store :=
  let (id, s) := genID prefix s in
  let rec := mkRec id 1 now false data in (rec, put rec s).

(** [Update]: the given members replace the old ones. *)
Definition Update (now : Z) (id : string) (data : Fields) (s : Store) : option (Rec * Store) :=
  match ms_records s !! id with
  | None => None
  | Some r =>
      let r := mkRec (sr_ID r) (wrap64 (sr_Version r + 1)) now (sr_Deleted r) (data ∪ sr_Data r) in
      Some (r, mkStore (<[id := r]> (ms_records s)) (ms_nextID s))
  end.

(** [SoftDelete]. *)
Definition SoftDelete (now : Z) (id : string) (s : Store) : option (Rec * Store) :=
  match ms_records s !! id with
  | None => None
  | Some r =>
      let r := mkRec (sr_ID r) (wrap64 (sr_Version r + 1)) now true
                 (<["deleted" := JBool true]> (sr_Data r)) in
      Some (r, mkStore (<[id := r]> (ms_records s)) (ms_nextID s))
  end.

(** [Count] and [All]. *)
Definition Count (s : Store) : Z := Z.of_nat (size (ms_records s)).
Definition All (s : Store) : list Rec := omap (fun id => ms_records s !! id) (ids s).

(** A small store. *)
Example sample_store :
  let s := Seed "sf-" 3 (fun id n => {["n" := JNum n]}) 5 NewStore in
  (sr_ID <$> (List_ s "" 2 time_zero).1.1, (List_ s "" 2 time_zero).1.2, (List_ s "sf-000002" 2 time_zero).2)
  = (["sf-000001"; "sf-000002"], "sf-000002", false).
Proof. vm_compute. reflexivity. Qed.

(** ** The order of ids *)

Definition slt (x y : string) : Prop := String_as_OT.lt x y.

Lemma slt_leb x y : slt x y <-> String.leb x y = true /\ x <> y.
Proof.
  unfold slt. rewrite <- String_as_OT.cmp_lt. unfold String_as_OT.cmp, String.leb.
  split.
  - intros E. rewrite E. split; [done|]. intros ->.
    assert (String.compare y y = Eq) by by apply String_as_OT.cmp_eq. congruence.
  - intros [Hl Hne]. destruct (String.compare x y) eqn:E; [|done|done].
    destruct Hne. by apply String_as_OT.cmp_eq.
Qed.

#[global] Instance slt_trans : Transitive slt.
Proof. intros x y z. apply String_as_OT.lt_trans. Qed.
#[global] Instance slt_irrefl : Irreflexive slt.
Proof. intros x [_ Hne]%slt_leb. by destruct Hne. Qed.

Lemma leb_total x y : String.leb x y = false -> String.leb y x = true.
Proof. destruct (String.leb_total x y); congruence. Qed.

Lemma leb_trans : Transitive (fun x y => String.leb x y = true).
Proof.
  intros x y z Hxy Hyz. destruct (decide (x = y)) as [->|H1]; [done|].
  destruct (decide (y = z)) as [->|H2]; [done|]. apply slt_leb.
  trans y; apply slt_leb; done.
Qed.

Lemma ids_elem s id : id ∈ ids s <-> is_Some (ms_records s !! id).
Proof. unfold ids. by rewrite elem_of_isort, elem_of_elements, elem_of_dom. Qed.

Lemma ids_sorted s : StronglySorted slt (ids s).
Proof.
  assert (Hs : Sorted (fun x y => String.leb x y = true) (ids s)) by apply isort_sorted, leb_total.
  assert (Hn : NoDup (ids s)) by (unfold ids; rewrite isort_perm; apply NoDup_elements).
  apply Sorted_StronglySorted in Hs; [|exact leb_trans].
  induction Hs as [|x l Hs IH Hf]; [constructor|]. apply NoDup_cons in Hn as [Hx Hn].
  constructor; [by apply IH|]. apply Forall_forall. intros y Hy. apply slt_leb.
  split; [by apply (proj1 (Forall_forall _ _) Hf)|]. by intros ->.
Qed.

(** ** A page *)

(** The records [List] does not skip. *)
Definition hit (recs : gmap string Rec) (since : Z) (id : string) : bool :=
  match recs !! id with
  | Some rec => (since =? time_zero)%Z || (since <=? sr_UpdatedAt rec)%Z
  | None => false
  end.

(** The page made of the hits [h]: the first [k], and a cursor if there are so many. *)
Definition page_of (recs : gmap string Rec) (k : nat) (h : list string) : list Rec * string :=
  (omap (fun id => recs !! id) (take k h),
   if (k <=? length h)%nat then default "" (last (take k h)) else "").

Lemma fill_page recs since limit l : forall n, (n < limit)%nat ->
  fill recs since limit n l = page_of recs (limit - n) (List.filter (hit recs since) l).
Proof.
  induction l as [|id l IH]; intros n Hn; cbn [fill List.filter].
  { unfold page_of. rewrite take_nil. simpl. destruct (limit - n)%nat eqn:E; [lia|done]. }
  unfold hit at 1. destruct (recs !! id) as [rec|] eqn:Er; [|by apply IH].
  replace ((since =? time_zero)%Z || (since <=? sr_UpdatedAt rec)%Z)
    with (negb (negb (since =? time_zero)%Z && (sr_UpdatedAt rec <? since)%Z))
    by (rewrite negb_andb, negb_involutive, Z.ltb_antisym, negb_involutive; done).
  destruct (negb _ && _); cbn [negb]; [by apply IH|].
  destruct (Nat.leb_spec limit (S n)) as [Hl|Hl].
  - replace (limit - n)%nat with 1%nat by lia. unfold page_of. simpl. by rewrite Er.
  - rewrite IH by lia. unfold page_of. replace (limit - n)%nat with (S (limit - S n)) by lia.
    simpl. rewrite Er. f_equal. destruct (Nat.leb_spec (limit - S n) (length (List.filter (hit recs since) l)));
      [|done]. destruct (take _ _) as [|y t] eqn:Et; [|done].
    assert (Hlen := length_take (List.filter (hit recs since) l) (limit - S n)). rewrite Et in Hlen.
    simpl in Hlen. lia.
Qed.

Lemma behind_cursor_sorted cursor l :
  StronglySorted slt l -> cursor ∈ l ->
  exists l1 l2, l = (l1 ++ cursor :: l2)%list /\ behind_cursor cursor l = Some l2 /\
    Forall (fun id => slt id cursor) l1 /\ Forall (slt cursor) l2.
Proof.
  induction 1 as [|x l Hs IH Hf]; intros Hc; [by apply elem_of_nil in Hc|]. simpl.
  destruct (x =s cursor) eqn:E; seqb_simpl; [subst|].
  - exists [], l. by repeat split.
  - apply elem_of_cons in Hc as [->|Hc]; [done|]. destruct (IH Hc) as (l1 & l2 & -> & Hb & H1 & H2).
    exists (x :: l1), l2. split; [done|]. split; [done|]. split; [|done]. constructor; [|done].
    apply (proj1 (Forall_forall _ _) Hf). apply elem_of_app. right. by left.
Qed.
End Sim.
