(* ===== verification/SimWalk.v ===== *)
(** * Walking the pages of a simulated provider

    Ids are never given twice, so a write never replaces another record; and a
    client that follows the cursors sees every record that was there when it
    started, once, in order, whatever is written while it walks. *)

From stdpp Require Import relations.
From S2P Require Import Prelude Json GoTime Encoding Totp SimStore.
Local Open Scope string_scope.

Section ids.
Import Sim.

(** ** Numbers and ids *)

Lemma decimal_itoa k n acc :
  (0 <= n < 10 ^ Z.of_nat k)%Z ->
  decimal (itoa_digits k n acc)
  = foldl (fun n c => 10 * n + (ord c - 48))%Z n (String.list_ascii_of_string acc).
Proof.
  revert n acc. induction k as [|k IH]; intros n acc Hn.
  { assert (n = 0)%Z as -> by (simpl in Hn; lia). done. }
  destruct (decide (n = 0)%Z) as [->|Hne]; [by rewrite itoa_digits_zero|].
  rewrite itoa_digits_pos by lia. rewrite IH.
  - simpl. rewrite ord_digit. f_equal. pose proof (Z.div_mod n 10). lia.
  - rewrite Nat2Z.inj_succ, Z.pow_succ_r in Hn by lia. split; [apply Z.div_pos; lia|].
    apply Z.div_lt_upper_bound; lia.
Qed.

Lemma decimal_zeros k s : decimal (str_repeat "0" k +:+ s) = decimal s.
Proof. induction k as [|k IH]; [done|]. exact IH. Qed.

Lemma decimal_pad n : (0 < n < 2 ^ 63)%Z -> decimal (pad n) = n.
Proof.
  intros Hn. assert (decimal (itoa n) = n) as Hi.
  { unfold itoa. destruct (Z.eqb_spec n 0); [lia|]. destruct (Z.ltb_spec n 0); [lia|].
    rewrite decimal_itoa; [done|]. change (10 ^ Z.of_nat 20)%Z with 100000000000000000000%Z. lia. }
  unfold pad. case_match; [by rewrite decimal_zeros|done].
Qed.

Lemma pad_nonempty n : pad n <> "".
Proof.
  unfold pad. destruct (Nat.ltb_spec (String.length (itoa n)) 6).
  - destruct (6 - String.length (itoa n))%nat eqn:E; [lia|done].
  - intros E. rewrite E in *. simpl in *. lia.
Qed.

Lemma idFormat_inj p n m :
  (0 < n < 2 ^ 63)%Z -> (0 < m < 2 ^ 63)%Z -> idFormat p n = idFormat p m -> n = m.
Proof.
  intros Hn Hm E. unfold idFormat in E. apply str_app_inj_l in E.
  rewrite <- (decimal_pad n), <- (decimal_pad m) by done. by rewrite E.
Qed.

Lemma idFormat_nonempty p n : idFormat p n <> "".
Proof. unfold idFormat. destruct p; simpl; [apply pad_nonempty|done]. Qed.

(** ** The invariant *)

(** Every record is under its own id, an id given before. *)
Record Wf (prefix : string) (s : Store) : Prop := mkWf {
  wf_next : (0 <= ms_nextID s)%Z;
  wf_key : forall id r, ms_records s !! id = Some r ->
    sr_ID r = id /\ exists n, (1 <= n <= ms_nextID s)%Z /\ id = idFormat prefix n;
}.

Lemma Wf_nonempty p s id : Wf p s -> is_Some (ms_records s !! id) -> id <> "".
Proof. intros Hw (r & Hr). apply (wf_key _ _ Hw) in Hr as (_ & n & _ & ->). apply idFormat_nonempty. Qed.

Lemma Wf_new p : Wf p NewStore.
Proof. split; [done|]. intros id r Hr. cbn in Hr. by rewrite lookup_empty in Hr. Qed.

(** Room for another id. *)
Definition room (k : Z) (s : Store) : Prop := (ms_nextID s + k < 2 ^ 63)%Z.

Lemma next_id s : (0 <= ms_nextID s)%Z -> room 1 s -> wrap64 (ms_nextID s + 1) = (ms_nextID s + 1)%Z.
Proof.
  intros H0 Hr. unfold room in Hr. apply wrap64_id. unfold in_int64, int64_min, int64_max.
  apply andb_true_intro. split; apply Z.leb_le; lia.
Qed.

Lemma genID_fresh p s : Wf p s -> room 1 s -> ms_records s !! (genID p s).1 = None.
Proof.
  intros Hw Hr. unfold genID. simpl. rewrite next_id by (apply Hw || done).
  destruct (ms_records s !! _) as [r|] eqn:E; [|done].
  apply (wf_key _ _ Hw) in E as (_ & n & Hn & E). unfold room in Hr.
  apply idFormat_inj in E; lia.
Qed.

Lemma put_new_wf p s r :
  Wf p s -> room 1 s -> sr_ID r = (genID p s).1 -> Wf p (put r (genID p s).2).
Proof.
  intros Hw Hr Hi. unfold genID in *. simpl in *. rewrite next_id in * by (apply Hw || done).
  destruct Hw as [H0 Hk]. split; simpl; [lia|]. intros id x.
  rewrite lookup_insert_Some. intros [[<- <-]|[_ Hx]].
  - split; [done|]. exists (ms_nextID s + 1)%Z. split; [lia|done].
  - destruct (Hk id x Hx) as (? & n & ? & ?). split; [done|]. exists n. split; [lia|done].
Qed.

Lemma replace_wf p s id r r' :
  Wf p s -> ms_records s !! id = Some r -> sr_ID r' = sr_ID r ->
  Wf p (mkStore (<[id := r']> (ms_records s)) (ms_nextID s)).
Proof.
  intros [H0 Hk] Hr Hi. split; simpl; [done|]. intros x y.
  rewrite lookup_insert_Some. intros [[<- <-]|[_ Hy]]; [|by apply Hk].
  destruct (Hk id r Hr). split; [congruence|done].
Qed.
End ids.

Section walk.
Import Sim.
Context (prefix : string).

(** One write to the store. *)
Inductive write : Store -> Store -> Prop :=
| write_insert now data s : room 1 s -> write s (Insert prefix now data s).2
| write_update now id data s r s' : Update now id data s = Some (r, s') -> write s s'
| write_delete now id s r s' : SoftDelete now id s = Some (r, s') -> write s s'
| write_seed count newRec now s : (0 <= count)%Z -> room count s ->
    write s (Seed prefix count newRec now s).

(** Every record is still there, under its id. *)
Definition grows (s s' : Store) : Prop :=
  forall id, is_Some (ms_records s !! id) -> is_Some (ms_records s' !! id).

#[global] Instance grows_preorder : PreOrder grows.
Proof. split; unfold grows; [by intros s|]. intros s1 s2 s3 H1 H2 id H. auto. Qed.

Lemma insert_grows id r s n : grows s (mkStore (<[id := r]> (ms_records s)) n).
Proof. intros x H. simpl. apply lookup_insert_is_Some'. by right. Qed.

Lemma seed_from_wf newRec now count : forall i s,
  Wf prefix s -> room (Z.of_nat count) s ->
  Wf prefix (seed_from prefix newRec now i count s) /\ grows s (seed_from prefix newRec now i count s).
Proof.
  induction count as [|count IH]; intros i s Hw Hr; [by split|].
  assert (room 1 s) as H1 by (unfold room in *; lia). cbn [seed_from].
  destruct (genID prefix s) as [id s1] eqn:Eg. pose proof (put_new_wf prefix s
    (mkRec id 1 now false (newRec id i)) Hw H1) as Hw'. rewrite Eg in Hw'. specialize (Hw' eq_refl). cbn [snd] in Hw'.
  destruct (IH (i + 1)%Z _ Hw') as [Hw2 Hg2].
  - unfold genID in Eg. rewrite next_id in Eg by (apply Hw || done). simplify_eq.
    unfold room in *. simpl. lia.
  - split; [exact Hw2|]. etrans; [|exact Hg2].
    assert (grows s s1) by (unfold genID in Eg; simplify_eq; by intros x). etrans; [done|apply insert_grows].
Qed.

Lemma write_wf s s' : Wf prefix s -> write s s' -> Wf prefix s' /\ grows s s'.
Proof.
  intros Hw Hs. revert Hw.
  destruct Hs as [now data s H|now id data s r s' H|now id s r s' H|count newRec now s H Hr]; intros Hw.
  - unfold Insert. pose proof (put_new_wf prefix s (mkRec (genID prefix s).1 1 now false data) Hw H eq_refl).
    split; [done|]. exact (insert_grows _ _ s _).
  - unfold Update in H. destruct (ms_records s !! id) as [x|] eqn:E; [|done]. simplify_eq.
    split; [by eapply replace_wf|apply insert_grows].
  - unfold SoftDelete in H. destruct (ms_records s !! id) as [x|] eqn:E; [|done]. simplify_eq.
    split; [by eapply replace_wf|apply insert_grows].
  - apply seed_from_wf; [done|]. unfold room in *. lia.
Qed.

Lemma writes_wf s s' : Wf prefix s -> rtc write s s' -> Wf prefix s' /\ grows s s'.
Proof.
  intros Hw Hs. induction Hs as [|s1 s2 s3 H1 _ IH]; [done|].
  destruct (write_wf _ _ Hw H1) as [Hw2 Hg]. destruct (IH Hw2). split; [done|by etrans].
Qed.

(** ** One page *)

Lemma clamp_pos limit : (0 < clamp limit)%nat.
Proof.
  unfold clamp. destruct (Z.leb_spec limit 0); [simpl; lia|].
  destruct (Z.ltb_spec 1000 limit); simpl; lia.
Qed.

(** A cursor a client can hold. *)
Definition valid (s : Store) (cursor : string) : Prop :=
  cursor = "" \/ is_Some (ms_records s !! cursor).

Definition beyond (cursor id : string) : Prop := cursor = "" \/ slt cursor id.

Lemma hits_all s (l : list string) : (forall id, id ∈ l -> is_Some (ms_records s !! id)) ->
  List.filter (hit (ms_records s) time_zero) l = l.
Proof.
  induction l as [|id l IH]; intros Hl; [done|]. simpl. unfold hit at 1.
  destruct (Hl id) as [r ->]; [by left|]. simpl. f_equal. apply IH. intros x Hx. apply Hl. by right.
Qed.

Lemma lookup_ids s (l : list string) : Wf prefix s -> (forall id, id ∈ l -> is_Some (ms_records s !! id)) ->
  sr_ID <$> omap (fun id => ms_records s !! id) l = l.
Proof.
  intros Hw. induction l as [|id l IH]; intros Hl; [done|]. simpl.
  destruct (Hl id) as [r Hr]; [by left|]. rewrite Hr. simpl.
  destruct (wf_key _ _ Hw id r Hr) as [-> _]. f_equal. apply IH. intros x Hx. apply Hl. by right.
Qed.

(** A full listing from a valid cursor: the ids beyond it, in order, cut after
    the page size; the next cursor is the last of a full page. *)
Lemma List_page s cursor limit :
  Wf prefix s -> valid s cursor ->
  exists rest : list string, StronglySorted slt rest /\
    (forall id, id ∈ rest <-> is_Some (ms_records s !! id) /\ beyond cursor id) /\
    let r := List_ s cursor limit time_zero in
    sr_ID <$> r.1.1 = take (clamp limit) rest /\
    r.1.2 = (if (clamp limit <=? length rest)%nat then default "" (last (take (clamp limit) rest)) else "") /\
    r.2 = (clamp limit <=? length rest)%nat.
Proof.
  intros Hw Hc.
  set (rest := if cursor =s "" then ids s else default (ids s) (behind_cursor cursor (ids s))).
  exists rest. pose proof (ids_sorted s) as Hs.
  assert (Hrest : StronglySorted slt rest /\
    forall id, id ∈ rest <-> is_Some (ms_records s !! id) /\ beyond cursor id).
  { unfold rest, beyond. destruct (cursor =s "") eqn:E; seqb_simpl.
    { split; [done|]. intros id. rewrite ids_elem. split; [auto|by intros [? _]]. }
    destruct Hc as [?|Hc]; [done|]. apply ids_elem in Hc.
    destruct (behind_cursor_sorted cursor (ids s) Hs Hc) as (l1 & l2 & El & -> & H1 & H2).
    simpl. split.
    { rewrite El in Hs. clear -Hs. induction l1 as [|x l1 IH]; simpl in Hs; inversion Hs; auto. }
    intros id. rewrite <- ids_elem, El, elem_of_app, elem_of_cons. split.
    - intros Hid. split; [auto|]. right. by apply (proj1 (Forall_forall _ _) H2).
    - intros [[Hid|[->|Hid]] [?|Hlt]]; try done; exfalso; [|exact (slt_irrefl _ Hlt)].
      apply (proj1 (Forall_forall _ _) H1) in Hid. exact (slt_irrefl _ (slt_trans _ _ _ Hlt Hid)). }
  destruct Hrest as [Hsort Hin]. split; [done|]. split; [done|]. cbv zeta.
  assert (Hl : forall id, id ∈ rest -> is_Some (ms_records s !! id)) by (intros id Hid; by apply Hin).
  unfold List_. fold rest. rewrite fill_page by apply clamp_pos. rewrite hits_all, Nat.sub_0_r by done.
  unfold page_of. simpl.
  assert (Hsub : forall id, id ∈ take (clamp limit) rest -> is_Some (ms_records s !! id)).
  { intros id Hid. apply Hl. by apply subseteq_take in Hid. }
  split; [by apply lookup_ids|]. split; [done|].
  destruct (Nat.leb_spec (clamp limit) (length rest)) as [Hle|Hle]; [|done].
  destruct (last (take (clamp limit) rest)) as [x|] eqn:El; simpl.
  - rewrite seqb_ne; [done|]. eapply Wf_nonempty; [done|]. apply Hsub. by apply last_Some_elem_of.
  - apply last_None in El. pose proof (length_take rest (clamp limit)) as Hlen. rewrite El in Hlen.
    pose proof (clamp_pos limit). simpl in Hlen. lia.
Qed.

(** ** A walk *)

(** The pages a client reads from the cursor [cur] on, with any writes in
    between, the first from [s]. *)
Inductive walk (limit : Z) : Store -> string -> list Rec -> Prop :=
| walk_last s cur out : List_ s cur limit time_zero = (out, "", false) -> walk limit s cur out
| walk_more s cur out next s' outs : List_ s cur limit time_zero = (out, next, true) ->
    rtc write s s' -> walk limit s' next outs -> walk limit s cur (out ++ outs)%list.

Lemma StronglySorted_take {A} (R : A -> A -> Prop) n l : StronglySorted R l -> StronglySorted R (take n l).
Proof.
  intros Hs. revert n. induction Hs as [|x l Hs IH Hf]; intros [|n]; simpl; constructor; [auto|].
  by apply Forall_take.
Qed.

Lemma StronglySorted_join (l1 l2 : list string) x :
  StronglySorted slt l1 -> StronglySorted slt l2 -> last l1 = Some x ->
  (forall y, y ∈ l2 -> slt x y) -> StronglySorted slt (l1 ++ l2)%list.
Proof.
  induction 1 as [|y l Hs IH Hf]; intros H2 Hl Hx; [done|]. simpl. constructor.
  - destruct l as [|z l]; [done|]. apply IH; [done|exact Hl|done].
  - apply Forall_app. split; [done|]. apply Forall_forall. intros z Hz.
    destruct l as [|w l]; simpl in *; [by simplify_eq; apply Hx|].
    etrans; [apply (proj1 (Forall_forall _ _) Hf); by eapply last_Some_elem_of|by apply Hx].
Qed.

(** What is left of a sorted list after its first [k] is beyond the last of them. *)
Lemma take_split (l : list string) k x id :
  StronglySorted slt l -> last (take k l) = Some x -> id ∈ l -> id ∈ take k l \/ slt x id.
Proof.
  intros Hs Hx Hid. rewrite <- (take_drop k l) in Hid, Hs. apply elem_of_app in Hid as [?|Hid]; [by left|right].
  apply last_Some in Hx as (l' & Hx). rewrite Hx, <- app_assoc in Hs. clear Hx.
  induction l' as [|y l' IH]; simpl in Hs; apply StronglySorted_inv in Hs as [Hs Hf]; [|auto].
  by apply (proj1 (Forall_forall _ _) Hf).
Qed.

Lemma walk_sees limit s cur outs :
  walk limit s cur outs -> Wf prefix s -> valid s cur ->
  StronglySorted slt (sr_ID <$> outs) /\ (forall id, id ∈ sr_ID <$> outs -> beyond cur id) /\
  forall id, is_Some (ms_records s !! id) -> beyond cur id -> id ∈ sr_ID <$> outs.
Proof.
  induction 1 as [s cur out E|s cur out next s' outs E Hw _ IH]; intros Hwf Hc;
    destruct (List_page s cur limit Hwf Hc) as (rest & Hs & Hin & Ho & Hn & Hm);
    rewrite E in Ho, Hn, Hm; simpl in Ho, Hn, Hm.
  - rewrite Ho. symmetry in Hm. apply Nat.leb_gt in Hm. rewrite take_ge by lia.
    split; [done|]. split; intros id; [by intros [_ ?]%Hin|]. intros H1 H2. by apply Hin.
  - symmetry in Hm. rewrite Hm in Hn. apply Nat.leb_le in Hm.
    destruct (last (take (clamp limit) rest)) as [x|] eqn:El.
    2:{ apply last_None in El. pose proof (length_take rest (clamp limit)) as Hlen.
        rewrite El in Hlen. pose proof (clamp_pos limit). simpl in Hlen. lia. }
    simpl in Hn. subst next. destruct (writes_wf s s' Hwf Hw) as [Hwf' Hg].
    assert (Hx : x ∈ take (clamp limit) rest) by by apply last_Some_elem_of.
    assert (Hxr : x ∈ rest) by by apply subseteq_take in Hx. apply Hin in Hxr as [Hxs Hxb].
    destruct IH as (Hs2 & Hb2 & Hall2); [done|right; by apply Hg|].
    assert (Hxne : x <> "") by exact (Wf_nonempty prefix s x Hwf Hxs).
    assert (Hafter : forall id, id ∈ sr_ID <$> outs -> slt x id) by (intros id Hid; by destruct (Hb2 id Hid)).
    rewrite fmap_app, Ho. split; [|split].
    + eapply StronglySorted_join; [by apply StronglySorted_take|done|done|done].
    + intros id [Hid|Hid]%elem_of_app; [apply subseteq_take in Hid; by apply Hin in Hid as []|].
      destruct Hxb as [->|Hlt]; [by left|right]. etrans; [exact Hlt|by apply Hafter].
    + intros id H1 H2. apply elem_of_app.
      destruct (take_split rest (clamp limit) x id Hs El) as [Hid|Hid]; [by apply Hin|by left|right].
      apply Hall2; [by apply Hg|by right].
Qed.
End walk.

(** C37: a client that walks the pages misses nothing and sees nothing twice.
    Whatever is created, changed, deleted or seeded between two of its requests,
    the records it collected, page after page until one says there are no more,
    are in strictly increasing order of their ids and contain every record that
    was in the store when it began. *)
Theorem walk_complete (prefix : string) (limit : Z) (s : Sim.Store) (outs : list Sim.Rec) :
  Wf prefix s -> walk prefix limit s "" outs ->
  StronglySorted Sim.slt (Sim.sr_ID <$> outs) /\
  (forall id, is_Some (Sim.ms_records s !! id) -> id ∈ Sim.sr_ID <$> outs).
Proof.
  intros Hw Hs. destruct (walk_sees prefix limit s "" outs Hs Hw (or_introl eq_refl)) as (H1 & _ & H2).
  split; [done|]. intros id Hid. apply H2; [done|by left].
Qed.

Definition three_records : Sim.Store :=
  Sim.Seed "sf-" 3 (fun id n => {["n" := JNum n]}) 5 Sim.NewStore.

Lemma three_wf : Wf "sf-" three_records.
Proof.
  apply (seed_from_wf "sf-" (fun id n => {["n" := JNum n]}) 5 3 0 Sim.NewStore); [apply Wf_new|].
  unfold room. simpl. lia.
Qed.

Lemma walk_complete_witness :
  let outs := ((Sim.List_ three_records "" 2 time_zero).1.1 ++
    (Sim.List_ (Sim.Insert "sf-" 6 ∅ three_records).2 "sf-000002" 2 time_zero).1.1 ++
    (Sim.List_ (Sim.Insert "sf-" 6 ∅ three_records).2 "sf-000004" 2 time_zero).1.1)%list in
  "sf-000003" ∈ Sim.sr_ID <$> outs.
Proof.
  apply (walk_complete "sf-" 2 three_records).
  - apply three_wf.
  - eapply walk_more; [vm_compute; reflexivity| |].
    + apply rtc_once. apply (write_insert "sf-" 6 ∅). unfold room. vm_compute. reflexivity.
    + eapply walk_more; [vm_compute; reflexivity|apply rtc_refl|].
      apply walk_last. vm_compute. reflexivity.
  - vm_compute. eexists. reflexivity.
Defined.
