(* ===== verification/JsonText.v ===== *)
(** * Reading JSON texts: [json.Unmarshal]

    The decoder for the one text the program reads back itself, the claims of a
    session token.  Objects keep their members last first, so that looking a
    member up finds the last of several, as the decoder does.  A number literal
    with a fraction or an exponent is refused: the claims have none, and where an
    integer is wanted Go refuses it as well.  Strings are byte strings; bytes
    above 127 pass through, as well-formed UTF-8 does. *)

From S2P Require Import Prelude Json Crypto Encoding.
Local Open Scope string_scope.
#[local] Arguments String.append !_ _ /.

(** ** Strings *)

Definition hex4 (a b c d : ascii) : option Z :=
  match hex_val a, hex_val b, hex_val c, hex_val d with
  | Some a, Some b, Some c, Some d => Some (((a * 16 + b) * 16 + c) * 16 + d)%Z
  | _, _, _, _ => None
  end.

(** The UTF-8 form of a code point. *)
Definition utf8 (u : Z) : string :=
  (if u <? 128 then string_of_bytes [u]
   else if u <? 2048 then string_of_bytes [192 + u / 64; 128 + u mod 64]
   else if u <? 65536 then string_of_bytes [224 + u / 4096; 128 + u / 64 mod 64; 128 + u mod 64]
   else string_of_bytes [240 + u / 262144; 128 + u / 4096 mod 64; 128 + u / 64 mod 64; 128 + u mod 64])%Z.

Definition high_surrogate (u : Z) : bool := ((55296 <=? u) && (u <? 56320))%Z.
Definition low_surrogate (u : Z) : bool := ((56320 <=? u) && (u <? 57344))%Z.
Definition replacement : string := utf8 65533.

Definition simple_escape (e : ascii) : option ascii :=
  match N_of_ascii e with
  | 34%N | 92%N | 47%N => Some e
  | 98%N => Some "008"%char | 102%N => Some "012"%char | 110%N => Some "010"%char
  | 114%N => Some "013"%char | 116%N => Some "009"%char
  | _ => None
  end.

Definition prepend (t : string) (o : option (string * string)) : option (string * string) :=
  match o with Some (u, r) => Some (t +:+ u, r) | None => None end.

(** The rest of a string literal after its opening quote. *)
Fixpoint parse_string (s : string) : option (string * string) :=
  match s with
  | "" => None
  | String c r =>
      if Ascii.eqb c "034" then Some ("", r)
      else if Ascii.eqb c "092" then
        match r with
        | "" => None
        | String e r =>
            if Ascii.eqb e "u" then
              match r with
              | String h1 (String h2 (String h3 (String h4 r))) =>
                  match hex4 h1 h2 h3 h4 with
                  | None => None
                  | Some u =>
                      if high_surrogate u then
                        match r with
                        | String "092" (String "u" (String g1 (String g2 (String g3 (String g4 r'))))) =>
                            match hex4 g1 g2 g3 g4 with
                            | Some v =>
                                if low_surrogate v
                                then prepend (utf8 (65536 + (u - 55296) * 1024 + (v - 56320))) (parse_string r')
                                else prepend replacement (parse_string r)
                            | None => None
                            end
                        | _ => prepend replacement (parse_string r)
                        end
                      else if low_surrogate u then prepend replacement (parse_string r)
                      else prepend (utf8 u) (parse_string r)
                  end
              | _ => None
              end
            else
              match simple_escape e with
              | Some c => prepend (String c "") (parse_string r)
              | None => None
              end
        end
      else if (N_of_ascii c <? 32)%N then None
      else prepend (String c "") (parse_string r)
  end.

(** ** Numbers *)

Definition digit_of (c : ascii) : option Z :=
  let n := ord c in if ((48 <=? n) && (n <=? 57))%Z then Some (n - 48)%Z else None.

(** The digits ahead, after those that make up [acc]. *)
Fixpoint scan_nat (acc : Z) (s : string) : Z * string :=
  match s with
  | String c r =>
      match digit_of c with Some d => scan_nat (acc * 10 + d) r | None => (acc, s) end
  | "" => (acc, "")
  end.

Definition starts_with_zero (s : string) : bool :=
  match s with String "0" (String c _) => bool_decide (is_Some (digit_of c)) | _ => false end.

Definition parse_natural (s : string) : option (Z * string) :=
  match s with
  | "" => None
  | String c _ =>
      match digit_of c with
      | None => None
      | Some _ =>
          if starts_with_zero s then None
          else
            let (n, r) := scan_nat 0 s in
            match r with
            | String "." _ | String "e" _ | String "E" _ => None
            | _ => Some (n, r)
            end
      end
  end.

(** ** Values *)

Fixpoint skip_space (s : string) : string :=
  match s with
  | String c r =>
      match N_of_ascii c with 32%N | 9%N | 10%N | 13%N => skip_space r | _ => s end
  | "" => ""
  end.

(** A value, the elements of an array, the members of an object: [fuel] bounds
    the length of the text. *)
Fixpoint parse_value (fuel : nat) (s : string) : option (Json * string) :=
  match fuel with
  | O => None
  | S fuel =>
      match skip_space s with
      | String "034" r =>
          match parse_string r with Some (t, r) => Some (JStr t, r) | None => None end
      | String "{" r =>
          match skip_space r with
          | String "}" r => Some (JObj [], r)
          | _ => parse_members fuel [] r
          end
      | String "[" r =>
          match skip_space r with
          | String "]" r => Some (JArr [], r)
          | _ => parse_elements fuel [] r
          end
      | String "t" (String "r" (String "u" (String "e" r))) => Some (JBool true, r)
      | String "f" (String "a" (String "l" (String "s" (String "e" r)))) => Some (JBool false, r)
      | String "n" (String "u" (String "l" (String "l" r))) => Some (JNull, r)
      | String "-" r =>
          match parse_natural r with Some (n, r) => Some (JNum (- n), r) | None => None end
      | r => match parse_natural r with Some (n, r) => Some (JNum n, r) | None => None end
      end
  end
with parse_members (fuel : nat) (acc : list (string * Json)) (s : string) : option (Json * string) :=
  match fuel with
  | O => None
  | S fuel =>
      match skip_space s with
      | String "034" r =>
          match parse_string r with
          | None => None
          | Some (k, r) =>
              match skip_space r with
              | String ":" r =>
                  match parse_value fuel r with
                  | None => None
                  | Some (v, r) =>
                      match skip_space r with
                      | String "," r => parse_members fuel ((k, v) :: acc) r
                      | String "}" r => Some (JObj ((k, v) :: acc), r)
                      | _ => None
                      end
                  end
              | _ => None
              end
          end
      | _ => None
      end
  end
with parse_elements (fuel : nat) (acc : list Json) (s : string) : option (Json * string) :=
  match fuel with
  | O => None
  | S fuel =>
      match parse_value fuel s with
      | None => None
      | Some (v, r) =>
          match skip_space r with
          | String "," r => parse_elements fuel (v :: acc) r
          | String "]" r => Some (JArr (reverse (v :: acc)), r)
          | _ => None
          end
      end
  end.

(** [json.Unmarshal]: one value and nothing after it. *)
Definition Unmarshal (s : string) : option Json :=
  match parse_value (S (String.length s)) s with
  | Some (j, r) => match skip_space r with "" => Some j | _ => None end
  | None => None
  end.

(** ** Reading back what the encoder wrote *)

Lemma parse_string_char c r : parse_string (escape_char c +:+ r) = prepend (String c "") (parse_string r).
Proof. destruct c as [[] [] [] [] [] [] [] []]; reflexivity. Qed.

Lemma parse_string_escape s r : parse_string (escape s +:+ dquote +:+ r) = Some (s, r).
Proof.
  induction s as [|c s IH]; [done|]. cbn [escape]. rewrite str_app_assoc, parse_string_char, IH.
  done.
Qed.

Definition ends_number (s : string) : Prop :=
  match s with
  | "" => True
  | String c _ => digit_of c = None /\ c <> "."%char /\ c <> "e"%char /\ c <> "E"%char
  end.

Lemma scan_nat_end n r : ends_number r -> scan_nat n r = (n, r).
Proof. destruct r as [|c r]; [done|]. intros (Hc & _). simpl. by rewrite Hc. Qed.

Lemma digit_of_pretty x : (x < 10)%N -> digit_of (pretty_N_char x) = Some (Z.of_N x).
Proof.
  intros Hx. assert (x ∈ (seqZ 0 10 : list Z) ≫= fun z => [Z.to_N z]) as Hin.
  { apply list_elem_of_bind. exists (Z.of_N x). split; [|apply elem_of_seqZ; lia].
    rewrite N2Z.id. by apply list_elem_of_singleton. }
  clear Hx. revert x Hin. apply Forall_forall. repeat constructor.
Qed.

Lemma scan_pretty_go x : forall s, scan_nat 0 (pretty_N_go x s) = scan_nat (Z.of_N x) s.
Proof.
  induction (N.lt_wf_0 x) as [x _ IH]. intros s.
  destruct (decide (x = 0)%N) as [->|Hx]; [done|].
  rewrite pretty_N_go_step by lia. rewrite IH by (apply N.div_lt; lia). simpl.
  rewrite digit_of_pretty by (by apply N.mod_lt). f_equal.
  rewrite N2Z.inj_div, N2Z.inj_mod. pose proof (Z.div_mod (Z.of_N x) 10). lia.
Qed.

(** The text of a positive number starts with a digit that is not zero. *)
Lemma pretty_go_head x : forall s, (0 < x)%N ->
  exists d t, pretty_N_go x s = String (pretty_N_char d) t /\ (0 < d < 10)%N.
Proof.
  induction (N.lt_wf_0 x) as [x _ IH]. intros s Hx. rewrite pretty_N_go_step by done.
  destruct (decide (x < 10)%N) as [Hlt|Hge].
  - rewrite N.div_small, pretty_N_go_0 by done. exists x, s. rewrite N.mod_small by done. by split.
  - apply IH; [apply N.div_lt; lia|]. by apply N.div_str_pos; lia.
Qed.

Lemma pretty_go_app x : forall s r, pretty_N_go x s +:+ r = pretty_N_go x (s +:+ r).
Proof.
  induction (N.lt_wf_0 x) as [x _ IH]. intros s r.
  destruct (decide (x = 0)%N) as [->|Hx]; [done|].
  rewrite (pretty_N_go_step x s), (pretty_N_go_step x (s +:+ r)) by lia.
  by rewrite IH by (apply N.div_lt; lia).
Qed.

Lemma parse_natural_pretty (n : Z) r :
  (0 <= n)%Z -> ends_number r -> parse_natural (pretty n +:+ r) = Some (n, r).
Proof.
  intros Hn Hr. assert (pretty n = pretty (Z.to_N n)) as -> by (destruct n; [reflexivity|reflexivity|lia]).
  assert (Hend : match r with
                 | String "." _ | String "e" _ | String "E" _ => None
                 | _ => Some (n, r)
                 end = Some (n, r)).
  { destruct r as [|c r]; [done|]. destruct Hr as (_ & H1 & H2 & H3).
    destruct c as [[] [] [] [] [] [] [] []]; done. }
  unfold pretty, pretty_N. case_decide as E.
  - assert (n = 0%Z) as -> by lia. change ("0" +:+ r) with (String "0" r).
    assert (starts_with_zero (String "0" r) = false) as Hs.
    { destruct r as [|c r]; [done|]. simpl. apply bool_decide_eq_false.
      destruct Hr as (-> & _). by intros [? ?]. }
    unfold parse_natural. rewrite Hs. change (digit_of "0") with (Some 0%Z).
    change (scan_nat 0 (String "0" r)) with (scan_nat 0 r). rewrite scan_nat_end by done. exact Hend.
  - rewrite pretty_go_app. simpl String.append.
    pose proof (scan_pretty_go (Z.to_N n) r) as Hscan. rewrite Z2N.id in Hscan by done.
    destruct (pretty_go_head (Z.to_N n) r) as (d & t & Ed & Hd); [lia|].
    rewrite Ed in *. unfold parse_natural. rewrite digit_of_pretty by lia.
    assert (starts_with_zero (String (pretty_N_char d) t) = false) as ->.
    { assert (pretty_N_char d <> "0"%char) as Hne.
      { intros H0. apply (pretty_N_char_inj d 0) in H0; lia. }
      simpl. destruct (pretty_N_char d) as [[] [] [] [] [] [] [] []]; done. }
    rewrite Hscan, scan_nat_end by done. exact Hend.
Qed.

(** ** Flat objects: members that are strings, natural numbers or booleans *)

Definition flat (v : Json) : Prop :=
  match v with JStr _ | JBool _ => True | JNum n => (0 <= n)%Z | _ => False end.

Definition member_text (kv : string * Json) : string :=
  marshal_string kv.1 +:+ ":" +:+ marshal kv.2.

(** A struct's text: its members in declaration order. *)
Definition object_text (kvs : list (string * Json)) : string :=
  "{" +:+ str_join "," (member_text <$> kvs) +:+ "}".

Lemma parse_value_digit fuel c u :
  digit_of c <> None ->
  parse_value (S fuel) (String c u) =
  match parse_natural (String c u) with Some (n, r) => Some (JNum n, r) | None => None end.
Proof. intros Hc. destruct c as [[] [] [] [] [] [] [] []]; try (by destruct Hc); reflexivity. Qed.

Lemma dquote_app s : dquote +:+ s = String "034" s.
Proof. done. Qed.

Lemma parse_value_quote fuel r :
  parse_value (S fuel) (String "034" r) =
  match parse_string r with Some (t, r) => Some (JStr t, r) | None => None end.
Proof. done. Qed.

Lemma parse_members_quote fuel acc r :
  parse_members (S fuel) acc (String "034" r) =
  match parse_string r with
  | None => None
  | Some (k, r) =>
      match skip_space r with
      | String ":" r =>
          match parse_value fuel r with
          | None => None
          | Some (v, r) =>
              match skip_space r with
              | String "," r => parse_members fuel ((k, v) :: acc) r
              | String "}" r => Some (JObj ((k, v) :: acc), r)
              | _ => None
              end
          end
      | _ => None
      end
  end.
Proof. done. Qed.

Lemma parse_value_flat fuel v r :
  flat v -> ends_number r -> parse_value (S fuel) (marshal v +:+ r) = Some (v, r).
Proof.
  intros Hv Hr. destruct v as [|b|n|t| |]; try done.
  - by destruct b.
  - cbn [marshal]. simpl in Hv. pose proof (parse_natural_pretty n r Hv Hr) as Hp.
    destruct (pretty n +:+ r) as [|c u] eqn:E; [done|].
    rewrite parse_value_digit, Hp; [done|].
    unfold parse_natural in Hp. by destruct (digit_of c).
  - cbn [marshal]. unfold marshal_string. rewrite !str_app_assoc.
    rewrite (dquote_app (escape t +:+ _)), parse_value_quote.
    by rewrite parse_string_escape.
Qed.

Lemma parse_member fuel acc k v r :
  flat v -> ends_number r ->
  parse_members (S (S fuel)) acc (member_text (k, v) +:+ r) =
  match skip_space r with
  | String "," r => parse_members (S fuel) ((k, v) :: acc) r
  | String "}" r => Some (JObj ((k, v) :: acc), r)
  | _ => None
  end.
Proof.
  intros Hv Hr. unfold member_text, marshal_string. cbn [fst snd]. rewrite !str_app_assoc.
  rewrite (dquote_app (escape k +:+ _)), parse_members_quote, parse_string_escape.
  change (":" +:+ marshal v +:+ r) with (String ":" (marshal v +:+ r)). cbn [skip_space].
  change (N_of_ascii ":") with 58%N. cbn iota beta. by rewrite parse_value_flat.
Qed.

Lemma parse_members_flat kvs : forall acc fuel r,
  kvs <> [] -> Forall (fun kv => flat kv.2) kvs -> length kvs < fuel ->
  parse_members fuel acc (str_join "," (member_text <$> kvs) +:+ "}" +:+ r)
  = Some (JObj (reverse kvs ++ acc), r).
Proof.
  induction kvs as [|[k v] kvs IH]; intros acc fuel r Hne Hkvs Hf; [done|].
  apply Forall_cons in Hkvs as [Hv Hkvs]. destruct fuel as [|[|fuel]]; [simpl in Hf; lia..|].
  destruct kvs as [|kv kvs].
  - cbn [fmap list_fmap str_join]. rewrite parse_member by done. done.
  - change (str_join "," (member_text <$> (k, v) :: kv :: kvs)) with
      (member_text (k, v) +:+ "," +:+ str_join "," (member_text <$> kv :: kvs)).
    set (rest := str_join "," (member_text <$> kv :: kvs)) in *.
    rewrite !str_app_assoc, parse_member by done.
    change (skip_space ("," +:+ rest +:+ "}" +:+ r)) with (String "," (rest +:+ "}" +:+ r)).
    cbn iota beta. rewrite IH by (done || simpl in *; lia). by rewrite (reverse_cons (kv :: kvs)), <- app_assoc.
Qed.

Lemma members_length kvs : length kvs <= String.length (str_join "," (member_text <$> kvs)).
Proof.
  assert (Hm : forall kv, 1 <= String.length (member_text kv)).
  { intros kv. unfold member_text. rewrite !str_length_app. simpl. lia. }
  induction kvs as [|kv [|kv' kvs] IH]; [simpl; lia|simpl; apply Hm|].
  change (str_join "," (member_text <$> kv :: kv' :: kvs)) with
    (member_text kv +:+ "," +:+ str_join "," (member_text <$> kv' :: kvs)).
  set (rest := str_join "," (member_text <$> kv' :: kvs)) in *. rewrite !str_length_app.
  cbn [length String.length] in *. pose proof (Hm kv). lia.
Qed.

(** The decoder reads a flat struct back, members last first. *)
Lemma Unmarshal_object kvs :
  kvs <> [] -> Forall (fun kv => flat kv.2) kvs ->
  Unmarshal (object_text kvs) = Some (JObj (reverse kvs)).
Proof.
  intros Hne Hkvs. unfold Unmarshal, object_text.
  set (body := str_join "," (member_text <$> kvs)).
  change ("{" +:+ body +:+ "}") with (String "{" (body +:+ "}")).
  assert (Hlen : length kvs < String.length (String "{" (body +:+ "}"))).
  { cbn [String.length]. rewrite str_length_app. pose proof (members_length kvs). fold body in H. lia. }
  remember (String.length _) as fuel eqn:Hfuel. clear Hfuel.
  assert (Hstart : exists u, body +:+ "}" = String "034" u).
  { unfold body. destruct kvs as [|[k v] [|kv kvs]]; [done|..];
      cbn [fmap list_fmap str_join]; unfold member_text, marshal_string; cbn [fst snd];
      rewrite !str_app_assoc, (dquote_app (escape k +:+ _)); by eexists. }
  pose proof (parse_members_flat kvs [] fuel "" Hne Hkvs Hlen) as Hp.
  rewrite str_app_nil_r, app_nil_r in Hp. fold body in Hp.
  destruct Hstart as [u Hu]. rewrite Hu in *.
  change (parse_value (S fuel) (String "{" (String "034" u))) with
    (parse_members fuel [] (String "034" u)). by rewrite Hp.
Qed.
