(* ===== verification/Model.v ===== *)
(** * [internal/model]: the canonical customer

    The provider-independent entity, its flat field map and its fingerprint.
    The fingerprint is the loop-prevention key, so what matters about it is when
    two customers share one. *)

From S2P Require Import Prelude Json Crypto.
Local Open Scope string_scope.

(** [model.Customer]. *)
Record Customer := mkCustomer {
  cu_SyncID : string;
  cu_TenantID : string;
  cu_EntityID : string;
  cu_FirstName : string;
  cu_LastName : string;
  cu_Email : string;
  cu_Phone : string;
  cu_Company : string;
  cu_Version : Z;
  cu_SourceVersions : gmap string Z;
  cu_CreatedAt : Z;
  cu_UpdatedAt : Z;
  cu_Deleted : bool;
  cu_Metadata : Fields;
}.

(** [Customer.Fields]: the flat field map used for persistence. *)
Definition cust_Fields (c : Customer) : Fields :=
  list_to_map [("first_name", JStr (cu_FirstName c));
               ("last_name", JStr (cu_LastName c));
               ("email", JStr (cu_Email c));
               ("phone", JStr (cu_Phone c));
               ("company", JStr (cu_Company c))].

(** [model.str]. *)
Definition str (v : Json) : string :=
  match v with
  | JNull => ""
  | JStr t => t
  | t => marshal t
  end.

(** [Customer.FromFields]. *)
Definition FromFields (fields : Fields) (c : Customer) : Customer :=
  {| cu_SyncID := cu_SyncID c; cu_TenantID := cu_TenantID c; cu_EntityID := cu_EntityID c;
     cu_FirstName := str (mget fields "first_name");
     cu_LastName := str (mget fields "last_name");
     cu_Email := str (mget fields "email");
     cu_Phone := str (mget fields "phone");
     cu_Company := str (mget fields "company");
     cu_Version := cu_Version c; cu_SourceVersions := cu_SourceVersions c;
     cu_CreatedAt := cu_CreatedAt c; cu_UpdatedAt := cu_UpdatedAt c;
     cu_Deleted := cu_Deleted c; cu_Metadata := cu_Metadata c |}.

(** [&model.Customer{TenantID: tenant, EntityID: id}]. *)
Definition new_customer (tenant id : string) : Customer :=
  mkCustomer "" tenant id "" "" "" "" "" 0 ∅ 0 0 false ∅.

Definition set_TenantID (t : string) (c : Customer) : Customer :=
  mkCustomer (cu_SyncID c) t (cu_EntityID c) (cu_FirstName c) (cu_LastName c) (cu_Email c)
    (cu_Phone c) (cu_Company c) (cu_Version c) (cu_SourceVersions c) (cu_CreatedAt c)
    (cu_UpdatedAt c) (cu_Deleted c) (cu_Metadata c).

Definition set_EntityID (e : string) (c : Customer) : Customer :=
  mkCustomer (cu_SyncID c) (cu_TenantID c) e (cu_FirstName c) (cu_LastName c) (cu_Email c)
    (cu_Phone c) (cu_Company c) (cu_Version c) (cu_SourceVersions c) (cu_CreatedAt c)
    (cu_UpdatedAt c) (cu_Deleted c) (cu_Metadata c).

(** The text [Customer.Fingerprint] hashes. *)
Definition fingerprint_text (c : Customer) : string :=
  "first_name=" +:+ cu_FirstName c +:+ "|last_name=" +:+ cu_LastName c +:+
  "|email=" +:+ cu_Email c +:+ "|phone=" +:+ cu_Phone c +:+ "|company=" +:+ cu_Company c.

(** [Customer.Fingerprint]. *)
Definition Fingerprint (c : Customer) : string := sha256_hex (fingerprint_text c).

(** The five fields, as a tuple: what the engine synchronizes. *)
Definition cust_view (c : Customer) : string * string * string * string * string :=
  (cu_FirstName c, cu_LastName c, cu_Email c, cu_Phone c, cu_Company c).

(** ** The field map *)

Lemma cust_Fields_view c1 c2 : cust_view c1 = cust_view c2 -> cust_Fields c1 = cust_Fields c2.
Proof. unfold cust_view, cust_Fields. by intros [= -> -> -> -> ->]. Qed.

Lemma cust_Fields_lookup c k :
  cust_Fields c !! k =
    if k =s "first_name" then Some (JStr (cu_FirstName c))
    else if k =s "last_name" then Some (JStr (cu_LastName c))
    else if k =s "email" then Some (JStr (cu_Email c))
    else if k =s "phone" then Some (JStr (cu_Phone c))
    else if k =s "company" then Some (JStr (cu_Company c))
    else None.
Proof.
  unfold cust_Fields, seqb. simpl.
  repeat (case_bool_decide; [by subst|rewrite lookup_insert_ne by congruence]).
  apply lookup_empty.
Qed.

(** [FromFields] after [Fields] restores the five fields. *)
Lemma FromFields_Fields c c0 : cust_view (FromFields (cust_Fields c) c0) = cust_view c.
Proof. destruct c. reflexivity. Qed.

(** [Fields] of a customer read from string-valued fields gives them back. *)
Lemma Fields_FromFields c c0 :
  cust_Fields (FromFields (cust_Fields c) c0) = cust_Fields c.
Proof. apply cust_Fields_view, FromFields_Fields. Qed.

(** ** The fingerprint *)

Definition pipe : ascii := "|"%char.

Fixpoint no_pipe (s : string) : bool :=
  match s with
  | "" => true
  | String c s => negb (Ascii.eqb c pipe) && no_pipe s
  end.

#[local] Arguments String.append !_ _ /.

Lemma split_at_pipe a b x y :
  no_pipe a = true -> no_pipe b = true ->
  a +:+ String pipe x = b +:+ String pipe y -> a = b /\ x = y.
Proof.
  revert b. induction a as [|c a IH]; intros [|d b]; simpl; intros Ha Hb H.
  - by injection H.
  - injection H as <- _. by rewrite Ascii.eqb_refl in Hb.
  - injection H as -> _. by rewrite Ascii.eqb_refl in Ha.
  - injection H as -> H. apply andb_prop in Ha as [_ Ha]. apply andb_prop in Hb as [_ Hb].
    destruct (IH b Ha Hb H) as [-> ->]. done.
Qed.

(** The fingerprinted text determines the five fields unless one of the first
    four contains the separator. *)
Definition separable (c : Customer) : bool :=
  no_pipe (cu_FirstName c) && no_pipe (cu_LastName c) && no_pipe (cu_Email c) &&
  no_pipe (cu_Phone c).

Lemma fingerprint_text_inj c1 c2 :
  separable c1 = true -> separable c2 = true ->
  fingerprint_text c1 = fingerprint_text c2 -> cust_view c1 = cust_view c2.
Proof.
  unfold separable, fingerprint_text, cust_view. intros H1 H2 H.
  repeat match goal with H : (_ && _)%bool = true |- _ => apply andb_prop in H as [H ?] end.
  apply str_app_inj_l in H.
  do 4 (apply split_at_pipe in H as [-> H]; [|done..]; simpl in H;
        repeat (injection H as H)).
  by rewrite H.
Qed.

(** Two customers whose names, email and phone do not contain the separator
    have the same fingerprint exactly when their five synchronized fields
    agree, as long as SHA-256 does not collide on the two texts: the
    fingerprint comparison of loop prevention is then a comparison of states. *)
Theorem fingerprint_exact (c1 c2 : Customer) :
  separable c1 = true -> separable c2 = true ->
  (sha256_hex (fingerprint_text c1) = sha256_hex (fingerprint_text c2) ->
     fingerprint_text c1 = fingerprint_text c2) ->
  Fingerprint c1 = Fingerprint c2 <-> cust_view c1 = cust_view c2.
Proof.
  intros H1 H2 Hc. split.
  - intros H. by apply fingerprint_text_inj, Hc.
  - unfold Fingerprint, fingerprint_text, cust_view. by intros [= -> -> -> -> ->].
Qed.

Definition ada : Customer :=
  FromFields (list_to_map [("first_name", JStr "Ada"); ("last_name", JStr "Lovelace");
    ("email", JStr "ada@acme.dev"); ("phone", JStr "555"); ("company", JStr "Acme")])
    (new_customer "t1" "sf-000001").

Lemma fingerprint_exact_witness :
  Fingerprint ada = Fingerprint (set_TenantID "t2" ada) <->
  cust_view ada = cust_view (set_TenantID "t2" ada).
Proof. apply fingerprint_exact; [reflexivity|reflexivity|reflexivity]. Defined.

(** The side condition is needed: a separator inside a name makes two different
    customers share a fingerprint, so an edit that moves text across the
    separator is taken for the engine's own echo. *)
Definition piped1 : Customer :=
  FromFields (list_to_map [("first_name", JStr "A|last_name=B"); ("last_name", JStr "C")])
    (new_customer "t1" "sf-000001").
Definition piped2 : Customer :=
  FromFields (list_to_map [("first_name", JStr "A"); ("last_name", JStr "B|last_name=C")])
    (new_customer "t1" "sf-000001").

Lemma fingerprint_collision :
  cust_view piped1 <> cust_view piped2 /\ Fingerprint piped1 = Fingerprint piped2.
Proof. split; [discriminate|]. apply (f_equal sha256_hex). reflexivity. Qed.
