(* ===== verification/Events.v ===== *)
(** * [internal/events]: the canonical sync event and its JSON form

    An event travels through a broker message, through the [state] column of
    the retry queue and through the [payload] column of the dead-letter table,
    each time as the JSON object of its struct tags.  [encode_event] and
    [decode_event] are [json.Marshal] and [json.Unmarshal] on that struct; the
    JSON text itself is represented by its tree, which is what a [jsonb] column
    keeps.  Object keys are matched exactly. *)

From S2P Require Import Prelude Json GoTime.
Local Open Scope string_scope.

(** [events.EventType] and its three constants. *)
Definition EventCreated : string := "created".
Definition EventUpdated : string := "updated".
Definition EventDeleted : string := "deleted".

(** [events.Provenance]. *)
Record Provenance := mkProvenance {
  pv_OriginSource : string;
  pv_OriginEventID : string;
  pv_SyncOperationID : string;
  pv_ResolvedConflictID : string;
  pv_ReconcileFindingID : string;
}.

Definition no_provenance : Provenance := mkProvenance "" "" "" "" "".

(** [events.Event]. *)
Record Event := mkEvent {
  ev_EventID : string;
  ev_TenantID : string;
  ev_Source : string;
  ev_EntityType : string;
  ev_EntityID : string;
  ev_EventType : string;
  ev_SourceVersion : Z;
  ev_OccurredAt : Z;
  ev_ReceivedAt : Z;
  ev_CorrelationID : string;
  ev_Provenance : Provenance;
  ev_Payload : Fields;
}.

(** [Event.Key]. *)
Definition Key (e : Event) : string * string * string :=
  (ev_TenantID e, ev_Source e, ev_EventID e).

(** [Event.PartitionKey]. *)
Definition PartitionKey (e : Event) : string :=
  ev_TenantID e +:+ ":" +:+ ev_EntityType e +:+ ":" +:+ ev_EntityID e.

(** ** Marshalling *)

(** A string member with the [omitempty] option. *)
Definition omitempty (k v : string) : list (string * Json) :=
  if v =s "" then [] else [(k, JStr v)].

Definition encode_provenance (p : Provenance) : Json :=
  JObj (omitempty "origin_source" (pv_OriginSource p) ++
        omitempty "origin_event_id" (pv_OriginEventID p) ++
        omitempty "sync_operation_id" (pv_SyncOperationID p) ++
        omitempty "resolved_conflict_id" (pv_ResolvedConflictID p) ++
        omitempty "reconcile_finding_id" (pv_ReconcileFindingID p)).

(** [json.Marshal(ev)]: fails only on a time outside the years 0..9999. *)
Definition encode_event (e : Event) : option Json :=
  occurred ← time_marshal (ev_OccurredAt e);
  received ← time_marshal (ev_ReceivedAt e);
  Some (JObj ([("event_id", JStr (ev_EventID e)); ("tenant_id", JStr (ev_TenantID e));
               ("source", JStr (ev_Source e)); ("entity_type", JStr (ev_EntityType e));
               ("entity_id", JStr (ev_EntityID e)); ("event_type", JStr (ev_EventType e));
               ("source_version", JNum (ev_SourceVersion e));
               ("occurred_at", JStr occurred); ("received_at", JStr received);
               ("provenance", encode_provenance (ev_Provenance e));
               ("payload", of_fields (ev_Payload e))] ++
              omitempty "correlation_id" (ev_CorrelationID e))).

(** ** Unmarshalling

    A missing member or a JSON [null] leaves the zero value; a member of the
    wrong type is an error. *)

Fixpoint jlookup (k : string) (kvs : list (string * Json)) : option Json :=
  match kvs with
  | [] => None
  | (k', v) :: kvs => if k =s k' then Some v else jlookup k kvs
  end.

Definition dec_string (k : string) (kvs : list (string * Json)) : option string :=
  match jlookup k kvs with
  | None | Some JNull => Some ""
  | Some (JStr s) => Some s
  | _ => None
  end.

(** An [int64] member: numbers outside the range are an error. *)
Definition dec_int64 (k : string) (kvs : list (string * Json)) : option Z :=
  match jlookup k kvs with
  | None | Some JNull => Some 0%Z
  | Some (JNum n) => if in_int64 n then Some n else None
  | _ => None
  end.

Definition dec_time (k : string) (kvs : list (string * Json)) : option Z :=
  match jlookup k kvs with
  | None | Some JNull => Some time_zero
  | Some (JStr s) => time_parse s
  | _ => None
  end.

Definition dec_provenance (kvs : list (string * Json)) : option Provenance :=
  match jlookup "provenance" kvs with
  | None | Some JNull => Some no_provenance
  | Some (JObj p) =>
      a ← dec_string "origin_source" p;
      b ← dec_string "origin_event_id" p;
      c ← dec_string "sync_operation_id" p;
      d ← dec_string "resolved_conflict_id" p;
      e ← dec_string "reconcile_finding_id" p;
      Some (mkProvenance a b c d e)
  | _ => None
  end.

Definition dec_fields (k : string) (kvs : list (string * Json)) : option Fields :=
  match jlookup k kvs with
  | None | Some JNull => Some ∅
  | Some j => as_object j
  end.

Definition decode_event (j : Json) : option Event :=
  match j with
  | JObj kvs =>
      event_id ← dec_string "event_id" kvs;
      tenant ← dec_string "tenant_id" kvs;
      source ← dec_string "source" kvs;
      etype ← dec_string "entity_type" kvs;
      eid ← dec_string "entity_id" kvs;
      evtype ← dec_string "event_type" kvs;
      version ← dec_int64 "source_version" kvs;
      occurred ← dec_time "occurred_at" kvs;
      received ← dec_time "received_at" kvs;
      corr ← dec_string "correlation_id" kvs;
      prov ← dec_provenance kvs;
      payload ← dec_fields "payload" kvs;
      Some (mkEvent event_id tenant source etype eid evtype version occurred received
              corr prov payload)
  | JNull => Some (mkEvent "" "" "" "" "" "" 0 time_zero time_zero "" no_provenance ∅)
  | _ => None
  end.

(** ** Round trip *)

Lemma jlookup_app k l1 l2 :
  jlookup k (l1 ++ l2) = match jlookup k l1 with Some v => Some v | None => jlookup k l2 end.
Proof.
  induction l1 as [|[k' v] l1 IH]; simpl; [done|]. by destruct (k =s k').
Qed.

Lemma jlookup_omitempty k k' v :
  jlookup k (omitempty k' v) = if (k =s k') && negb (v =s "") then Some (JStr v) else None.
Proof.
  unfold omitempty. destruct (v =s ""); simpl; [by rewrite andb_false_r|].
  by rewrite andb_true_r.
Qed.

(** Reading back an [omitempty] string yields the string, present or not. *)
Lemma omitempty_value v :
  match (if negb (v =s "") then Some (JStr v) else None) with
  | None | Some JNull => Some ""
  | Some (JStr s) => Some s
  | _ => None
  end = Some v.
Proof. destruct (v =s "") eqn:E; simpl; [|done]. apply seqb_true in E as ->. done. Qed.

Lemma dec_encode_provenance p kvs :
  jlookup "provenance" kvs = Some (encode_provenance p) -> dec_provenance kvs = Some p.
Proof.
  intros H. unfold dec_provenance. rewrite H. unfold encode_provenance, dec_string.
  rewrite !jlookup_app, !jlookup_omitempty. simpl.
  destruct p as [a b c d e]; simpl.
  destruct (a =s "") eqn:Ea, (b =s "") eqn:Eb, (c =s "") eqn:Ec, (d =s "") eqn:Ed,
    (e =s "") eqn:Ee; simpl; seqb_simpl; by subst.
Qed.

Lemma decode_encode_event (e : Event) (j : Json) :
  in_int64 (ev_SourceVersion e) = true ->
  encode_event e = Some j -> decode_event j = Some e.
Proof.
  unfold encode_event. intros Hv H.
  destruct (time_marshal (ev_OccurredAt e)) as [o|] eqn:Eo; [|done].
  destruct (time_marshal (ev_ReceivedAt e)) as [r|] eqn:Er; [|done].
  apply (inj Some) in H as <-. unfold decode_event.
  set (kvs := (_ ++ omitempty _ _)%list).
  assert (dec_provenance kvs = Some (ev_Provenance e)) as ->
    by (apply dec_encode_provenance; reflexivity).
  assert (dec_string "correlation_id" kvs = Some (ev_CorrelationID e)) as ->.
  { unfold dec_string, kvs. rewrite jlookup_app, jlookup_omitempty. apply omitempty_value. }
  assert (dec_fields "payload" kvs = Some (ev_Payload e)) as ->
    by (unfold dec_fields; apply as_object_of_fields).
  assert (dec_int64 "source_version" kvs = Some (ev_SourceVersion e)) as ->
    by (unfold dec_int64; simpl; by rewrite Hv).
  assert (dec_time "occurred_at" kvs = Some (ev_OccurredAt e)) as ->
    by (apply time_roundtrip in Eo; exact Eo).
  assert (dec_time "received_at" kvs = Some (ev_ReceivedAt e)) as ->
    by (apply time_roundtrip in Er; exact Er).
  by destruct e.
Qed.

(** C33: a marshalled event unmarshals to itself: what the worker re-applies from
    the retry queue, the dead-letter table or the broker is the event that was
    put there, provenance and payload included.  (The version is an [int64].) *)
Theorem event_roundtrip (e : Event) (j : Json) :
  in_int64 (ev_SourceVersion e) = true ->
  encode_event e = Some j -> decode_event j = Some e.
Proof. apply decode_encode_event. Qed.

Definition sample_event : Event :=
  mkEvent "evt-1" "t1" "salesforce" "customer" "sf-000001" EventUpdated 7
    1709202600250000000 1709202601000000000 ""
    (mkProvenance "" "" "" "conf-9" "")
    (list_to_map [("fields", JObj [("email", JStr "ada@acme.dev")])]).

Lemma event_roundtrip_witness :
  match encode_event sample_event with
  | Some j => decode_event j = Some sample_event
  | None => False
  end.
Proof.
  destruct (encode_event sample_event) as [j|] eqn:E; [|vm_compute in E; discriminate].
  apply (event_roundtrip sample_event j); [reflexivity|exact E].
Defined.
