(* ===== verification/Conflict.v ===== *)
(** * [internal/conflict]: field-level conflict detection and resolution

    [Detect], [Resolve] and [Merge] on Go maps ([gmap]); [Prov] is the
    package's [Provenance] and [FieldProvenance] the map of last writers kept
    in [canonical_records.field_provenance].  A loop over a Go map visits the
    keys in an unspecified order: the model uses the order of [map_to_list],
    and the theorems describe results in which no order is left. *)

From S2P Require Import Prelude Json GoTime Events.
Local Open Scope string_scope.

Definition StrategyLastWriteWins : string := "last_write_wins".
Definition StrategySourcePriority : string := "source_priority".
Definition StrategyFieldMerge : string := "field_merge".
Definition StrategyManual : string := "manual".

(** [conflict.Provenance]. *)
Record Prov := mkProv {
  pr_Source : string;
  pr_Version : Z;
  pr_OccurredAt : Z;
  pr_Priority : Z;
}.

Definition zero_prov : Prov := mkProv "" 0 time_zero 0.

Abbreviation FieldProvenance := (gmap string Prov).

(** [conflict.FieldConflict]. *)
Record FieldConflict := mkFieldConflict {
  fc_Field : string;
  fc_SourceA : string; fc_VersionA : Z; fc_OccurredAtA : Z; fc_PriorityA : Z; fc_ValueA : Json;
  fc_SourceB : string; fc_VersionB : Z; fc_OccurredAtB : Z; fc_PriorityB : Z; fc_ValueB : Json;
}.

(** [conflict.valuesEqual]: equality of the marshalled forms. *)
Definition valuesEqual (a b : Json) : bool := marshal a =s marshal b.

(** The body of [Detect]'s loop for one incoming field. *)
Definition detect_field (persisted : Fields) (fp : FieldProvenance) (source : string)
    (version occurredAt priority : Z) (field : string) (inVal : Json) : option FieldConflict :=
  match fp !! field with
  | None => None
  | Some prov =>
      if pr_Source prov =s source then None
      else if valuesEqual (mget persisted field) inVal then None
      else Some (mkFieldConflict field
                   (pr_Source prov) (pr_Version prov) (pr_OccurredAt prov) (pr_Priority prov)
                   (mget persisted field)
                   source version occurredAt priority inVal)
  end.

Definition field_leb (x y : FieldConflict) : bool := String.leb (fc_Field x) (fc_Field y).

(** [conflict.Detect]. *)
Definition Detect (persisted : Fields) (fp : FieldProvenance) (incoming : Fields)
    (source : string) (version occurredAt priority : Z) : list FieldConflict :=
  isort field_leb
    (omap (fun kv => detect_field persisted fp source version occurredAt priority kv.1 kv.2)
       (map_to_list incoming)).

(** [conflict.Winner]. *)
Record Winner := mkWinner {
  wi_Side : string; wi_Source : string; wi_Version : Z; wi_OccurredAt : Z; wi_Value : Json;
}.

Definition winnerA (c : FieldConflict) : Winner :=
  mkWinner "a" (fc_SourceA c) (fc_VersionA c) (fc_OccurredAtA c) (fc_ValueA c).
Definition winnerB (c : FieldConflict) : Winner :=
  mkWinner "b" (fc_SourceB c) (fc_VersionB c) (fc_OccurredAtB c) (fc_ValueB c).

(** [conflict.Resolve]. *)
Definition Resolve (strategy : string) (c : FieldConflict) : Winner :=
  if (strategy =s StrategyLastWriteWins) || (strategy =s StrategyFieldMerge) then
    if (fc_OccurredAtA c <? fc_OccurredAtB c)%Z then winnerB c
    else if (fc_OccurredAtB c <? fc_OccurredAtA c)%Z then winnerA c
    else if (fc_PriorityB c <? fc_PriorityA c)%Z then winnerB c else winnerA c
  else if strategy =s StrategySourcePriority then
    if (fc_PriorityB c <? fc_PriorityA c)%Z then winnerB c
    else if (fc_PriorityA c <? fc_PriorityB c)%Z then winnerA c
    else if (fc_OccurredAtA c <? fc_OccurredAtB c)%Z then winnerB c else winnerA c
  else if strategy =s StrategyManual then mkWinner "" "" 0 time_zero JNull
  else winnerA c.

(** [conflict.normalizeStrategy]. *)
Definition normalizeStrategy (s : string) : string :=
  if (s =s StrategyLastWriteWins) || (s =s StrategySourcePriority) ||
     (s =s StrategyFieldMerge) || (s =s StrategyManual) then s
  else StrategyLastWriteWins.

(** [conflict.priorityFor]. *)
Definition priorityFor (source : string) (c : FieldConflict) : Z :=
  if source =s fc_SourceA c then fc_PriorityA c else fc_PriorityB c.

(** [conflict.find]. *)
Definition find_conflict (fs : list FieldConflict) (field : string) : option FieldConflict :=
  List.find (fun f => fc_Field f =s field) fs.

(** [_, ok := find(fs, field)]. *)
Definition found (fs : list FieldConflict) (field : string) : bool :=
  match find_conflict fs field with Some _ => true | None => false end.

(** The four results of [Merge]; [None] for the nil maps of the manual case. *)
Record MergeResult := mkMergeResult {
  mr_out : option (Fields * FieldProvenance);
  mr_detected : list FieldConflict;
  mr_manual : bool;
}.

(** [out[field] = v; prov[field] = Provenance{...}] for one incoming field. *)
Definition adopt (p : Prov) (acc : Fields * FieldProvenance) (kv : string * Json) :=
  (<[kv.1 := kv.2]> acc.1, <[kv.1 := p]> acc.2).

(** The loop body of [Merge] over the detected conflicts. *)
Definition settle (strategy : string) (acc : Fields * FieldProvenance) (c : FieldConflict) :=
  let w := Resolve strategy c in
  (<[fc_Field c := wi_Value w]> acc.1,
   <[fc_Field c := mkProv (wi_Source w) (wi_Version w) (wi_OccurredAt w)
                     (priorityFor (wi_Source w) c)]> acc.2).

(** [conflict.Merge]. *)
Definition Merge (strategy : string) (persisted : Fields) (fp : FieldProvenance)
    (incoming : Fields) (source : string) (version occurredAt priority : Z) : MergeResult :=
  let detected := Detect persisted fp incoming source version occurredAt priority in
  let p := mkProv source version occurredAt priority in
  match detected with
  | [] => mkMergeResult (Some (foldl (adopt p) (persisted, fp) (map_to_list incoming))) [] false
  | _ =>
      let strategy := normalizeStrategy strategy in
      if strategy =s StrategyManual then mkMergeResult None detected true
      else
        let acc := foldl (settle strategy) (persisted, fp) detected in
        mkMergeResult
          (Some (foldl (fun acc kv => if found detected kv.1 then acc else adopt p acc kv)
                   acc (map_to_list incoming)))
          detected false
  end.

(** ** The jsonb form of the provenance *)

(** [json.Marshal] of a [Provenance]. *)
Definition prov_json (p : Prov) : option Json :=
  occurred ← time_marshal (pr_OccurredAt p);
  Some (JObj ([("source", JStr (pr_Source p)); ("version", JNum (pr_Version p));
               ("occurred_at", JStr occurred)] ++
              (if (pr_Priority p =? 0)%Z then [] else [("priority", JNum (pr_Priority p))]))).

(** [FieldProvenance.ToMap] followed by the marshalling of the column. *)
Definition ToMap (fp : FieldProvenance) : option Fields :=
  if forallb (fun kv => bool_decide (is_Some (prov_json kv.2))) (map_to_list fp)
  then Some (omap prov_json fp) else None.

Definition orelse {A} (x : A) (o : option A) : A := match o with Some y => y | None => x end.

(** [json.Unmarshal] of one entry, its error ignored.  The entry was marshalled
    from a map, so its members come in key order, [occurred_at] first: a time
    that does not parse ends the decoding before any other member is set, while
    a member of the wrong type is skipped and the others are still set. *)
Definition prov_unmarshal (v : Json) : Prov :=
  match v with
  | JObj kvs =>
      match dec_time "occurred_at" kvs with
      | None => zero_prov
      | Some t =>
          mkProv (orelse "" (dec_string "source" kvs)) (orelse 0%Z (dec_int64 "version" kvs)) t
                 (orelse 0%Z (dec_int64 "priority" kvs))
      end
  | _ => zero_prov
  end.

(** [conflict.FromMap]. *)
Definition FromMap (m : Fields) : FieldProvenance := prov_unmarshal <$> m.

(** ** Detection *)

Section detect.
Context (persisted : Fields) (fp : FieldProvenance) (incoming : Fields)
  (source : string) (version occurredAt priority : Z).

Let detected := Detect persisted fp incoming source version occurredAt priority.
Let at_field := detect_field persisted fp source version occurredAt priority.

Lemma detect_field_name f v c : at_field f v = Some c -> fc_Field c = f.
Proof.
  unfold at_field, detect_field. destruct (fp !! f); [|done].
  repeat case_if; intros; by simplify_eq.
Qed.

Lemma elem_of_Detect c :
  c ∈ detected <-> exists v, incoming !! fc_Field c = Some v /\ at_field (fc_Field c) v = Some c.
Proof.
  unfold detected, Detect. rewrite elem_of_isort, list_elem_of_omap. split.
  - intros ([f v] & Hin%elem_of_map_to_list & Hc). simpl in Hc.
    pose proof (detect_field_name f v c Hc) as <-. eauto.
  - intros (v & Hin & Hc). exists (fc_Field c, v). split; [|done].
    by apply elem_of_map_to_list.
Qed.

Lemma find_Detect f :
  find_conflict detected f = v ← incoming !! f; at_field f v.
Proof.
  unfold find_conflict. destruct (List.find _ detected) as [c|] eqn:E.
  - apply List.find_some in E as [Hc Hf]. apply seqb_true in Hf as <-.
    apply list_elem_of_In in Hc. apply elem_of_Detect in Hc as (v & -> & Hv). done.
  - destruct (incoming !! f) as [v|] eqn:Ev; simpl; [|done].
    destruct (at_field f v) as [c|] eqn:Ec; [|done].
    pose proof (detect_field_name f v c Ec) as <-.
    assert (c ∈ detected) as Hc by (apply elem_of_Detect; eauto).
    apply list_elem_of_In in Hc. pose proof (List.find_none _ _ E c Hc) as H.
    simpl in H. by rewrite seqb_refl in H.
Qed.
End detect.

(** Strings are totally ordered, so the detected list is sorted by field. *)
Lemma string_leb_total x y : String.leb x y = false -> String.leb y x = true.
Proof.
  unfold String.leb. rewrite (String.compare_antisym x y).
  by destruct (String.compare y x).
Qed.

(** ** The merge, field by field *)

Lemma foldl_settle strategy l acc f :
  (forall c c', c ∈ l -> c' ∈ l -> fc_Field c = fc_Field c' -> c = c') ->
  (foldl (settle strategy) acc l).1 !! f =
    match find_conflict l f with
    | Some c => Some (wi_Value (Resolve strategy c)) | None => acc.1 !! f end /\
  (foldl (settle strategy) acc l).2 !! f =
    match find_conflict l f with
    | Some c =>
        let w := Resolve strategy c in
        Some (mkProv (wi_Source w) (wi_Version w) (wi_OccurredAt w) (priorityFor (wi_Source w) c))
    | None => acc.2 !! f end.
Proof.
  revert acc. induction l as [|x l IH]; intros acc Huniq; [done|].
  change (foldl (settle strategy) acc (x :: l))
    with (foldl (settle strategy) (settle strategy acc x) l).
  destruct (IH (settle strategy acc x)) as [-> ->].
  { intros c c' Hc Hc'. apply Huniq; by right. }
  unfold find_conflict. simpl. destruct (fc_Field x =s f) eqn:Ef.
  - apply seqb_true in Ef. destruct (List.find _ l) as [c|] eqn:E.
    + apply List.find_some in E as [Hc Hf%seqb_true]. apply list_elem_of_In in Hc.
      assert (c = x) as -> by (apply Huniq; [by right|by left|congruence]). done.
    + subst f. by rewrite !lookup_insert_eq.
  - apply seqb_false in Ef. destruct (List.find _ l) as [c|]; [done|].
    by rewrite !lookup_insert_ne.
Qed.

Lemma foldl_adopt p (skip : string -> bool) l acc f :
  NoDup (l.*1) ->
  let r := foldl (fun acc kv => if skip kv.1 then acc else adopt p acc kv) acc l in
  let new := if skip f then None else (list_to_map l : Fields) !! f in
  r.1 !! f = match new with Some v => Some v | None => acc.1 !! f end /\
  r.2 !! f = match new with Some _ => Some p | None => acc.2 !! f end.
Proof.
  revert acc. induction l as [|[k v] l IH]; intros acc Hnd; simpl.
  { by destruct (skip f). }
  apply NoDup_cons in Hnd as [Hk Hnd].
  specialize (IH (if skip k then acc else adopt p acc (k, v)) Hnd). simpl in IH.
  destruct IH as [-> ->]. destruct (decide (k = f)) as [->|Hne].
  - rewrite not_elem_of_list_to_map_1 by done. rewrite lookup_insert_eq.
    destruct (skip f); [done|]. simpl. by rewrite !lookup_insert_eq.
  - rewrite lookup_insert_ne by done. destruct (skip f), (skip k); simpl; [done|..];
      destruct ((list_to_map l : Fields) !! f); rewrite ?lookup_insert_ne by done; done.
Qed.

Lemma foldl_adopt_map p (skip : string -> bool) (m : Fields) acc f :
  let r := foldl (fun acc kv => if skip kv.1 then acc else adopt p acc kv) acc
             (map_to_list m) in
  let new := if skip f then None else m !! f in
  r.1 !! f = match new with Some v => Some v | None => acc.1 !! f end /\
  r.2 !! f = match new with Some _ => Some p | None => acc.2 !! f end.
Proof.
  pose proof (foldl_adopt p skip (map_to_list m) acc f (NoDup_fst_map_to_list m)) as H.
  by rewrite list_to_map_to_list in H.
Qed.

(** What a merged field holds: the persisted value and writer where the event
    does not carry the field, the winner of the conflict where there is one,
    the incoming value and source otherwise. *)
Definition merged_field (strategy : string) (persisted : Fields) (fp : FieldProvenance)
    (incoming : Fields) (source : string) (version occurredAt priority : Z) (f : string)
    : option Json * option Prov :=
  match incoming !! f with
  | None => (persisted !! f, fp !! f)
  | Some v =>
      match detect_field persisted fp source version occurredAt priority f v with
      | None => (Some v, Some (mkProv source version occurredAt priority))
      | Some c =>
          let w := Resolve strategy c in
          (Some (wi_Value w),
           Some (mkProv (wi_Source w) (wi_Version w) (wi_OccurredAt w)
                   (priorityFor (wi_Source w) c)))
      end
  end.

(** When [Merge] returns maps, it is the pointwise merge; it returns none
    exactly when there is a conflict under the manual strategy. *)
Lemma Merge_lookup strategy persisted fp incoming source version occurredAt priority :
  let detected := Detect persisted fp incoming source version occurredAt priority in
  match mr_out (Merge strategy persisted fp incoming source version occurredAt priority) with
  | Some (out, prov) =>
      forall f, (out !! f, prov !! f) =
        merged_field (normalizeStrategy strategy) persisted fp incoming source version
          occurredAt priority f
  | None => normalizeStrategy strategy = StrategyManual /\ detected <> []
  end.
Proof.
  intros detected. unfold Merge. fold detected.
  assert (forall f, find_conflict detected f = v ← incoming !! f;
            detect_field persisted fp source version occurredAt priority f v) as Hfind
    by (intros; apply find_Detect).
  assert (forall c c', c ∈ detected -> c' ∈ detected -> fc_Field c = fc_Field c' -> c = c')
    as Huniq.
  { intros c c' (v & Hv & Hc)%elem_of_Detect (v' & Hv' & Hc')%elem_of_Detect Hf.
    rewrite Hf in Hv, Hc. rewrite Hv' in Hv. injection Hv as <-. congruence. }
  clearbody detected. destruct detected as [|c0 ds].
  - simpl. destruct (foldl _ _ _) as [out prov] eqn:E. intros f.
    pose proof (foldl_adopt_map (mkProv source version occurredAt priority) (fun _ => false)
                  incoming (persisted, fp) f) as [H1 H2].
    simpl in H1, H2. change (fun acc kv => adopt _ acc kv) with
      (adopt (mkProv source version occurredAt priority)) in *.
    rewrite E in H1, H2. simpl in H1, H2. rewrite H1, H2. unfold merged_field.
    specialize (Hfind f). destruct (incoming !! f); [|done]. simpl in Hfind. by rewrite <- Hfind.
  - destruct (normalizeStrategy strategy =s StrategyManual) eqn:Em; cbn [mr_out].
    { by apply seqb_true in Em. }
    remember (c0 :: ds) as detected eqn:Ed. clear Ed.
    destruct (foldl _ _ (map_to_list incoming)) as [out prov] eqn:E. intros f.
    pose proof (foldl_adopt_map (mkProv source version occurredAt priority)
      (found detected) incoming
      (foldl (settle (normalizeStrategy strategy)) (persisted, fp) detected) f) as [H1 H2].
    simpl in H1, H2. rewrite E in H1, H2. simpl in H1, H2. rewrite H1, H2.
    destruct (foldl_settle (normalizeStrategy strategy) detected (persisted, fp) f Huniq)
      as [-> ->].
    unfold found. rewrite Hfind. unfold merged_field. destruct (incoming !! f); simpl; [|done].
    by destruct (detect_field _ _ _ _ _ _ _ _).
Qed.

(** The fields of the detected conflicts are distinct, as map keys are. *)
Lemma NoDup_fields_omap persisted fp incoming source version occurredAt priority :
  NoDup (fc_Field <$>
    omap (fun kv => detect_field persisted fp source version occurredAt priority kv.1 kv.2)
      (map_to_list (incoming : Fields))).
Proof.
  generalize (NoDup_fst_map_to_list incoming).
  induction (map_to_list incoming) as [|[k v] l IH]; intros Hnd; [constructor|].
  apply NoDup_cons in Hnd as [Hk Hnd]. specialize (IH Hnd). csimpl.
  destruct (detect_field _ _ _ _ _ _ k v) as [c|] eqn:E; [|done].
  csimpl. apply NoDup_cons. split; [|done].
  apply detect_field_name in E as ->. contradict Hk.
  apply list_elem_of_fmap in Hk as (c' & Hf & Hc').
  apply list_elem_of_omap in Hc' as ([k' v'] & Hin & E'). simpl in E'.
  apply detect_field_name in E'. apply list_elem_of_fmap. exists (k', v').
  split; [simpl; congruence|done].
Qed.

Lemma normalizeStrategy_manual s :
  normalizeStrategy s = StrategyManual -> s = StrategyManual.
Proof. unfold normalizeStrategy. case_if; [done|discriminate]. Qed.

(** [Detect] reports exactly the fields of the event whose stored value
    differs (as JSON) and was last written by another source, each with the
    stored side as A and the incoming side as B, in field order. *)
Theorem detect_exact (persisted : Fields) (fp : FieldProvenance) (incoming : Fields)
    (source : string) (version occurredAt priority : Z) :
  let detected := Detect persisted fp incoming source version occurredAt priority in
  Sorted (fun x y => String.leb (fc_Field x) (fc_Field y) = true) detected /\
  NoDup (fc_Field <$> detected) /\
  forall c, c ∈ detected <->
    exists (f : string) (v : Json) (p : Prov),
      incoming !! f = Some v /\ fp !! f = Some p /\ pr_Source p <> source /\
      marshal (mget persisted f) <> marshal v /\
      c = mkFieldConflict f (pr_Source p) (pr_Version p) (pr_OccurredAt p) (pr_Priority p)
            (mget persisted f) source version occurredAt priority v.
Proof.
  cbv zeta. repeat split.
  - apply (isort_sorted field_leb). intros x y. apply string_leb_total.
  - unfold Detect. rewrite isort_perm. apply NoDup_fields_omap.
  - intros (v & Hv & Hc)%elem_of_Detect. revert Hc. unfold detect_field.
    destruct (fp !! fc_Field c) as [p|] eqn:Ep; [|done].
    repeat case_if; intros Hc; [done..|]. unfold valuesEqual in *. seqb_simpl.
    exists (fc_Field c), v, p. repeat split; [done..|]. congruence.
  - intros (f & v & p & Hv & Hp & Hs & Hm & ->). apply elem_of_Detect. exists v. split; [done|].
    unfold detect_field, valuesEqual. simpl. rewrite Hp.
    by rewrite (seqb_ne _ _ Hs), (seqb_ne _ _ Hm).
Qed.

(** C10: [Merge] decides every field on its own.  Unless a conflict is parked
    under the manual strategy, each field of the result holds the persisted
    value and writer when the event does not carry it, the winner of
    [Resolve] when it conflicts, and the incoming value and source otherwise;
    under the manual strategy with a conflict no state is returned.  An
    unknown strategy behaves as last-write-wins. *)
Theorem merge_pointwise (strategy : string) (persisted : Fields) (fp : FieldProvenance)
    (incoming : Fields) (source : string) (version occurredAt priority : Z) :
  let detected := Detect persisted fp incoming source version occurredAt priority in
  let r := Merge strategy persisted fp incoming source version occurredAt priority in
  mr_detected r = detected /\
  mr_manual r = bool_decide (strategy = StrategyManual /\ detected <> []) /\
  match mr_out r with
  | Some (out, prov) =>
      mr_manual r = false /\
      forall f, (out !! f, prov !! f) =
        merged_field (normalizeStrategy strategy) persisted fp incoming source version
          occurredAt priority f
  | None => mr_manual r = true
  end.
Proof.
  pose proof (Merge_lookup strategy persisted fp incoming source version occurredAt priority) as H.
  cbv zeta in *. revert H. unfold Merge.
  destruct (Detect _ _ _ _ _ _ _) as [|c ds].
  - cbn [mr_out mr_detected mr_manual]. destruct (foldl _ _ _) as [out prov]. intros H.
    split; [done|]. rewrite bool_decide_eq_false_2 by naive_solver. done.
  - destruct (normalizeStrategy strategy =s StrategyManual) eqn:Em;
      cbn [mr_out mr_detected mr_manual].
    + intros _. rewrite bool_decide_eq_true_2; [done|]. split; [|done].
      by apply normalizeStrategy_manual, seqb_true.
    + destruct (foldl _ _ (map_to_list incoming)) as [out prov]. intros H.
      rewrite bool_decide_eq_false_2; [done|]. intros [-> _]. done.
Qed.

(** ** Order independence of the time-based strategies *)

(** One event, as [Merge] takes it. *)
Record Write := mkWrite {
  wr_fields : Fields; wr_source : string; wr_version : Z; wr_at : Z; wr_priority : Z;
}.

Definition wr_prov (w : Write) : Prov :=
  mkProv (wr_source w) (wr_version w) (wr_at w) (wr_priority w).

(** The state after [Merge]; unchanged when the conflict is parked. *)
Definition merge_write (strategy : string) (st : Fields * FieldProvenance) (w : Write) :=
  match mr_out (Merge strategy st.1 st.2 (wr_fields w) (wr_source w) (wr_version w)
                  (wr_at w) (wr_priority w)) with
  | Some st' => st'
  | None => st
  end.

Definition time_based (strategy : string) : bool :=
  (strategy =s StrategyLastWriteWins) || (strategy =s StrategyFieldMerge).

(** The field [f] of a state: its value and its last writer. *)
Definition cell (st : Fields * FieldProvenance) (f : string) : option Json * option Prov :=
  (st.1 !! f, st.2 !! f).

(** [merged_field] reads only the field's own cell. *)
Definition cell_merge (strategy : string) (w : Write) (f : string)
    (c : option Json * option Prov) : option Json * option Prov :=
  match wr_fields w !! f with
  | None => c
  | Some v =>
      match c.2 with
      | None => (Some v, Some (wr_prov w))
      | Some p =>
          let stored := default JNull c.1 in
          if pr_Source p =s wr_source w then (Some v, Some (wr_prov w))
          else if valuesEqual stored v then (Some v, Some (wr_prov w))
          else if (pr_OccurredAt p <? wr_at w)%Z then (Some v, Some (wr_prov w))
          else if (wr_at w <? pr_OccurredAt p)%Z then (Some stored, Some p)
          else if (wr_priority w <? pr_Priority p)%Z then (Some v, Some (wr_prov w))
          else (Some stored, Some p)
      end
  end.

Lemma merge_write_cell strategy st w f :
  time_based strategy = true ->
  cell (merge_write strategy st w) f = cell_merge strategy w f (cell st f).
Proof.
  intros Ht. unfold merge_write, cell.
  assert (Hn : normalizeStrategy strategy = strategy /\ strategy <> StrategyManual).
  { unfold time_based in Ht. apply orb_prop in Ht as [->%seqb_true| ->%seqb_true]; done. }
  destruct Hn as [Hn Hm].
  pose proof (Merge_lookup strategy st.1 st.2 (wr_fields w) (wr_source w) (wr_version w)
                (wr_at w) (wr_priority w)) as H. cbv zeta in H. rewrite Hn in H.
  destruct (mr_out _) as [[out prov]|]; [|naive_solver].
  rewrite H. unfold merged_field, cell_merge, detect_field, mget.
  destruct (wr_fields w !! f) as [v|]; [|done].
  cbn [fst snd]. destruct (st.2 !! f) as [p|]; [|done].
  destruct (pr_Source p =s wr_source w) eqn:Es; [done|].
  destruct (valuesEqual _ _); [done|]. unfold Resolve.
  fold (time_based strategy). rewrite Ht. cbn [fc_OccurredAtA fc_OccurredAtB fc_PriorityA fc_PriorityB].
  assert (Es' : (wr_source w =s pr_Source p) = false) by (apply seqb_ne; apply seqb_false in Es; done).
  destruct (pr_OccurredAt p <? wr_at w)%Z;
    [|destruct (wr_at w <? pr_OccurredAt p)%Z; [|destruct (wr_priority w <? pr_Priority p)%Z]];
    unfold priorityFor, wr_prov; simpl; rewrite ?Es', ?seqb_refl; by destruct p.
Qed.

(** A write later than the last writer always takes the field. *)
Lemma cell_merge_newer strategy w f v c :
  wr_fields w !! f = Some v ->
  (forall p, c.2 = Some p -> (pr_OccurredAt p < wr_at w)%Z) ->
  cell_merge strategy w f c = (Some v, Some (wr_prov w)).
Proof.
  intros Hv Hp. unfold cell_merge. rewrite Hv. destruct c.2 as [p|]; [|done].
  specialize (Hp p eq_refl). apply Z.ltb_lt in Hp. rewrite Hp. by repeat case_if.
Qed.

Lemma valuesEqual_sym a b : valuesEqual a b = valuesEqual b a.
Proof. unfold valuesEqual, seqb. apply bool_decide_ext. split; congruence. Qed.

(** C11: under a time-based strategy two concurrent edits converge: events of two
    different sources at different times, both later than the last writers of
    the fields they carry, leave the same fields and the same provenance
    whichever is merged first, provided the values they give to a common field
    differ. *)
Theorem merge_order_independent (strategy : string) (st : Fields * FieldProvenance)
    (a b : Write) :
  time_based strategy = true ->
  wr_source a <> wr_source b -> wr_at a <> wr_at b ->
  (forall f x y, wr_fields a !! f = Some x -> wr_fields b !! f = Some y ->
     valuesEqual x y = false) ->
  (forall f p, st.2 !! f = Some p -> (pr_OccurredAt p < wr_at a)%Z /\ (pr_OccurredAt p < wr_at b)%Z) ->
  merge_write strategy (merge_write strategy st a) b =
  merge_write strategy (merge_write strategy st b) a.
Proof.
  intros Ht Hs Hat Hv Hp.
  enough (forall f, cell (merge_write strategy (merge_write strategy st a) b) f =
                    cell (merge_write strategy (merge_write strategy st b) a) f) as H.
  { apply injective_projections; apply map_eq; intros f; specialize (H f);
      unfold cell in H; by injection H. }
  intros f. rewrite !merge_write_cell by done.
  specialize (Hv f). specialize (Hp f).
  destruct (wr_fields a !! f) as [x|] eqn:Ea, (wr_fields b !! f) as [y|] eqn:Eb;
    [|by unfold cell_merge; rewrite Ea, Eb..].
  specialize (Hv x y eq_refl eq_refl).
  rewrite (cell_merge_newer _ a f x (cell st f)) by naive_solver.
  rewrite (cell_merge_newer _ b f y (cell st f)) by naive_solver.
  unfold cell_merge. rewrite Ea, Eb. simpl. rewrite Hv, (valuesEqual_sym y x), Hv.
  rewrite (seqb_ne _ _ Hs), (seqb_ne _ _ (not_eq_sym Hs)).
  assert ((wr_at a <? wr_at b)%Z = negb (wr_at b <? wr_at a)%Z) as -> by lia.
  by destruct (wr_at b <? wr_at a)%Z.
Qed.

Definition sf_write : Write :=
  mkWrite (list_to_map [("email", JStr "ada@new.dev"); ("phone", JStr "1")]) "salesforce" 7 200 100.
Definition hs_write : Write :=
  mkWrite (list_to_map [("email", JStr "ada@old.dev"); ("company", JStr "Acme")]) "hubspot" 3 100 100.
Definition base_state : Fields * FieldProvenance :=
  (list_to_map [("email", JStr "ada@acme.dev")],
   list_to_map [("email", mkProv "hubspot" 2 50 100)]).

Lemma merge_order_independent_witness :
  merge_write StrategyLastWriteWins (merge_write StrategyLastWriteWins base_state sf_write) hs_write =
  merge_write StrategyLastWriteWins (merge_write StrategyLastWriteWins base_state hs_write) sf_write.
Proof.
  apply (merge_order_independent StrategyLastWriteWins base_state sf_write hs_write).
  - reflexivity.
  - discriminate.
  - discriminate.
  - intros f x y Hx Hy. unfold sf_write, hs_write in *; simpl in Hx, Hy.
    repeat (apply lookup_insert_Some in Hx as [[<- <-]|[? Hx]]);
      repeat (apply lookup_insert_Some in Hy as [[? <-]|[? Hy]]); try done.
  - intros f p Hp. simpl in Hp.
    apply lookup_insert_Some in Hp as [[_ <-]|[_ Hp]]; [simpl; lia|done].
Defined.

(** ** Persistence of the provenance *)

Lemma prov_json_roundtrip p j :
  in_int64 (pr_Version p) = true -> in_int64 (pr_Priority p) = true ->
  prov_json p = Some j -> prov_unmarshal j = p.
Proof.
  unfold prov_json. intros Hv Hp H.
  destruct (time_marshal (pr_OccurredAt p)) as [o|] eqn:Eo; [|done].
  apply (inj Some) in H as <-. apply time_roundtrip in Eo. destruct p as [s v t pr]; simpl in *.
  unfold prov_unmarshal, dec_time, dec_string, dec_int64.
  destruct (pr =? 0)%Z eqn:E; simpl; rewrite Eo, Hv, ?Hp; [|done].
  by apply Z.eqb_eq in E as ->.
Qed.

(** The field provenance a record is stored with is the provenance the next
    event is compared against: [FromMap] inverts [ToMap] whenever the column
    marshals (versions and priorities being machine integers). *)
Theorem provenance_roundtrip (fp : FieldProvenance) (m : Fields) :
  map_Forall (fun _ p => in_int64 (pr_Version p) = true /\ in_int64 (pr_Priority p) = true) fp ->
  ToMap fp = Some m -> FromMap m = fp.
Proof.
  unfold ToMap, FromMap. intros Hint. destruct (forallb _ _) eqn:Hall; [|done].
  intros [= <-]. rewrite List.forallb_forall in Hall.
  apply map_eq. intros f. rewrite lookup_fmap, lookup_omap.
  destruct (fp !! f) as [p|] eqn:Ep; simpl; [|done].
  specialize (Hall (f, p)). rewrite <- list_elem_of_In, elem_of_map_to_list in Hall.
  specialize (Hall Ep). apply bool_decide_eq_true in Hall as [j Hj]. simpl in Hj.
  rewrite Hj. simpl. f_equal. destruct (Hint f p Ep). by apply prov_json_roundtrip.
Qed.

Lemma provenance_roundtrip_witness :
  match ToMap base_state.2 with
  | Some m => FromMap m = base_state.2
  | None => False
  end.
Proof.
  destruct (ToMap base_state.2) as [m|] eqn:E; [|vm_compute in E; discriminate].
  apply (provenance_roundtrip base_state.2 m); [|exact E].
  intros f p Hp. simpl in Hp.
  apply lookup_insert_Some in Hp as [[_ <-]|[_ Hp]]; [|done].
  split; vm_compute; reflexivity.
Defined.
