(* ===== verification/Backoff.v ===== *)
(** * [internal/backoff]: the retry delay

    [ComputeDelay] mixes wrapping [int64] arithmetic (the shift and the product
    may overflow) with [float64] jitter.  Both are modelled exactly: integers
    wrap, and a non-negative [float64] is an integer number of units of
    2^-106, every operation rounding to 53 significant bits, ties to even (no
    value involved is subnormal or infinite). *)

From S2P Require Import Prelude.
Local Open Scope Z_scope.

Definition Second : Z := 1000000000.

(** Round a non-negative integer to 53 significant bits, ties to even. *)
Definition round53 (m : Z) : Z :=
  let s := Z.log2 m - 52 in
  if s <=? 0 then m
  else
    let q := m / 2 ^ s in
    let r := m mod 2 ^ s in
    let half := 2 ^ (s - 1) in
    let up := (half <? r) || ((r =? half) && Z.odd q) in
    (if up then q + 1 else q) * 2 ^ s.

(** The [float64] constants [0.7] and [0.6], in units of 2^-53. *)
Definition f0_7 : Z := 6305039478318694.
Definition f0_6 : Z := 5404319552844595.

(** [0.7 + rand.Float64()*0.6] in units of 2^-106; [rand.Float64()] is
    [k / 2^53] for a uniform [0 <= k < 2^53]. *)
Definition jitter_factor (k : Z) : Z := round53 (f0_7 * 2 ^ 53 + round53 (k * f0_6)).

(** [time.Duration(float64(exp) * factor)] for [exp >= 0]: the conversion
    truncates. *)
Definition jittered (exp k : Z) : Z := round53 (round53 exp * jitter_factor k) / 2 ^ 106.

(** [1<<(failures-1)] at type [int]. *)
Definition shl_one (n : Z) : Z := if n <? 64 then wrap64 (2 ^ n) else 0.

(** [backoff.ComputeDelay]; [k] is the draw of [rand.Float64]. *)
Definition ComputeDelay (failures base max k : Z) : Z :=
  let failures := if failures <? 1 then 1 else failures in
  let base := if base <=? 0 then 1 * Second else base in
  let max := if max <=? 0 then 60 * Second else max in
  let exp := wrap64 (base * shl_one (failures - 1)) in
  let exp := if (max <? exp) || (exp <=? 0) then max else exp in
  let delay := jittered exp k in
  if max <? delay then max else delay.

(** A draw of [rand.Float64]. *)
Definition is_draw (k : Z) : bool := (0 <=? k) && (k <? 2 ^ 53).

(** ** Rounding *)

Lemma round53_err m : 0 <= m -> Z.abs (round53 m - m) * 2 ^ 53 <= m.
Proof.
  intros Hm. unfold round53. cbv zeta. case_if; [lia|].
  apply Z.leb_gt in E. assert (0 < m) as Hpos.
  { destruct (decide (m = 0)) as [->|]; [|lia]. simpl in E. lia. }
  set (s := Z.log2 m - 52) in *.
  assert (Hlo : 2 ^ (s + 52) <= m).
  { unfold s. rewrite Z.sub_add. by apply Z.log2_spec. }
  assert (Hs : 2 ^ s = 2 * 2 ^ (s - 1)) by (rewrite <- Z.pow_succ_r by lia; f_equal; lia).
  assert (Hs52 : 2 ^ (s + 52) = 2 ^ (s - 1) * 2 ^ 53)
    by (rewrite <- Z.pow_add_r by lia; f_equal; lia).
  assert (0 < 2 ^ (s - 1)) by (apply Z.pow_pos_nonneg; lia).
  pose proof (Z.div_mod m (2 ^ s) ltac:(lia)) as Hdm.
  pose proof (Z.mod_pos_bound m (2 ^ s) ltac:(lia)) as Hmod.
  set (q := m / 2 ^ s) in *. set (r := m mod 2 ^ s) in *. set (h := 2 ^ (s - 1)) in *.
  assert (Habs : Z.abs ((if (h <? r) || ((r =? h) && Z.odd q) then q + 1 else q) * 2 ^ s - m) <= h).
  { clearbody q r h. rewrite Hs in *. clear Hs Hs52 Hlo E. clearbody s.
    destruct (h <? r) eqn:E1; [simpl; nia|]. simpl.
    destruct (r =? h) eqn:E2; [|simpl; nia]. destruct (Z.odd q); simpl; nia. }
  nia.
Qed.

Lemma round53_nonneg m : 0 <= m -> 0 <= round53 m.
Proof. intros H. pose proof (round53_err m H). nia. Qed.

(** The jitter factor stays within a part in 2^50 of [0.7, 1.3]. *)
Lemma jitter_factor_bounds k :
  is_draw k = true ->
  f0_7 * 2 ^ 53 - 2 ^ 54 <= jitter_factor k <= (f0_7 + f0_6) * 2 ^ 53 + 2 ^ 56.
Proof.
  unfold is_draw, jitter_factor. intros [H1%Z.leb_le H2%Z.ltb_lt]%andb_prop.
  pose proof (round53_err (k * f0_6) ltac:(unfold f0_6; lia)).
  pose proof (round53_nonneg (k * f0_6) ltac:(unfold f0_6; lia)).
  pose proof (round53_err (f0_7 * 2 ^ 53 + round53 (k * f0_6)) ltac:(unfold f0_7; lia)).
  unfold f0_7, f0_6 in *. lia.
Qed.

(** Twice the relative errors of the two roundings, and the truncation. *)
Lemma jittered_bounds exp k :
  is_draw k = true -> 0 <= exp ->
  6999 * exp - 10000 <= 10000 * jittered exp k <= 13001 * exp.
Proof.
  intros Hk Hexp. pose proof (jitter_factor_bounds k Hk) as Hf. unfold jittered.
  pose proof (round53_err exp Hexp). pose proof (round53_nonneg exp Hexp).
  set (x := round53 exp) in *. set (f := jitter_factor k) in *. unfold f0_7, f0_6 in Hf.
  assert (0 <= x * f) by nia.
  pose proof (round53_err (x * f) ltac:(done)). set (y := round53 (x * f)) in *.
  pose proof (Z.div_mod y (2 ^ 106) ltac:(lia)).
  pose proof (Z.mod_pos_bound y (2 ^ 106) ltac:(lia)).
  set (d := y / 2 ^ 106) in *. clearbody d y x f.
  assert (x * (f0_7 * 2 ^ 53 - 2 ^ 54) <= x * f <= x * ((f0_7 + f0_6) * 2 ^ 53 + 2 ^ 56)).
  { unfold f0_7, f0_6. split; apply Z.mul_le_mono_nonneg_l; lia. }
  unfold f0_7, f0_6 in *. lia.
Qed.

(** ** The exponential, overflow included *)

Lemma wrap64_cong z : exists t, wrap64 z = z + t * 2 ^ 64.
Proof.
  unfold wrap64. exists (- ((z + 2 ^ 63) / 2 ^ 64)).
  pose proof (Z.div_mod (z + 2 ^ 63) (2 ^ 64) ltac:(lia)). lia.
Qed.

(** A product of [base] and a power of two that leaves the [int64] range wraps
    to something the clamp catches: not positive, or larger than [max]. *)
Lemma overflow_caught base max n v :
  0 < base -> 0 < max -> 0 <= n -> 0 <= v -> (2 ^ v | base) -> base * max < 2 ^ (63 + v) ->
  2 ^ 63 <= base * 2 ^ n ->
  let w := wrap64 (base * shl_one n) in max < w \/ w <= 0.
Proof.
  intros Hb Hm Hn Hv [b Hdiv] Hbm Hov w. unfold shl_one in w.
  destruct (n <? 64) eqn:En; [|right; subst w; rewrite Z.mul_0_r; vm_compute; congruence].
  apply Z.ltb_lt in En.
  assert (Hw : exists t, w = b * 2 ^ (n + v) + t * 2 ^ 64).
  { destruct (wrap64_cong (2 ^ n)) as [t1 E1].
    destruct (wrap64_cong (base * wrap64 (2 ^ n))) as [t2 E2].
    exists (base * t1 + t2). subst w. rewrite E2, E1, Hdiv.
    rewrite Z.pow_add_r by lia. ring. }
  destruct Hw as [t Hw]. pose proof (wrap64_range (base * wrap64 (2 ^ n))) as Hr. fold w in Hr.
  unfold int64_min, int64_max in Hr. destruct (decide (w <= 0)) as [|Hpos]; [by right|left].
  assert (Hmax : max < 2 ^ (n + v)).
  { rewrite Z.pow_add_r in Hbm |- * by lia. assert (0 < 2 ^ v) by (apply Z.pow_pos_nonneg; lia). nia. }
  destruct (decide (n + v <= 63)) as [Hle|Hgt].
  - assert (Hd : (2 ^ (n + v) | w)).
    { rewrite Hw. exists (b + t * 2 ^ (64 - (n + v))).
      replace (2 ^ 64) with (2 ^ (64 - (n + v)) * 2 ^ (n + v)); [ring|].
      rewrite <- Z.pow_add_r by lia. f_equal. lia. }
    apply Z.divide_pos_le in Hd; lia.
  - assert (Hd : (2 ^ 64 | w)).
    { rewrite Hw. exists (b * 2 ^ (n + v - 64) + t).
      replace (2 ^ (n + v)) with (2 ^ (n + v - 64) * 2 ^ 64); [ring|].
      rewrite <- Z.pow_add_r by lia. f_equal. lia. }
    apply Z.divide_pos_le in Hd; lia.
Qed.

(** The undisturbed delay: base, 2*base, 4*base, ... up to the cap. *)
Definition nominal (failures base max : Z) : Z := Z.min max (base * 2 ^ (failures - 1)).

(** C34: the scheduled delay is the capped exponential up to 30% of jitter (plus
    the rounding of [float64], a part in 10^4 being ample) and never exceeds
    the cap, for every failure count: the [int64] overflow of the shift and of
    the product is always caught by the clamp.  The draw is one the generator
    makes, there is at least one failure, and base and cap are positive, the cap
    at most 2^62; with 2^v a divisor of [base], [base * max] stays below 2^(63+v).
    This holds for the defaults of 1s and 60s, [base] being a multiple of 2^9. *)
Theorem backoff_bounds (failures base max k v : Z) :
  is_draw k = true -> 1 <= failures -> 0 < base -> 0 < max <= 2 ^ 62 ->
  0 <= v -> (2 ^ v | base) -> base * max < 2 ^ (63 + v) ->
  let d := ComputeDelay failures base max k in
  d <= max /\
  6999 * nominal failures base max - 10000 <= 10000 * d <= 13001 * nominal failures base max.
Proof.
  intros Hk Hf Hb Hm Hv Hdiv Hbm. unfold ComputeDelay. cbv zeta.
  rewrite (proj2 (Z.ltb_ge failures 1)) by lia.
  rewrite (proj2 (Z.leb_gt base 0)), (proj2 (Z.leb_gt max 0)) by lia.
  assert (Hexp : (if (max <? wrap64 (base * shl_one (failures - 1)))
                     || (wrap64 (base * shl_one (failures - 1)) <=? 0)
                  then max else wrap64 (base * shl_one (failures - 1)))
                 = nominal failures base max).
  { unfold nominal. destruct (decide (base * 2 ^ (failures - 1) < 2 ^ 63)) as [Hlt|Hge].
    - assert (0 < 2 ^ (failures - 1)) by (apply Z.pow_pos_nonneg; lia).
      assert (failures - 1 < 63) by (apply (Z.pow_lt_mono_r_iff 2); nia).
      unfold shl_one. rewrite (proj2 (Z.ltb_lt _ 64)) by lia.
      assert (in_int64 (2 ^ (failures - 1)) = true)
        by (unfold in_int64, int64_min, int64_max; nia).
      rewrite (wrap64_id (2 ^ _)) by done. rewrite wrap64_id
        by (unfold in_int64, int64_min, int64_max; nia).
      destruct (max <? _) eqn:E; simpl; [lia|]. rewrite (proj2 (Z.leb_gt _ 0)) by nia. lia.
    - rewrite Z.min_l by lia.
      destruct (overflow_caught base max (failures - 1) v ltac:(lia) ltac:(lia) ltac:(lia) Hv Hdiv Hbm
                  ltac:(lia)) as [H|H].
      + by rewrite (proj2 (Z.ltb_lt _ _) H).
      + by rewrite (proj2 (Z.leb_le _ _) H), orb_true_r. }
  rewrite Hexp. assert (0 < nominal failures base max <= max).
  { unfold nominal. assert (0 < 2 ^ (failures - 1)) by (apply Z.pow_pos_nonneg; lia). nia. }
  pose proof (jittered_bounds (nominal failures base max) k Hk ltac:(lia)).
  destruct (Z.ltb_spec max (jittered (nominal failures base max) k)); lia.
Qed.

(** The defaults at the fortieth failure, where the product overflows. *)
Lemma backoff_bounds_witness :
  let d := ComputeDelay 40 (1 * Second) (60 * Second) 0 in
  d <= 60 * Second /\
  6999 * nominal 40 (1 * Second) (60 * Second) - 10000 <= 10000 * d
    <= 13001 * nominal 40 (1 * Second) (60 * Second).
Proof.
  apply (backoff_bounds 40 (1 * Second) (60 * Second) 0 9);
    [reflexivity|lia|reflexivity|by vm_compute|lia|exists 1953125; reflexivity|reflexivity].
Defined.
