(* ===== verification/Float64.v ===== *)
(** * [float64] arithmetic

    A finite [float64] is an integer number of units of 2^-1074, the smallest
    subnormal, and an operation is the exact result rounded to the nearest
    integer with at most 53 significant bits, ties to even: that is IEEE 754
    double precision, subnormals included.  Infinities and NaN are left out:
    the token buckets, which are what this is for, never divide by zero and stay
    far below 2^1024. *)

From S2P Require Import Prelude.
Local Open Scope Z_scope.

(** One, in units. *)
Definition f1 : Z := 2 ^ 1074.

(** The non-negative rational [n / d], rounded. *)
Definition rne_abs (n d : Z) : Z :=
  let s := Z.max 0 (Z.log2 (n / d) - 52) in
  let D := d * 2 ^ s in
  let k := n / D in
  let r := n mod D in
  let up := (D <? 2 * r) || ((2 * r =? D) && Z.odd k) in
  (if up then k + 1 else k) * 2 ^ s.

Definition rne (n d : Z) : Z := if n <? 0 then - rne_abs (- n) d else rne_abs n d.

Definition fadd (a b : Z) : Z := rne (a + b) 1.
Definition fsub (a b : Z) : Z := rne (a - b) 1.
Definition fmul (a b : Z) : Z := rne (a * b) f1.
(** The divisor is positive. *)
Definition fdiv (a b : Z) : Z := rne (a * f1) b.
(** [float64(n)] of an integer. *)
Definition f_of_int (n : Z) : Z := rne (n * f1) 1.
(** [int64(x)]: truncation towards zero. *)
Definition f_to_int (x : Z) : Z := Z.quot x f1.

(** [time.Duration.Seconds]: whole seconds plus the fraction. *)
Definition Seconds (d : Z) : Z :=
  fadd (f_of_int (Z.quot d 1000000000))
    (fdiv (f_of_int (Z.rem d 1000000000)) (f_of_int 1000000000)).

(** ** The rounding error *)

Lemma f1_pos : 0 < f1.
Proof. unfold f1. lia. Qed.

(** Half a unit in the last place: relative 2^-53, or half the smallest unit. *)
Lemma rne_abs_err n d :
  0 <= n -> 0 < d -> Z.abs (rne_abs n d * d - n) * 2 ^ 53 <= Z.max n (d * 2 ^ 52).
Proof.
  intros Hn Hd. unfold rne_abs. cbv zeta. set (q := n / d). set (s := Z.max 0 (Z.log2 q - 52)).
  assert (Hs : 0 <= s) by lia. assert (Hp : 0 < 2 ^ s) by (apply Z.pow_pos_nonneg; lia).
  set (D := d * 2 ^ s). assert (HD : 0 < D) by nia.
  pose proof (Z.div_mod n D ltac:(lia)) as Hdm. pose proof (Z.mod_pos_bound n D HD) as Hr.
  assert (Hk : 0 <= n / D) by (apply Z.div_pos; lia).
  set (k := n / D) in *. set (r := n mod D) in *.
  assert (Hhalf : 2 * Z.abs ((if (D <? 2 * r) || ((2 * r =? D) && Z.odd k) then k + 1 else k) * 2 ^ s * d - n) <= D).
  { replace ((if (D <? 2 * r) || ((2 * r =? D) && Z.odd k) then k + 1 else k) * 2 ^ s * d)
      with ((if (D <? 2 * r) || ((2 * r =? D) && Z.odd k) then k + 1 else k) * D) by (unfold D; ring).
    destruct (D <? 2 * r) eqn:E1; [apply Z.ltb_lt in E1; simpl; nia|apply Z.ltb_ge in E1; simpl].
    destruct (2 * r =? D) eqn:E2; [apply Z.eqb_eq in E2|]; [|simpl; nia]. destruct (Z.odd k); simpl; nia. }
  set (x := Z.abs _) in *. assert (D * 2 ^ 52 <= Z.max n (d * 2 ^ 52)); [|lia].
  destruct (Z.max_spec 0 (Z.log2 q - 52)) as [[Hlt Es]|[_ Es]]; fold s in Es.
  - assert (0 < q) by (destruct (decide (q = 0)) as [->|]; [simpl in Hlt; lia|];
      assert (0 <= q) by (apply Z.div_pos; lia); lia).
    assert (2 ^ (s + 52) <= q) by (rewrite Es, Z.sub_add; by apply Z.log2_spec).
    rewrite Z.pow_add_r in * by lia. unfold D.
    assert (q * d <= n) by (unfold q; rewrite Z.mul_comm; apply Z.mul_div_le; lia). nia.
  - assert (D = d) by (unfold D; rewrite Es; change (2 ^ 0) with 1; ring). lia.
Qed.

Lemma rne_abs_nonneg n d : 0 <= n -> 0 < d -> 0 <= rne_abs n d.
Proof.
  intros Hn Hd. unfold rne_abs. cbv zeta.
  set (s := Z.max 0 _). assert (0 <= s) by lia. assert (0 < 2 ^ s) by (apply Z.pow_pos_nonneg; lia).
  assert (0 <= n / (d * 2 ^ s)) by (apply Z.div_pos; nia). case_match; nia.
Qed.

(** Integers of up to 53 bits are exact. *)
Lemma rne_exact n : 0 <= n <= 2 ^ 53 -> rne_abs n 1 = n.
Proof.
  intros Hn. unfold rne_abs. cbv zeta. rewrite Z.div_1_r, Z.mul_1_l.
  destruct (decide (n = 2 ^ 53)) as [->|Hne]; [vm_compute; reflexivity|].
  replace (Z.max 0 (Z.log2 n - 52)) with 0.
  - change (2 ^ 0) with 1. rewrite Z.mod_1_r, Z.div_1_r. simpl. lia.
  - destruct (decide (n = 0)) as [->|]; [reflexivity|].
    assert (Z.log2 n < 53) by (apply Z.log2_lt_pow2; lia). lia.
Qed.

Lemma rne_nonneg n d : 0 <= n -> 0 < d -> 0 <= rne n d.
Proof. intros Hn Hd. unfold rne. destruct (Z.ltb_spec n 0); [lia|]. by apply rne_abs_nonneg. Qed.

Lemma rne_err n d :
  0 < d -> Z.abs (rne n d * d - n) * 2 ^ 53 <= Z.max (Z.abs n) (d * 2 ^ 52).
Proof.
  intros Hd. unfold rne. destruct (Z.ltb_spec n 0).
  - pose proof (rne_abs_err (- n) d ltac:(lia) Hd). lia.
  - pose proof (rne_abs_err n d ltac:(lia) Hd). lia.
Qed.
