(* ===== verification/Buckets.v ===== *)
(** * [connectors.Limiter] and [simulator.RateLimiter]: the token buckets

    Both hold [tokens], refill them with the time that has passed and take one
    per request; they differ in how they treat a clock that stands still.  The
    arithmetic is [float64], rounding included; times are nanoseconds.  The
    theorem bounds what passes in any stretch of time. *)

From S2P Require Import Prelude Float64.
Local Open Scope Z_scope.

(** [Limiter] and [RateLimiter] have the same fields. *)
Record Limiter := mkLimiter { lm_rate : Z; lm_capacity : Z; lm_tokens : Z; lm_last : Z }.

(** [NewLimiter]. *)
Definition NewLimiter (perMinute now : Z) : Limiter :=
  mkLimiter (fdiv (f_of_int perMinute) (f_of_int 60)) (f_of_int perMinute) (f_of_int perMinute) now.

(** [time.Duration(x * float64(time.Second))]. *)
Definition to_duration (x : Z) : Z := f_to_int (fmul x (f_of_int 1000000000)).

(** [Limiter.take]: whether [n] tokens were taken, the wait otherwise, and the
    bucket afterwards. *)
Definition take_tokens (l : Limiter) (n now : Z) : bool * Z * Limiter :=
  let tokens := Z.min (lm_capacity l)
                  (fadd (lm_tokens l) (fmul (Seconds (now - lm_last l)) (lm_rate l))) in
  if n <=? tokens then (true, 0, mkLimiter (lm_rate l) (lm_capacity l) (fsub tokens n) now)
  else (false, to_duration (fdiv (fsub n tokens) (lm_rate l)),
        mkLimiter (lm_rate l) (lm_capacity l) tokens now).

(** [Limiter.Wait]: one clock reading per attempt; when the readings end, the
    context is cancelled.  A nil limiter or a rate of zero lets everything pass. *)
Fixpoint wait_loop (l : Limiter) (nows : list Z) : bool * Limiter :=
  match nows with
  | [] => (false, l)
  | now :: nows =>
      match take_tokens l f1 now with
      | (true, _, l') => (true, l')
      | (false, _, l') => wait_loop l' nows
      end
  end.

Definition Wait (l : option Limiter) (nows : list Z) : bool * option Limiter :=
  match l with
  | None => (true, None)
  | Some l => if lm_rate l <=? 0 then (true, Some l)
              else let (ok, l') := wait_loop l nows in (ok, Some l')
  end.

(** [NewRateLimiter]. *)
Definition NewRateLimiter (perMinute now : Z) : Limiter := NewLimiter perMinute now.

(** [RateLimiter.Allow]. *)
Definition Allow (l : Limiter) (now : Z) : bool * Z * Limiter :=
  let elapsed := Seconds (now - lm_last l) in
  let l := if 0 <? elapsed
           then let tokens := fadd (lm_tokens l) (fmul elapsed (lm_rate l)) in
                mkLimiter (lm_rate l) (lm_capacity l)
                  (if lm_capacity l <? tokens then lm_capacity l else tokens) now
           else l in
  if f1 <=? lm_tokens l
  then (true, 0, mkLimiter (lm_rate l) (lm_capacity l) (fsub (lm_tokens l) f1) (lm_last l))
  else (false, to_duration (fdiv (fsub f1 (lm_tokens l)) (lm_rate l)), l).

(** [RateLimiter.SetCapacity]. *)
Definition SetCapacity (l : Limiter) (perMinute : Z) : Limiter :=
  if 0 <? perMinute then
    let capacity := f_of_int perMinute in
    mkLimiter (fdiv (f_of_int perMinute) (f_of_int 60)) capacity
      (if capacity <? lm_tokens l then capacity else lm_tokens l) (lm_last l)
  else l.

(** A bucket of 60 a minute: sixty at once, one more after a second. *)
Fixpoint allow_all (l : Limiter) (nows : list Z) : list bool * Limiter :=
  match nows with
  | [] => ([], l)
  | now :: nows =>
      let r := Allow l now in
      let (bs, l') := allow_all r.2 nows in (r.1.1 :: bs, l')
  end.

Example sixty_a_minute :
  (allow_all (NewRateLimiter 60 0) (repeat 0 61 ++ [999999999; 1000000000; 1000000000])).1
  = (repeat true 60 ++ [false; false; true; false])%list.
Proof. vm_compute. reflexivity. Qed.

(** ** What the roundings may add *)

Lemma rne_up n d :
  0 <= n -> 0 < d -> rne n d * d * 2 ^ 53 <= n * (2 ^ 53 + 1) + d * 2 ^ 52.
Proof. intros Hn Hd. pose proof (rne_err n d Hd). lia. Qed.

Lemma f_of_int_up n : 0 <= n -> f_of_int n * 2 ^ 53 <= n * f1 * (2 ^ 53 + 1) + 2 ^ 52.
Proof. intros Hn. pose proof f1_pos. pose proof (rne_up (n * f1) 1 ltac:(nia) ltac:(lia)). unfold f_of_int. lia. Qed.

Lemma f_of_int_nonneg n : 0 <= n -> 0 <= f_of_int n.
Proof. intros Hn. pose proof f1_pos. apply rne_nonneg; nia. Qed.

Lemma f_of_int_exact : f_of_int 60 = 60 * f1 /\ f_of_int 1000000000 = 1000000000 * f1.
Proof. split; vm_compute; reflexivity. Qed.

Lemma fdiv_int_up a n :
  0 <= a -> 0 < n -> f_of_int n = n * f1 ->
  fdiv a (f_of_int n) * n * 2 ^ 53 <= a * (2 ^ 53 + 1) + n * 2 ^ 52.
Proof.
  intros Ha Hn E. pose proof f1_pos as HF. unfold fdiv. rewrite E.
  pose proof (rne_up (a * f1) (n * f1) ltac:(nia) ltac:(nia)).
  apply (Z.mul_le_mono_pos_r _ _ f1); [done|]. lia.
Qed.

(** The seconds of a duration, in units. *)
Lemma Seconds_up d :
  0 <= d -> Seconds d * 1000000000 * 2 ^ 51 <= d * f1 * (2 ^ 51 + 1) + 1000000000 * 2 ^ 53.
Proof.
  intros Hd. pose proof f1_pos as HF. unfold Seconds.
  assert (Hq : 0 <= Z.quot d 1000000000) by (apply Z.quot_pos; lia).
  assert (Hr : 0 <= Z.rem d 1000000000) by (apply Z.rem_nonneg; lia).
  pose proof (Z.quot_rem d 1000000000 ltac:(lia)) as Hdm.
  set (q := Z.quot d 1000000000) in *. set (r := Z.rem d 1000000000) in *.
  pose proof (f_of_int_up q Hq). pose proof (f_of_int_nonneg q Hq).
  pose proof (f_of_int_up r Hr). pose proof (f_of_int_nonneg r Hr).
  pose proof (fdiv_int_up (f_of_int r) 1000000000 ltac:(lia) ltac:(lia) (proj2 f_of_int_exact)) as Hb.
  assert (0 <= fdiv (f_of_int r) (f_of_int 1000000000)).
  { unfold fdiv. rewrite (proj2 f_of_int_exact). apply rne_nonneg; nia. }
  set (b := fdiv _ _) in *. set (a := f_of_int q) in *. set (c := f_of_int r) in *.
  pose proof (rne_up (a + b) 1 ltac:(lia) ltac:(lia)) as Hs. unfold fadd. set (s := rne (a + b) 1) in *.
  assert (d * f1 = 1000000000 * (q * f1) + r * f1) as Ed by (rewrite Hdm at 1; ring).
  clearbody q r a b c s. generalize dependent (q * f1). intros qF. intros.
  generalize dependent (r * f1). intros rF. intros. generalize dependent (d * f1). intros dF. intros.
  lia.
Qed.

Lemma Seconds_nonneg d : 0 <= d -> 0 <= Seconds d.
Proof.
  intros Hd. pose proof f1_pos. unfold Seconds, fadd.
  assert (0 <= Z.quot d 1000000000) by (apply Z.quot_pos; lia).
  assert (0 <= Z.rem d 1000000000) by (apply Z.rem_nonneg; lia).
  apply rne_nonneg; [|lia].
  assert (0 <= f_of_int (Z.quot d 1000000000)) by by apply f_of_int_nonneg.
  assert (0 <= fdiv (f_of_int (Z.rem d 1000000000)) (f_of_int 1000000000)); [|lia].
  unfold fdiv. rewrite (proj2 f_of_int_exact). apply rne_nonneg; [|nia].
  pose proof (f_of_int_nonneg (Z.rem d 1000000000)). nia.
Qed.

Lemma f1_large : 2 ^ 200 <= f1.
Proof. unfold f1. lia. Qed.

(** Time that has passed shows. *)
Lemma f_of_int_low n : 1 <= n -> n * f1 <= 2 * f_of_int n.
Proof.
  intros Hn. pose proof f1_large as HF. pose proof (rne_err (n * f1) 1 ltac:(lia)) as He.
  unfold f_of_int. assert (f1 <= n * f1) by nia. set (x := rne (n * f1) 1) in *.
  generalize dependent (n * f1). intros nF. intros. lia.
Qed.

Lemma Seconds_pos d : 0 < d -> 0 < Seconds d.
Proof.
  intros Hd. pose proof f1_large as HF. unfold Seconds.
  assert (Hq : 0 <= Z.quot d 1000000000) by (apply Z.quot_pos; lia).
  assert (Hr : 0 <= Z.rem d 1000000000) by (apply Z.rem_nonneg; lia).
  pose proof (Z.quot_rem d 1000000000 ltac:(lia)) as Hdm.
  set (q := Z.quot d 1000000000) in *. set (r := Z.rem d 1000000000) in *.
  pose proof (f_of_int_nonneg q Hq) as Hq0. pose proof (f_of_int_nonneg r Hr) as Hr0.
  assert (Hb0 : 0 <= fdiv (f_of_int r) (f_of_int 1000000000)).
  { unfold fdiv. rewrite (proj2 f_of_int_exact). apply rne_nonneg; nia. }
  assert (Hab : 2 ^ 100 <= f_of_int q + fdiv (f_of_int r) (f_of_int 1000000000)).
  { destruct (decide (q = 0)) as [Eq|Nq].
    - pose proof (f_of_int_low r ltac:(lia)) as Hlow. assert (f1 <= r * f1) by nia.
      unfold fdiv in *. rewrite (proj2 f_of_int_exact) in *.
      pose proof (rne_err (f_of_int r * f1) (1000000000 * f1) ltac:(nia)) as He.
      set (b := rne _ _) in *. set (c := f_of_int r) in *.
      assert (c <= b * 4000000000); [|lia]. apply (Z.mul_le_mono_pos_r _ _ f1); [lia|].
      assert (f1 <= 2 * c) by lia. assert (f1 * f1 <= 2 * (c * f1)) by nia.
      replace (b * (1000000000 * f1)) with (1000000000 * (b * f1)) in He by ring.
      replace (b * 4000000000 * f1) with (4000000000 * (b * f1)) by ring.
      assert (2 ^ 100 * f1 <= f1 * f1) by nia.
      generalize dependent (c * f1). intros cF. intros. generalize dependent (b * f1). intros bF. intros.
      generalize dependent (f1 * f1). intros FF. intros. lia.
    - pose proof (f_of_int_low q ltac:(lia)). assert (f1 <= q * f1) by nia. lia. }
  set (ab := f_of_int q + _) in *. unfold fadd. fold ab. pose proof (rne_err ab 1 ltac:(lia)). lia.
Qed.

Definition minute : Z := 60000000000.

(** The rate of a bucket of [p] a minute. *)
Definition rate_of (p : Z) : Z := fdiv (f_of_int p) (f_of_int 60).

Lemma rate_of_up p : 1 <= p -> rate_of p * 60 * 2 ^ 50 <= p * f1 * (2 ^ 50 + 1).
Proof.
  intros Hp. pose proof f1_large as HF. pose proof (f_of_int_up p ltac:(lia)).
  pose proof (f_of_int_nonneg p ltac:(lia)).
  pose proof (fdiv_int_up (f_of_int p) 60 ltac:(lia) ltac:(lia) (proj1 f_of_int_exact)) as Hr.
  fold (rate_of p) in Hr. assert (f1 <= p * f1) by nia.
  generalize dependent (p * f1). intros pF. intros. lia.
Qed.

Lemma rate_of_nonneg p : 0 <= p -> 0 <= rate_of p.
Proof.
  intros Hp. pose proof f1_pos. unfold rate_of, fdiv. rewrite (proj1 f_of_int_exact).
  pose proof (f_of_int_nonneg p Hp). apply rne_nonneg; nia.
Qed.

Lemma Seconds_up' d : 0 <= d -> Seconds d * 1000000000 * 2 ^ 50 <= d * f1 * (2 ^ 50 + 1).
Proof.
  intros Hd. destruct (decide (d = 0)) as [->|Hne].
  { assert (Seconds 0 = 0) as -> by (vm_compute; reflexivity). lia. }
  pose proof f1_large as HF. pose proof (Seconds_up d Hd). assert (f1 <= d * f1) by nia.
  generalize dependent (d * f1). intros dF. intros. lia.
Qed.

(** What [d] nanoseconds add. *)
Lemma refill_up p d :
  1 <= p -> 0 <= d ->
  fmul (Seconds d) (rate_of p) * minute * 2 ^ 48 <= p * d * f1 * (2 ^ 48 + 1) + minute * 2 ^ 48.
Proof.
  intros Hp Hd. pose proof f1_large as HF. pose proof (rate_of_up p Hp) as Hr.
  pose proof (rate_of_nonneg p ltac:(lia)) as Hr0. pose proof (Seconds_up' d Hd) as Hs.
  pose proof (Seconds_nonneg d Hd) as Hs0.
  set (s := Seconds d) in *. set (r := rate_of p) in *. unfold fmul.
  pose proof (rne_up (s * r) f1 ltac:(nia) ltac:(lia)) as Hi. set (i := rne (s * r) f1) in *.
  assert (Hsr : (s * 1000000000 * 2 ^ 50) * (r * 60 * 2 ^ 50)
                <= (d * f1 * (2 ^ 50 + 1)) * (p * f1 * (2 ^ 50 + 1)))
    by (apply Z.mul_le_mono_nonneg; lia).
  apply (Z.mul_le_mono_pos_r _ _ f1); [lia|].
  assert (E1 : (d * f1 * (2 ^ 50 + 1)) * (p * f1 * (2 ^ 50 + 1)) = p * d * f1 * f1 * (2 ^ 50 + 1) ^ 2) by ring.
  rewrite E1 in Hsr. assert (0 <= p * d * f1 * f1) by nia.
  replace ((p * d * f1 * (2 ^ 48 + 1) + minute * 2 ^ 48) * f1)
    with (p * d * f1 * f1 * (2 ^ 48 + 1) + minute * 2 ^ 48 * f1) by ring.
  replace (i * minute * 2 ^ 48 * f1) with (i * f1 * (minute * 2 ^ 48)) by ring.
  replace ((s * 1000000000 * 2 ^ 50) * (r * 60 * 2 ^ 50)) with (s * r * (minute * 2 ^ 100)) in Hsr
    by (unfold minute; ring).
  unfold minute in *. generalize dependent (p * d * f1 * f1). intros X. intros.
  generalize dependent (i * f1). intros iF. intros. generalize dependent (s * r). intros sr. intros.
  generalize dependent f1. intros F. intros. lia.
Qed.

(** A bucket of [p] a minute. *)
Record Bucket (p : Z) (l : Limiter) : Prop := mkBucket {
  bk_rate : lm_rate l = rate_of p;
  bk_capacity : lm_capacity l = f_of_int p;
  bk_tokens : 0 <= lm_tokens l <= lm_capacity l;
}.

(** One draw: the tokens before, after, and whether one was taken. *)
Definition spent (b : bool) : Z := if b then f1 else 0.

(** The error of one draw, in units times [minute * 2^52]. *)
Definition slack (p : Z) : Z := minute * (4 * p * f1 + 2 ^ 55).

Lemma draw_up p d tokens x y g :
  1 <= p <= 2 ^ 20 -> 0 <= d -> 0 <= tokens <= f_of_int p -> 0 <= x <= f_of_int p ->
  x <= Z.max tokens (fadd tokens (fmul (Seconds d) (rate_of p))) ->
  y = (if g : bool then fsub x f1 else x) -> (g = true -> f1 <= x) ->
  0 <= y <= f_of_int p /\ (y + spent g) * 2 ^ 53 <= f_of_int p * (2 ^ 53 + 1) + 2 ^ 52 /\
  minute * 2 ^ 52 * (y + spent g) <= minute * 2 ^ 52 * tokens + p * d * f1 * (2 ^ 52 + 2 ^ 6) + slack p.
Proof.
  intros Hp Hd Ht Hx Hle Hy Hg. pose proof f1_large as HF.
  pose proof (refill_up p d ltac:(lia) Hd) as Hi. pose proof (f_of_int_up p ltac:(lia)) as Hc.
  assert (0 <= fmul (Seconds d) (rate_of p)) as Hi0.
  { apply rne_nonneg; [|lia]. pose proof (Seconds_nonneg d Hd). pose proof (rate_of_nonneg p ltac:(lia)). nia. }
  set (i := fmul _ _) in *. set (c := f_of_int p) in *.
  unfold fadd in Hle. pose proof (rne_up (tokens + i) 1 ltac:(lia) ltac:(lia)) as Hs.
  set (t := rne (tokens + i) 1) in *. unfold slack, minute in *.
  assert (0 <= p * d * f1) by nia. assert (f1 <= p * f1 <= 2 ^ 20 * f1) by nia.
  replace (4 * p * f1) with (4 * (p * f1)) by ring.
  assert (Hy' : 0 <= y <= c /\ (y + spent g) * 2 ^ 53 <= x * (2 ^ 53 + 1) + 2 ^ 52).
  { destruct g; simpl in *; subst y; [|lia]. specialize (Hg eq_refl). unfold fsub, spent.
    pose proof (rne_up (x - f1) 1 ltac:(lia) ltac:(lia)).
    pose proof (rne_nonneg (x - f1) 1 ltac:(lia) ltac:(lia)).
    generalize dependent (p * f1). intros pF. intros. lia. }
  destruct Hy' as [Hyc Hy']. split; [exact Hyc|]. split; [lia|].
  generalize dependent (p * d * f1). intros X. intros. generalize dependent (p * f1). intros pF. intros.
  clearbody c t i. generalize dependent (spent g). intros sg. intros. lia.
Qed.

(** ** Runs *)

(** One draw at [now]: the bucket is brought up to date, what is left and spent is
    at most the capacity (up to a rounding), and at most what was there and what
    the time has added. *)
Definition Drawn (p : Z) (l l' : Limiter) (g : bool) (now : Z) : Prop :=
  Bucket p l' /\ lm_last l' = now /\
  (lm_tokens l' + spent g) * 2 ^ 53 <= f_of_int p * (2 ^ 53 + 1) + 2 ^ 52 /\
  minute * 2 ^ 52 * (lm_tokens l' + spent g)
    <= minute * 2 ^ 52 * lm_tokens l + p * (now - lm_last l) * f1 * (2 ^ 52 + 2 ^ 6) + slack p.

Section runs.
(** Either draw: [Allow], or [take] of one token. *)
Context (f : Limiter -> Z -> bool * Z * Limiter) (p : Z).

Fixpoint run_draws (l : Limiter) (nows : list Z) : list bool * Limiter :=
  match nows with
  | [] => ([], l)
  | now :: nows =>
      let r := f l now in
      let (bs, l') := run_draws r.2 nows in (r.1.1 :: bs, l')
  end.

Definition granted (bs : list bool) : Z := Z.of_nat (length (List.filter id bs)).

(** Readings of a clock that never goes back. *)
Fixpoint forward (t : Z) (nows : list Z) : Prop :=
  match nows with
  | [] => True
  | now :: nows => t <= now /\ forward now nows
  end.

Context (Hf : forall l now, Bucket p l -> lm_last l <= now -> Drawn p l (f l now).2 (f l now).1.1 now).

Lemma last_cons (nows : list Z) now x : List.last (now :: nows) x = List.last nows now.
Proof. revert now. induction nows as [|y nows IH]; intros now; [done|]. simpl in *. by destruct nows. Qed.

Lemma granted_cons g bs : granted (g :: bs) * f1 = spent g + granted bs * f1.
Proof. unfold granted, spent. simpl. destruct g; cbn [id List.filter length]; lia. Qed.

Lemma run_draws_up nows : forall l,
  Bucket p l -> forward (lm_last l) nows ->
  let r := run_draws l nows in
  Bucket p r.2 /\ lm_last r.2 = List.last nows (lm_last l) /\ lm_last l <= lm_last r.2 /\
  minute * 2 ^ 52 * (lm_tokens r.2 + granted r.1 * f1)
    <= minute * 2 ^ 52 * lm_tokens l + p * (lm_last r.2 - lm_last l) * f1 * (2 ^ 52 + 2 ^ 6)
       + Z.of_nat (length nows) * slack p.
Proof using Hf.
  induction nows as [|now nows IH]; intros l Hb Hw.
  { split; [done|]. unfold granted. simpl. split_and!; [done|lia|lia]. }
  destruct Hw as [Hle Hw]. destruct (Hf l now Hb Hle) as (Hb1 & Hl1 & _ & Hup1).
  rewrite last_cons. simpl. destruct (f l now) as [[g w] l1]. simpl in *. rewrite <- Hl1 in Hw.
  specialize (IH l1 Hb1 Hw) as (Hb2 & Hl2 & Hle2 & Hup2).
  destruct (run_draws l1 nows) as [bs l2]. simpl in *. rewrite Hl1 in Hl2.
  split; [done|]. split; [done|]. split; [lia|].
  rewrite granted_cons, Nat2Z.inj_succ. generalize dependent (granted bs * f1). intros G. intros. nia.
Qed.

(** What passes from the first of some draws on, whatever the bucket went through
    before it. *)
Lemma span_up l now nows :
  Bucket p l -> lm_last l <= now -> forward now nows ->
  minute * 2 ^ 53 * (granted (run_draws l (now :: nows)).1 * f1)
    <= minute * (f_of_int p * (2 ^ 53 + 1) + 2 ^ 52)
       + 2 * (p * (List.last nows now - now) * f1 * (2 ^ 52 + 2 ^ 6) + Z.of_nat (length nows) * slack p).
Proof using Hf.
  intros Hb Hle Hw. destruct (Hf l now Hb Hle) as (Hb1 & Hl1 & Hcap & _). simpl.
  destruct (f l now) as [[g w] l1]. simpl in *. rewrite <- Hl1 in Hw.
  destruct (run_draws_up nows l1 Hb1 Hw) as ([_ _ Ht] & Hl2 & _ & Hup).
  destruct (run_draws l1 nows) as [bs l2]. simpl in *. rewrite Hl2, Hl1 in Hup. rewrite granted_cons.
  unfold minute in *. generalize dependent (granted bs * f1). intros G. intros. lia.
Qed.
End runs.

Lemma Bucket_new p now : 0 <= p -> Bucket p (NewLimiter p now).
Proof. intros Hp. pose proof (f_of_int_nonneg p Hp). split; simpl; [done|done|lia]. Qed.

Lemma fadd_nonneg a b : 0 <= a -> 0 <= b -> 0 <= fadd a b.
Proof. intros Ha Hb. apply rne_nonneg; lia. Qed.

Lemma refill_nonneg p d : 1 <= p -> 0 <= d -> 0 <= fmul (Seconds d) (rate_of p).
Proof.
  intros Hp Hd. apply rne_nonneg; [|apply f1_pos]. pose proof (Seconds_nonneg d Hd).
  pose proof (rate_of_nonneg p ltac:(lia)). nia.
Qed.

(** A bucket refilled to [x], and what is left of it. *)
Lemma settle_up p l now x wait :
  1 <= p <= 2 ^ 20 -> Bucket p l -> lm_last l <= now -> 0 <= x <= f_of_int p ->
  x <= Z.max (lm_tokens l) (fadd (lm_tokens l) (fmul (Seconds (now - lm_last l)) (rate_of p))) ->
  let r := if f1 <=? x then (true, 0, mkLimiter (rate_of p) (f_of_int p) (fsub x f1) now)
           else (false, wait : Z, mkLimiter (rate_of p) (f_of_int p) x now) in
  Drawn p l r.2 r.1.1 now.
Proof.
  intros Hp [Hr Hc Ht] Hlast Hx Hxle r. rewrite Hc in Ht. subst r. unfold Drawn.
  assert (Hup := fun y g => draw_up p (now - lm_last l) (lm_tokens l) x y g Hp ltac:(lia) Ht Hx Hxle).
  destruct (Z.leb_spec f1 x) as [Hg|Hg]; cbn [fst snd lm_tokens lm_last].
  - destruct (Hup (fsub x f1) true eq_refl) as (Hy & Hc' & Hs); [done|]. split; [by split|]. split; [done|]. by split.
  - destruct (Hup x false eq_refl) as (Hy & Hc' & Hs); [done|]. split; [by split|]. split; [done|]. by split.
Qed.

Lemma take_up p l now :
  1 <= p <= 2 ^ 20 -> Bucket p l -> lm_last l <= now ->
  let r := take_tokens l f1 now in Drawn p l r.2 r.1.1 now.
Proof.
  intros Hp Hb Hle. pose proof Hb as [Hr Hc Ht]. unfold take_tokens. rewrite Hr, Hc in *.
  pose proof (refill_nonneg p (now - lm_last l) ltac:(lia) ltac:(lia)) as Hi.
  pose proof (fadd_nonneg _ _ (proj1 Ht) Hi) as Ha. pose proof (f_of_int_nonneg p ltac:(lia)).
  apply settle_up; [done|done|done|lia|lia].
Qed.

Lemma allow_up p l now :
  1 <= p <= 2 ^ 20 -> Bucket p l -> lm_last l <= now ->
  let r := Allow l now in Drawn p l r.2 r.1.1 now.
Proof.
  intros Hp Hb Hle. pose proof Hb as [Hr Hc Ht]. unfold Allow. cbv zeta.
  pose proof (f_of_int_nonneg p ltac:(lia)).
  pose proof (refill_nonneg p (now - lm_last l) ltac:(lia) ltac:(lia)) as Hi.
  pose proof (fadd_nonneg _ _ (proj1 Ht) Hi) as Ha. rewrite Hc in Ht.
  destruct (Z.ltb_spec 0 (Seconds (now - lm_last l))) as [_|Hs]; cbn [lm_rate lm_capacity lm_tokens lm_last].
  - rewrite Hr, Hc. set (x := fadd _ _) in *.
    apply settle_up; [done|done|done|destruct (Z.ltb_spec (f_of_int p) x); lia|].
    destruct (Z.ltb_spec (f_of_int p) x); fold x; lia.
  - assert (now = lm_last l) as ->.
    { destruct (Z.eq_dec now (lm_last l)) as [|Hne]; [done|].
      pose proof (Seconds_pos (now - lm_last l) ltac:(lia)). lia. }
    destruct l as [r0 c0 t0 last0]. cbn [lm_rate lm_capacity lm_tokens lm_last] in *. subst r0 c0.
    apply (settle_up p (mkLimiter (rate_of p) (f_of_int p) t0 last0) last0 t0);
      [done|done|simpl; lia|done|simpl; lia].
Qed.

(** The draws [nows] of a bucket that was made at [t0] and has gone through the
    draws [before]. *)
Definition span_grants (f : Limiter -> Z -> bool * Z * Limiter) (p t0 : Z) (before nows : list Z) : Z :=
  granted (run_draws f (run_draws f (NewLimiter p t0) before).2 nows).1.

Lemma forward_app t l1 l2 : forward t (l1 ++ l2) -> forward t l1 /\ forward (List.last l1 t) l2.
Proof.
  revert t. induction l1 as [|x l1 IH]; intros t; [done|]. rewrite last_cons. simpl.
  intros [Hle Hw]. destruct (IH x Hw). by repeat split.
Qed.

Lemma span_bound f p t0 before nows :
  1 <= p <= 2 ^ 20 -> forward t0 (before ++ nows) -> Z.of_nat (length nows) <= 2 ^ 28 ->
  (forall l now, Bucket p l -> lm_last l <= now -> Drawn p l (f l now).2 (f l now).1.1 now) ->
  let T := List.last nows t0 - List.hd t0 nows in
  T <= 2 ^ 53 -> span_grants f p t0 before nows * minute <= p * (minute + T) + minute.
Proof.
  intros Hp Hw Hlen Hf T HT. apply forward_app in Hw as [Hw1 Hw2]. unfold span_grants.
  destruct (run_draws_up f p Hf before (NewLimiter p t0)) as (Hb & Hl & _ & _); [apply Bucket_new; lia|done|].
  destruct (run_draws f (NewLimiter p t0) before) as [bs l]. cbn [fst snd lm_last NewLimiter] in *.
  destruct nows as [|now nows]; [unfold T, granted; simpl; unfold minute; lia|].
  destruct Hw2 as [Hle Hw2]. rewrite <- Hl in Hle. pose proof (span_up f p Hf l now nows Hb Hle Hw2) as Hup.
  unfold T in *. rewrite last_cons in *. simpl in HT. cbn [List.hd].
  set (d := List.last nows now - now) in *. set (G := granted _) in *.
  pose proof (f_of_int_up p ltac:(lia)) as Hc. pose proof f1_large as HF.
  assert (p * d <= 2 ^ 20 * 2 ^ 53) by nia.
  assert (Hn : Z.of_nat (length nows) * slack p <= 2 ^ 28 * slack p).
  { unfold slack, minute. simpl length in Hlen. nia. }
  unfold slack in *. assert (p * f1 <= 2 ^ 20 * f1) by nia.
  apply (Z.mul_le_mono_pos_r _ _ f1); [lia|]. unfold minute in *. nia.
Qed.

(** C38: in any span of its life a bucket of [p] a minute (1 <= p <= 2^20) lets
    through at most [p] at once and [p] a minute after that, up to one request for
    the roundings.  Whatever draws it has gone through since it was made, at times
    that never go back: of up to 2^28 draws that span [T <= 2^53] nanoseconds (a
    hundred days) from the first to the last, the granted ones number at most
    [p * (1 + T / minute) + 1].  This holds for the client's bucket and for the
    simulator's. *)
Theorem rate_respected (p t0 : Z) (before nows : list Z) :
  1 <= p <= 2 ^ 20 -> forward t0 (before ++ nows) -> (Z.of_nat (length nows) <= 2 ^ 28) ->
  let T := List.last nows t0 - List.hd t0 nows in
  T <= 2 ^ 53 ->
  span_grants (fun l => take_tokens l f1) p t0 before nows * minute <= p * (minute + T) + minute /\
  span_grants Allow p t0 before nows * minute <= p * (minute + T) + minute.
Proof.
  intros Hp Hw Hlen T HT. split; apply span_bound; try done; intros; [by apply take_up|by apply allow_up].
Qed.

(** A bucket emptied, left alone for a minute and a half, and asked again. *)
Lemma rate_respected_witness :
  span_grants Allow 2 0 [0; 0; 0] [90000000000; 90000000000; 90000000000; 91000000000] * minute
  <= 2 * (minute + 1000000000) + minute.
Proof.
  apply (rate_respected 2 0 [0; 0; 0] [90000000000; 90000000000; 90000000000; 91000000000]);
    simpl; repeat split; lia.
Defined.
