(* ===== verification/Tables.v ===== *)
(** * The rows of [internal/store] and the database

    One record per table, with the fields of the Go struct that scans a row, and
    [DB], the tables as lists of rows in insertion order.  Times are nanoseconds
    since the Unix epoch; a nullable column is an [option]; a [jsonb] column
    holding an object is a [Fields], holding an opaque document a [Json]. *)

From S2P Require Import Prelude Json.
Local Open Scope string_scope.

(** [store.CanonicalRecord]. *)
Record CanonicalRecord := mkCanonicalRecord {
  cr_SyncID : string; cr_TenantID : string; cr_EntityType : string; cr_EntityID : string;
  cr_Fields : Fields; cr_Version : Z; cr_SourceVersions : gmap string Z;
  cr_FieldProvenance : Fields; cr_Tombstone : bool; cr_OriginSource : string;
  cr_OriginEventID : string; cr_SyncOperationID : string; cr_ProviderIDs : gmap string string;
  cr_CreatedAt : Z; cr_UpdatedAt : Z;
}.

Definition cr_set_Fields (v : Fields) (r : CanonicalRecord) : CanonicalRecord :=
   mkCanonicalRecord (cr_SyncID r) (cr_TenantID r) (cr_EntityType r) (cr_EntityID r) v
      (cr_Version r) (cr_SourceVersions r) (cr_FieldProvenance r) (cr_Tombstone r)
      (cr_OriginSource r) (cr_OriginEventID r) (cr_SyncOperationID r) (cr_ProviderIDs r)
      (cr_CreatedAt r) (cr_UpdatedAt r).
Definition cr_set_Version (v : Z) (r : CanonicalRecord) : CanonicalRecord :=
   mkCanonicalRecord (cr_SyncID r) (cr_TenantID r) (cr_EntityType r) (cr_EntityID r)
      (cr_Fields r) v (cr_SourceVersions r) (cr_FieldProvenance r) (cr_Tombstone r)
      (cr_OriginSource r) (cr_OriginEventID r) (cr_SyncOperationID r) (cr_ProviderIDs r)
      (cr_CreatedAt r) (cr_UpdatedAt r).
Definition cr_set_SourceVersions (v : gmap string Z) (r : CanonicalRecord) : CanonicalRecord :=
   mkCanonicalRecord (cr_SyncID r) (cr_TenantID r) (cr_EntityType r) (cr_EntityID r)
      (cr_Fields r) (cr_Version r) v (cr_FieldProvenance r) (cr_Tombstone r)
      (cr_OriginSource r) (cr_OriginEventID r) (cr_SyncOperationID r) (cr_ProviderIDs r)
      (cr_CreatedAt r) (cr_UpdatedAt r).
Definition cr_set_FieldProvenance (v : Fields) (r : CanonicalRecord) : CanonicalRecord :=
   mkCanonicalRecord (cr_SyncID r) (cr_TenantID r) (cr_EntityType r) (cr_EntityID r)
      (cr_Fields r) (cr_Version r) (cr_SourceVersions r) v (cr_Tombstone r)
      (cr_OriginSource r) (cr_OriginEventID r) (cr_SyncOperationID r) (cr_ProviderIDs r)
      (cr_CreatedAt r) (cr_UpdatedAt r).
Definition cr_set_Tombstone (v : bool) (r : CanonicalRecord) : CanonicalRecord :=
   mkCanonicalRecord (cr_SyncID r) (cr_TenantID r) (cr_EntityType r) (cr_EntityID r)
      (cr_Fields r) (cr_Version r) (cr_SourceVersions r) (cr_FieldProvenance r) v
      (cr_OriginSource r) (cr_OriginEventID r) (cr_SyncOperationID r) (cr_ProviderIDs r)
      (cr_CreatedAt r) (cr_UpdatedAt r).
Definition cr_set_OriginSource (v : string) (r : CanonicalRecord) : CanonicalRecord :=
   mkCanonicalRecord (cr_SyncID r) (cr_TenantID r) (cr_EntityType r) (cr_EntityID r)
      (cr_Fields r) (cr_Version r) (cr_SourceVersions r) (cr_FieldProvenance r)
      (cr_Tombstone r) v (cr_OriginEventID r) (cr_SyncOperationID r) (cr_ProviderIDs r)
      (cr_CreatedAt r) (cr_UpdatedAt r).
Definition cr_set_OriginEventID (v : string) (r : CanonicalRecord) : CanonicalRecord :=
   mkCanonicalRecord (cr_SyncID r) (cr_TenantID r) (cr_EntityType r) (cr_EntityID r)
      (cr_Fields r) (cr_Version r) (cr_SourceVersions r) (cr_FieldProvenance r)
      (cr_Tombstone r) (cr_OriginSource r) v (cr_SyncOperationID r) (cr_ProviderIDs r)
      (cr_CreatedAt r) (cr_UpdatedAt r).
Definition cr_set_ProviderIDs (v : gmap string string) (r : CanonicalRecord) : CanonicalRecord :=
   mkCanonicalRecord (cr_SyncID r) (cr_TenantID r) (cr_EntityType r) (cr_EntityID r)
      (cr_Fields r) (cr_Version r) (cr_SourceVersions r) (cr_FieldProvenance r)
      (cr_Tombstone r) (cr_OriginSource r) (cr_OriginEventID r) (cr_SyncOperationID r) v
      (cr_CreatedAt r) (cr_UpdatedAt r).
Definition cr_set_UpdatedAt (v : Z) (r : CanonicalRecord) : CanonicalRecord :=
   mkCanonicalRecord (cr_SyncID r) (cr_TenantID r) (cr_EntityType r) (cr_EntityID r)
      (cr_Fields r) (cr_Version r) (cr_SourceVersions r) (cr_FieldProvenance r)
      (cr_Tombstone r) (cr_OriginSource r) (cr_OriginEventID r) (cr_SyncOperationID r)
      (cr_ProviderIDs r) (cr_CreatedAt r) v.
Definition cr_set_EntityID (v : string) (r : CanonicalRecord) : CanonicalRecord :=
   mkCanonicalRecord (cr_SyncID r) (cr_TenantID r) (cr_EntityType r) v (cr_Fields r)
      (cr_Version r) (cr_SourceVersions r) (cr_FieldProvenance r) (cr_Tombstone r)
      (cr_OriginSource r) (cr_OriginEventID r) (cr_SyncOperationID r) (cr_ProviderIDs r)
      (cr_CreatedAt r) (cr_UpdatedAt r).

(** One row of [processed_events]. *)
Record ProcessedEvent := mkProcessedEvent {
  pe_TenantID : string; pe_Source : string; pe_EventID : string; pe_EntityType : string;
  pe_EntityID : string; pe_ProcessedAt : Z;
}.

(** [store.OutboundWrite]. *)
Record OutboundWrite := mkOutboundWrite {
  ow_TenantID : string; ow_EntityType : string; ow_EntityID : string; ow_TargetSource : string;
  ow_Fingerprint : string; ow_AppliedVersion : Z; ow_WrittenAt : Z;
}.

(** [store.SyncOperation]. *)
Record SyncOperation := mkSyncOperation {
  so_ID : string; so_TenantID : string; so_EntityType : string; so_EntityID : string;
  so_Source : string; so_TargetSource : string; so_EventID : string; so_AppliedVersion : Z;
  so_Fingerprint : string; so_CreatedAt : Z;
}.

(** [store.SourceEvent]; [OccurredAt] is nullable. *)
Record SourceEvent := mkSourceEvent {
  se_ID : string; se_TenantID : string; se_Source : string; se_EventID : string;
  se_EntityType : string; se_EntityID : string; se_EventType : string; se_SourceVersion : Z;
  se_OccurredAt : option Z; se_ReceivedAt : Z; se_CorrelationID : string;
  se_Provenance : Fields; se_Raw : Fields; se_Status : string;
}.

Definition se_set_Status (v : string) (r : SourceEvent) : SourceEvent :=
   mkSourceEvent (se_ID r) (se_TenantID r) (se_Source r) (se_EventID r) (se_EntityType r)
      (se_EntityID r) (se_EventType r) (se_SourceVersion r) (se_OccurredAt r)
      (se_ReceivedAt r) (se_CorrelationID r) (se_Provenance r) (se_Raw r) v.

(** [store.RetryEntry]; [State] is the event's JSON document. *)
Record RetryEntry := mkRetryEntry {
  rt_ID : string; rt_TenantID : string; rt_EventID : string; rt_Attempt : Z; rt_MaxAttempts : Z;
  rt_NextAttemptAt : Z; rt_LastError : string; rt_ErrorClass : string; rt_State : Json;
  rt_UpdatedAt : Z;
}.

(** [store.DeadLetter]. *)
Record DeadLetter := mkDeadLetter {
  dl_ID : string; dl_TenantID : string; dl_EventID : string; dl_Reason : string;
  dl_ErrorClass : string; dl_Payload : Json; dl_Status : string; dl_CreatedAt : Z;
  dl_ResolvedAt : option Z;
}.

(** [store.ConflictRecord]. *)
Record ConflictRecord := mkConflictRecord {
  co_ID : string; co_TenantID : string; co_EntityType : string; co_EntityID : string;
  co_SourceA : string; co_VersionA : Z; co_PayloadA : Json; co_SourceB : string;
  co_VersionB : Z; co_PayloadB : Json; co_DetectedAt : Z; co_Status : string;
  co_ResolutionStrategy : string; co_ResolvedBy : option string; co_ResolvedAt : option Z;
}.

(** [store.SyncPolicy]. *)
Record SyncPolicy := mkSyncPolicy {
  po_ID : string; po_TenantID : string; po_Entity : string; po_Source : string;
  po_Destination : string; po_Mode : string; po_ConflictStrategy : string;
  po_DeletePolicy : string; po_RetryPolicy : string; po_SourcePriority : Z; po_Enabled : bool;
  po_CreatedAt : Z; po_UpdatedAt : Z;
}.

(** [store.SyncJob]. *)
Record SyncJob := mkSyncJob {
  sj_ID : string; sj_TenantID : string; sj_Entity : string; sj_Source : string;
  sj_Destination : string; sj_Type : string; sj_Status : string; sj_Cursor : option string;
  sj_Processed : Z; sj_Failed : Z; sj_Total : Z; sj_BatchSize : Z; sj_StartedAt : option Z;
  sj_FinishedAt : option Z; sj_LastError : option string; sj_CreatedAt : Z;
}.

Definition sj_set_Status (v : string) (r : SyncJob) : SyncJob :=
   mkSyncJob (sj_ID r) (sj_TenantID r) (sj_Entity r) (sj_Source r) (sj_Destination r)
      (sj_Type r) v (sj_Cursor r) (sj_Processed r) (sj_Failed r) (sj_Total r)
      (sj_BatchSize r) (sj_StartedAt r) (sj_FinishedAt r) (sj_LastError r) (sj_CreatedAt r).
Definition sj_set_StartedAt (v : option Z) (r : SyncJob) : SyncJob :=
   mkSyncJob (sj_ID r) (sj_TenantID r) (sj_Entity r) (sj_Source r) (sj_Destination r)
      (sj_Type r) (sj_Status r) (sj_Cursor r) (sj_Processed r) (sj_Failed r) (sj_Total r)
      (sj_BatchSize r) v (sj_FinishedAt r) (sj_LastError r) (sj_CreatedAt r).
Definition sj_set_FinishedAt (v : option Z) (r : SyncJob) : SyncJob :=
   mkSyncJob (sj_ID r) (sj_TenantID r) (sj_Entity r) (sj_Source r) (sj_Destination r)
      (sj_Type r) (sj_Status r) (sj_Cursor r) (sj_Processed r) (sj_Failed r) (sj_Total r)
      (sj_BatchSize r) (sj_StartedAt r) v (sj_LastError r) (sj_CreatedAt r).
Definition sj_set_LastError (v : option string) (r : SyncJob) : SyncJob :=
   mkSyncJob (sj_ID r) (sj_TenantID r) (sj_Entity r) (sj_Source r) (sj_Destination r)
      (sj_Type r) (sj_Status r) (sj_Cursor r) (sj_Processed r) (sj_Failed r) (sj_Total r)
      (sj_BatchSize r) (sj_StartedAt r) (sj_FinishedAt r) v (sj_CreatedAt r).

(** [store.ReconciliationRun], with the [error] column [FinishReconciliationRun] writes. *)
Record ReconciliationRun := mkReconciliationRun {
  rr_ID : string; rr_TenantID : string; rr_Entity : string; rr_Source : string;
  rr_Mode : string; rr_Status : string; rr_JobID : option string; rr_Total : Z; rr_Drift : Z;
  rr_Missed : Z; rr_Deleted : Z; rr_StartedAt : Z; rr_FinishedAt : option Z;
  rr_Error : option string;
}.

(** [store.ReconciliationFinding]. *)
Record ReconciliationFinding := mkReconciliationFinding {
  rf_ID : string; rf_RunID : string; rf_TenantID : string; rf_Kind : string;
  rf_ProviderID : string; rf_CanonicalID : string; rf_CanonicalFields : Fields;
  rf_ProviderFields : Fields; rf_ProviderVersion : Z; rf_Direction : string; rf_Status : string;
  rf_Error : option string; rf_CreatedAt : Z; rf_AppliedAt : option Z;
}.

Definition rf_set_Direction (v : string) (r : ReconciliationFinding) : ReconciliationFinding :=
   mkReconciliationFinding (rf_ID r) (rf_RunID r) (rf_TenantID r) (rf_Kind r)
      (rf_ProviderID r) (rf_CanonicalID r) (rf_CanonicalFields r) (rf_ProviderFields r)
      (rf_ProviderVersion r) v (rf_Status r) (rf_Error r) (rf_CreatedAt r) (rf_AppliedAt r).

(** [store.Connection]. *)
Record Connection := mkConnection {
  cn_ID : string; cn_TenantID : string; cn_Name : string; cn_Provider : string;
  cn_BaseURL : string; cn_Status : string; cn_WebhookSecret : string; cn_Config : Fields;
  cn_CreatedAt : Z; cn_UpdatedAt : Z; cn_LastHealthCheck : option Z;
}.

Definition cn_set_Status (v : string) (r : Connection) : Connection :=
   mkConnection (cn_ID r) (cn_TenantID r) (cn_Name r) (cn_Provider r) (cn_BaseURL r) v
      (cn_WebhookSecret r) (cn_Config r) (cn_CreatedAt r) (cn_UpdatedAt r)
      (cn_LastHealthCheck r).

(** [store.Tenant]. *)
Record Tenant := mkTenant {
  tn_ID : string; tn_Name : string; tn_Slug : string; tn_Status : string; tn_CreatedAt : Z;
}.

(** [store.User], with the [backup_codes] column. *)
Record User := mkUser {
  us_ID : string; us_TenantID : string; us_Email : string; us_PasswordHash : string;
  us_Role : string; us_TOTPSecret : string; us_TOTPEnabled : bool; us_BackupCodes : list string;
  us_CreatedAt : Z;
}.

Definition us_set_PasswordHash (v : string) (r : User) : User :=
   mkUser (us_ID r) (us_TenantID r) (us_Email r) v (us_Role r) (us_TOTPSecret r)
      (us_TOTPEnabled r) (us_BackupCodes r) (us_CreatedAt r).
Definition us_set_Role (v : string) (r : User) : User :=
   mkUser (us_ID r) (us_TenantID r) (us_Email r) (us_PasswordHash r) v (us_TOTPSecret r)
      (us_TOTPEnabled r) (us_BackupCodes r) (us_CreatedAt r).
Definition us_set_TOTPSecret (v : string) (r : User) : User :=
   mkUser (us_ID r) (us_TenantID r) (us_Email r) (us_PasswordHash r) (us_Role r) v
      (us_TOTPEnabled r) (us_BackupCodes r) (us_CreatedAt r).
Definition us_set_TOTPEnabled (v : bool) (r : User) : User :=
   mkUser (us_ID r) (us_TenantID r) (us_Email r) (us_PasswordHash r) (us_Role r)
      (us_TOTPSecret r) v (us_BackupCodes r) (us_CreatedAt r).
Definition us_set_BackupCodes (v : list string) (r : User) : User :=
   mkUser (us_ID r) (us_TenantID r) (us_Email r) (us_PasswordHash r) (us_Role r)
      (us_TOTPSecret r) (us_TOTPEnabled r) v (us_CreatedAt r).

(** [store.APIKey], with the [key_hash] and [last_used_at] columns. *)
Record APIKey := mkAPIKey {
  ak_ID : string; ak_TenantID : string; ak_Name : string; ak_KeyHash : string; ak_Role : string;
  ak_Enabled : bool; ak_CreatedAt : Z; ak_LastUsedAt : option Z;
}.

Definition ak_set_Enabled (v : bool) (r : APIKey) : APIKey :=
   mkAPIKey (ak_ID r) (ak_TenantID r) (ak_Name r) (ak_KeyHash r) (ak_Role r) v
      (ak_CreatedAt r) (ak_LastUsedAt r).

(** [store.Session]. *)
Record Session := mkSession {
  ss_ID : string; ss_JTI : string; ss_UserID : string; ss_TenantID : string; ss_Role : string;
  ss_CreatedAt : Z; ss_ExpiresAt : Z; ss_RevokedAt : option Z;
}.

Definition ss_set_RevokedAt (v : option Z) (r : Session) : Session :=
   mkSession (ss_ID r) (ss_JTI r) (ss_UserID r) (ss_TenantID r) (ss_Role r)
      (ss_CreatedAt r) (ss_ExpiresAt r) v.

(** [store.LoginAttempt]. *)
Record LoginAttempt := mkLoginAttempt {
  la_ID : string; la_TenantID : string; la_Email : string; la_IP : string; la_Success : bool;
  la_AttemptedAt : Z;
}.

(** [store.AuditLog]. *)
Record AuditLog := mkAuditLog {
  au_ID : string; au_TenantID : option string; au_Actor : string; au_Action : string;
  au_Resource : string; au_ResourceID : string; au_Metadata : Fields; au_CreatedAt : Z;
}.

(** ** Equality of rows is decidable *)

#[global] Instance CanonicalRecord_eq_dec : EqDecision CanonicalRecord.
Proof. solve_decision. Defined.
#[global] Instance ProcessedEvent_eq_dec : EqDecision ProcessedEvent.
Proof. solve_decision. Defined.
#[global] Instance OutboundWrite_eq_dec : EqDecision OutboundWrite.
Proof. solve_decision. Defined.
#[global] Instance SyncOperation_eq_dec : EqDecision SyncOperation.
Proof. solve_decision. Defined.
#[global] Instance SourceEvent_eq_dec : EqDecision SourceEvent.
Proof. solve_decision. Defined.
#[global] Instance RetryEntry_eq_dec : EqDecision RetryEntry.
Proof. solve_decision. Defined.
#[global] Instance DeadLetter_eq_dec : EqDecision DeadLetter.
Proof. solve_decision. Defined.
#[global] Instance ConflictRecord_eq_dec : EqDecision ConflictRecord.
Proof. solve_decision. Defined.
#[global] Instance SyncPolicy_eq_dec : EqDecision SyncPolicy.
Proof. solve_decision. Defined.
#[global] Instance SyncJob_eq_dec : EqDecision SyncJob.
Proof. solve_decision. Defined.
#[global] Instance ReconciliationRun_eq_dec : EqDecision ReconciliationRun.
Proof. solve_decision. Defined.
#[global] Instance ReconciliationFinding_eq_dec : EqDecision ReconciliationFinding.
Proof. solve_decision. Defined.
#[global] Instance Connection_eq_dec : EqDecision Connection.
Proof. solve_decision. Defined.
#[global] Instance Tenant_eq_dec : EqDecision Tenant.
Proof. solve_decision. Defined.
#[global] Instance User_eq_dec : EqDecision User.
Proof. solve_decision. Defined.
#[global] Instance APIKey_eq_dec : EqDecision APIKey.
Proof. solve_decision. Defined.
#[global] Instance Session_eq_dec : EqDecision Session.
Proof. solve_decision. Defined.
#[global] Instance LoginAttempt_eq_dec : EqDecision LoginAttempt.
Proof. solve_decision. Defined.
#[global] Instance AuditLog_eq_dec : EqDecision AuditLog.
Proof. solve_decision. Defined.

(** The database. *)
Record DB := mkDB {
  connections : list Connection;
  sync_policies : list SyncPolicy;
  canonical_records : list CanonicalRecord;
  source_events : list SourceEvent;
  processed_events : list ProcessedEvent;
  retry_queue : list RetryEntry;
  dead_letter : list DeadLetter;
  conflicts : list ConflictRecord;
  sync_jobs : list SyncJob;
  reconciliation_runs : list ReconciliationRun;
  reconciliation_findings : list ReconciliationFinding;
  sync_operations : list SyncOperation;
  outbound_writes : list OutboundWrite;
  audit_log : list AuditLog;
  tenants : list Tenant;
  users : list User;
  api_keys : list APIKey;
  sessions : list Session;
  login_attempts : list LoginAttempt;
}.

#[global] Instance DB_eq_dec : EqDecision DB.
Proof. solve_decision. Defined.

Definition empty_db : DB := mkDB [] [] [] [] [] [] [] [] [] [] [] [] [] [] [] [] [] [] [].

(** Rewriting one table. *)
Definition on_connections (f : list Connection -> list Connection) (d : DB) : DB :=
  mkDB (f (connections d)) (sync_policies d) (canonical_records d) (source_events d)
    (processed_events d) (retry_queue d) (dead_letter d) (conflicts d) (sync_jobs d)
    (reconciliation_runs d) (reconciliation_findings d) (sync_operations d)
    (outbound_writes d) (audit_log d) (tenants d) (users d) (api_keys d) (sessions d)
    (login_attempts d).
Definition on_sync_policies (f : list SyncPolicy -> list SyncPolicy) (d : DB) : DB :=
  mkDB (connections d) (f (sync_policies d)) (canonical_records d) (source_events d)
    (processed_events d) (retry_queue d) (dead_letter d) (conflicts d) (sync_jobs d)
    (reconciliation_runs d) (reconciliation_findings d) (sync_operations d)
    (outbound_writes d) (audit_log d) (tenants d) (users d) (api_keys d) (sessions d)
    (login_attempts d).
Definition on_canonical_records (f : list CanonicalRecord -> list CanonicalRecord) (d : DB) : DB :=
  mkDB (connections d) (sync_policies d) (f (canonical_records d)) (source_events d)
    (processed_events d) (retry_queue d) (dead_letter d) (conflicts d) (sync_jobs d)
    (reconciliation_runs d) (reconciliation_findings d) (sync_operations d)
    (outbound_writes d) (audit_log d) (tenants d) (users d) (api_keys d) (sessions d)
    (login_attempts d).
Definition on_source_events (f : list SourceEvent -> list SourceEvent) (d : DB) : DB :=
  mkDB (connections d) (sync_policies d) (canonical_records d) (f (source_events d))
    (processed_events d) (retry_queue d) (dead_letter d) (conflicts d) (sync_jobs d)
    (reconciliation_runs d) (reconciliation_findings d) (sync_operations d)
    (outbound_writes d) (audit_log d) (tenants d) (users d) (api_keys d) (sessions d)
    (login_attempts d).
Definition on_processed_events (f : list ProcessedEvent -> list ProcessedEvent) (d : DB) : DB :=
  mkDB (connections d) (sync_policies d) (canonical_records d) (source_events d)
    (f (processed_events d)) (retry_queue d) (dead_letter d) (conflicts d) (sync_jobs d)
    (reconciliation_runs d) (reconciliation_findings d) (sync_operations d)
    (outbound_writes d) (audit_log d) (tenants d) (users d) (api_keys d) (sessions d)
    (login_attempts d).
Definition on_retry_queue (f : list RetryEntry -> list RetryEntry) (d : DB) : DB :=
  mkDB (connections d) (sync_policies d) (canonical_records d) (source_events d)
    (processed_events d) (f (retry_queue d)) (dead_letter d) (conflicts d) (sync_jobs d)
    (reconciliation_runs d) (reconciliation_findings d) (sync_operations d)
    (outbound_writes d) (audit_log d) (tenants d) (users d) (api_keys d) (sessions d)
    (login_attempts d).
Definition on_dead_letter (f : list DeadLetter -> list DeadLetter) (d : DB) : DB :=
  mkDB (connections d) (sync_policies d) (canonical_records d) (source_events d)
    (processed_events d) (retry_queue d) (f (dead_letter d)) (conflicts d) (sync_jobs d)
    (reconciliation_runs d) (reconciliation_findings d) (sync_operations d)
    (outbound_writes d) (audit_log d) (tenants d) (users d) (api_keys d) (sessions d)
    (login_attempts d).
Definition on_conflicts (f : list ConflictRecord -> list ConflictRecord) (d : DB) : DB :=
  mkDB (connections d) (sync_policies d) (canonical_records d) (source_events d)
    (processed_events d) (retry_queue d) (dead_letter d) (f (conflicts d)) (sync_jobs d)
    (reconciliation_runs d) (reconciliation_findings d) (sync_operations d)
    (outbound_writes d) (audit_log d) (tenants d) (users d) (api_keys d) (sessions d)
    (login_attempts d).
Definition on_sync_jobs (f : list SyncJob -> list SyncJob) (d : DB) : DB :=
  mkDB (connections d) (sync_policies d) (canonical_records d) (source_events d)
    (processed_events d) (retry_queue d) (dead_letter d) (conflicts d) (f (sync_jobs d))
    (reconciliation_runs d) (reconciliation_findings d) (sync_operations d)
    (outbound_writes d) (audit_log d) (tenants d) (users d) (api_keys d) (sessions d)
    (login_attempts d).
Definition on_reconciliation_runs (f : list ReconciliationRun -> list ReconciliationRun) (d : DB) : DB :=
  mkDB (connections d) (sync_policies d) (canonical_records d) (source_events d)
    (processed_events d) (retry_queue d) (dead_letter d) (conflicts d) (sync_jobs d)
    (f (reconciliation_runs d)) (reconciliation_findings d) (sync_operations d)
    (outbound_writes d) (audit_log d) (tenants d) (users d) (api_keys d) (sessions d)
    (login_attempts d).
Definition on_reconciliation_findings (f : list ReconciliationFinding -> list ReconciliationFinding) (d : DB) : DB :=
  mkDB (connections d) (sync_policies d) (canonical_records d) (source_events d)
    (processed_events d) (retry_queue d) (dead_letter d) (conflicts d) (sync_jobs d)
    (reconciliation_runs d) (f (reconciliation_findings d)) (sync_operations d)
    (outbound_writes d) (audit_log d) (tenants d) (users d) (api_keys d) (sessions d)
    (login_attempts d).
Definition on_sync_operations (f : list SyncOperation -> list SyncOperation) (d : DB) : DB :=
  mkDB (connections d) (sync_policies d) (canonical_records d) (source_events d)
    (processed_events d) (retry_queue d) (dead_letter d) (conflicts d) (sync_jobs d)
    (reconciliation_runs d) (reconciliation_findings d) (f (sync_operations d))
    (outbound_writes d) (audit_log d) (tenants d) (users d) (api_keys d) (sessions d)
    (login_attempts d).
Definition on_outbound_writes (f : list OutboundWrite -> list OutboundWrite) (d : DB) : DB :=
  mkDB (connections d) (sync_policies d) (canonical_records d) (source_events d)
    (processed_events d) (retry_queue d) (dead_letter d) (conflicts d) (sync_jobs d)
    (reconciliation_runs d) (reconciliation_findings d) (sync_operations d)
    (f (outbound_writes d)) (audit_log d) (tenants d) (users d) (api_keys d) (sessions d)
    (login_attempts d).
Definition on_audit_log (f : list AuditLog -> list AuditLog) (d : DB) : DB :=
  mkDB (connections d) (sync_policies d) (canonical_records d) (source_events d)
    (processed_events d) (retry_queue d) (dead_letter d) (conflicts d) (sync_jobs d)
    (reconciliation_runs d) (reconciliation_findings d) (sync_operations d)
    (outbound_writes d) (f (audit_log d)) (tenants d) (users d) (api_keys d) (sessions d)
    (login_attempts d).
Definition on_tenants (f : list Tenant -> list Tenant) (d : DB) : DB :=
  mkDB (connections d) (sync_policies d) (canonical_records d) (source_events d)
    (processed_events d) (retry_queue d) (dead_letter d) (conflicts d) (sync_jobs d)
    (reconciliation_runs d) (reconciliation_findings d) (sync_operations d)
    (outbound_writes d) (audit_log d) (f (tenants d)) (users d) (api_keys d) (sessions d)
    (login_attempts d).
Definition on_users (f : list User -> list User) (d : DB) : DB :=
  mkDB (connections d) (sync_policies d) (canonical_records d) (source_events d)
    (processed_events d) (retry_queue d) (dead_letter d) (conflicts d) (sync_jobs d)
    (reconciliation_runs d) (reconciliation_findings d) (sync_operations d)
    (outbound_writes d) (audit_log d) (tenants d) (f (users d)) (api_keys d) (sessions d)
    (login_attempts d).
Definition on_api_keys (f : list APIKey -> list APIKey) (d : DB) : DB :=
  mkDB (connections d) (sync_policies d) (canonical_records d) (source_events d)
    (processed_events d) (retry_queue d) (dead_letter d) (conflicts d) (sync_jobs d)
    (reconciliation_runs d) (reconciliation_findings d) (sync_operations d)
    (outbound_writes d) (audit_log d) (tenants d) (users d) (f (api_keys d)) (sessions d)
    (login_attempts d).
Definition on_sessions (f : list Session -> list Session) (d : DB) : DB :=
  mkDB (connections d) (sync_policies d) (canonical_records d) (source_events d)
    (processed_events d) (retry_queue d) (dead_letter d) (conflicts d) (sync_jobs d)
    (reconciliation_runs d) (reconciliation_findings d) (sync_operations d)
    (outbound_writes d) (audit_log d) (tenants d) (users d) (api_keys d) (f (sessions d))
    (login_attempts d).
Definition on_login_attempts (f : list LoginAttempt -> list LoginAttempt) (d : DB) : DB :=
  mkDB (connections d) (sync_policies d) (canonical_records d) (source_events d)
    (processed_events d) (retry_queue d) (dead_letter d) (conflicts d) (sync_jobs d)
    (reconciliation_runs d) (reconciliation_findings d) (sync_operations d)
    (outbound_writes d) (audit_log d) (tenants d) (users d) (api_keys d) (sessions d)
    (f (login_attempts d)).
