(* ===== verification/Effects.v ===== *)
(** * Effects: database transactions, provider calls, clock, randomness, broker

    The state the handlers run in and the monad they are written in.

    - The database is changed by transactions ([db.WithTenant] and single
      statements on the admin pool).  A transaction either commits or rolls
      back; besides the errors of its own statements it may fail for outside
      reasons, which an oracle [st_faults] decides: [Ffail] the transaction is
      lost before the commit, [Flost] it commits but the acknowledgement is
      lost, so the caller sees an error.  An exhausted oracle means no fault.
    - The providers and the broker are outside the repository: class [Outside]
      stands for them, with one step function per request.  Its [others] is what
      the transactions of other runs do to the database before the n-th
      transaction of this one; [Transport] is the class of runs that have the
      database for themselves.  [st_log] records each transaction committed, with
      the database it met and the one it left.
    - [st_now] is the clock, which the environment advances between
      operations; [st_draws] the values [rand.Float64] will return, in units
      of 2^-53; [st_seq] numbers the transactions and names the generated
      ids; [st_metrics] lists the counters incremented. *)

From S2P Require Import Prelude Json Tables.
Local Open Scope string_scope.

(** ** Errors *)

(** [connectors.ErrorKind]. *)
Inductive ErrorKind :=
| ErrTransient | ErrPermanent | ErrRateLimited | ErrAuth | ErrSchema | ErrConflict
| KErrNotFound | ErrUnknown.

#[global] Instance ErrorKind_eq_dec : EqDecision ErrorKind.
Proof. solve_decision. Defined.

(** [ErrorKind.String]. *)
Definition kind_String (k : ErrorKind) : string :=
  match k with
  | ErrTransient => "TRANSIENT" | ErrPermanent => "PERMANENT"
  | ErrRateLimited => "RATE_LIMITED" | ErrAuth => "AUTHENTICATION"
  | ErrSchema => "SCHEMA_ERROR" | ErrConflict => "CONFLICT"
  | KErrNotFound => "NOT_FOUND" | ErrUnknown => "UNKNOWN"
  end.

(** Go error values: the sentinels of [internal/store], a database error, a
    typed [connectors.Error] (with the text of the error it wraps), and any
    other error with its text. *)
Inductive error :=
| ErrNotFound
| ErrDuplicate
| ErrExists
| ErrDB
| ConnError (kind : ErrorKind) (msg : string) (retryAfter : Z) (inner : option string)
| OtherError (msg : string).

#[global] Instance error_eq_dec : EqDecision error.
Proof. solve_decision. Defined.

(** [err.Error()]. *)
Definition Error (e : error) : string :=
  match e with
  | ErrNotFound => "not found"
  | ErrDuplicate => "duplicate event"
  | ErrExists => "resource already exists"
  | ErrDB => "database error"
  | ConnError k msg _ (Some t) => kind_String k +:+ ": " +:+ msg +:+ ": " +:+ t
  | ConnError k msg _ None => kind_String k +:+ ": " +:+ msg
  | OtherError msg => msg
  end.

Inductive Res (A : Type) := Ok (a : A) | Err (e : error).
Arguments Ok {A} a. Arguments Err {A} e.

(** ** The outside world *)

Record HttpReq := mkHttpReq {
  rq_method : string; rq_base : string; rq_path : string; rq_body : option Json;
}.

#[global] Instance HttpReq_eq_dec : EqDecision HttpReq.
Proof. solve_decision. Defined.

(** What [http.Client.Do] comes back with: no request could be built, no
    response arrived, or a response: status, [Retry-After] header, body text
    and the JSON value the text decodes to, if it does. *)
Inductive HttpOut :=
| HttpBuildErr (msg : string)
| HttpErr (msg : string)
| HttpResp (status : Z) (retry_after : string) (text : string) (body : option Json).

Class Outside := {
  World : Type;
  http_step : World -> HttpReq -> World * HttpOut;
  (** [Publish(topic, key, value)]: whether the broker accepted the message. *)
  publish_step : World -> string -> string -> Json -> World * bool;
  (** What the transactions of other runs make of the database before the
      [n]-th transaction of this one. *)
  others : nat -> DB -> DB;
}.

(** A run that has the database for itself. *)
Class Transport := {
  tr_outside :: Outside;
  tr_alone n d : others n d = d;
}.
Coercion tr_outside : Transport >-> Outside.
Arguments tr_outside : simpl never.

Definition isolated (W : Type) (h : W -> HttpReq -> W * HttpOut)
    (p : W -> string -> string -> Json -> W * bool) : Transport :=
  {| tr_outside := {| World := W; http_step := h; publish_step := p; others := fun _ d => d |};
     tr_alone := fun _ _ => eq_refl |}.

Inductive Fault := Fok | Ffail | Flost.

#[global] Instance Fault_eq_dec : EqDecision Fault.
Proof. solve_decision. Defined.

Section effects.
Context `{Outside}.

Record St := mkSt {
  st_db : DB;
  st_world : World;
  st_now : Z;
  st_faults : list Fault;
  st_draws : list Z;
  st_seq : nat;
  st_calls : list HttpReq;
  st_published : list (string * string * Json);
  st_metrics : list string;
  (** The transactions so far: the database each one found and left. *)
  st_log : list (DB * DB);
}.

Definition M (A : Type) : Type := St -> Res A * St.

#[global] Instance M_ret : MRet M := fun A a s => (Ok a, s).
#[global] Instance M_bind : MBind M := fun A B k m s =>
  match m s with
  | (Ok a, s') => k a s'
  | (Err e, s') => (Err e, s')
  end.

(** [return ..., err]. *)
Definition throw {A} (e : error) : M A := fun s => (Err e, s).
(** [x, err := m]: the outcome as a value. *)
Definition attempt {A} (m : M A) : M (Res A) := fun s => let (r, s') := m s in (Ok r, s').
(** [_ = m], or an error that is only logged. *)
Definition ignore {A} (m : M A) : M unit := fun s => let (_, s') := m s in (Ok tt, s').

(** The end of a transaction that found [d] and leaves [d']. *)
Definition ended (d d' : DB) (s : St) : St :=
  mkSt d' (st_world s) (st_now s) (st_faults s) (st_draws s) (st_seq s) (st_calls s)
    (st_published s) (st_metrics s) (st_log s ++ [(d, d')]).

(** One transaction: [body] gets the clock, the transaction's number (for
    generated ids) and the database. *)
Definition tx {A} (body : Z -> nat -> DB -> Res A * DB) : M A := fun s =>
  let s1 := mkSt (st_db s) (st_world s) (st_now s) (tail (st_faults s)) (st_draws s)
              (S (st_seq s)) (st_calls s) (st_published s) (st_metrics s) (st_log s) in
  match head (st_faults s) with
  | Some Ffail => (Err ErrDB, s1)
  | f =>
      let d0 := others (st_seq s) (st_db s) in
      match body (st_now s) (st_seq s) d0 with
      | (Ok a, d) =>
          (match f with Some Flost => Err ErrDB | _ => Ok a end, ended d0 d s1)
      | (Err e, _) => (Err e, ended d0 d0 s1)
      end
  end.

(** [c.HTTP.Do(req)]. *)
Definition http (rq : HttpReq) : M HttpOut := fun s =>
  let (w, out) := http_step (st_world s) rq in
  (Ok out, mkSt (st_db s) w (st_now s) (st_faults s) (st_draws s) (st_seq s)
             (st_calls s ++ [rq]) (st_published s) (st_metrics s) (st_log s)).

(** [bus.Publish(ctx, topic, key, value)]. *)
Definition publish (topic key : string) (value : Json) : M unit := fun s =>
  let (w, ok) := publish_step (st_world s) topic key value in
  (if ok then Ok tt else Err (OtherError "publish failed"),
   mkSt (st_db s) w (st_now s) (st_faults s) (st_draws s) (st_seq s) (st_calls s)
     (if ok then st_published s ++ [(topic, key, value)] else st_published s) (st_metrics s) (st_log s)).

(** [time.Now()]. *)
Definition now : M Z := fun s => (Ok (st_now s), s).

(** [rand.Float64()], as its numerator over 2^53. *)
Definition draw : M Z := fun s =>
  (Ok (default 0%Z (head (st_draws s))),
   mkSt (st_db s) (st_world s) (st_now s) (st_faults s) (tail (st_draws s)) (st_seq s)
     (st_calls s) (st_published s) (st_metrics s) (st_log s)).

(** [metrics.X.Add(ctx, 1)]. *)
Definition metric (name : string) : M unit := fun s =>
  (Ok tt, mkSt (st_db s) (st_world s) (st_now s) (st_faults s) (st_draws s) (st_seq s)
            (st_calls s) (st_published s) (st_metrics s ++ [name]) (st_log s)).

(** A generated id: the [k]-th of transaction [seq]. *)
Definition gen_id (seq k : nat) : string := "id-" +:+ pretty seq +:+ "-" +:+ pretty k.

(** [uuid.NewString()]. *)
Definition new_uuid : M string := fun s =>
  (Ok (gen_id (st_seq s) 0),
   mkSt (st_db s) (st_world s) (st_now s) (st_faults s) (st_draws s) (S (st_seq s)) (st_calls s)
     (st_published s) (st_metrics s) (st_log s)).

(** A query: it leaves the database alone. *)
Definition query {A} (f : DB -> Res A) : M A := tx (fun _ _ d => (f d, d)).
End effects.

Arguments mkSt {_} _ _ _ _ _ _ _ _ _ _.
Arguments M {_} A : assert.
#[global] Typeclasses Opaque M.
