(* ===== verification/Store.v ===== *)
(** * [internal/store]: the statements

    One definition per function of the package.  Functions that run on the
    application pool are confined to a tenant by row-level security; the
    tenant conjunct of their predicates is that policy.  Functions on the admin
    pool (marked so) are not.  [now()] is the transaction's clock and generated
    ids come from [gen_id].  A row found by a query without [ORDER BY] is the
    first in insertion order; [ORDER BY] is a stable sort.  Ids are strings: one that
    is not a uuid finds no row here, where PostgreSQL fails the statement. *)

From S2P Require Import Prelude Json Tables Effects.
Local Open Scope string_scope.

(** pgx sends a [timestamptz] with microsecond resolution. *)
Definition pg_time (t : Z) : Z := (t / 1000 * 1000)%Z.
(** [make_interval(secs => d.Seconds())], rounded to the microsecond. *)
Definition pg_interval (d : Z) : Z := ((d + 500) / 1000 * 1000)%Z.

(** [if limit <= 0 || limit > 1000 { limit = 100 }]. *)
Definition clamp_limit (limit : Z) : nat :=
  Z.to_nat (if (limit <=? 0)%Z || (1000 <? limit)%Z then 100 else limit).

(** [fields->>k]: SQL NULL for an absent key or a JSON null. *)
Definition jsonb_text (m : Fields) (k : string) : option string :=
  match m !! k with
  | None | Some JNull => None
  | Some (JStr s) => Some s
  | Some j => Some (marshal j)
  end.

Definition sql_eq (a : option string) (b : string) : bool :=
  match a with Some x => x =s b | None => false end.

(** [ORDER BY key], ascending, ties in insertion order; and descending. *)
Definition order_by {A} (key : A -> Z) (l : list A) : list A :=
  isort (fun x y => (key x <=? key y)%Z) l.
Definition order_by_desc {A} (key : A -> Z) (l : list A) : list A :=
  isort (fun x y => (key y <=? key x)%Z) l.

Definition found_or {A} (o : option A) : Res A :=
  match o with Some a => Ok a | None => Err ErrNotFound end.

Section store.
Context `{Outside}.

(** ** canonical.go *)

Definition canonical_key (tenant entityType entityID : string) (r : CanonicalRecord) : bool :=
  (cr_TenantID r =s tenant) && (cr_EntityType r =s entityType) && (cr_EntityID r =s entityID).

Definition GetCanonical (tenant entityType entityID : string) : M CanonicalRecord :=
  query (fun d => found_or (select_one (canonical_key tenant entityType entityID)
                              (canonical_records d))).

Definition provider_key (tenant entityType provider providerID : string)
    (r : CanonicalRecord) : bool :=
  (cr_TenantID r =s tenant) && (cr_EntityType r =s entityType) &&
  sql_eq (cr_ProviderIDs r !! provider) providerID.

Definition GetCanonicalByProvider (tenant entityType provider providerID : string)
    : M CanonicalRecord :=
  query (fun d => found_or (select_one (provider_key tenant entityType provider providerID)
                              (canonical_records d))).

Definition email_key (tenant entityType email : string) (r : CanonicalRecord) : bool :=
  (cr_TenantID r =s tenant) && (cr_EntityType r =s entityType) && negb (cr_Tombstone r) &&
  sql_eq (jsonb_text (cr_Fields r) "email") email.

Definition GetCanonicalByEmail (tenant entityType email : string) : M CanonicalRecord :=
  query (fun d => found_or (head (order_by cr_CreatedAt
                   (select_where (email_key tenant entityType email) (canonical_records d))))).

Definition AddProviderID (tenant entityType entityID provider providerID : string) : M unit :=
  tx (fun now _ d =>
    (Ok tt, on_canonical_records (update_where (canonical_key tenant entityType entityID)
      (fun r => cr_set_UpdatedAt now
                  (cr_set_ProviderIDs (<[provider := providerID]> (cr_ProviderIDs r)) r))) d)).

(** The row [INSERT ... ON CONFLICT DO UPDATE] leaves for [c]: the id and the
    creation time of the existing row are kept. *)
Definition canonical_row (now : Z) (id : string) (old : option CanonicalRecord)
    (c : CanonicalRecord) : CanonicalRecord :=
  mkCanonicalRecord (match old with Some o => cr_SyncID o | None => id end)
    (cr_TenantID c) (cr_EntityType c) (cr_EntityID c) (cr_Fields c) (cr_Version c)
    (cr_SourceVersions c) (cr_FieldProvenance c) (cr_Tombstone c) (cr_OriginSource c)
    (cr_OriginEventID c) (cr_SyncOperationID c) (cr_ProviderIDs c)
    (match old with Some o => cr_CreatedAt o | None => now end) now.

Definition upsert_canonical_row (now : Z) (id : string) (c : CanonicalRecord)
    : list CanonicalRecord -> list CanonicalRecord :=
  upsert (canonical_key (cr_TenantID c) (cr_EntityType c) (cr_EntityID c))
    (fun o => canonical_row now id (Some o) c) (canonical_row now id None c).

(** [RETURNING]: the row as stored. *)
Definition returning_canonical (c : CanonicalRecord) (d : DB) : Res CanonicalRecord :=
  found_or (select_one (canonical_key (cr_TenantID c) (cr_EntityType c) (cr_EntityID c))
              (canonical_records d)).

Definition UpsertCanonical (c : CanonicalRecord) : M CanonicalRecord :=
  tx (fun now seq d =>
    let d := on_canonical_records (upsert_canonical_row now (gen_id seq 0) c) d in
    (returning_canonical c d, d)).

(** ** processed.go *)

Definition processed_key (tenant source eventID : string) (r : ProcessedEvent) : bool :=
  (pe_TenantID r =s tenant) && (pe_Source r =s source) && (pe_EventID r =s eventID).

Definition ClaimProcessedEvent (tenant source eventID entityType entityID : string) : M bool :=
  tx (fun now _ d =>
    match insert_new (processed_key tenant source eventID)
            (mkProcessedEvent tenant source eventID entityType entityID now)
            (processed_events d) with
    | Some t => (Ok true, on_processed_events (fun _ => t) d)
    | None => (Ok false, d)
    end).

Definition ReleaseProcessedEvent (tenant source eventID : string) : M unit :=
  tx (fun _ _ d =>
    (Ok tt, on_processed_events (delete_where (processed_key tenant source eventID)) d)).

(** ** outbound.go *)

Definition outbound_key (tenant entityType entityID target : string) (r : OutboundWrite) : bool :=
  (ow_TenantID r =s tenant) && (ow_EntityType r =s entityType) &&
  (ow_EntityID r =s entityID) && (ow_TargetSource r =s target).

Definition upsert_outbound_row (now : Z) (w : OutboundWrite)
    : list OutboundWrite -> list OutboundWrite :=
  let row := mkOutboundWrite (ow_TenantID w) (ow_EntityType w) (ow_EntityID w)
               (ow_TargetSource w) (ow_Fingerprint w) (ow_AppliedVersion w) now in
  upsert (outbound_key (ow_TenantID w) (ow_EntityType w) (ow_EntityID w) (ow_TargetSource w))
    (fun _ => row) row.

Definition UpsertOutboundWrite (w : OutboundWrite) : M unit :=
  tx (fun now _ d => (Ok tt, on_outbound_writes (upsert_outbound_row now w) d)).

Definition GetOutboundWrite (tenant entityType entityID target : string) : M OutboundWrite :=
  query (fun d => found_or (select_one (outbound_key tenant entityType entityID target)
                              (outbound_writes d))).

(** ** audit.go *)

Definition operation_row (now : Z) (id : string) (o : SyncOperation) : SyncOperation :=
  mkSyncOperation id (so_TenantID o) (so_EntityType o) (so_EntityID o) (so_Source o)
    (so_TargetSource o) (so_EventID o) (so_AppliedVersion o) (so_Fingerprint o) now.

Definition InsertSyncOperation (o : SyncOperation) : M SyncOperation :=
  tx (fun now seq d =>
    let row := operation_row now (gen_id seq 0) o in
    (Ok row, on_sync_operations (fun t => t ++ [row])%list d)).

Definition InsertAuditLog (tenant : string) (e : AuditLog) : M AuditLog :=
  tx (fun now seq d =>
    let row := mkAuditLog (gen_id seq 0) (if tenant =s "" then None else Some tenant)
                 (au_Actor e) (au_Action e) (au_Resource e) (au_ResourceID e)
                 (au_Metadata e) now in
    (Ok row, on_audit_log (fun t => t ++ [row])%list d)).

(** ** applytx.go *)

Fixpoint insert_operations (now : Z) (seq k : nat) (ops : list SyncOperation) (d : DB) : DB :=
  match ops with
  | [] => d
  | o :: ops =>
      insert_operations now seq (S k) ops
        (on_sync_operations (fun t => t ++ [operation_row now (gen_id seq k) o])%list d)
  end.

Definition PersistApplyState (canonical : CanonicalRecord) (outbound : list OutboundWrite)
    (ops : list SyncOperation) : M CanonicalRecord :=
  tx (fun now seq d =>
    let d := foldl (fun d w => on_outbound_writes (upsert_outbound_row now w) d) d outbound in
    let d := insert_operations now seq 1 ops d in
    let d := on_canonical_records (upsert_canonical_row now (gen_id seq 0) canonical) d in
    (returning_canonical canonical d, d)).

(** ** events.go *)

Definition source_event_key (tenant source eventID : string) (r : SourceEvent) : bool :=
  (se_TenantID r =s tenant) && (se_Source r =s source) && (se_EventID r =s eventID).

Definition InsertSourceEvent (ev : SourceEvent) : M SourceEvent :=
  tx (fun now seq d =>
    let row := mkSourceEvent (gen_id seq 0) (se_TenantID ev) (se_Source ev) (se_EventID ev)
                 (se_EntityType ev) (se_EntityID ev) (se_EventType ev) (se_SourceVersion ev)
                 (pg_time <$> se_OccurredAt ev) now (se_CorrelationID ev)
                 (se_Provenance ev) (se_Raw ev) "received" in
    match insert_new (source_event_key (se_TenantID ev) (se_Source ev) (se_EventID ev)) row
            (source_events d) with
    | Some t => (Ok row, on_source_events (fun _ => t) d)
    | None => (Err ErrDuplicate, d)
    end).

Definition SetSourceEventStatus (tenant eventID from to : string) : M unit :=
  tx (fun _ _ d =>
    (Ok tt, on_source_events (update_where
      (fun r => (se_TenantID r =s tenant) && (se_EventID r =s eventID) && (se_Status r =s from))
      (se_set_Status to)) d)).

Definition SetSourceEventStatusTo (tenant eventID to : string) : M unit :=
  tx (fun _ _ d =>
    (Ok tt, on_source_events (update_where
      (fun r => (se_TenantID r =s tenant) && (se_EventID r =s eventID))
      (se_set_Status to)) d)).

(** Admin pool. *)
Definition PendingSourceEvents (limit : Z) : M (list SourceEvent) :=
  query (fun d => Ok (take (clamp_limit limit)
    (order_by se_ReceivedAt (select_where (fun r => se_Status r =s "received")
                               (source_events d))))).

(** ** retry.go *)

Definition retry_key (tenant eventID : string) (r : RetryEntry) : bool :=
  (rt_TenantID r =s tenant) && (rt_EventID r =s eventID).

Definition EnqueueRetry (e : RetryEntry) (delay : Z) : M RetryEntry :=
  tx (fun now seq d =>
    let due := (now + pg_interval delay)%Z in
    let fresh := mkRetryEntry (gen_id seq 0) (rt_TenantID e) (rt_EventID e) 1 (rt_MaxAttempts e)
                   due (rt_LastError e) (rt_ErrorClass e) (rt_State e) now in
    let again r := mkRetryEntry (rt_ID r) (rt_TenantID r) (rt_EventID r) (rt_Attempt r + 1)
                     (rt_MaxAttempts r) due (rt_LastError e) (rt_ErrorClass e)
                     (rt_State e) now in
    let d := on_retry_queue (upsert (retry_key (rt_TenantID e) (rt_EventID e)) again fresh) d in
    (found_or (select_one (retry_key (rt_TenantID e) (rt_EventID e)) (retry_queue d)), d)).

(** Admin pool. *)
Definition ClaimDueRetries (limit : Z) : M (list RetryEntry) :=
  tx (fun now _ d =>
    (Ok (take (clamp_limit limit)
           (order_by rt_NextAttemptAt
              (select_where (fun r => (rt_NextAttemptAt r <=? now)%Z) (retry_queue d)))), d)).

Definition DeleteRetry (tenant eventID : string) : M unit :=
  tx (fun _ _ d => (Ok tt, on_retry_queue (delete_where (retry_key tenant eventID)) d)).

(** ** dlq.go *)

Definition dead_key (tenant eventID : string) (r : DeadLetter) : bool :=
  (dl_TenantID r =s tenant) && (dl_EventID r =s eventID).

Definition InsertDeadLetter (e : DeadLetter) : M DeadLetter :=
  tx (fun now seq d =>
    let fresh := mkDeadLetter (gen_id seq 0) (dl_TenantID e) (dl_EventID e) (dl_Reason e)
                   (dl_ErrorClass e) (dl_Payload e) "open" now None in
    let again r := mkDeadLetter (dl_ID r) (dl_TenantID r) (dl_EventID r) (dl_Reason e)
                     (dl_ErrorClass e) (dl_Payload e) "open" (dl_CreatedAt r) None in
    let d := on_dead_letter (upsert (dead_key (dl_TenantID e) (dl_EventID e)) again fresh) d in
    (found_or (select_one (dead_key (dl_TenantID e) (dl_EventID e)) (dead_letter d)), d)).

Definition ListDeadLetters (tenant status : string) (limit : Z) : M (list DeadLetter) :=
  query (fun d => Ok (take (clamp_limit limit) (order_by_desc dl_CreatedAt
    (select_where (fun r => (dl_TenantID r =s tenant) &&
                            ((status =s "") || (dl_Status r =s status))) (dead_letter d))))).

Definition GetDeadLetter (tenant id : string) : M DeadLetter :=
  query (fun d => found_or (select_one (fun r => (dl_TenantID r =s tenant) && (dl_ID r =s id))
                              (dead_letter d))).

Definition dl_close (now : Z) (status : string) (r : DeadLetter) : DeadLetter :=
  mkDeadLetter (dl_ID r) (dl_TenantID r) (dl_EventID r) (dl_Reason r) (dl_ErrorClass r)
    (dl_Payload r) status (dl_CreatedAt r) (Some now).

Definition SetDeadLetterStatus (tenant id status : string) : M unit :=
  tx (fun now _ d =>
    (Ok tt, on_dead_letter (update_where (fun r => (dl_TenantID r =s tenant) && (dl_ID r =s id))
                              (dl_close now status)) d)).

Definition ResolveDeadLetterForEvent (tenant eventID : string) : M unit :=
  tx (fun now _ d =>
    (Ok tt, on_dead_letter (update_where
      (fun r => (dl_TenantID r =s tenant) && (dl_EventID r =s eventID) &&
                negb (dl_Status r =s "discarded"))
      (dl_close now "resolved")) d)).

(** ** conflicts.go *)

Definition conflict_key (c r : ConflictRecord) : bool :=
  (co_TenantID r =s co_TenantID c) && (co_EntityType r =s co_EntityType c) &&
  (co_EntityID r =s co_EntityID c) && (co_SourceA r =s co_SourceA c) &&
  (co_SourceB r =s co_SourceB c) && (co_VersionA r =? co_VersionA c)%Z &&
  (co_VersionB r =? co_VersionB c)%Z.

Definition InsertConflict (c : ConflictRecord) : M ConflictRecord :=
  tx (fun now seq d =>
    let row := mkConflictRecord (gen_id seq 0) (co_TenantID c) (co_EntityType c) (co_EntityID c)
                 (co_SourceA c) (co_VersionA c) (co_PayloadA c) (co_SourceB c) (co_VersionB c)
                 (co_PayloadB c) now (co_Status c) (co_ResolutionStrategy c) None None in
    match insert_new (conflict_key c) row (conflicts d) with
    | Some t => (Ok row, on_conflicts (fun _ => t) d)
    | None => (found_or (select_one (conflict_key c) (conflicts d)), d)
    end).

Definition GetConflict (tenant id : string) : M ConflictRecord :=
  query (fun d => found_or (select_one (fun r => (co_TenantID r =s tenant) && (co_ID r =s id))
                              (conflicts d))).

Definition ListConflicts (tenant status : string) (limit : Z) : M (list ConflictRecord) :=
  query (fun d => Ok (take (clamp_limit limit) (order_by_desc co_DetectedAt
    (select_where (fun r => (co_TenantID r =s tenant) &&
                            ((status =s "") || (co_Status r =s status))) (conflicts d))))).

Definition ConflictPending : string := "CONFLICT_PENDING".
Definition ConflictResolved : string := "RESOLVED".
Definition ConflictAutoResolved : string := "AUTO_RESOLVED".
Definition ConflictDismissed : string := "DISMISSED".

Definition SetConflictStatus (tenant id status strategy by_ : string) : M unit :=
  tx (fun now _ d =>
    (Ok tt, on_conflicts (update_where
      (fun r => (co_TenantID r =s tenant) && (co_ID r =s id) &&
                negb (co_Status r =s ConflictDismissed))
      (fun r => mkConflictRecord (co_ID r) (co_TenantID r) (co_EntityType r) (co_EntityID r)
                  (co_SourceA r) (co_VersionA r) (co_PayloadA r) (co_SourceB r) (co_VersionB r)
                  (co_PayloadB r) (co_DetectedAt r) status strategy (Some by_) (Some now))) d)).

(** ** policy.go *)

Definition GetSyncPolicy (tenant entity source destination : string) : M SyncPolicy :=
  query (fun d => found_or (select_one
    (fun r => (po_TenantID r =s tenant) && (po_Entity r =s entity) && (po_Source r =s source) &&
              (po_Destination r =s destination) && po_Enabled r) (sync_policies d))).

Definition ListPolicies (tenant : string) : M (list SyncPolicy) :=
  query (fun d => Ok (order_by po_CreatedAt
    (select_where (fun r => (po_TenantID r =s tenant) && po_Enabled r) (sync_policies d)))).

(** ** connections.go *)

Definition GetConnectionByProvider (tenant provider : string) : M Connection :=
  query (fun d => found_or (select_one
    (fun r => (cn_TenantID r =s tenant) && (cn_Provider r =s provider)) (connections d))).

(** ** tenants.go *)

(** Admin pool. *)
Definition GetTenantBySlug (slug : string) : M Tenant :=
  query (fun d => found_or (select_one (fun r => tn_Slug r =s slug) (tenants d))).

(** ** syncjobs.go *)

Definition job_key (tenant id : string) (r : SyncJob) : bool :=
  (sj_TenantID r =s tenant) && (sj_ID r =s id).

Definition CreateSyncJob (j : SyncJob) : M SyncJob :=
  tx (fun now seq d =>
    let row := mkSyncJob (gen_id seq 0) (sj_TenantID j) (sj_Entity j) (sj_Source j)
                 (sj_Destination j) (if sj_Type j =s "" then "initial" else sj_Type j) "pending"
                 None 0 0 0 (if (sj_BatchSize j <=? 0)%Z then 1000 else sj_BatchSize j)
                 None None None now in
    (Ok row, on_sync_jobs (fun t => t ++ [row])%list d)).

Definition GetSyncJob (tenant id : string) : M SyncJob :=
  query (fun d => found_or (select_one (job_key tenant id) (sync_jobs d))).

Definition ListSyncJobs (tenant : string) (limit : Z) : M (list SyncJob) :=
  query (fun d => Ok (take (clamp_limit limit) (order_by_desc sj_CreatedAt
    (select_where (fun r => sj_TenantID r =s tenant) (sync_jobs d))))).

(** Sixty seconds, the age at which a running job counts as abandoned. *)
Definition stale_after : Z := 60000000000.

Definition claimable (now : Z) (r : SyncJob) : bool :=
  (sj_Status r =s "pending") || (sj_Status r =s "paused") ||
  ((sj_Status r =s "running") &&
   match sj_StartedAt r with Some t => (t <? now - stale_after)%Z | None => false end).

(** The select of [ClaimNextSyncJob]. *)
Definition next_job (now : Z) (d : DB) : option SyncJob :=
  head (order_by sj_CreatedAt (select_where (claimable now) (sync_jobs d))).

Definition start_job (now : Z) (r : SyncJob) : SyncJob :=
  sj_set_Status "running"
    (sj_set_StartedAt (Some (default now (sj_StartedAt r))) r).

(** Admin pool: the locking select and the update are two statements, each
    its own transaction, so the row lock ends with the select. *)
Definition ClaimNextSyncJob : M SyncJob :=
  j ← tx (fun now _ d => (found_or (next_job now d), d));
  tx (fun now _ d =>
    (Ok tt, on_sync_jobs (update_where (job_key (sj_TenantID j) (sj_ID j)) (start_job now)) d));;
  t ← now;
  mret (start_job t j).

(** Admin pool. *)
Definition UpdateSyncJobProgress (id tenant : string) (cursor : option string)
    (processed failed total : Z) : M unit :=
  tx (fun _ _ d =>
    (Ok tt, on_sync_jobs (update_where (job_key tenant id)
      (fun r => mkSyncJob (sj_ID r) (sj_TenantID r) (sj_Entity r) (sj_Source r)
                  (sj_Destination r) (sj_Type r) (sj_Status r) cursor processed failed total
                  (sj_BatchSize r) (sj_StartedAt r) (sj_FinishedAt r) (sj_LastError r)
                  (sj_CreatedAt r))) d)).

(** Admin pool. *)
Definition FinishSyncJob (id tenant status : string) (lastError : option string) : M unit :=
  tx (fun now _ d =>
    (Ok tt, on_sync_jobs (update_where (job_key tenant id)
      (fun r => sj_set_Status status (sj_set_FinishedAt (Some now)
                  (sj_set_LastError lastError r)))) d)).

(** ** reconcile.go *)

Definition ReconcileRunning : string := "running".
Definition ReconcileComplete : string := "completed".
Definition ReconcileFailed : string := "failed".
Definition FindingMissed : string := "missed".
Definition FindingDrift : string := "drift".
Definition FindingDeleted : string := "deleted".
Definition FindingMissing : string := "missing".
Definition FindingPending : string := "pending".
Definition FindingApplied : string := "applied".
Definition FindingSkipped : string := "skipped".
Definition FindingDismissed : string := "dismissed".
Definition FindingFailed : string := "failed".

Definition CreateReconciliationRun (r : ReconciliationRun) : M ReconciliationRun :=
  tx (fun now seq d =>
    let row := mkReconciliationRun (gen_id seq 0) (rr_TenantID r) (rr_Entity r) (rr_Source r)
                 (rr_Mode r) (rr_Status r) (rr_JobID r) 0 0 0 0 now None None in
    (Ok row, on_reconciliation_runs (fun t => t ++ [row])%list d)).

Definition GetReconciliationRun (tenant id : string) : M ReconciliationRun :=
  query (fun d => found_or (select_one (fun r => (rr_TenantID r =s tenant) && (rr_ID r =s id))
                              (reconciliation_runs d))).

(** [ORDER BY created_at]: [reconciliation_runs] has no such column (migrations
    0001 and 0006), so the statement is refused whatever the rows are. *)
Definition ListReconciliationRuns (tenant : string) (limit : Z) : M (list ReconciliationRun) :=
  query (fun _ => Err ErrDB).

(** Admin pool. *)
Definition GetReconciliationRunByJobID (jobID : string) : M ReconciliationRun :=
  query (fun d => found_or (select_one (fun r => sql_eq (rr_JobID r) jobID)
                              (reconciliation_runs d))).

(** Admin pool. *)
Definition UpdateReconciliationCounters (runID : string) (total drift missed deleted : Z)
    : M unit :=
  tx (fun _ _ d =>
    (Ok tt, on_reconciliation_runs (update_where (fun r => rr_ID r =s runID)
      (fun r => mkReconciliationRun (rr_ID r) (rr_TenantID r) (rr_Entity r) (rr_Source r)
                  (rr_Mode r) (rr_Status r) (rr_JobID r) total drift missed deleted
                  (rr_StartedAt r) (rr_FinishedAt r) (rr_Error r))) d)).

(** Admin pool. *)
Definition FinishReconciliationRun (runID status : string) (lastError : option string) : M unit :=
  tx (fun now _ d =>
    (Ok tt, on_reconciliation_runs (update_where (fun r => rr_ID r =s runID)
      (fun r => mkReconciliationRun (rr_ID r) (rr_TenantID r) (rr_Entity r) (rr_Source r)
                  (rr_Mode r) status (rr_JobID r) (rr_Total r) (rr_Drift r) (rr_Missed r)
                  (rr_Deleted r) (rr_StartedAt r) (Some now) lastError)) d)).

(** [reconcileDirection]. *)
Definition reconcileDirection (kind : string) : string :=
  if kind =s FindingDeleted then "delete"
  else if kind =s FindingMissed then "adopt_provider"
  else "push_canonical".

(** The unique index on (run, kind, provider id); the fallback select runs
    under row-level security, the index does not. *)
Definition finding_key (runID kind providerID : string) (r : ReconciliationFinding) : bool :=
  (rf_RunID r =s runID) && (rf_Kind r =s kind) && (rf_ProviderID r =s providerID).

Definition InsertReconciliationFinding (f : ReconciliationFinding) : M ReconciliationFinding :=
  tx (fun now seq d =>
    let row := mkReconciliationFinding (gen_id seq 0) (rf_RunID f) (rf_TenantID f) (rf_Kind f)
                 (rf_ProviderID f) (rf_CanonicalID f) (rf_CanonicalFields f) (rf_ProviderFields f)
                 (rf_ProviderVersion f)
                 (if rf_Direction f =s "" then reconcileDirection (rf_Kind f) else rf_Direction f)
                 (if rf_Status f =s "" then FindingPending else rf_Status f) None now None in
    let key := finding_key (rf_RunID f) (rf_Kind f) (rf_ProviderID f) in
    match insert_new key row (reconciliation_findings d) with
    | Some t => (Ok row, on_reconciliation_findings (fun _ => t) d)
    | None => (found_or (select_one (fun r => (rf_TenantID r =s rf_TenantID f) && key r)
                           (reconciliation_findings d)), d)
    end).

Definition ListReconciliationFindings (tenant runID status : string) (limit : Z)
    : M (list ReconciliationFinding) :=
  query (fun d => Ok (take (clamp_limit limit) (order_by rf_CreatedAt
    (select_where (fun r => (rf_TenantID r =s tenant) && (rf_RunID r =s runID) &&
                            ((status =s "") || (rf_Status r =s status)))
       (reconciliation_findings d))))).

Definition GetReconciliationFinding (tenant id : string) : M ReconciliationFinding :=
  query (fun d => found_or (select_one (fun r => (rf_TenantID r =s tenant) && (rf_ID r =s id))
                              (reconciliation_findings d))).

Definition SetReconciliationFindingDirection (tenant id direction : string) : M unit :=
  tx (fun _ _ d =>
    (Ok tt, on_reconciliation_findings (update_where
      (fun r => (rf_TenantID r =s tenant) && (rf_ID r =s id)) (rf_set_Direction direction)) d)).

(** How many findings of a run satisfy [p]. *)
Definition count_findings (tenant runID : string) (p : string -> bool) (d : DB) : Z :=
  Z.of_nat (length (select_where (fun r => (rf_TenantID r =s tenant) && (rf_RunID r =s runID) &&
                                           p (rf_Kind r)) (reconciliation_findings d))).

(** Drift, missed (with missing folded in) and deleted counts. *)
Definition CountReconciliationFindings (tenant runID : string) : M (Z * Z * Z) :=
  query (fun d => Ok
    (count_findings tenant runID (fun k => k =s FindingDrift) d,
     count_findings tenant runID (fun k => (k =s FindingMissed) || (k =s FindingMissing)) d,
     count_findings tenant runID (fun k => k =s FindingDeleted) d)).

(** The guard of [SetReconciliationFindingStatus]. *)
Definition may_transition (status : string) (r : ReconciliationFinding) : bool :=
  (rf_Status r =s FindingPending) ||
  ((rf_Status r =s FindingFailed) && (status =s FindingPending)).

Definition rf_transition (now : Z) (status : string) (err : option string)
    (r : ReconciliationFinding) : ReconciliationFinding :=
  mkReconciliationFinding (rf_ID r) (rf_RunID r) (rf_TenantID r) (rf_Kind r) (rf_ProviderID r)
    (rf_CanonicalID r) (rf_CanonicalFields r) (rf_ProviderFields r) (rf_ProviderVersion r)
    (rf_Direction r) status err (rf_CreatedAt r)
    (match rf_AppliedAt r with Some t => Some t | None => Some now end).

Definition SetReconciliationFindingStatus (tenant id status : string) (err : option string)
    : M unit :=
  tx (fun now _ d =>
    (Ok tt, on_reconciliation_findings (update_where
      (fun r => (rf_TenantID r =s tenant) && (rf_ID r =s id) && may_transition status r)
      (rf_transition now status err)) d)).

Definition ListCanonicalByProvider (tenant entityType provider : string)
    : M (list CanonicalRecord) :=
  query (fun d => Ok (select_where
    (fun r => (cr_TenantID r =s tenant) && (cr_EntityType r =s entityType) &&
              bool_decide (is_Some (cr_ProviderIDs r !! provider))) (canonical_records d))).
End store.
