(* ===== verification/AuthStore.v ===== *)
(** * [internal/store]: users, API keys, sessions, login attempts

    The statements behind authentication, in the style of [Store].  Row-level
    security confines the tenant-scoped ones to their tenant; the others run on
    the admin pool.  Foreign keys are not modelled: the callers pass ids of rows
    they have read, and no statement of the program deletes a user. *)

From S2P Require Import Prelude Json Tables Effects Store.
Local Open Scope string_scope.

(** The CHECK on the role columns. *)
Definition is_role (role : string) : bool :=
  (role =s "ADMIN") || (role =s "OPERATOR") || (role =s "DEVELOPER") || (role =s "VIEWER").

Section auth_store.
Context `{Outside}.

(** ** users.go *)

Definition user_key (tenant id : string) (r : User) : bool :=
  (us_ID r =s id) && (us_TenantID r =s tenant).

Definition CreateUser (tenant email passwordHash role : string) : M User :=
  tx (fun now seq d =>
    let row := mkUser (gen_id seq 0) tenant email passwordHash role "" false [] now in
    if negb (is_role role) then (Err ErrDB, d)
    else
      match insert_new (fun r => (us_TenantID r =s tenant) && (us_Email r =s email)) row (users d) with
      | Some t => (Ok row, on_users (fun _ => t) d)
      | None => (Err ErrExists, d)
      end).

Definition GetUserByEmail (tenant email : string) : M User :=
  query (fun d => found_or (select_one
    (fun r => (us_TenantID r =s tenant) && (us_Email r =s email)) (users d))).

Definition GetUser (tenant id : string) : M User :=
  query (fun d => found_or (select_one (user_key tenant id) (users d))).

(** [UPDATE users SET f WHERE id AND tenant_id]: no row is [ErrNotFound]. *)
Definition update_user (tenant id : string) (f : User -> User) : M unit :=
  tx (fun _ _ d =>
    if List.existsb (user_key tenant id) (users d)
    then (Ok tt, on_users (update_where (user_key tenant id) f) d)
    else (Err ErrNotFound, d)).

Definition SetUserPassword (tenant id passwordHash : string) : M unit :=
  update_user tenant id (us_set_PasswordHash passwordHash).

Definition SetUserRole (tenant id role : string) : M unit :=
  if is_role role then update_user tenant id (us_set_Role role)
  else tx (fun _ _ d =>
    (if List.existsb (user_key tenant id) (users d) then Err ErrDB else Err ErrNotFound, d)).

Definition ListUsers (tenant : string) : M (list User) :=
  query (fun d => Ok (order_by us_CreatedAt
    (select_where (fun r => us_TenantID r =s tenant) (users d)))).

Definition GetUserTOTPSecret (tenant id : string) : M string :=
  query (fun d => found_or (us_TOTPSecret <$> select_one (user_key tenant id) (users d))).

Definition SetTOTPSecret (tenant id secret : string) : M unit :=
  update_user tenant id (us_set_TOTPSecret secret).

Definition SetTOTPEnabled (tenant id : string) (enabled : bool) : M unit :=
  update_user tenant id (us_set_TOTPEnabled enabled).

Definition SetBackupCodes (tenant id : string) (hashes : list string) : M unit :=
  update_user tenant id (us_set_BackupCodes hashes).

(** No row is the driver's error, which is not [ErrNotFound]. *)
Definition BackupCodeCount (tenant id : string) : M Z :=
  query (fun d =>
    match select_one (user_key tenant id) (users d) with
    | Some u => Ok (Z.of_nat (length (us_BackupCodes u)))
    | None => Err ErrDB
    end).

(** One statement removes every copy of the hash, if there is one. *)
Definition has_code (tenant id hash : string) (r : User) : bool :=
  user_key tenant id r && List.existsb (fun c => c =s hash) (us_BackupCodes r).
Definition drop_code (hash : string) (r : User) : User :=
  us_set_BackupCodes (List.filter (fun c => negb (c =s hash)) (us_BackupCodes r)) r.

Definition ConsumeBackupCode (tenant id hash : string) : M bool :=
  tx (fun _ _ d =>
    (Ok (List.existsb (has_code tenant id hash) (users d)),
     on_users (update_where (has_code tenant id hash) (drop_code hash)) d)).

(** ** sessions.go *)

(** Admin pool; the [jti] is unique. *)
Definition CreateSession (s : Session) : M Session :=
  tx (fun now seq d =>
    let row := mkSession (gen_id seq 0) (ss_JTI s) (ss_UserID s) (ss_TenantID s) (ss_Role s) now
                 (pg_time (ss_ExpiresAt s)) None in
    match insert_new (fun r => ss_JTI r =s ss_JTI s) row (sessions d) with
    | Some t => (Ok row, on_sessions (fun _ => t) d)
    | None => (Err ErrDB, d)
    end).

Definition session_key (tenant jti : string) (r : Session) : bool :=
  (ss_JTI r =s jti) && (ss_TenantID r =s tenant).

Definition GetLiveSession (tenant jti : string) : M Session :=
  s ← query (fun d => found_or (select_one (session_key tenant jti) (sessions d)));
  t ← now;
  if bool_decide (is_Some (ss_RevokedAt s)) || (ss_ExpiresAt s <? t)%Z
  then throw ErrNotFound else mret s.

Definition revoke (now : Z) (r : Session) : Session := ss_set_RevokedAt (Some now) r.
Definition unrevoked (r : Session) : bool := negb (bool_decide (is_Some (ss_RevokedAt r))).

Definition RevokeSession (tenant jti : string) : M unit :=
  tx (fun now _ d =>
    let p r := session_key tenant jti r && unrevoked r in
    if List.existsb p (sessions d) then (Ok tt, on_sessions (update_where p (revoke now)) d)
    else (Err ErrNotFound, d)).

Definition RevokeUserSessions (tenant userID : string) : M unit :=
  tx (fun now _ d =>
    (Ok tt, on_sessions (update_where
      (fun r => (ss_UserID r =s userID) && (ss_TenantID r =s tenant) && unrevoked r) (revoke now)) d)).

(** The limit of this listing is clamped at 500. *)
Definition clamp_sessions (limit : Z) : nat :=
  if (limit <=? 0)%Z || (500 <? limit)%Z then 100 else Z.to_nat limit.

Definition ListSessions (tenant : string) (limit : Z) : M (list Session) :=
  tx (fun now _ d => (Ok (take (clamp_sessions limit) (order_by_desc ss_CreatedAt
    (select_where (fun r => (ss_TenantID r =s tenant) && unrevoked r && (now <? ss_ExpiresAt r)%Z)
       (sessions d)))), d)).

(** ** keys.go *)

Definition insert_key (tenant name role keyHash : string) : M APIKey :=
  tx (fun now seq d =>
    let row := mkAPIKey (gen_id seq 0) tenant name keyHash role true now None in
    if negb (is_role role) then (Err ErrDB, d)
    else
      match insert_new (fun r => ak_KeyHash r =s keyHash) row (api_keys d) with
      | Some t => (Ok row, on_api_keys (fun _ => t) d)
      | None => (Err ErrDB, d)
      end).

(** The same statement on the admin pool and in the tenant's context. *)
Definition CreateAPIKey (tenant name role keyHash : string) : M APIKey :=
  insert_key tenant name role keyHash.
Definition CreateTenantAPIKey (tenant name role keyHash : string) : M APIKey :=
  insert_key tenant name role keyHash.

(** [TouchKey]: best effort. *)
Definition TouchKey (id : string) : M unit :=
  ignore (tx (fun now _ d =>
    (Ok tt, on_api_keys (update_where (fun r => ak_ID r =s id)
      (fun r => mkAPIKey (ak_ID r) (ak_TenantID r) (ak_Name r) (ak_KeyHash r) (ak_Role r)
                  (ak_Enabled r) (ak_CreatedAt r) (Some now))) d))).

Definition VerifyAPIKey (keyHash : string) : M APIKey :=
  k ← query (fun d => found_or (select_one
        (fun r => (ak_KeyHash r =s keyHash) && ak_Enabled r) (api_keys d)));
  TouchKey (ak_ID k);;
  mret k.

Definition ListAPIKeys (tenant : string) : M (list APIKey) :=
  query (fun d => Ok (order_by ak_CreatedAt
    (select_where (fun r => ak_TenantID r =s tenant) (api_keys d)))).

Definition RevokeAPIKey (tenant id : string) : M unit :=
  tx (fun _ _ d =>
    let p r := (ak_ID r =s id) && (ak_TenantID r =s tenant) in
    if List.existsb p (api_keys d)
    then (Ok tt, on_api_keys (update_where p (ak_set_Enabled false)) d)
    else (Err ErrNotFound, d)).

(** ** loginattempts.go *)

Definition RecordLoginAttempt (a : LoginAttempt) : M unit :=
  tx (fun now seq d =>
    (Ok tt, on_login_attempts (fun t => t ++ [mkLoginAttempt (gen_id seq 0) (la_TenantID a)
       (la_Email a) (la_IP a) (la_Success a) now])%list d)).

(** A failure of the account younger than [window] nanoseconds. *)
Definition recent_failure (now window : Z) (tenant email : string) (r : LoginAttempt) : bool :=
  (la_TenantID r =s tenant) && (la_Email r =s email) && negb (la_Success r) &&
  (now - window <? la_AttemptedAt r)%Z.

Definition CountRecentFailures (tenant email : string) (window : Z) : M Z :=
  tx (fun now _ d => (Ok (Z.of_nat (length (select_where (recent_failure now window tenant email)
                                              (login_attempts d)))), d)).

Definition ClearLoginFailures (tenant email : string) : M unit :=
  tx (fun _ _ d =>
    (Ok tt, on_login_attempts (delete_where
      (fun r => (la_TenantID r =s tenant) && (la_Email r =s email) && negb (la_Success r))) d)).
End auth_store.

(** ** Credentials that are dead for good *)

(** The row a token's claims lead to is revoked. *)
Definition dead_session (tenant jti : string) (l : list Session) : Prop :=
  exists r, select_one (session_key tenant jti) l = Some r /\ unrevoked r = false.

(** Every key with this hash is disabled, and there is one. *)
Definition dead_key (hash : string) (l : list APIKey) : Prop :=
  (exists r, r ∈ l /\ ak_KeyHash r = hash) /\
  forall r, r ∈ l -> ak_KeyHash r = hash -> ak_Enabled r = false.

(** Dead sessions and keys stay dead. *)
Definition sessions_le (l l' : list Session) : Prop :=
  forall tenant jti, dead_session tenant jti l -> dead_session tenant jti l'.
Definition keys_le (l l' : list APIKey) : Prop := forall hash, dead_key hash l -> dead_key hash l'.

#[global] Instance sessions_le_preorder : PreOrder sessions_le.
Proof. split; unfold sessions_le; [by intros l|]. intros l1 l2 l3 H1 H2 t j H. auto. Qed.
#[global] Instance keys_le_preorder : PreOrder keys_le.
Proof. split; unfold keys_le; [by intros l|]. intros l1 l2 l3 H1 H2 h H. auto. Qed.

Lemma sessions_le_snoc l r : sessions_le l (l ++ [r])%list.
Proof.
  intros t j (x & Hx & Hr). exists x. split; [|done]. unfold select_one in *.
  induction l as [|y l IH]; simpl in *; [done|].
  destruct (session_key t j y); [done|by apply IH].
Qed.

Lemma select_revoked p now tenant jti l r :
  select_one (session_key tenant jti) l = Some r ->
  select_one (session_key tenant jti) (update_where p (revoke now) l)
  = Some (if p r then revoke now r else r).
Proof.
  unfold select_one, update_where. induction l as [|y l IH]; simpl; [done|].
  assert (session_key tenant jti (if p y then revoke now y else y) = session_key tenant jti y) as ->
    by by destruct (p y).
  destruct (session_key tenant jti y); [by intros [= ->]|done].
Qed.

(** Revoking whatever of the row is not yet revoked leaves it dead. *)
Lemma revoke_dead p now tenant jti l r :
  select_one (session_key tenant jti) l = Some r -> (unrevoked r = true -> p r = true) ->
  dead_session tenant jti (update_where p (revoke now) l).
Proof.
  intros Hr Hp. exists (if p r then revoke now r else r). split; [by apply select_revoked|].
  destruct (p r) eqn:Ep; [done|]. destruct (unrevoked r) eqn:Eu; [|done].
  specialize (Hp eq_refl). congruence.
Qed.

Lemma sessions_le_revoke p now l : sessions_le l (update_where p (revoke now) l).
Proof. intros t j (x & Hx & Hr). eapply revoke_dead; [exact Hx|]. by rewrite Hr. Qed.

Lemma keys_le_insert r l l' :
  insert_new (fun x => ak_KeyHash x =s ak_KeyHash r) r l = Some l' -> keys_le l l'.
Proof.
  intros Hi h [(x & Hx & Hh) Hs]. unfold insert_new in Hi. destruct (existsb _ l) eqn:Ep; [done|].
  simplify_eq. split; [exists x; split; [by apply elem_of_app; left|done]|].
  intros y [Hy|Hy]%elem_of_app Hyh; [by apply Hs|]. apply list_elem_of_singleton in Hy as ->.
  assert (existsb (fun z => ak_KeyHash z =s ak_KeyHash r) l = true); [|congruence].
  apply existsb_exists. exists x. split; [by apply list_elem_of_In|]. apply seqb_true. congruence.
Qed.

Lemma keys_le_update p f l :
  (forall x, p x = true -> ak_KeyHash (f x) = ak_KeyHash x /\
     (ak_Enabled x = false -> ak_Enabled (f x) = false)) ->
  keys_le l (update_where p f l).
Proof.
  intros Hf h [(x & Hx & Hh) Hs]. split.
  - exists (if p x then f x else x). split; [apply elem_of_update_where; by exists x|].
    destruct (p x) eqn:Ep; [|done]. by rewrite (proj1 (Hf x Ep)).
  - intros y (z & Hz & ->)%elem_of_update_where Hy. destruct (p z) eqn:Ep; [|by apply Hs].
    destruct (Hf z Ep) as [Ek En]. apply En, Hs; [done|congruence].
Qed.
