(* ===== verification/TenantStore.v ===== *)
(** * [internal/store]: tenants, connections, policies and the listings

    The statements behind provisioning and inspection, in the style of
    [Store]. *)

From S2P Require Import Prelude Json Tables Effects Store.
Local Open Scope string_scope.

(** ** The CHECKs of the schema *)

Definition is_provider (v : string) : bool := (v =s "salesforce") || (v =s "hubspot") || (v =s "postgres").
Definition is_connection_status (v : string) : bool :=
  (v =s "disconnected") || (v =s "connecting") || (v =s "healthy") || (v =s "unhealthy") || (v =s "error").
Definition is_policy_mode (v : string) : bool := (v =s "one_way") || (v =s "bidirectional").
Definition is_strategy (v : string) : bool :=
  (v =s "last_write_wins") || (v =s "source_priority") || (v =s "field_merge") || (v =s "manual").
Definition is_delete_policy (v : string) : bool :=
  (v =s "propagate") || (v =s "tombstone_only") || (v =s "ignore").
(** A PostgreSQL [int]. *)
Definition in_int32 (n : Z) : bool := ((- 2 ^ 31 <=? n) && (n <? 2 ^ 31))%Z.

(** [if limit <= 0 || limit > 500 { limit = 100 }]. *)
Definition clamp_500 (limit : Z) : nat :=
  Z.to_nat (if (limit <=? 0)%Z || (500 <? limit)%Z then 100 else limit).

(** A condition that is only added for a non-empty argument. *)
Definition unless_empty (arg column : string) : bool := (arg =s "") || (column =s arg).

Section tenant_store.
Context `{Outside}.

(** ** tenants.go *)

(** Admin pool; the slug is unique. *)
Definition CreateTenant (name slug : string) : M Tenant :=
  tx (fun now seq d =>
    let row := mkTenant (gen_id seq 0) name slug "active" now in
    match insert_new (fun r => tn_Slug r =s slug) row (tenants d) with
    | Some t => (Ok row, on_tenants (fun _ => t) d)
    | None => (Err ErrExists, d)
    end).

(** Admin pool. *)
Definition ListTenants : M (list Tenant) := query (fun d => Ok (order_by tn_CreatedAt (tenants d))).

(** ** connections.go *)

(** The columns the queries return; [last_health_check] is not one of them. *)
Definition scanned_connection (c : Connection) : Connection :=
  mkConnection (cn_ID c) (cn_TenantID c) (cn_Name c) (cn_Provider c) (cn_BaseURL c) (cn_Status c)
    (cn_WebhookSecret c) (cn_Config c) (cn_CreatedAt c) (cn_UpdatedAt c) None.

Definition CreateConnection (c : Connection) : M Connection :=
  tx (fun now seq d =>
    let row := mkConnection (gen_id seq 0) (cn_TenantID c) (cn_Name c) (cn_Provider c) (cn_BaseURL c)
                 (cn_Status c) (cn_WebhookSecret c) (cn_Config c) now now None in
    if is_provider (cn_Provider c) && is_connection_status (cn_Status c)
    then (Ok row, on_connections (fun t => t ++ [row])%list d)
    else (Err ErrDB, d)).

Definition ListConnections (tenant : string) : M (list Connection) :=
  query (fun d => Ok (scanned_connection <$> order_by cn_CreatedAt
    (select_where (fun r => cn_TenantID r =s tenant) (connections d)))).

Definition connection_key (tenant id : string) (r : Connection) : bool :=
  (cn_TenantID r =s tenant) && (cn_ID r =s id).

Definition GetConnection (tenant id : string) : M Connection :=
  query (fun d => found_or (scanned_connection <$> select_one (connection_key tenant id) (connections d))).

Definition SetConnectionStatus (tenant id status : string) : M unit :=
  tx (fun now _ d =>
    if List.existsb (connection_key tenant id) (connections d) && negb (is_connection_status status)
    then (Err ErrDB, d)
    else (Ok tt, on_connections (update_where (connection_key tenant id) (fun r =>
            mkConnection (cn_ID r) (cn_TenantID r) (cn_Name r) (cn_Provider r) (cn_BaseURL r) status
              (cn_WebhookSecret r) (cn_Config r) (cn_CreatedAt r) now (Some now))) d)).

(** ** policy.go *)

Definition policy_key (tenant entity source destination : string) (r : SyncPolicy) : bool :=
  (po_TenantID r =s tenant) && (po_Entity r =s entity) && (po_Source r =s source) &&
  (po_Destination r =s destination).

(** The row left for [p]: the id and the creation time of the existing row are kept. *)
Definition policy_row (now : Z) (id : string) (created : Z) (p : SyncPolicy) : SyncPolicy :=
  mkSyncPolicy id (po_TenantID p) (po_Entity p) (po_Source p) (po_Destination p) (po_Mode p)
    (po_ConflictStrategy p) (po_DeletePolicy p) (po_RetryPolicy p) (po_SourcePriority p) (po_Enabled p)
    created now.

Definition policy_valid (p : SyncPolicy) : bool :=
  is_policy_mode (po_Mode p) && is_strategy (po_ConflictStrategy p) && is_delete_policy (po_DeletePolicy p)
  && in_int32 (po_SourcePriority p).

Definition UpsertSyncPolicy (p : SyncPolicy) : M SyncPolicy :=
  tx (fun now seq d =>
    let k := policy_key (po_TenantID p) (po_Entity p) (po_Source p) (po_Destination p) in
    let d' := on_sync_policies (upsert k (fun r => policy_row now (po_ID r) (po_CreatedAt r) p)
                (policy_row now (gen_id seq 0) now p)) d in
    if policy_valid p then (found_or (select_one k (sync_policies d')), d') else (Err ErrDB, d)).

(** ** audit.go *)

(** The conditions are conjoined in the order of the arguments given. *)
Definition ListAuditLogs (tenant actor action resource : string) (limit : Z) : M (list AuditLog) :=
  query (fun d => Ok (take (clamp_500 limit) (order_by_desc au_CreatedAt
    (select_where (fun r => sql_eq (au_TenantID r) tenant && unless_empty actor (au_Actor r) &&
       unless_empty action (au_Action r) && unless_empty resource (au_Resource r)) (audit_log d))))).

Definition ListSyncOperations (tenant entityType entityID targetSource : string) (limit : Z)
    : M (list SyncOperation) :=
  query (fun d => Ok (take (clamp_500 limit) (order_by_desc so_CreatedAt
    (select_where (fun r => (so_TenantID r =s tenant) && unless_empty entityType (so_EntityType r) &&
       unless_empty entityID (so_EntityID r) && unless_empty targetSource (so_TargetSource r))
       (sync_operations d))))).

(** ** events.go *)

Definition GetSourceEvent (tenant eventID : string) : M SourceEvent :=
  query (fun d => found_or (select_one
    (fun r => (se_TenantID r =s tenant) && (se_EventID r =s eventID)) (source_events d))).

Definition ListSourceEvents (tenant : string) (limit : Z) : M (list SourceEvent) :=
  query (fun d => Ok (take (clamp_limit limit) (order_by_desc se_ReceivedAt
    (select_where (fun r => se_TenantID r =s tenant) (source_events d))))).

(** ** processed.go *)

Definition ProcessedCount (tenant : string) : M Z :=
  query (fun d => Ok (Z.of_nat (length (select_where (fun r => pe_TenantID r =s tenant) (processed_events d))))).

(** No row is no error. *)
Definition ProcessedEventAt (tenant source eventID : string) : M (option Z) :=
  query (fun d => Ok (pe_ProcessedAt <$> select_one (processed_key tenant source eventID) (processed_events d))).
End tenant_store.
