(* ===== verification/Schema.v ===== *)
(** * The schema of the database

    The constraints the migrations declare ([migrations/0001_init.sql] to
    [0010_login_attempts.sql]): which values the CHECK clauses admit and which
    columns are unique, as the predicate [Schema] on the tables, with what the
    statements' combinators preserve of it.  Several statements of
    [internal/store] store a status or a kind they are given without looking at
    it, so that a CHECK holds is a property of their callers. *)

From S2P Require Import Prelude Json Tables Effects Store AuthStore TenantStore.
Local Open Scope string_scope.

(** ** CHECK clauses *)

Definition is_event_status (v : string) : bool :=
  (v =s "received") || (v =s "validated") || (v =s "processed") || (v =s "failed") || (v =s "stale") ||
  (v =s "duplicate") || (v =s "dlq").
Definition is_letter_status (v : string) : bool :=
  (v =s "open") || (v =s "retrying") || (v =s "discarded") || (v =s "resolved").
Definition is_conflict_status (v : string) : bool :=
  (v =s ConflictPending) || (v =s ConflictResolved) || (v =s ConflictAutoResolved) ||
  (v =s ConflictDismissed).
Definition is_job_type (v : string) : bool := (v =s "initial") || (v =s "reconcile").
Definition is_job_status (v : string) : bool :=
  (v =s "pending") || (v =s "running") || (v =s "paused") || (v =s "completed") || (v =s "failed") ||
  (v =s "cancelled").
Definition is_run_mode (v : string) : bool := (v =s "auto") || (v =s "manual").
Definition is_run_status (v : string) : bool :=
  (v =s ReconcileRunning) || (v =s ReconcileComplete) || (v =s ReconcileFailed).
Definition is_finding_kind (v : string) : bool :=
  (v =s FindingMissed) || (v =s FindingDrift) || (v =s FindingDeleted) || (v =s FindingMissing).
Definition is_direction (v : string) : bool :=
  (v =s "push_canonical") || (v =s "adopt_provider") || (v =s "delete").
Definition is_finding_status (v : string) : bool :=
  (v =s FindingPending) || (v =s FindingApplied) || (v =s FindingDismissed) || (v =s FindingSkipped) ||
  (v =s FindingFailed).
Definition is_tenant_status (v : string) : bool := (v =s "active") || (v =s "suspended").

Definition connection_ok (r : Connection) : bool :=
  is_provider (cn_Provider r) && is_connection_status (cn_Status r).
Definition job_ok (r : SyncJob) : bool := is_job_type (sj_Type r) && is_job_status (sj_Status r).
Definition run_ok (r : ReconciliationRun) : bool :=
  is_run_mode (rr_Mode r) && is_run_status (rr_Status r).
Definition finding_ok (r : ReconciliationFinding) : bool :=
  is_finding_kind (rf_Kind r) && is_direction (rf_Direction r) && is_finding_status (rf_Status r).

(** ** UNIQUE and PRIMARY KEY clauses *)

Definition policy_columns (r : SyncPolicy) := (po_TenantID r, po_Entity r, po_Source r, po_Destination r).
Definition canonical_columns (r : CanonicalRecord) := (cr_TenantID r, cr_EntityType r, cr_EntityID r).
Definition event_columns (r : SourceEvent) := (se_TenantID r, se_Source r, se_EventID r).
Definition processed_columns (r : ProcessedEvent) := (pe_TenantID r, pe_Source r, pe_EventID r).
Definition retry_columns (r : RetryEntry) := (rt_TenantID r, rt_EventID r).
Definition letter_columns (r : DeadLetter) := (dl_TenantID r, dl_EventID r).
Definition conflict_columns (r : ConflictRecord) :=
  (co_TenantID r, co_EntityType r, co_EntityID r, co_SourceA r, co_SourceB r, co_VersionA r,
   co_VersionB r).
Definition finding_columns (r : ReconciliationFinding) := (rf_RunID r, rf_Kind r, rf_ProviderID r).
Definition outbound_columns (r : OutboundWrite) :=
  (ow_TenantID r, ow_EntityType r, ow_EntityID r, ow_TargetSource r).
Definition user_columns (r : User) := (us_TenantID r, us_Email r).

Definition Unique {A K} (key : A -> K) (l : list A) : Prop := NoDup (key <$> l).
Definition Checked {A} (check : A -> bool) (l : list A) : Prop := Forall (fun r => check r = true) l.

#[export] Instance Unique_dec {A K} `{EqDecision K} (key : A -> K) l : Decision (Unique key l).
Proof. unfold Unique. apply _. Defined.
#[export] Instance Checked_dec {A} (check : A -> bool) l : Decision (Checked check l).
Proof. unfold Checked. apply _. Defined.

Record Schema (d : DB) : Prop := mkSchema {
  sc_connections : Checked connection_ok (connections d);
  sc_policies : Unique policy_columns (sync_policies d);
  sc_policies_ok : Checked policy_valid (sync_policies d);
  sc_canonical : Unique canonical_columns (canonical_records d);
  sc_events : Unique event_columns (source_events d);
  sc_events_ok : Checked (fun r => is_event_status (se_Status r)) (source_events d);
  sc_processed : Unique processed_columns (processed_events d);
  sc_retries : Unique retry_columns (retry_queue d);
  sc_letters : Unique letter_columns (dead_letter d);
  sc_letters_ok : Checked (fun r => is_letter_status (dl_Status r)) (dead_letter d);
  sc_conflicts : Unique conflict_columns (conflicts d);
  sc_conflicts_ok : Checked (fun r => is_conflict_status (co_Status r)) (conflicts d);
  sc_jobs : Checked job_ok (sync_jobs d);
  sc_runs : Checked run_ok (reconciliation_runs d);
  sc_findings : Unique finding_columns (reconciliation_findings d);
  sc_findings_ok : Checked finding_ok (reconciliation_findings d);
  sc_outbound : Unique outbound_columns (outbound_writes d);
  sc_tenants : Unique tn_Slug (tenants d);
  sc_tenants_ok : Checked (fun r => is_tenant_status (tn_Status r)) (tenants d);
  sc_users : Unique user_columns (users d);
  sc_users_ok : Checked (fun r => is_role (us_Role r)) (users d);
  sc_keys : Unique ak_KeyHash (api_keys d);
  sc_keys_ok : Checked (fun r => is_role (ak_Role r)) (api_keys d);
  sc_sessions : Unique ss_JTI (sessions d);
}.

(** ** What the combinators preserve *)

Section unique.
Context {A K : Type} (key : A -> K).

Lemma Unique_update c f l :
  (forall r, c r = true -> key (f r) = key r) -> Unique key l -> Unique key (update_where c f l).
Proof.
  intros Hf. unfold Unique, update_where. rewrite <- (list_fmap_compose _ key).
  intros Hl. erewrite list_fmap_ext; [exact Hl|]. intros _ r _. simpl. destruct (c r) eqn:E; auto.
Qed.

Lemma Unique_snoc c r l :
  (forall x, key x = key r -> c x = true) -> existsb c l = false -> Unique key l ->
  Unique key (l ++ [r]).
Proof.
  intros Hc He Hl. unfold Unique. rewrite fmap_app. apply NoDup_app.
  split; [done|]. split; [|apply NoDup_singleton]. intros k Hk ->%list_elem_of_singleton.
  apply list_elem_of_fmap in Hk as (x & Ex & Hx%list_elem_of_In).
  apply not_true_iff_false in He. apply He, existsb_exists. exists x. auto.
Qed.

Lemma Unique_insert_new c r l l' :
  insert_new c r l = Some l' -> (forall x, key x = key r -> c x = true) -> Unique key l ->
  Unique key l'.
Proof.
  unfold insert_new. destruct (existsb c l) eqn:E; intros [= <-] Hc. by apply (Unique_snoc c).
Qed.

Lemma Unique_upsert c f r l :
  (forall x, c x = true -> key (f x) = key x) -> (forall x, key x = key r -> c x = true) ->
  Unique key l -> Unique key (upsert c f r l).
Proof.
  intros Hf Hc Hl. unfold upsert. destruct (existsb c l) eqn:E;
    [by apply Unique_update|by apply (Unique_snoc c)].
Qed.

Lemma Unique_delete c l : Unique key l -> Unique key (delete_where c l).
Proof.
  unfold Unique, delete_where. induction l as [|x l IH]; simpl; [done|]. intros [Hx Hl]%NoDup_cons.
  destruct (c x); simpl; [auto|]. apply NoDup_cons. split; [|auto].
  intros (y & Ey & Hy)%list_elem_of_fmap. apply Hx, list_elem_of_fmap. exists y.
  split; [done|]. apply list_elem_of_In, filter_In in Hy as [Hy _]. by apply list_elem_of_In.
Qed.
End unique.

Section checked.
Context {A : Type} (check : A -> bool).

Lemma Checked_update c f l :
  (forall r, check r = true -> check (f r) = true) -> Checked check l ->
  Checked check (update_where c f l).
Proof.
  intros Hf Hl. apply Forall_forall. intros x (r & Hr & ->)%elem_of_update_where.
  eapply Forall_forall in Hl; [|exact Hr]. destruct (c r); auto.
Qed.

Lemma Checked_snoc r l : check r = true -> Checked check l -> Checked check (l ++ [r]).
Proof. intros Hr Hl. apply Forall_app. split; [done|]. by constructor. Qed.

Lemma Checked_insert_new c r l l' :
  insert_new c r l = Some l' -> check r = true -> Checked check l -> Checked check l'.
Proof. unfold insert_new. destruct (existsb c l); intros [= <-]. apply Checked_snoc. Qed.

Lemma Checked_upsert c f r l :
  (forall x, check x = true -> check (f x) = true) -> check r = true -> Checked check l ->
  Checked check (upsert c f r l).
Proof.
  intros Hf Hr Hl. unfold upsert. destruct (existsb c l); [by apply Checked_update|by apply Checked_snoc].
Qed.

Lemma Checked_delete c l : Checked check l -> Checked check (delete_where c l).
Proof.
  intros Hl. apply Forall_forall. intros x Hx. apply list_elem_of_In, filter_In in Hx as [Hx _].
  apply list_elem_of_In in Hx. by eapply Forall_forall in Hl.
Qed.
End checked.

Lemma reconcileDirection_ok kind : is_direction (reconcileDirection kind) = true.
Proof. unfold reconcileDirection. by repeat case_match. Qed.

(** ** Automation *)

(** The columns of a key decide the predicate of its index, and the other way round. *)
Ltac same_key :=
  let r := fresh "r" in let E := fresh "E" in
  intros r E; unfold canonical_key, processed_key, retry_key, Store.dead_key, conflict_key, finding_key,
    outbound_key, source_event_key, policy_key, policy_columns, canonical_columns, event_columns,
    processed_columns, retry_columns, letter_columns, conflict_columns, finding_columns,
    outbound_columns, user_columns in *; simpl in *; seqb_simpl; simplify_eq; simpl;
  repeat match goal with H : _ = _ |- _ => rewrite H end; rewrite ?seqb_refl, ?Z.eqb_refl; try done;
  congruence.

(** A row that is still in order after the columns a statement sets. *)
Ltac still_ok :=
  intros; unfold connection_ok, job_ok, run_ok, finding_ok in *; simpl in *;
  repeat match goal with
  | H : (_ && _)%bool = true |- _ => apply andb_prop in H; destruct H
  | H : negb _ = false |- _ => apply negb_false_iff in H
  | H : ?x = true |- context [?x] => rewrite H
  | H : ?x = false -> ?y = true, F : ?x = false |- context [?y] => rewrite (H F)
  end; rewrite ?reconcileDirection_ok; simpl; try reflexivity; try assumption.

Create HintDb schema discriminated.
#[export] Hint Resolve Unique_update Unique_insert_new Unique_upsert Unique_delete Checked_update
  Checked_snoc Checked_insert_new Checked_upsert Checked_delete : schema.
#[export] Hint Extern 1 (forall _, _ = true -> _ = _) => first [solve [intros ? ?; reflexivity]
  |solve [same_key]|solve [still_ok]] : schema.
#[export] Hint Extern 1 (forall _, _ = _ -> _ = true) => solve [same_key] : schema.
#[export] Hint Extern 1 (_ = true) => solve [still_ok] : schema.

Lemma Unique_canonical now i c l :
  Unique canonical_columns l -> Unique canonical_columns (upsert_canonical_row now i c l).
Proof. unfold upsert_canonical_row, canonical_row. auto with schema. Qed.

Lemma Unique_outbound now w l :
  Unique outbound_columns l -> Unique outbound_columns (upsert_outbound_row now w l).
Proof. unfold upsert_outbound_row. auto with schema. Qed.
#[export] Hint Resolve Unique_canonical Unique_outbound : schema.

Ltac schema :=
  let S := fresh "S" in
  intros S; destruct S; constructor; simpl; try assumption; eauto with schema.
