(* ===== verification/Migrate.v ===== *)
(** * [internal/db/migrate.go]: the migrations

    [Migrate] applies the scripts of a directory in lexicographic order, each in
    a transaction that also records its name, and skips the recorded ones.

    PostgreSQL is a parameter: class [Postgres] holds what the database keeps
    besides [schema_migrations], how a script splits into statements and what a
    statement does.  Its transaction blocks are the documented ones: [BEGIN]
    inside a block does nothing, [COMMIT] ends the block the client opened,
    statements outside a block commit at the end of their message.  Every call
    may fail on the way there or on the way back ([Ffail], [Flost]); either way
    the connection is gone and with it what was not committed. *)

From S2P Require Import Prelude Json Tables Effects.
Local Open Scope string_scope.

(** A statement of a script, as far as transactions go. *)
Inductive Stmt := Begin | Commit | Do (text : string).

Class Postgres := {
  PgData : Type;
  (** [None]: the message does not parse, and nothing of it runs. *)
  parse : string -> option (list Stmt);
  run_stmt : string -> PgData -> option PgData;
}.

(** ** Files *)

(** An entry of the directory; [de_Body] is [None] when the file cannot be read. *)
Record Entry := mkEntry { de_Name : string; de_IsDir : bool; de_Body : option string }.

(** [path.Ext] of a name without slashes: from its last dot on. *)
Fixpoint Ext (s : string) : string :=
  match s with
  | "" => ""
  | String c s' => if existsb (Ascii.eqb ".") (list_ascii_of_string s') then Ext s'
                   else if Ascii.eqb c "." then s else ""
  end.

Definition is_script (e : Entry) : bool := negb (de_IsDir e) && (Ext (de_Name e) =s ".sql").

(** The names to apply, sorted. *)
Definition migration_files (entries : list Entry) : list string :=
  isort String.leb (de_Name <$> List.filter is_script entries).

(** [fs.ReadFile]. *)
Definition ReadFile (entries : list Entry) (name : string) : option string :=
  e ← List.find (fun e => de_Name e =s name) entries; de_Body e.

Section migrate.
Context `{Postgres}.

(** ** The database and a session *)

(** [db_versions] is [None] while [schema_migrations] does not exist. *)
Record Db := mkDb { db_data : PgData; db_versions : option (list string) }.

Definition set_data (x : PgData) (d : Db) : Db := mkDb x (db_versions d).
Definition versions (d : Db) : list string := default [] (db_versions d).

(** What is committed, what the connection sees, and whether the client has a
    block open. *)
Record PgSession := mkPgSession { pg_base : Db; pg_work : Db; pg_block : bool }.

Definition idle (d : Db) : PgSession := mkPgSession d d false.
Definition rollback (s : PgSession) : PgSession := idle (pg_base s).
Definition open_block (s : PgSession) : PgSession := mkPgSession (pg_base s) (pg_work s) true.
Definition close_block (s : PgSession) : PgSession := idle (pg_work s).
(** The end of a message. *)
Definition end_message (s : PgSession) : PgSession := if pg_block s then s else close_block s.

(** The statements of a message, in order; the first that fails takes back what
    is not committed. *)
Fixpoint exec_stmts (ss : list Stmt) (s : PgSession) : bool * PgSession :=
  match ss with
  | [] => (true, end_message s)
  | Begin :: ss => exec_stmts ss (open_block s)
  | Commit :: ss => exec_stmts ss (close_block s)
  | Do t :: ss =>
      match run_stmt t (db_data (pg_work s)) with
      | Some x => exec_stmts ss (mkPgSession (pg_base s) (set_data x (pg_work s)) (pg_block s))
      | None => (false, rollback s)
      end
  end.

Definition exec_script (body : string) (s : PgSession) : bool * PgSession :=
  match parse body with Some ss => exec_stmts ss s | None => (false, rollback s) end.

(** [CREATE TABLE IF NOT EXISTS schema_migrations]. *)
Definition ensure_table (s : PgSession) : bool * PgSession :=
  (true, end_message (mkPgSession (pg_base s) (mkDb (db_data (pg_work s)) (Some (versions (pg_work s))))
                        (pg_block s))).

(** [INSERT INTO schema_migrations]; the version is the primary key. *)
Definition insert_version (name : string) (s : PgSession) : bool * PgSession :=
  let d := pg_work s in
  if bool_decide (name ∈ versions d) then (false, rollback s)
  else (true, end_message (mkPgSession (pg_base s) (mkDb (db_data d) (Some (versions d ++ [name])%list))
                             (pg_block s))).

(** ** [Migrate] *)

(** A session and what goes wrong with the calls to come. *)
Definition Conn : Type := PgSession * list Fault.

Definition call (f : PgSession -> bool * PgSession) (c : Conn) : bool * Conn :=
  match c.2 with
  | Ffail :: fs => (false, (rollback c.1, fs))
  | Flost :: fs => (false, (rollback (f c.1).2, fs))
  | Fok :: fs => ((f c.1).1, ((f c.1).2, fs))
  | [] => ((f c.1).1, ((f c.1).2, []))
  end.

Definition always (f : PgSession -> PgSession) (s : PgSession) : bool * PgSession := (true, f s).

(** One script: open the block, run it, record it, commit. *)
Definition apply_one (name body : string) (c : Conn) : bool * Conn :=
  let (ok, c) := call (always open_block) c in
  if negb ok then (false, c)
  else
    let (ok, c) := call (exec_script body) c in
    if negb ok then (false, (call (always rollback) c).2)
    else
      let (ok, c) := call (insert_version name) c in
      if negb ok then (false, (call (always rollback) c).2)
      else call (always close_block) c.

Fixpoint apply_pending (entries : list Entry) (files : list string) (c : Conn) : bool * Conn :=
  match files with
  | [] => (true, c)
  | name :: files =>
      let exists_ := bool_decide (name ∈ versions (pg_work c.1)) in
      let (ok, c) := call (always id) c in
      if negb ok then (false, c)
      else if exists_ then apply_pending entries files c
      else
        match ReadFile entries name with
        | None => (false, c)
        | Some body =>
            let (ok, c) := apply_one name body c in
            if negb ok then (false, c) else apply_pending entries files c
        end
  end.

(** [None]: the directory cannot be read. *)
Definition Migrate (fsys : option (list Entry)) (c : Conn) : bool * Conn :=
  let (ok, c) := call ensure_table c in
  if negb ok then (false, c)
  else
    match fsys with
    | None => (false, c)
    | Some entries => apply_pending entries (migration_files entries) c
    end.
End migrate.
