(* ===== verification/MigrateSpec.v ===== *)
(** * What running the migrations guarantees

    Each script is applied once and in order, through any number of failed
    runs, as far as the record goes: a script that carries its own [COMMIT] can
    be applied without being recorded. *)

From S2P Require Import Prelude Json Tables Effects Migrate.
Local Open Scope string_scope.

(** The next call a run makes. *)
Ltac next_call E :=
  match type of E with
  | (let (_, _) := call ?f ?c in _) = _ =>
      let ok := fresh "ok" in let c' := fresh "c" in let Ec := fresh "Ec" in
      destruct (call f c) as [ok c'] eqn:Ec
  end.

Section spec.
Context `{Postgres}.

(** ** Scripts *)

Definition is_do (s : Stmt) : bool := match s with Do _ => true | _ => false end.

(** A script without transaction control, and one that is a transaction of its own. *)
Definition plain (ss : list Stmt) : Prop := Forall (fun s => is_do s = true) ss.
Definition wrapped (ss : list Stmt) : Prop := exists p, plain p /\ ss = (Begin :: p ++ [Commit])%list.

(** What the statements do to the data. *)
Fixpoint effect (ss : list Stmt) (x : PgData) : option PgData :=
  match ss with
  | [] => Some x
  | Do t :: ss => x' ← run_stmt t x; effect ss x'
  | _ :: ss => effect ss x
  end.

Lemma effect_app ss ss' x : effect (ss ++ ss') x = (x' ← effect ss x; effect ss' x').
Proof.
  revert x. induction ss as [|[| |t] ss IH]; intros x; simpl; try done; try apply IH.
  destruct (run_stmt t x); simpl; [apply IH|done].
Qed.

(** The scripts named, one after the other. *)
Fixpoint replay (entries : list Entry) (names : list string) (x : PgData) : option PgData :=
  match names with
  | [] => Some x
  | n :: names =>
      body ← ReadFile entries n; ss ← parse body; x' ← effect ss x; replay entries names x'
  end.

Lemma replay_app e l l' x : replay e (l ++ l') x = (x' ← replay e l x; replay e l' x').
Proof.
  revert x. induction l as [|n l IH]; intros x; simpl; [done|].
  destruct (ReadFile e n) as [b|]; simpl; [|done]. destruct (parse b) as [ss|]; simpl; [|done].
  destruct (effect ss x); simpl; [apply IH|done].
Qed.

(** Every script is of one of the two kinds. *)
Definition Shaped (entries : list Entry) : Prop :=
  forall n b ss, ReadFile entries n = Some b -> parse b = Some ss -> plain ss \/ wrapped ss.

(** The script is a transaction of its own. *)
Definition self_committing (entries : list Entry) (n : string) : Prop :=
  exists b ss, ReadFile entries n = Some b /\ parse b = Some ss /\ wrapped ss.

(** ** One script *)

Lemma exec_plain p s : plain p ->
  exec_stmts p s = match effect p (db_data (pg_work s)) with
                   | Some x => (true, end_message (mkPgSession (pg_base s) (set_data x (pg_work s)) (pg_block s)))
                   | None => (false, rollback s)
                   end.
Proof.
  intros Hp. revert s. induction Hp as [|[| |t] p Ht Hp IH]; intros [b w k]; simpl in *; try done.
  - by destruct w.
  - destruct (run_stmt t (db_data w)); simpl; [|done]. rewrite IH. simpl. by destruct (effect p _).
Qed.

(** A wrapped script ends the block it was started in. *)
Lemma exec_wrapped p d : plain p ->
  exec_stmts (Begin :: p ++ [Commit]) (mkPgSession d d true) =
  match effect p (db_data d) with
  | Some x => (true, idle (set_data x d))
  | None => (false, idle d)
  end.
Proof.
  intros Hp. change (exec_stmts (p ++ [Commit])%list (mkPgSession d d true) = match effect p (db_data d) with
    | Some x => (true, idle (set_data x d)) | None => (false, idle d) end).
  assert (forall w, exec_stmts (p ++ [Commit])%list (mkPgSession d w true) = match effect p (db_data w) with
    | Some x => (true, idle (set_data x w)) | None => (false, idle d) end) as G; [|apply G].
  induction Hp as [|[| |t] p Ht Hp IH]; intros w; simpl in *; try done.
  - by destruct w.
  - destruct (run_stmt t (db_data w)); simpl; [|done]. rewrite IH. simpl. by destruct (effect p _).
Qed.

Definition recorded (name : string) (x : PgData) (d : Db) : Db :=
  mkDb x (Some (versions d ++ [name])%list).

(** A call that returns has run; one that fails has run or not, and what was
    not committed is gone. *)
Lemma call_cases f s fs ok c :
  call f (s, fs) = (ok, c) ->
  (ok = true /\ f s = (true, c.1)) \/
  (ok = false /\ (c.1 = rollback s \/ c.1 = rollback (f s).2 \/ (f s = (false, c.1)))).
Proof.
  unfold call. simpl. destruct (f s) as [[] s'] eqn:E; destruct fs as [|[] fs]; simpl; intros [= <- <-]; simpl;
    solve [left; done|right; split; [done|]; auto].
Qed.

Lemma call_always f s fs ok c :
  call (always f) (s, fs) = (ok, c) ->
  (ok = true /\ c.1 = f s) \/ (ok = false /\ (c.1 = rollback s \/ c.1 = rollback (f s))).
Proof. intros [[-> [= E]]|[-> [E|[E|[= ?]]]]]%call_cases; auto. Qed.

Definition begun (d : Db) : PgSession := mkPgSession d d true.

(** The script inside the block: done, or failed and everything as before. *)
Lemma exec_script_cases body d s ok :
  (forall ss, parse body = Some ss -> plain ss \/ wrapped ss) ->
  exec_script body (begun d) = (ok, s) ->
  (ok = false /\ s = idle d) \/
  (ok = true /\ exists ss x, parse body = Some ss /\ effect ss (db_data d) = Some x /\
     ((plain ss /\ s = mkPgSession d (set_data x d) true) \/ (wrapped ss /\ s = idle (set_data x d)))).
Proof.
  intros Hsh. unfold exec_script. destruct (parse body) as [ss|]; [|intros [= <- <-]; by left].
  destruct (Hsh ss eq_refl) as [Hp|(p & Hp & ->)].
  - rewrite exec_plain by done. simpl. destruct (effect ss (db_data d)) as [x|] eqn:Ee;
      intros [= <- <-]; [|by left]. right. split; [done|]. exists ss, x. auto.
  - unfold begun. rewrite exec_wrapped by done. destruct (effect p (db_data d)) as [x|] eqn:Ee;
      intros [= <- <-]; [|by left]. right. split; [done|].
    exists (Begin :: p ++ [Commit])%list, x. split; [done|]. split.
    + simpl. rewrite effect_app, Ee. done.
    + right. split; [by exists p|done].
Qed.

(** How a script can leave the database: as it was; applied and recorded; or,
    when it commits by itself, applied and not recorded.  It is reported as
    applied only in the second case. *)
Definition Outcome (name body : string) (d d' : Db) (ok : bool) : Prop :=
  (d' = d /\ ok = false) \/
  exists ss x, parse body = Some ss /\ effect ss (db_data d) = Some x /\
    (d' = recorded name x d \/ (wrapped ss /\ d' = set_data x d /\ ok = false)).

Lemma rollback_idle d : rollback (idle d) = idle d.
Proof. done. Qed.

(** From the script's end on. *)
Lemma record_cases name body ss x d s fs ok c :
  name ∉ versions d -> parse body = Some ss -> effect ss (db_data d) = Some x ->
  ((plain ss /\ s = mkPgSession d (set_data x d) true) \/ (wrapped ss /\ s = idle (set_data x d))) ->
  (let (ok, c) := call (insert_version name) (s, fs) in
   if negb ok then (false, (call (always rollback) c).2) else call (always close_block) c) = (ok, c) ->
  exists d', c.1 = idle d' /\ Outcome name body d d' ok.
Proof.
  intros Hn Ep Ee Hs E. next_call E.
  assert (insert_version name s = (true, match pg_block s with
    | true => mkPgSession d (recorded name x d) true | false => idle (recorded name x d) end)) as Ei.
  { unfold insert_version. destruct Hs as [[_ ->]|[_ ->]]; simpl;
      (rewrite bool_decide_false; [done|exact Hn]). }
  destruct c0 as [s1 fs1].
  apply call_cases in Ec. rewrite Ei in Ec. simpl in Ec.
  destruct Ec as [[-> [= <-]]|[-> Hc]]; simpl in E.
  - apply call_always in E.
    destruct Hs as [[Hp ->]|[Hw ->]]; simpl in E;
      destruct E as [[-> ->]|[-> [->| ->]]]; simpl; eexists; (split; [reflexivity|]); unfold Outcome; eauto 10.
  - destruct (call (always rollback) (s1, fs1)) as [ok2 c2] eqn:E2. simpl in E. simplify_eq.
    apply call_always in E2.
    assert (c.1 = rollback s1) as Hr by (destruct E2 as [[_ ->]|[_ [->| ->]]]; done).
    rewrite Hr. unfold rollback at 1. eexists. split; [reflexivity|].
    destruct Hs as [[Hp ->]|[Hw ->]]; destruct Hc as [->|[->|[=]]]; simpl; unfold Outcome; eauto 10.
Qed.

Lemma apply_one_cases name body d fs ok c :
  name ∉ versions d -> (forall ss, parse body = Some ss -> plain ss \/ wrapped ss) ->
  apply_one name body (idle d, fs) = (ok, c) ->
  exists d', c.1 = idle d' /\ Outcome name body d d' ok.
Proof.
  intros Hn Hsh E. unfold apply_one in E. next_call E.
  destruct c0 as [s1 fs1]. apply call_always in Ec. simpl in Ec.
  destruct Ec as [[-> ->]|[-> Hs1]]; simpl in E; cycle 1.
  { simplify_eq. exists d. split; [by destruct Hs1 as [->| ->]|by left]. }
  next_call E. destruct c0 as [s2 fs2].
  destruct (exec_script body (open_block (idle d))) as [ok3 s3] eqn:Ex.
  pose proof (exec_script_cases body d s3 ok3 Hsh Ex) as Hx.
  apply call_cases in Ec. rewrite Ex in Ec. simpl in Ec.
  destruct Ec as [[-> [= -> ->]]|[-> Hc]]; simpl in E.
  - destruct Hx as [[[=] _]|(_ & ss & x & Ep & Ee & Hs)]. by eapply record_cases.
  - destruct (call (always rollback) (s2, fs2)) as [ok2 c2] eqn:E2. simpl in E. simplify_eq.
    apply call_always in E2.
    assert (c.1 = rollback s2) as Hr by (destruct E2 as [[_ ->]|[_ [->| ->]]]; done).
    rewrite Hr. unfold rollback at 1. eexists. split; [reflexivity|].
    destruct Hx as [[-> ->]|(-> & ss & x & Ep & Ee & [[Hp ->]|[Hw ->]])];
      destruct Hc as [->|[->|[= <-]]]; simpl; unfold Outcome; eauto 10.
Qed.
(** ** The loop *)

Definition pending (d : Db) (files : list string) : list string :=
  List.filter (fun n => negb (bool_decide (n ∈ versions d))) files.

Lemma pending_recorded name x d files :
  name ∉ files -> pending (recorded name x d) files = pending d files.
Proof.
  intros Hn. unfold pending, recorded, versions. simpl. induction files as [|n files IH]; simpl; [done|].
  apply not_elem_of_cons in Hn as [Hne Hn]. rewrite IH by done.
  rewrite (bool_decide_ext (n ∈ default [] (db_versions d) ++ [name])%list (n ∈ default [] (db_versions d)));
    [done|]. rewrite elem_of_app, list_elem_of_singleton. split; [|by left].
  intros [?| ->]; [done|by destruct Hne].
Qed.

(** After a run that applied [done_] of the scripts [todo]: the data is theirs,
    the record names them and, if a script that commits by itself was cut off,
    the data is one script ahead of the record. *)
Record Progress (entries : list Entry) (todo : list string) (ok : bool) (d d' : Db) : Prop := {
  pr_done : exists done_ rest, todo = (done_ ++ rest)%list /\ versions d' = (versions d ++ done_)%list /\
    (ok = true -> rest = []) /\
    (replay entries done_ (db_data d) = Some (db_data d') \/
     exists n rest', rest = n :: rest' /\ ok = false /\ self_committing entries n /\
       replay entries (done_ ++ [n])%list (db_data d) = Some (db_data d'));
  pr_table : is_Some (db_versions d) -> is_Some (db_versions d');
}.

Lemma Progress_stop entries todo d : Progress entries todo false d d.
Proof.
  constructor; [|done]. exists [], todo. rewrite app_nil_r. repeat split; try done. by left.
Qed.

Lemma Progress_step entries name body ss x todo ok d d' :
  ReadFile entries name = Some body -> parse body = Some ss -> effect ss (db_data d) = Some x ->
  Progress entries todo ok (recorded name x d) d' -> Progress entries (name :: todo) ok d d'.
Proof.
  intros Er Ep Ee [(done_ & rest & -> & Hv & Hok & Hd) Ht]. constructor; [|intros _; by apply Ht].
  exists (name :: done_), rest.
  split; [done|]. split; [rewrite Hv; unfold recorded, versions; simpl; by rewrite <- app_assoc|].
  split; [done|]. simpl. rewrite Er. simpl. rewrite Ep. simpl. rewrite Ee. exact Hd.
Qed.

Lemma apply_pending_progress entries files d fs ok c :
  Shaped entries -> NoDup files -> apply_pending entries files (idle d, fs) = (ok, c) ->
  exists d', c.1 = idle d' /\ Progress entries (pending d files) ok d d'.
Proof.
  intros Hsh. revert d fs. induction files as [|name files IH]; intros d fs Hnd E; simpl in E.
  { simplify_eq. exists d. split; [done|]. constructor; [|done]. exists [], []. split; [done|].
    split; [by rewrite app_nil_r|]. split; [done|]. by left. }
  apply NoDup_cons in Hnd as [Hnn Hnd]. next_call E. destruct c0 as [s1 fs1].
  apply call_always in Ec. simpl in Ec. destruct Ec as [[-> ->]|[-> Hs]]; simpl in E; cycle 1.
  { simplify_eq. exists d. split; [by destruct Hs as [->| ->]|apply Progress_stop]. }
  simpl. change (pg_work (idle d)) with d in E. case_bool_decide as Hv; simpl; [by eapply IH|].
  destruct (ReadFile entries name) as [body|] eqn:Er; cycle 1.
  { simplify_eq. exists d. split; [done|apply Progress_stop]. }
  destruct (apply_one name body _) as [ok1 [s2 fs2]] eqn:Ea.
  apply apply_one_cases in Ea as (d1 & Hd1 & Ho); [|done|by eauto]. simpl in Hd1. subst s2.
  destruct Ho as [[-> ->]|(ss & x & Ep & Ee & [->|(Hw & -> & ->)])]; simpl in E.
  - simplify_eq. exists d. split; [done|apply Progress_stop].
  - destruct ok1; simpl in E.
    + destruct (IH _ _ Hnd E) as (d' & Hc & Hp). exists d'. split; [done|].
      rewrite pending_recorded in Hp by done. by eapply Progress_step.
    + simplify_eq. eexists. split; [reflexivity|]. eapply Progress_step; [done..|apply Progress_stop].
  - simplify_eq. eexists. split; [reflexivity|]. constructor; [|done]. exists [], (name :: pending d files).
    split; [done|]. split; [by rewrite app_nil_r|]. split; [done|]. right. exists name, (pending d files).
    split; [done|]. split; [done|]. split; [by exists body, ss|]. simpl. rewrite Er. simpl.
    rewrite Ep. simpl. by rewrite Ee.
Qed.

(** Without faults the loop applies every script that can be applied. *)
Lemma apply_pending_complete entries files d x :
  Shaped entries -> NoDup files -> replay entries (pending d files) (db_data d) = Some x ->
  (apply_pending entries files (idle d, [])).1 = true.
Proof.
  intros Hsh. revert d. induction files as [|name files IH]; intros d Hnd Hx; simpl in *; [done|].
  apply NoDup_cons in Hnd as [Hnn Hnd]. revert Hx. case_bool_decide as Hv; simpl; intros Hx; [by apply IH|].
  destruct (ReadFile entries name) as [body|] eqn:Er; simpl in Hx; [|done].
  destruct (parse body) as [ss|] eqn:Ep; simpl in Hx; [|done].
  destruct (effect ss (db_data d)) as [y|] eqn:Ee; simpl in Hx; [|done].
  assert (apply_one name body (idle d, []) = (true, (idle (recorded name y d), []))) as ->.
  { unfold apply_one. simpl. destruct (exec_script body (open_block (idle d))) as [ok s] eqn:Ex.
    pose proof Ex as Ex'. apply exec_script_cases in Ex; [|by eauto]. simpl.
    destruct Ex as [[-> ->]|(-> & ss' & y' & Ep' & Ee' & Hs)].
    - exfalso. unfold exec_script in Ex'. rewrite Ep in Ex'. revert Ex'.
      destruct (Hsh _ _ _ Er Ep) as [Hp|(p & Hp & ->)].
      + rewrite exec_plain by done. simpl. by rewrite Ee.
      + change (open_block (idle d)) with (mkPgSession d d true). rewrite (exec_wrapped p d) by done.
        simpl in Ee.
        rewrite effect_app in Ee. destruct (effect p (db_data d)); by simplify_eq.
    - change (pg_work (idle d)) with d in *.
      assert (ss' = ss) as -> by congruence. assert (y' = y) as -> by congruence.
      simpl. unfold insert_version.
      destruct Hs as [[_ ->]|[_ ->]]; simpl; (rewrite bool_decide_false; [done|exact Hv]). }
  simpl. apply IH; [done|]. by rewrite pending_recorded.
Qed.

Lemma files_NoDup entries : NoDup (de_Name <$> entries) -> NoDup (migration_files entries).
Proof.
  intros Hnd. unfold migration_files. rewrite isort_perm. revert Hnd.
  induction entries as [|e l IH]; simpl; [done|]. intros [Hn Hl]%NoDup_cons.
  destruct (is_script e); simpl; [|auto]. apply NoDup_cons. split; [|auto].
  intros (x & Ex & Hx)%list_elem_of_fmap. apply Hn, list_elem_of_fmap. exists x. split; [done|].
  apply list_elem_of_In, filter_In in Hx as [Hx _]. by apply list_elem_of_In.
Qed.

(** With everything recorded there is nothing to do. *)
Lemma apply_pending_none entries files d :
  (forall n, n ∈ files -> n ∈ versions d) -> apply_pending entries files (idle d, []) = (true, (idle d, [])).
Proof.
  induction files as [|n files IH]; intros Hv; simpl; [done|].
  rewrite bool_decide_true by (apply Hv; set_solver). apply IH. intros m Hm. apply Hv. set_solver.
Qed.

Lemma Migrate_again entries d :
  is_Some (db_versions d) -> (forall n, n ∈ migration_files entries -> n ∈ versions d) ->
  Migrate (Some entries) (idle d, []) = (true, (idle d, [])).
Proof.
  intros [v Ev] Hv. unfold Migrate. simpl.
  assert (end_message (mkPgSession d (mkDb (db_data d) (Some (versions d))) false) = idle d) as ->.
  { destruct d as [x o]. simpl in Ev. by subst. }
  by apply apply_pending_none.
Qed.

Lemma pending_all d d' files :
  versions d' = (versions d ++ pending d files)%list -> forall n, n ∈ files -> n ∈ versions d'.
Proof.
  intros -> n Hn. destruct (decide (n ∈ versions d)) as [|Hd]; apply elem_of_app; [by left|right].
  apply list_elem_of_In, filter_In. split; [by apply list_elem_of_In|]. by rewrite bool_decide_false.
Qed.
End spec.

(** C40: the migrations are applied once and in order.  Let every script be free
    of transaction control or be a transaction of its own, as those of the
    repository are.  Whatever faults a run of [Migrate] meets, it leaves no
    transaction open, and what it changed is a prefix of the pending scripts in
    lexicographic order: the record grows by exactly their names, and the data
    is what they make of it, except that after a failure inside a script that
    commits by itself the data may be that one script ahead of the record.  A run
    that reports success has applied all of them, and running it again then
    changes nothing.  A run without faults reports success whenever the pending
    scripts can be applied one after the other. *)
Theorem migrations_once `{Postgres} (entries : list Entry) (d : Db) (fs : list Fault) (ok : bool) (c : Conn) :
  Shaped entries -> NoDup (de_Name <$> entries) -> Migrate (Some entries) (idle d, fs) = (ok, c) ->
  let todo := pending d (migration_files entries) in
  (exists d', c.1 = idle d' /\ Progress entries todo ok d d' /\
     (ok = true -> Migrate (Some entries) (idle d', []) = (true, (idle d', [])))) /\
  (fs = [] -> is_Some (replay entries todo (db_data d)) -> ok = true).
Proof.
  intros Hsh Hnd%files_NoDup E todo. unfold Migrate in E. next_call E. destruct c0 as [s1 fs1].
  set (d1 := mkDb (db_data d) (Some (versions d))).
  assert (ensure_table (idle d) = (true, idle d1)) as Et by done.
  apply call_cases in Ec as Hc. rewrite Et in Hc. simpl in Hc.
  assert (forall n, apply_pending entries (migration_files entries) (idle d1, n) = (ok, c) ->
    exists d', c.1 = idle d' /\ Progress entries todo ok d d' /\
      (ok = true -> Migrate (Some entries) (idle d', []) = (true, (idle d', [])))) as Hloop.
  { intros n (d' & Hd' & Hp & Ht)%apply_pending_progress; [|done..]. exists d'. split; [done|]. split.
    - by constructor; [|intros _; apply Ht].
    - intros ->. destruct Hp as (dn & rest & Et' & Hv & Hr & _). rewrite (Hr eq_refl), app_nil_r in Et'.
      rewrite <- Et' in Hv. apply Migrate_again; [by apply Ht|by apply (pending_all d1)]. }
  destruct Hc as [[-> [= <-]]|[-> Hs]]; simpl in E.
  - split; [by apply (Hloop fs1)|]. intros -> [x Hx]. assert (fs1 = []) as -> by (unfold call in Ec; simpl in Ec; congruence).
    pose proof (apply_pending_complete entries (migration_files entries) d1 x Hsh Hnd Hx) as Hok.
    by rewrite E in Hok.
  - simplify_eq. split; [|intros ->; simpl in Ec; by simplify_eq].
    destruct Hs as [->|[->|[=]]]; simpl.
    + exists d. repeat split; try done. apply Progress_stop.
    + exists d1. split; [done|]. split; [|done]. constructor; [|done].
      destruct (Progress_stop entries todo d) as [Hp _]. exact Hp.
Qed.

(** ** A run that is cut off *)

(** Tables that can be created once, by scripts that are transactions of their own. *)
Definition tables_only : Postgres := {|
  PgData := list string;
  parse body := Some [Begin; Do body; Commit];
  run_stmt t x := if bool_decide (t ∈ x) then None else Some (x ++ [t])%list;
|}.

Definition two_scripts : list Entry :=
  [mkEntry "embed.go" false (Some ""); mkEntry "0002_jobs.sql" false (Some "jobs");
   mkEntry "0001_init.sql" false (Some "tenants")].

Lemma two_scripts_shaped : @Shaped tables_only two_scripts.
Proof.
  intros n b ss _ [= <-]. right. exists [Do b]. split; [by repeat constructor|done].
Qed.

Local Abbreviation first_run := (@Migrate tables_only (Some two_scripts) (@idle tables_only (@mkDb tables_only [] None), [])).

Lemma migrations_once_witness :
  exists d', first_run.2.1 = @idle tables_only d' /\
    @versions tables_only d' = ["0001_init.sql"; "0002_jobs.sql"].
Proof.
  assert (NoDup (de_Name <$> two_scripts)) as Hnd by (apply (bool_decide_unpack _); vm_compute; exact I).
  assert (E : first_run = (true, first_run.2)) by (vm_compute; reflexivity).
  destruct (@migrations_once tables_only two_scripts (@mkDb tables_only [] None) [] true first_run.2
              two_scripts_shaped Hnd E) as [(d' & Hd & [(dn & rest & Ht & Hv & Hr & _) _] & _) _].
  exists d'. split; [exact Hd|]. rewrite Hv. rewrite (Hr eq_refl), app_nil_r in Ht. rewrite <- Ht.
  vm_compute. reflexivity.
Defined.

(** The connection is lost after the first script, which has committed itself:
    its name is not recorded, and from then on every start fails on it. *)
Lemma unrecorded_migration :
  let cut := @Migrate tables_only (Some two_scripts)
               (@idle tables_only (@mkDb tables_only [] None), [Fok; Fok; Fok; Fok; Ffail]) in
  cut.2.1 = @idle tables_only (@mkDb tables_only ["tenants"] (Some [])) /\
  @Migrate tables_only (Some two_scripts) (cut.2.1, []) = (false, (cut.2.1, [])).
Proof. vm_compute. split; reflexivity. Qed.
