(* ===== verification/Broker.v ===== *)
(** * [internal/eventbus]: the two message transports

    [redpanda.go]: the consumer loop over a Kafka client.  The client is a
    library the program calls: class [Kgo] stands for it.  One round of the loop
    polls, hands every record to the handler, marks the records whose handler
    returned nil, and commits; the loop leaves the trace of its handings and
    commits.

    [memory.go]: the in-process bus, as a transition system whose steps are the
    moments at which goroutines meet: a subscription, the start of a publish,
    one send of it into a channel of 1024 messages (it waits while the channel
    is full), its return, a receive, the return of a subscriber whose context is
    done (its channel stays registered and is no longer read), and the closing of
    all channels.  The ingestion processor is the only publisher, so at most one
    publish runs at a time. *)

From S2P Require Import Prelude Json Tables Effects.
Local Open Scope string_scope.

(** ** redpanda.go *)

(** [kgo.Record]; [kr_value] is [None] for bytes that are not JSON. *)
Record Rec := mkRec { kr_partition : Z; kr_offset : nat; kr_key : string; kr_value : option Json }.

(** What a poll returns; errors are only logged. *)
Record Fetches := mkFetches { fe_closed : bool; fe_records : list Rec }.

Class Kgo := {
  Client : Type;
  PollFetches : Client -> Fetches * Client;
  MarkCommitRecords : Rec -> Client -> Client;
  CommitUncommittedOffsets : Client -> bool * Client;
}.

(** The documented behaviour the loop relies on: a client fetches each partition
    in order from its position and a commit covers at most what was fetched.
    [marked] is the history of the client's calls of [MarkCommitRecords]: the
    other calls leave it as it is. *)
Class KgoLaws `{Kgo} := {
  position : Client -> Z -> nat;
  committed : Client -> Z -> nat;
  marked : Client -> list Rec;
  poll_fetches c f c' : PollFetches c = (f, c') ->
    marked c' = marked c /\
    (forall p, committed c' p = committed c p) /\
    (forall p o, position c p <= o < position c' p ->
       exists r, r ∈ fe_records f /\ kr_partition r = p /\ kr_offset r = o) /\
    (forall p, position c p <= position c' p) /\
    (fe_closed f = true -> forall p, position c' p = position c p);
  mark_marks r c : marked (MarkCommitRecords r c) = (marked c ++ [r])%list;
  mark_keeps r c p : position (MarkCommitRecords r c) p = position c p /\
                     committed (MarkCommitRecords r c) p = committed c p;
  commit_covers c ok c' : CommitUncommittedOffsets c = (ok, c') ->
    marked c' = marked c /\
    forall p, position c' p = position c p /\ committed c' p <= Nat.max (committed c p) (position c p);
}.

Section redpanda.
Context `{Kgo} `{Outside} (handler : string -> option Json -> M unit).

(** A record handed to the handler, with the state before and what came of it. *)
Record Handled := mkHandled { ha_rec : Rec; ha_before : St; ha_result : Res unit }.

(** What the loop does, in order: a record handed over, and a commit with the
    client it leaves. *)
Inductive Step := Handing (h : Handled) | Committing (c : Client).

(** The loop over the records of a poll. *)
Fixpoint consume (recs : list Rec) (c : Client) (s : St) : list Step * Client * St :=
  match recs with
  | [] => ([], c, s)
  | r :: recs =>
      let (out, s') := handler (kr_key r) (kr_value r) s in
      let c' := match out with Ok _ => MarkCommitRecords r c | Err _ => c end in
      let '(tr, c'', s'') := consume recs c' s' in
      (Handing (mkHandled r s out) :: tr, c'', s'')
  end.

(** The loop of [Subscribe], for at most [rounds] rounds; [true] when it ended:
    the client was closed, or the topic was empty and the context done ([done]
    says so of each round). *)
Fixpoint Subscribe (done : nat -> bool) (rounds : nat) (c : Client) (s : St)
    : bool * list Step * Client * St :=
  match rounds with
  | O => (false, [], c, s)
  | S rounds =>
      let (f, c1) := PollFetches c in
      if fe_closed f then (true, [], c1, s)
      else
        let '(tr, c2, s2) := consume (fe_records f) c1 s in
        let (_, c3) := CommitUncommittedOffsets c2 in
        let tr := (tr ++ [Committing c3])%list in
        if bool_decide (fe_records f = []) && done rounds then (true, tr, c3, s2)
        else
          let '(e, tr', c4, s4) := Subscribe done rounds c3 s2 in
          (e, (tr ++ tr')%list, c4, s4)
  end.

(** The record of a handing whose handler returned nil. *)
Definition success (x : Step) : option Rec :=
  match x with
  | Handing h => match ha_result h with Ok _ => Some (ha_rec h) | Err _ => None end
  | Committing _ => None
  end.

(** A handing is a call of the handler. *)
Definition called (x : Step) : Prop :=
  match x with
  | Handing h => exists s1, handler (kr_key (ha_rec h)) (kr_value (ha_rec h)) (ha_before h) = (ha_result h, s1)
  | Committing _ => True
  end.

Definition is_commit (x : Step) : Prop := match x with Committing _ => True | Handing _ => False end.

Definition handed (tr : list Step) (p : Z) (o : nat) : Prop :=
  exists h, Handing h ∈ tr /\ kr_partition (ha_rec h) = p /\ kr_offset (ha_rec h) = o.

Lemma handed_app tr1 tr2 p o : handed tr1 p o \/ handed tr2 p o -> handed (tr1 ++ tr2) p o.
Proof.
  intros [(h & Hh & Hp)|(h & Hh & Hp)].
  - exists h. split; [apply elem_of_app; by left|exact Hp].
  - exists h. split; [apply elem_of_app; by right|exact Hp].
Qed.

Lemma consume_handed recs c s tr c' s' r :
  consume recs c s = (tr, c', s') -> r ∈ recs -> handed tr (kr_partition r) (kr_offset r).
Proof.
  revert c s tr c' s'. induction recs as [|r1 recs IH]; intros c s tr c' s'; simpl.
  { intros _ Hr. by apply not_elem_of_nil in Hr. }
  destruct (handler (kr_key r1) (kr_value r1) s) as [out s1].
  destruct (consume recs _ s1) as [[tr2 c2] s2] eqn:Ec. intros [= <- _ _] [->|Hr]%elem_of_cons.
  - exists (mkHandled r1 s out). split; [by left|done].
  - apply (handed_app [_]). right. by eapply IH.
Qed.

Lemma consume_called recs c s tr c' s' :
  consume recs c s = (tr, c', s') -> Forall called tr /\ Forall (fun x => ~ is_commit x) tr.
Proof.
  revert c s tr c' s'. induction recs as [|r recs IH]; intros c s tr c' s'; simpl; [by intros [= <- _ _]|].
  destruct (handler (kr_key r) (kr_value r) s) as [out s1] eqn:Eh.
  destruct (consume recs _ s1) as [[tr2 c2] s2] eqn:Ec. intros [= <- _ _].
  destruct (IH _ _ _ _ _ Ec) as [HF HC]. split; constructor; [by exists s1|done|by intros []|done].
Qed.

Lemma Subscribe_called done rounds c s e tr c' s' :
  Subscribe done rounds c s = (e, tr, c', s') -> Forall called tr.
Proof.
  revert c s e tr c' s'. induction rounds as [|n IH]; intros c s e tr c' s' E; simpl in E.
  { by simplify_eq. }
  destruct (PollFetches c) as [f c1]. destruct (fe_closed f); [by simplify_eq|].
  destruct (consume (fe_records f) c1 s) as [[tr1 c2] s2] eqn:Ec. apply consume_called in Ec as [Ec _].
  destruct (CommitUncommittedOffsets c2) as [ok c3].
  assert (Forall called (tr1 ++ [Committing c3])) as Hr by (apply Forall_app; split; [done|by repeat constructor]).
  destruct (_ && _); [by simplify_eq|].
  destruct (Subscribe done n c3 s2) as [[[e4 tr4] c4] s4] eqn:Es. simplify_eq.
  apply Forall_app. split; [done|by eapply IH].
Qed.

Context `{!KgoLaws}.

Lemma consume_keeps recs c s tr c' s' :
  consume recs c s = (tr, c', s') ->
  marked c' = (marked c ++ omap success tr)%list /\
  forall p, position c' p = position c p /\ committed c' p = committed c p.
Proof.
  revert c s tr c' s'. induction recs as [|r recs IH]; intros c s tr c' s'; simpl.
  { intros [= <- <- _]. simpl. by rewrite app_nil_r. }
  destruct (handler (kr_key r) (kr_value r) s) as [out s1].
  destruct (consume recs _ s1) as [[tr2 c2] s2] eqn:Ec. intros [= <- <- _].
  destruct (IH _ _ _ _ _ Ec) as [-> Hk]. destruct out; simpl.
  - rewrite mark_marks, <- app_assoc. split; [done|]. intros p. destruct (Hk p) as [-> ->]. apply mark_keeps.
  - split; [done|]. intros p. destruct (Hk p) as [-> ->]. done.
Qed.

(** From [c], the steps [tr] lead to [c']: the marked records are those handled
    with success, and no offset past the start is committed before it is handed
    over. *)
Definition Covers (c : Client) (tr : list Step) (c' : Client) : Prop :=
  marked c' = (marked c ++ omap success tr)%list /\
  forall p o, position c p <= o < committed c' p -> handed tr p o.

Record Consumed (c : Client) (tr : list Step) (c' : Client) : Prop := mkConsumed {
  cd_bounded p : committed c' p <= position c' p;
  cd_forward p : position c p <= position c' p;
  cd_marked : marked c' = (marked c ++ omap success tr)%list;
  cd_handed p o : position c p <= o < position c' p -> handed tr p o;
  cd_commits pre cc post : tr = (pre ++ Committing cc :: post)%list -> Covers c pre cc;
}.

Lemma Consumed_covers c tr c' : Consumed c tr c' -> Covers c tr c'.
Proof.
  intros [Hb _ Hm Hh _]. split; [done|]. intros p o Ho. apply Hh. specialize (Hb p). lia.
Qed.

Lemma Consumed_app c tr1 c1 tr2 c2 :
  Consumed c tr1 c1 -> Consumed c1 tr2 c2 -> Consumed c (tr1 ++ tr2) c2.
Proof.
  intros [B1 F1 M1 N1 C1] [B2 F2 M2 N2 C2].
  constructor; [done|intros p; specialize (F1 p); specialize (F2 p); lia|..].
  - by rewrite M2, M1, omap_app, app_assoc.
  - intros p o Ho. apply handed_app. destruct (decide (o < position c1 p)); [left|right]; auto with lia.
  - intros pre cc post [(k & -> & E)|(k & E1 & E2)]%app_eq_inv.
    + destruct k as [|x k]; simpl in E.
      * rewrite app_nil_r in *. subst. destruct (C2 [] cc post eq_refl) as [Mc Hc]. split.
        { rewrite Mc, M1. simpl. by rewrite app_nil_r. }
        intros p o Ho. destruct (decide (o < position c1 p)); [auto with lia|].
        destruct (Hc p o) as (h & Hin & _); [lia|]. by apply not_elem_of_nil in Hin.
      * simplify_eq. by apply (C1 pre cc k).
    + subst. destruct (C2 k cc post eq_refl) as [Mc Hc]. split.
      { by rewrite Mc, M1, omap_app, app_assoc. }
      intros p o Ho. apply handed_app. destruct (decide (o < position c1 p)); [left|right]; auto with lia.
Qed.

(** One round. *)
Lemma round_consumed c f c1 s tr c2 s2 ok c3 :
  (forall p, committed c p <= position c p) ->
  PollFetches c = (f, c1) -> consume (fe_records f) c1 s = (tr, c2, s2) ->
  CommitUncommittedOffsets c2 = (ok, c3) -> Consumed c (tr ++ [Committing c3]) c3.
Proof.
  intros Hc Ep Ec Ek. apply poll_fetches in Ep as (P0 & P1 & P2 & P3 & _).
  pose proof (consume_keeps _ _ _ _ _ _ Ec) as [Km Kp].
  apply commit_covers in Ek as [Cm Cp].
  assert (forall p, position c3 p = position c1 p /\ committed c3 p <= position c1 p) as H3.
  { intros p. specialize (Kp p). specialize (Cp p). specialize (Hc p). specialize (P1 p).
    specialize (P3 p). lia. }
  assert (Covers c tr c3) as HC.
  { split; [by rewrite Cm, Km, P0|]. intros p o Ho. specialize (H3 p).
    destruct (P2 p o) as (r & Hr & <- & <-); [lia|]. by eapply consume_handed. }
  constructor.
  - intros p. specialize (H3 p). lia.
  - intros p. specialize (H3 p). specialize (P3 p). lia.
  - destruct HC as [-> _]. by rewrite omap_app, app_nil_r.
  - intros p o Ho. specialize (H3 p). apply handed_app. left.
    destruct (P2 p o) as (r & Hr & <- & <-); [lia|]. by eapply consume_handed.
  - intros pre cc post E. destruct post as [|x post _] using rev_ind.
    + apply app_inj_tail in E as [<- [= <-]]. exact HC.
    + rewrite app_comm_cons, app_assoc in E. apply app_inj_tail in E as [E _].
      apply consume_called in Ec as [_ Hn]. rewrite E, Forall_app, Forall_cons in Hn.
      destruct Hn as (_ & Hn & _). by destruct Hn.
Qed.

Lemma Subscribe_consumed done rounds c s e tr c' s' :
  (forall p, committed c p <= position c p) -> Subscribe done rounds c s = (e, tr, c', s') ->
  Consumed c tr c'.
Proof.
  revert c s e tr c' s'. induction rounds as [|n IH]; intros c s e tr c' s' Hc E; simpl in E.
  { simplify_eq. constructor; [done|done|by rewrite app_nil_r|intros; lia|by intros [] ? ?]. }
  destruct (PollFetches c) as [f c1] eqn:Ep. destruct (fe_closed f) eqn:Ef.
  { simplify_eq. apply poll_fetches in Ep as (P0 & P1 & P2 & P3 & P4). specialize (P4 Ef).
    constructor; [intros p; specialize (P1 p); specialize (P4 p); specialize (Hc p); lia|done|..].
    - by rewrite P0, app_nil_r.
    - intros p o Ho. specialize (P4 p). lia.
    - by intros [] ? ?. }
  destruct (consume (fe_records f) c1 s) as [[tr1 c2] s2] eqn:Ec.
  destruct (CommitUncommittedOffsets c2) as [ok c3] eqn:Ek.
  pose proof (round_consumed _ _ _ _ _ _ _ _ _ Hc Ep Ec Ek) as HR.
  destruct (_ && _); [by simplify_eq|].
  destruct (Subscribe done n c3 s2) as [[[e4 tr4] c4] s4] eqn:Es. simplify_eq.
  eapply Consumed_app; [exact HR|]. eapply IH; [|exact Es]. apply (cd_bounded _ _ _ HR).
Qed.
End redpanda.

(** ** memory.go *)

Module Memory.

Record Msg := mkMsg { mm_key : string; mm_value : option Json }.

(** A channel, with the topic it was registered for; [ch_live] until the
    subscriber that made it has returned, since its context was done. *)
Record Chan := mkChan { ch_topic : string; ch_buffer : list Msg; ch_open : bool; ch_live : bool }.

(** The channels in the order of their registration, and the publish that is
    running: the channels it has yet to send to, and its message.  One publish runs
    at a time; two at once would not be ordered alike for every subscriber, since
    the lock is not held while sending. *)
Record Bus := mkBus { bus_chans : list Chan; bus_sending : option (list nat * Msg) }.

Definition NewMemoryBus : Bus := mkBus [] None.

(** [make(chan memoryMsg, 1024)]. *)
Definition capacity : nat := 1024.

Inductive Label := Subscribed (topic : string) | Publish (topic : string) (m : Msg) | Sent | Published
| Received (i : nat) | Cancelled (i : nat) | Close.

(** [b.topics[topic]], copied under the lock; [Close] empties the map. *)
Definition channels (topic : string) (b : Bus) : list nat :=
  List.filter (fun i => match bus_chans b !! i with Some ch => ch_open ch && (ch_topic ch =s topic) | None => false end)
    (seq 0 (length (bus_chans b))).

(** [Close]: every registered channel is closed, and the map emptied; what a
    channel has buffered can still be received. *)
Definition closed (l : list Chan) : list Chan :=
  (fun ch => mkChan (ch_topic ch) (ch_buffer ch) false (ch_live ch)) <$> l.

(** What a receive from a closed, empty channel gives. *)
Definition zero_msg : Msg := mkMsg "" None.

(** One step and the message it hands to a handler, if it does; [None] when it is
    not possible (a send into a full channel waits, one into a closed channel
    panics, and no one reads the channel of a subscriber that has returned). *)
Definition step (l : Label) (b : Bus) : option (Bus * option Msg) :=
  match l, bus_sending b with
  | Subscribed t, f => Some (mkBus (bus_chans b ++ [mkChan t [] true true])%list f, None)
  | Publish t m, None => Some (mkBus (bus_chans b) (Some (channels t b, m)), None)
  | Sent, Some (i :: is_, m) =>
      ch ← bus_chans b !! i;
      if ch_open ch && bool_decide (length (ch_buffer ch) < capacity)
      then Some (mkBus (<[i := mkChan (ch_topic ch) (ch_buffer ch ++ [m])%list true (ch_live ch)]> (bus_chans b))
                   (Some (is_, m)), None)
      else None
  | Published, Some ([], _) => Some (mkBus (bus_chans b) None, None)
  | Received i, f =>
      ch ← bus_chans b !! i;
      if negb (ch_live ch) then None
      else match ch_buffer ch with
      | m :: q => Some (mkBus (<[i := mkChan (ch_topic ch) q (ch_open ch) true]> (bus_chans b)) f, Some m)
      | [] => if ch_open ch then None else Some (b, Some zero_msg)
      end
  | Cancelled i, f =>
      ch ← bus_chans b !! i;
      if negb (ch_live ch) then None
      else Some (mkBus (<[i := mkChan (ch_topic ch) (ch_buffer ch) (ch_open ch) false]> (bus_chans b)) f, None)
  | Close, f => Some (mkBus (closed (bus_chans b)) f, None)
  | _, _ => None
  end.

(** ** What a subscriber is promised *)

(** A subscription: the messages published on its topic since, how many of
    them its handler was given, and whether it still goes on. *)
Record Sub := mkSub { su_topic : string; su_due : list Msg; su_got : nat; su_live : bool }.

Definition add_due (t : string) (m : Msg) (x : Sub) : Sub :=
  if su_topic x =s t then mkSub (su_topic x) (su_due x ++ [m])%list (su_got x) (su_live x) else x.

Definition feed_step (l : Label) (f : list Sub) : option (list Sub * option Msg) :=
  match l with
  | Subscribed t => Some (f ++ [mkSub t [] 0 true], None)%list
  | Publish t m => Some (add_due t m <$> f, None)
  | Sent | Published => Some (f, None)
  | Received i =>
      x ← f !! i;
      if negb (su_live x) then None
      else m ← su_due x !! su_got x;
           Some (<[i := mkSub (su_topic x) (su_due x) (S (su_got x)) true]> f, Some m)
  | Cancelled i =>
      x ← f !! i;
      if negb (su_live x) then None
      else Some (<[i := mkSub (su_topic x) (su_due x) (su_got x) false]> f, None)
  | Close => None
  end.

(** A run of a system with steps [step], and what it handed out. *)
Fixpoint run {S} (step : Label -> S -> option (S * option Msg)) (ls : list Label) (s : S)
    : option (S * list (option Msg)) :=
  match ls with
  | [] => Some (s, [])
  | l :: ls => so ← step l s; r ← run step ls so.1; Some (r.1, so.2 :: r.2)
  end.

(** ** The simulation *)

(** What the running publish still owes to channel [i]. *)
Definition owed (b : Bus) (i : nat) : list Msg :=
  match bus_sending b with
  | Some (is_, m) => if bool_decide (i ∈ is_) then [m] else []
  | None => []
  end.

Record Sim (b : Bus) (f : list Sub) : Prop := mkSim {
  sim_length : length (bus_chans b) = length f;
  sim_chan i ch x : bus_chans b !! i = Some ch -> f !! i = Some x ->
    (ch_topic ch = su_topic x /\ ch_live ch = su_live x) /\ su_got x <= length (su_due x) /\
    drop (su_got x) (su_due x) = (ch_buffer ch ++ owed b i)%list;
  sim_open : Forall (fun ch => ch_open ch = true) (bus_chans b);
  sim_sending is_ m : bus_sending b = Some (is_, m) ->
    NoDup is_ /\ Forall (fun i => i < length (bus_chans b)) is_;
}.

Lemma Sim_new : Sim NewMemoryBus [].
Proof. by constructor. Qed.

Lemma elem_of_channels t b i :
  i ∈ channels t b <-> exists ch, bus_chans b !! i = Some ch /\ ch_open ch = true /\ ch_topic ch = t.
Proof.
  unfold channels. rewrite list_elem_of_In, filter_In, in_seq. split.
  - intros [_ Hi]. destruct (bus_chans b !! i) as [ch|] eqn:E; [|done]. exists ch.
    apply andb_prop in Hi as [Ho Ht]. split; [done|]. by apply seqb_true in Ht.
  - intros (ch & E & Ho & Ht). rewrite E, Ho, Ht, seqb_refl. apply lookup_lt_Some in E. split; [lia|done].
Qed.

Lemma channels_ok t b :
  NoDup (channels t b) /\ Forall (fun i => i < length (bus_chans b)) (channels t b).
Proof.
  split.
  - unfold channels. apply NoDup_ListNoDup, List.NoDup_filter, seq_NoDup.
  - apply Forall_forall. intros i (ch & E & _)%elem_of_channels. by eapply lookup_lt_Some.
Qed.

(** The published message becomes due exactly where the publish will send it. *)
Lemma Sim_publish t m b f :
  bus_sending b = None -> Sim b f -> Sim (mkBus (bus_chans b) (Some (channels t b, m))) (add_due t m <$> f).
Proof.
  intros Hn [Hl Hc Hop Hs]. constructor; simpl.
  - by rewrite length_fmap.
  - intros i ch x' Hi Hx. rewrite list_lookup_fmap in Hx. destruct (f !! i) as [x|] eqn:Ef; [|done].
    simpl in Hx. simplify_eq. destruct (Hc i ch x Hi Ef) as (Ht & Hg & Hd).
    unfold owed in *. rewrite Hn in Hd. simpl. unfold add_due.
    destruct (su_topic x =s t) eqn:E; simpl.
    + apply seqb_true in E. split; [done|]. rewrite length_app. split; [simpl; lia|].
      rewrite drop_app_le by lia. rewrite Hd, app_nil_r, bool_decide_true; [done|].
      apply elem_of_channels. exists ch. split; [done|]. split; [|by rewrite (proj1 Ht)].
      rewrite Forall_forall in Hop. apply Hop. by eapply list_elem_of_lookup_2.
    + apply seqb_false in E. split; [done|]. split; [done|]. rewrite Hd, bool_decide_false; [done|].
      intros (ch' & E1 & _ & E2)%elem_of_channels. destruct Ht. congruence.
  - exact Hop.
  - intros is_ m' [= <- <-]. apply channels_ok.
Qed.

Lemma Sim_sent i is_ m ch b f :
  bus_sending b = Some (i :: is_, m) -> bus_chans b !! i = Some ch -> Sim b f ->
  Sim (mkBus (<[i := mkChan (ch_topic ch) (ch_buffer ch ++ [m])%list true (ch_live ch)]> (bus_chans b))
         (Some (is_, m))) f.
Proof.
  intros Hb Hi [Hl Hc Hop Hs]. destruct (Hs _ _ Hb) as [[Hni Hnd]%NoDup_cons HF]. constructor; simpl.
  - by rewrite length_insert.
  - intros j ch' x Hj Hx. unfold owed in *. simpl. rewrite Hb in Hc. destruct (decide (i = j)) as [<-|Hne].
    + rewrite list_lookup_insert_eq in Hj by (by eapply lookup_lt_Some). simplify_eq. simpl.
      destruct (Hc i ch x Hi Hx) as (Ht & Hg & Hd). split; [done|]. split; [done|].
      rewrite bool_decide_true in Hd by (by left). rewrite bool_decide_false by done. by rewrite Hd, app_nil_r.
    + rewrite list_lookup_insert_ne in Hj by done. destruct (Hc j ch' x Hj Hx) as (Ht & Hg & Hd).
      split; [done|]. split; [done|]. rewrite Hd. f_equal.
      rewrite (bool_decide_ext (j ∈ i :: is_) (j ∈ is_)); [done|]. rewrite elem_of_cons. split; [|by right].
      intros [->|]; [by destruct Hne|done].
  - by apply Forall_insert.
  - intros is' m' [= <- <-]. rewrite length_insert. split; [done|]. by inversion HF.
Qed.

Lemma Sim_received i m q ch b f :
  bus_chans b !! i = Some ch -> ch_live ch = true -> ch_buffer ch = m :: q -> Sim b f ->
  exists x, f !! i = Some x /\ su_live x = true /\ su_due x !! su_got x = Some m /\
    Sim (mkBus (<[i := mkChan (ch_topic ch) q true true]> (bus_chans b)) (bus_sending b))
        (<[i := mkSub (su_topic x) (su_due x) (S (su_got x)) true]> f).
Proof.
  intros Hi Hlv Hq [Hl Hc Hop Hs]. assert (is_Some (f !! i)) as [x Hx].
  { apply lookup_lt_is_Some. rewrite <- Hl. by eapply lookup_lt_Some. }
  destruct (Hc i ch x Hi Hx) as (Ht & Hg & Hd). rewrite Hq in Hd. simpl in Hd.
  assert (su_due x !! su_got x = Some m) as Hm.
  { rewrite <- (Nat.add_0_r (su_got x)), <- lookup_drop, Hd. done. }
  exists x. split; [done|]. split; [by rewrite <- (proj2 Ht)|]. split; [done|]. constructor; simpl.
  - by rewrite !length_insert.
  - intros j ch' x' Hj Hx'. destruct (decide (i = j)) as [<-|Hne].
    + rewrite list_lookup_insert_eq in Hj by (by eapply lookup_lt_Some).
      rewrite list_lookup_insert_eq in Hx' by (by eapply lookup_lt_Some). simplify_eq. simpl.
      split; [by destruct Ht|]. split; [by apply lookup_lt_Some in Hm|].
      rewrite <- (Nat.add_1_r (su_got x)), <- drop_drop, Hd. done.
    + rewrite list_lookup_insert_ne in Hj by done. rewrite list_lookup_insert_ne in Hx' by done.
      by apply Hc.
  - by apply Forall_insert.
  - intros is' m' E. rewrite length_insert. by eapply Hs.
Qed.

Lemma Sim_cancelled i ch b f :
  bus_chans b !! i = Some ch -> ch_live ch = true -> Sim b f ->
  exists x, f !! i = Some x /\ su_live x = true /\
    Sim (mkBus (<[i := mkChan (ch_topic ch) (ch_buffer ch) (ch_open ch) false]> (bus_chans b)) (bus_sending b))
        (<[i := mkSub (su_topic x) (su_due x) (su_got x) false]> f).
Proof.
  intros Hi Hlv [Hl Hc Hop Hs]. assert (is_Some (f !! i)) as [x Hx].
  { apply lookup_lt_is_Some. rewrite <- Hl. by eapply lookup_lt_Some. }
  destruct (Hc i ch x Hi Hx) as ([Ht Hv] & Hg & Hd).
  exists x. split; [done|]. split; [by rewrite <- Hv|]. constructor; simpl.
  - by rewrite !length_insert.
  - intros j ch' x' Hj Hx'. destruct (decide (i = j)) as [<-|Hne].
    + rewrite list_lookup_insert_eq in Hj by (by eapply lookup_lt_Some).
      rewrite list_lookup_insert_eq in Hx' by (by eapply lookup_lt_Some). by simplify_eq.
    + rewrite list_lookup_insert_ne in Hj by done. rewrite list_lookup_insert_ne in Hx' by done.
      by apply Hc.
  - apply Forall_insert; [done|]. simpl. rewrite Forall_forall in Hop. apply Hop.
    by eapply list_elem_of_lookup_2.
  - intros is' m' E. rewrite length_insert. by eapply Hs.
Qed.

(** Every step of the bus is a step of the promise, with the same message handed out. *)
Lemma Sim_step l b b' o f :
  Sim b f -> l <> Close -> step l b = Some (b', o) -> exists f', feed_step l f = Some (f', o) /\ Sim b' f'.
Proof.
  intros HS Hnc E. destruct l as [t|t m| | |i|i|]; simpl in E; [..|done].
  - simplify_eq. eexists. split; [done|]. destruct HS as [Hl Hc Hop Hs]. constructor; simpl.
    + by rewrite !length_app, Hl.
    + intros i ch x Hi Hx. unfold owed. simpl. destruct (decide (i < length f)) as [Hlt|Hge].
      * rewrite lookup_app_l in Hi by lia. rewrite lookup_app_l in Hx by lia. by apply Hc.
      * apply lookup_app_Some in Hx as [Hx|[_ Hx]]; [apply lookup_lt_Some in Hx; lia|].
        apply list_lookup_singleton_Some in Hx as [Ei <-].
        assert (i = length (bus_chans b)) as -> by lia.
        rewrite list_lookup_middle in Hi by done. simplify_eq. simpl. split; [done|]. split; [done|].
        destruct (bus_sending b) as [[is_ m]|]; [|done]. rewrite bool_decide_false; [done|].
        intros Hin. destruct (Hs _ _ eq_refl) as [_ HF]. rewrite Forall_forall in HF. specialize (HF _ Hin). lia.
    + apply Forall_app. split; [done|by repeat constructor].
    + intros is_ m Hb. destruct (Hs _ _ Hb) as [Hnd HF]. split; [done|]. rewrite length_app. simpl.
      eapply Forall_impl; [exact HF|]. simpl. intros. lia.
  - destruct (bus_sending b) eqn:Hb; [done|]. simplify_eq. eexists. split; [done|]. by apply Sim_publish.
  - destruct (bus_sending b) as [[[|i is_] m]|] eqn:Hb; try done.
    destruct (bus_chans b !! i) as [ch|] eqn:Hi; [|done]. simpl in E.
    destruct (ch_open ch); [|done]. simpl in E. case_bool_decide; [|done]. simplify_eq. eexists. split; [done|]. by eapply Sim_sent.
  - destruct (bus_sending b) as [[[|i is_] m]|] eqn:Hb; try done. simplify_eq. eexists. split; [done|].
    destruct HS as [Hl Hc Hop Hs]. constructor; [done| |done|done]. intros i ch x Hi Hx.
    destruct (Hc i ch x Hi Hx) as (Ht & Hg & Hd). unfold owed in *. rewrite Hb in Hd.
    rewrite bool_decide_false in Hd by apply not_elem_of_nil. done.
  - destruct (bus_chans b !! i) as [ch|] eqn:Hi; [|done]. simpl in E.
    assert (ch_open ch = true) as Ho.
    { pose proof (sim_open _ _ HS) as Hop. rewrite Forall_forall in Hop. apply Hop.
      by eapply list_elem_of_lookup_2. }
    rewrite Ho in E. destruct (ch_live ch) eqn:Hlv; simpl in E; [|done].
    destruct (ch_buffer ch) as [|m q] eqn:Hq; [done|]. simplify_eq.
    destruct (Sim_received i m q ch b f Hi Hlv Hq HS) as (x & Hx & Hxl & Hm & HS').
    eexists. split; [|exact HS']. simpl. rewrite Hx. simpl. rewrite Hxl. simpl. by rewrite Hm.
  - destruct (bus_chans b !! i) as [ch|] eqn:Hi; [|done]. simpl in E.
    destruct (ch_live ch) eqn:Hlv; simpl in E; [|done]. simplify_eq.
    destruct (Sim_cancelled i ch b f Hi Hlv HS) as (x & Hx & Hxl & HS').
    eexists. split; [|exact HS']. simpl. rewrite Hx. simpl. by rewrite Hxl.
Qed.

Lemma Sim_run ls b b' outs f :
  Sim b f -> Close ∉ ls -> run step ls b = Some (b', outs) ->
  exists f', run feed_step ls f = Some (f', outs) /\ Sim b' f'.
Proof.
  revert b f outs. induction ls as [|l ls IH]; intros b f outs HS Hnc E; simpl in E.
  { simplify_eq. by exists f. }
  apply not_elem_of_cons in Hnc as [Hne Hnc].
  destruct (step l b) as [[b1 o]|] eqn:E1; [|done]. simpl in E.
  destruct (run step ls b1) as [[b2 os]|] eqn:E2; [|done]. simpl in E. simplify_eq.
  destruct (Sim_step _ _ _ _ _ HS ltac:(done) E1) as (f1 & F1 & HS1). destruct (IH _ _ _ HS1 Hnc E2) as (f2 & F2 & HS2).
  exists f2. split; [|done]. simpl. rewrite F1. simpl. by rewrite F2.
Qed.

(** ** Nothing stays behind *)

(** The steps that need no one outside. *)
Definition internal (l : Label) : bool :=
  match l with Sent | Published | Received _ => true | _ => false end.

Definition total (l : list Chan) : nat := sum_list_with (fun ch => length (ch_buffer ch)) l.

(** Buffered messages, and twice those that are not even buffered. *)
Definition backlog (b : Bus) : nat :=
  total (bus_chans b) + match bus_sending b with Some (is_, _) => 2 * length is_ | None => 0 end.

Lemma total_insert l i ch ch' :
  l !! i = Some ch ->
  total (<[i := ch']> l) + length (ch_buffer ch) = total l + length (ch_buffer ch').
Proof.
  unfold total. revert i. induction l as [|c l IH]; intros [|i] Hi; simpl in *; try done.
  - simplify_eq. lia.
  - specialize (IH i Hi). lia.
Qed.

(** Every subscriber that goes on was given everything. *)
Definition settled (f : list Sub) : Prop :=
  Forall (fun x => su_live x = true -> su_got x = length (su_due x)) f.

(** The channels of returned subscribers to which the running publish has yet to
    send have room: no one else will make it. *)
Definition roomy (b : Bus) : Prop :=
  forall is_ m i ch, bus_sending b = Some (is_, m) -> i ∈ is_ -> bus_chans b !! i = Some ch ->
    ch_live ch = false -> length (ch_buffer ch) < capacity.

Lemma roomy_insert b i ch ch' f :
  bus_chans b !! i = Some ch -> (ch_live ch' = false -> ch_live ch = false) ->
  length (ch_buffer ch') <= length (ch_buffer ch) -> f = bus_sending b ->
  roomy b -> roomy (mkBus (<[i := ch']> (bus_chans b)) f).
Proof.
  intros Hi Hl Hb -> Hr is_ m j cj Hs Hj Hcj Hd. simpl in *.
  destruct (decide (i = j)) as [<-|Hne].
  - rewrite list_lookup_insert_eq in Hcj by (by eapply lookup_lt_Some). simplify_eq.
    specialize (Hr _ _ _ _ Hs Hj Hi (Hl Hd)). lia.
  - rewrite list_lookup_insert_ne in Hcj by done. by eapply Hr.
Qed.

(** A live subscriber's message is received. *)
Lemma backlog_receive b i ch m q :
  roomy b -> bus_chans b !! i = Some ch -> ch_live ch = true -> ch_buffer ch = m :: q ->
  exists b', step (Received i) b = Some (b', Some m) /\ backlog b' < backlog b /\ roomy b'.
Proof.
  intros Hr Hi Hlv Eq. simpl. rewrite Hi. simpl. rewrite Hlv, Eq. simpl.
  eexists. split; [done|]. split.
  - unfold backlog. simpl.
    pose proof (total_insert _ _ _ (mkChan (ch_topic ch) q (ch_open ch) true) Hi) as Ht.
    rewrite Eq in Ht. simpl in Ht. lia.
  - eapply roomy_insert; [exact Hi|done| |done|done]. rewrite Eq. simpl. lia.
Qed.

(** The running publish sends its next message. *)
Lemma backlog_send b f j is_ m cj :
  Sim b f -> roomy b -> bus_sending b = Some (j :: is_, m) -> bus_chans b !! j = Some cj ->
  length (ch_buffer cj) < capacity ->
  exists b', step Sent b = Some (b', None) /\ backlog b' < backlog b /\ roomy b'.
Proof.
  intros [_ _ Hop Hs] Hr Eb Hj Hlt. simpl. rewrite Eb. simpl. rewrite Hj. simpl.
  rewrite Forall_forall in Hop. rewrite (Hop cj) by (by eapply list_elem_of_lookup_2).
  rewrite bool_decide_true by done. simpl. eexists. split; [done|]. split.
  - unfold backlog. simpl. rewrite Eb.
    pose proof (total_insert _ _ _
      (mkChan (ch_topic cj) (ch_buffer cj ++ [m])%list true (ch_live cj)) Hj) as Ht.
    simpl in Ht. rewrite length_app in Ht. simpl in *. lia.
  - intros is' m' i ch [= <- <-] Hi Hch Hd. simpl in *.
    destruct (Hs _ _ Eb) as [[Hni _]%NoDup_cons _].
    rewrite list_lookup_insert_ne in Hch by (by intros ->).
    eapply Hr; [exact Eb|by right|done|done].
Qed.

(** As long as a live subscriber is owed a message, some step brings it nearer. *)
Lemma backlog_step b f :
  Sim b f -> roomy b -> ~ settled f ->
  exists l b' o, internal l = true /\ step l b = Some (b', o) /\ backlog b' < backlog b /\ roomy b'.
Proof.
  intros HS Hr Hns. pose proof HS as [Hl Hc Hop Hs].
  destruct (decide (Exists (fun ch => ch_live ch = true /\ ch_buffer ch <> []) (bus_chans b))) as [Hex|Hall].
  - apply Exists_exists in Hex as (ch & [i Hi]%list_elem_of_lookup & Hlv & Hb).
    destruct (ch_buffer ch) as [|m q] eqn:Eq; [done|].
    destruct (backlog_receive _ _ _ _ _ Hr Hi Hlv Eq) as (b' & E & Hlt & Hr').
    exists (Received i), b'. eexists. by split_and!.
  - apply not_Forall_Exists in Hns; [|intros x; apply _].
    apply Exists_exists in Hns as (x & [i Hi]%list_elem_of_lookup & Hx). simpl in Hx.
    assert (su_live x = true /\ su_got x <> length (su_due x)) as [Hxl Hxg] by (destruct (su_live x); naive_solver).
    assert (is_Some (bus_chans b !! i)) as [ch Hch].
    { apply lookup_lt_is_Some. rewrite Hl. by eapply lookup_lt_Some. }
    destruct (Hc i ch x Hch Hi) as ([Ht Hv] & Hg & Hd).
    assert (forall j c, bus_chans b !! j = Some c -> ch_live c = true -> ch_buffer c = []) as Hempty.
    { intros j c Hj Hcl. destruct (ch_buffer c) eqn:E; [done|]. exfalso. apply Hall, Exists_exists.
      exists c. split; [by eapply list_elem_of_lookup_2|]. by rewrite E. }
    rewrite (Hempty i ch Hch) in Hd by congruence. simpl in Hd.
    assert (owed b i <> []) as Ho.
    { intros E. rewrite E in Hd. apply (f_equal length) in Hd. rewrite length_drop in Hd. simpl in Hd. lia. }
    unfold owed in Ho. destruct (bus_sending b) as [[[|j is_] m]|] eqn:Eb; [| |done].
    { rewrite bool_decide_false in Ho by apply not_elem_of_nil. done. }
    destruct (Hs _ _ eq_refl) as [_ HF]. apply Forall_cons in HF as [Hj _].
    destruct (lookup_lt_is_Some_2 _ _ Hj) as [cj Hcj].
    destruct (backlog_send b f j is_ m cj HS Hr Eb Hcj) as (b' & E & Hlt & Hr').
    { destruct (ch_live cj) eqn:Hcl.
      - rewrite (Hempty j cj Hcj Hcl). unfold capacity. simpl. lia.
      - eapply Hr; [exact Eb|by left|done|done]. }
    exists Sent, b'. eexists. by split_and!.
Qed.

Lemma internal_due l f f' o :
  internal l = true -> feed_step l f = Some (f', o) ->
  su_due <$> f' = su_due <$> f /\ su_live <$> f' = su_live <$> f.
Proof.
  destruct l as [| | | |i| |]; simpl; intros Hi E; simplify_eq; try done.
  destruct (f !! i) as [x|] eqn:Ex; [|done]. simpl in E. destruct (su_live x) eqn:Hl; [|done]. simpl in E.
  destruct (su_due x !! su_got x); [|done].
  simpl in E. simplify_eq. rewrite !list_fmap_insert. simpl.
  split; apply list_insert_id; by rewrite list_lookup_fmap, Ex, <- ?Hl.
Qed.

Lemma drained b f :
  Sim b f -> roomy b -> exists ls b' outs f', Forall (fun l => internal l = true) ls /\
    run step ls b = Some (b', outs) /\ run feed_step ls f = Some (f', outs) /\
    (su_due <$> f' = su_due <$> f /\ su_live <$> f' = su_live <$> f) /\ settled f'.
Proof.
  remember (backlog b) as n eqn:Hn. revert b f Hn.
  induction (lt_wf n) as [n _ IH]. intros b f -> HS Hr.
  destruct (decide (settled f)) as [Hf|Hf]; [exists [], b, [], f; by repeat split|].
  destruct (backlog_step b f HS Hr Hf) as (l & b1 & o & Hi & E1 & Hlt & Hr1).
  assert (l <> Close) as Hnc by (by intros ->).
  destruct (Sim_step _ _ _ _ _ HS Hnc E1) as (f1 & F1 & HS1).
  destruct (IH _ Hlt b1 f1 eq_refl HS1 Hr1) as (ls & b2 & outs & f2 & Hls & E2 & F2 & Hd & Hst).
  exists (l :: ls), b2, (o :: outs), f2. split; [by constructor|]. simpl. rewrite E1, F1. simpl.
  rewrite E2, F2. split; [done|]. split; [done|]. split; [|done].
  destruct (internal_due _ _ _ _ Hi F1) as [<- <-]. exact Hd.
Qed.

(** ** A publish that never returns *)

(** A publish whose next channel is full and belongs to a subscriber that has
    returned. *)
Definition stuck (b : Bus) : Prop :=
  exists i is_ m ch, bus_sending b = Some (i :: is_, m) /\ bus_chans b !! i = Some ch /\
    ch_live ch = false /\ capacity <= length (ch_buffer ch).

Lemma stuck_step l b b' o :
  stuck b -> l <> Close -> step l b = Some (b', o) -> stuck b' /\ bus_sending b' = bus_sending b.
Proof.
  intros (i & is_ & m & ch & Hs & Hi & Hd & Hf) Hnc E.
  assert (forall b2, bus_sending b2 = bus_sending b -> bus_chans b2 !! i = Some ch ->
    stuck b2 /\ bus_sending b2 = bus_sending b) as Hk.
  { intros b2 H2 Hi2. split; [|done]. exists i, is_, m, ch. by rewrite H2. }
  destruct l as [t|t m'| | |j|j|]; simpl in E; rewrite Hs in E; try done.
  - simplify_eq. apply Hk; [done|]. simpl. by apply lookup_app_l_Some.
  - rewrite Hi in E. simpl in E. destruct (ch_open ch); [|done]. simpl in E.
    rewrite bool_decide_false in E by lia. done.
  - destruct (bus_chans b !! j) as [cj|] eqn:Hj; [|done]. simpl in E.
    destruct (ch_live cj) eqn:Hlj; [|done]. simpl in E.
    destruct (ch_buffer cj); [destruct (ch_open cj); [done|]; simplify_eq; by apply Hk|]. simplify_eq.
    apply Hk; [done|]. simpl. rewrite list_lookup_insert_ne; [done|]. intros ->. congruence.
  - destruct (bus_chans b !! j) as [cj|] eqn:Hj; [|done]. simpl in E.
    destruct (ch_live cj) eqn:Hlj; [|done]. simpl in E. simplify_eq.
    apply Hk; [done|]. simpl. rewrite list_lookup_insert_ne; [done|]. intros ->. congruence.
Qed.

Lemma stuck_run ls b b' outs :
  stuck b -> Close ∉ ls -> run step ls b = Some (b', outs) -> bus_sending b' = bus_sending b.
Proof.
  revert b outs. induction ls as [|l ls IH]; intros b outs Hb Hnc E; simpl in E; [by simplify_eq|].
  apply not_elem_of_cons in Hnc as [Hne Hnc].
  destruct (step l b) as [[b1 o]|] eqn:E1; [|done]. simpl in E.
  destruct (run step ls b1) as [[b2 os]|] eqn:E2; [|done]. simpl in E. simplify_eq.
  destruct (stuck_step _ _ _ _ Hb ltac:(done) E1) as [Hb1 <-]. by eapply IH.
Qed.

End Memory.
Import Memory.

(** C39: the in-process bus keeps its promise.  Take any interleaving, from a new
    bus, of subscriptions, returns of subscribers whose context is done, receives
    and the sends of publishes that follow one another (one publisher), in which
    the bus is not closed.  What the handlers are given is what the abstract feed
    gives: each subscriber gets messages published on its topic since it
    subscribed, in order, each at most once, and no others, as long as it has not
    returned.  And if no returned subscriber's channel that the running publish
    has yet to reach is full, the bus's own sends and receives lead, without
    blocking, to a state in which every subscriber that goes on has been given
    everything published on its topic so far. *)
Theorem memory_bus_refines (ls : list Label) (b : Bus) (outs : list (option Msg)) :
  Close ∉ ls -> run step ls NewMemoryBus = Some (b, outs) ->
  exists f, run feed_step ls [] = Some (f, outs) /\
    (roomy b -> exists ls' b' outs' f', Forall (fun l => internal l = true) ls' /\
      run step ls' b = Some (b', outs') /\ run feed_step ls' f = Some (f', outs') /\
      (su_due <$> f' = su_due <$> f /\ su_live <$> f' = su_live <$> f) /\ settled f').
Proof.
  intros Hnc E. destruct (Sim_run _ _ _ _ _ Sim_new Hnc E) as (f & F & HS). exists f. split; [done|].
  by apply drained.
Qed.

(** Two messages, the first before anyone listens; another subscriber has
    returned by the second. *)
Definition sample_run : list Label :=
  [Publish "t" (mkMsg "a" None); Published; Subscribed "t"; Subscribed "t"; Cancelled 1;
   Publish "t" (mkMsg "b" None); Sent].

Definition sample_bus : Bus :=
  mkBus [mkChan "t" [mkMsg "b" None] true true; mkChan "t" [] true false] (Some ([1], mkMsg "b" None)).

Lemma memory_bus_refines_witness :
  exists f, run feed_step sample_run [] = Some (f, repeat None 7) /\
    exists ls' b' outs' f', Forall (fun l => internal l = true) ls' /\
      run step ls' sample_bus = Some (b', outs') /\
      run feed_step ls' f = Some (f', outs') /\
      (su_due <$> f' = su_due <$> f /\ su_live <$> f' = su_live <$> f) /\ settled f'.
Proof.
  destruct (memory_bus_refines sample_run sample_bus (repeat None 7)) as (f & F & HL);
    [|reflexivity|].
  - intros Hin. repeat (apply elem_of_cons in Hin as [[=]|Hin]). by apply not_elem_of_nil in Hin.
  - exists f. split; [exact F|]. apply HL. intros is_ m i ch [= <- <-] Hi Hch _.
    apply list_elem_of_singleton in Hi as ->. simpl in Hch. injection Hch as <-. unfold capacity. simpl. lia.
Defined.

(** A subscriber returns when its context is done, and its channel stays
    registered: after 1024 more messages a publish waits for it for ever,
    whatever else happens short of a [Close] (which would make it panic). *)
Definition abandoned : list Label :=
  (Subscribed "t" :: Cancelled 0 :: mjoin (repeat [Publish "t" (mkMsg "a" None); Sent; Published] capacity)
   ++ [Publish "t" (mkMsg "b" None)])%list.

Lemma cancelled_subscriber_blocks :
  exists b outs, run step abandoned NewMemoryBus = Some (b, outs) /\
    forall ls b' outs', Close ∉ ls -> run step ls b = Some (b', outs') ->
      bus_sending b' = Some ([0], mkMsg "b" None).
Proof.
  assert (E : match run step abandoned NewMemoryBus with
    | Some (b, _) => bus_sending b = Some ([0], mkMsg "b" None) /\
        match bus_chans b with
        | [ch] => ch_live ch = false /\ (capacity <=? length (ch_buffer ch))%nat = true
        | _ => False
        end
    | None => False
    end) by (vm_compute; by repeat split).
  destruct (run step abandoned NewMemoryBus) as [[b outs]|]; [|done]. destruct E as [Es Ec].
  destruct (bus_chans b) as [|ch [|? ?]] eqn:Eb; try done. destruct Ec as [Hd Hf%Nat.leb_le].
  exists b, outs. split; [done|]. intros ls b' outs' Hnc E. rewrite <- Es.
  eapply stuck_run; [|done|exact E]. exists 0, [], (mkMsg "b" None), ch. by rewrite Eb.
Qed.

(** After [Close] the subscriber's loop is given empty messages without end. *)
Lemma closed_bus_spins (n : nat) :
  run step (Subscribed "t" :: Close :: repeat (Received 0) n) NewMemoryBus =
  Some (mkBus [mkChan "t" [] false true] None, None :: None :: repeat (Some zero_msg) n).
Proof.
  simpl. assert (forall b, b = mkBus [mkChan "t" [] false true] None ->
    run step (repeat (Received 0) n) b = Some (b, repeat (Some zero_msg) n)) as ->; [|done..].
  intros b ->. induction n as [|n IH]; simpl; [done|]. by rewrite IH.
Qed.
