(* ===== verification/Frame.v ===== *)
(** * Frames: what an operation leaves alone

    [Pres R m]: every run of [m] relates its first and last states by [R],
    whatever its outcome and whatever faults occur; with a preorder it composes
    along the handlers.  [OnTx R] asks for [R] of each transaction the run
    commits, which is what survives when other runs commit in between.  [Frame ts
    t] is the preorder used for the database: the rows of every tenant but [t]
    are as before in all tables, and the tables outside the set [ts] are as before
    altogether.  One lemma per store
    operation gives its frame; the tactic [pres] puts them together. *)

From S2P Require Import Prelude Json Tables Effects Store.
Local Open Scope string_scope.

(** ** Relational specifications *)

Section pres.
Context `{Outside}.

Definition Pres (R : St -> St -> Prop) {A} (m : M A) : Prop := forall s, R s (m s).2.

(** [a] is a possible result of [m]. *)
Definition Returns {A} (m : M A) (a : A) : Prop := exists s s', m s = (Ok a, s').

Lemma Returns_ret {A} (a b : A) : Returns (mret a) b -> b = a.
Proof. by intros (s & s' & [= -> _]). Qed.

Lemma Returns_throw {A} e (b : A) : Returns (throw e) b -> False.
Proof. by intros (s & s' & ?). Qed.

Lemma Returns_bind {A B} (m : M A) (k : A -> M B) b :
  Returns (m ≫= k) b -> exists a, Returns m a /\ Returns (k a) b.
Proof.
  intros (s & s' & E). unfold mbind, M_bind in E.
  destruct (m s) as [[a|e] s1] eqn:E1; [|done].
  exists a. split; [by exists s, s1|by exists s1, s'].
Qed.

Lemma Returns_attempt {A} (m : M A) a : Returns (attempt m) (Ok a) -> Returns m a.
Proof.
  intros (s & s' & E). unfold attempt in E. destruct (m s) eqn:E1. simplify_eq.
  by exists s, s'.
Qed.

Lemma Returns_query {A} (f : DB -> Res A) a : Returns (query f) a -> exists d, f d = Ok a.
Proof.
  intros (s & s' & E). exists (others (st_seq s) (st_db s)). unfold query, tx in E.
  destruct (head (st_faults s)) as [[]|]; try done; destruct (f (others _ _)); naive_solver.
Qed.

Context (R : St -> St -> Prop) `{!PreOrder R}.

Lemma Pres_ret {A} (a : A) : Pres R (mret a).
Proof. intros s. done. Qed.

Lemma Pres_throw {A} e : Pres R (throw (A:=A) e).
Proof. intros s. done. Qed.

Lemma Pres_bind {A B} (m : M A) (k : A -> M B) :
  Pres R m -> (forall a, Returns m a -> Pres R (k a)) -> Pres R (m ≫= k).
Proof.
  intros Hm Hk s. unfold mbind, M_bind. specialize (Hm s).
  destruct (m s) as [[a|e] s'] eqn:E; simpl in *; [|done].
  etrans; [done|apply Hk]. by exists s, s'.
Qed.

Lemma Pres_attempt {A} (m : M A) : Pres R m -> Pres R (attempt m).
Proof. intros Hm s. unfold attempt. specialize (Hm s). by destruct (m s). Qed.

Lemma Pres_ignore {A} (m : M A) : Pres R m -> Pres R (ignore m).
Proof. intros Hm s. unfold ignore. specialize (Hm s). by destruct (m s). Qed.

Lemma Pres_now : Pres R now.
Proof. intros s. done. Qed.
End pres.

Create HintDb pres discriminated.
#[export] Hint Resolve Pres_ret Pres_throw Pres_now : pres.

(** One step along a handler: structure first, then the hints, then a case
    analysis on what the code matches on. *)
Ltac pres_step :=
  match goal with
  | |- Pres _ (mbind _ _) => apply Pres_bind; [try typeclasses eauto| |intros ? ?]
  | |- Pres _ (attempt _) => apply Pres_attempt
  | |- Pres _ (ignore _) => apply Pres_ignore
  | |- Pres _ (match ?x with _ => _ end) => destruct x
  | |- Pres _ (let (_, _) := ?x in _) => destruct x
  | |- _ => solve [eauto with pres]
  end.
Ltac pres := repeat pres_step.

(** What a hypothesis [Returns m a] says, along the structure of [m]. *)
Ltac returns_step :=
  match goal with
  | H : Returns (mret _) _ |- _ => apply Returns_ret in H
  | H : Returns (throw _) _ |- _ => destruct (Returns_throw _ _ H)
  | H : Returns (mbind _ _) _ |- _ => apply Returns_bind in H as (? & ? & H)
  | H : Returns (attempt _) (Ok _) |- _ => apply Returns_attempt in H
  | H : Returns (query _) _ |- _ => apply Returns_query in H as [? H]
  | H : Returns (match ?x with _ => _ end) _ |- _ => destruct x eqn:?
  end.
Ltac returns := repeat (returns_step; simplify_eq).

Abbreviation Log := (list (DB * DB)).

(** ** The transactions of a run *)

Section logged.
Context `{Outside}.

(** The log leads from [d] to [d']: each transaction finds what the others made
    of what the one before it left. *)
Fixpoint Linked (d : DB) (l : Log) (d' : DB) : Prop :=
  match l with
  | [] => d' = d
  | (a, b) :: l => (exists n, a = others n d) /\ Linked b l d'
  end.

Lemma Linked_app d1 l1 d2 l2 d3 : Linked d1 l1 d2 -> Linked d2 l2 d3 -> Linked d1 (l1 ++ l2)%list d3.
Proof.
  revert d1. induction l1 as [|[a b] l1 IH]; intros d1; simpl; [by intros ->|].
  intros [Ha H1] H2. split; [done|by apply IH].
Qed.

Class Composable (P : Log -> Prop) : Prop := {
  comp_nil : P [];
  comp_app l1 l2 : P l1 -> P l2 -> P (l1 ++ l2)%list;
}.

Definition Logged (P : Log -> Prop) (s s' : St) : Prop :=
  exists new, st_log s' = (st_log s ++ new)%list /\ Linked (st_db s) new (st_db s') /\ P new.

#[global] Instance Logged_preorder P `{!Composable P} : PreOrder (Logged P).
Proof.
  split.
  - intros s. exists []. rewrite app_nil_r. by split_and!; [| |apply comp_nil].
  - intros s1 s2 s3 (l1 & E1 & L1 & P1) (l2 & E2 & L2 & P2). exists (l1 ++ l2)%list.
    rewrite E2, E1, app_assoc. split_and!; [done|by eapply Linked_app|by apply comp_app].
Qed.

(** What [m] commits when it starts in [s]. *)
Definition commits {A} (m : M A) (s : St) : Log := drop (length (st_log s)) (st_log (m s).2).

Lemma Logged_commits P {A} (m : M A) s : Pres (Logged P) m -> P (commits m s).
Proof. intros Hm. destruct (Hm s) as (l & E & _ & HP). unfold commits. by rewrite E, drop_app_length. Qed.

Lemma Logged_seq (P Q S : Log -> Prop) s1 s2 s3 :
  (forall l1 l2, P l1 -> Q l2 -> S (l1 ++ l2)%list) -> Logged P s1 s2 -> Logged Q s2 s3 -> Logged S s1 s3.
Proof.
  intros HS (l1 & E1 & L1 & P1) (l2 & E2 & L2 & P2). exists (l1 ++ l2)%list.
  rewrite E2, E1, app_assoc. split_and!; [done|by eapply Linked_app|by apply HS].
Qed.

Lemma Logged_impl (P Q : Log -> Prop) s s' : (forall l, P l -> Q l) -> Logged P s s' -> Logged Q s s'.
Proof. intros HPQ (l & E & L & HP). exists l. split_and!; [done..|by apply HPQ]. Qed.

Context (P : Log -> Prop).

Lemma Logged_tx {A} (body : Z -> nat -> DB -> Res A * DB) :
  P [] -> (forall d, P [(d, d)]) ->
  (forall now seq d a d', body now seq d = (Ok a, d') -> P [(d, d')]) ->
  Pres (Logged P) (tx body).
Proof.
  intros Hn Hd Hb s. unfold tx.
  assert (Hend : forall s1 d', st_log s1 = st_log s -> P [(others (st_seq s) (st_db s), d')] ->
            Logged P s (ended (others (st_seq s) (st_db s)) d' s1)).
  { intros s1 d' E HP. exists [(others (st_seq s) (st_db s), d')]. simpl. rewrite E. eauto 6. }
  assert (Hsame : forall s1, st_log s1 = st_log s -> st_db s1 = st_db s -> Logged P s s1).
  { intros s1 E Ed. exists []. rewrite app_nil_r. by split_and!. }
  destruct (head (st_faults s)) as [[]|]; simpl; try (by apply Hsame);
    destruct (body _ _ _) as [[a|e] d'] eqn:E; simpl; apply Hend; eauto.
Qed.

(** A transaction that returned a value is in the log. *)
Lemma tx_committed {A} (body : Z -> nat -> DB -> Res A * DB) s a s' :
  tx body s = (Ok a, s') ->
  exists d, body (st_now s) (st_seq s) d = (Ok a, st_db s') /\ st_log s' = (st_log s ++ [(d, st_db s')])%list /\
    st_calls s' = st_calls s.
Proof.
  unfold tx. intros E. exists (others (st_seq s) (st_db s)).
  destruct (head (st_faults s)) as [[]|]; try done; destruct (body _ _ _) as [[x|e] d']; try done;
    by simplify_eq.
Qed.

(** Steps that do not reach the database. *)
Lemma Logged_still {A} (m : M A) :
  P [] -> (forall s, st_log (m s).2 = st_log s /\ st_db (m s).2 = st_db s) -> Pres (Logged P) m.
Proof. intros Hn Hm s. destruct (Hm s) as [E Ed]. exists []. rewrite app_nil_r. by split_and!. Qed.

Context `{!Composable P}.

Lemma Logged_http rq : Pres (Logged P) (http rq).
Proof. apply Logged_still; [apply comp_nil|]. intros s. unfold http. by destruct (http_step _ _). Qed.
Lemma Logged_publish topic key v : Pres (Logged P) (publish topic key v).
Proof. apply Logged_still; [apply comp_nil|]. intros s. unfold publish. by destruct (publish_step _ _ _ _). Qed.
Lemma Logged_metric n : Pres (Logged P) (metric n).
Proof. by apply Logged_still; [apply comp_nil|]. Qed.
Lemma Logged_draw : Pres (Logged P) draw.
Proof. by apply Logged_still; [apply comp_nil|]. Qed.
Lemma Logged_uuid : Pres (Logged P) new_uuid.
Proof. by apply Logged_still; [apply comp_nil|]. Qed.
Lemma Logged_query {A} (f : DB -> Res A) : (forall d, P [(d, d)]) -> Pres (Logged P) (query f).
Proof. intros Hd. apply Logged_tx; [apply comp_nil|done|]. by intros ? ? d a d' [= _ <-]. Qed.
End logged.

(** ** Relations on the database *)

Section on_tx.
Context `{Outside} (R : DB -> DB -> Prop) `{!PreOrder R}.

#[global] Instance Forall_composable : Composable (Forall (fun e => R e.1 e.2)).
Proof. split; [by constructor|]. intros l1 l2 H1 H2. by apply Forall_app. Qed.

(** Every transaction is in [R]. *)
Definition OnTx : St -> St -> Prop := Logged (Forall (fun e => R e.1 e.2)).

#[global] Instance OnTx_preorder : PreOrder OnTx.
Proof. unfold OnTx. apply _. Qed.

Lemma OnTx_tx {A} (body : Z -> nat -> DB -> Res A * DB) :
  (forall now seq d a d', body now seq d = (Ok a, d') -> R d d') -> Pres OnTx (tx body).
Proof.
  intros Hb. apply Logged_tx; [by constructor|intros d..]; intros; (constructor; [|by constructor]); simpl;
    [reflexivity|by eapply Hb].
Qed.

Lemma OnTx_query {A} (f : DB -> Res A) : Pres OnTx (query f).
Proof. apply OnTx_tx. by intros ? ? d a d' [= _ <-]. Qed.
Lemma OnTx_http rq : Pres OnTx (http rq).
Proof. exact (Logged_http _ rq). Qed.
Lemma OnTx_publish topic key v : Pres OnTx (publish topic key v).
Proof. exact (Logged_publish _ topic key v). Qed.
Lemma OnTx_metric n : Pres OnTx (metric n).
Proof. exact (Logged_metric _ n). Qed.
Lemma OnTx_draw : Pres OnTx draw.
Proof. exact (Logged_draw _). Qed.
Lemma OnTx_uuid : Pres OnTx new_uuid.
Proof. exact (Logged_uuid _). Qed.
End on_tx.
#[export] Hint Resolve OnTx_query OnTx_http OnTx_publish OnTx_metric OnTx_draw OnTx_uuid : pres.

(** The database is left as it was found. *)
Definition Same (d d' : DB) : Prop := d' = d.
#[global] Instance Same_preorder : PreOrder Same.
Proof. split; unfold Same; [done|]. intros d1 d2 d3. congruence. Qed.

(** The same of a run that has the database for itself, from its first state to
    its last. *)
Section ondb.
Context `{Transport}.

Definition OnDb (R : DB -> DB -> Prop) (s s' : St) : Prop := R (st_db s) (st_db s').

Context (R : DB -> DB -> Prop) `{!PreOrder R}.

#[global] Instance OnDb_preorder : PreOrder (OnDb R).
Proof.
  split; [by intros s; unfold OnDb|]. intros s1 s2 s3 H1 H2. unfold OnDb in *. by etrans.
Qed.

Lemma Pres_tx {A} (body : Z -> nat -> DB -> Res A * DB) :
  (forall now seq d a d', body now seq d = (Ok a, d') -> R d d') ->
  Pres (OnDb R) (tx body).
Proof.
  intros Hb s. unfold OnDb, tx. rewrite tr_alone.
  destruct (head (st_faults s)) as [[]|]; simpl; try done;
    destruct (body _ _ _) as [[a|e] d'] eqn:E; simpl; eauto; done.
Qed.

Lemma Pres_query {A} (f : DB -> Res A) : Pres (OnDb R) (query f).
Proof. apply Pres_tx. intros now seq d a d'. by intros [= _ <-]. Qed.

Lemma Pres_http rq : Pres (OnDb R) (http rq).
Proof. intros s. unfold http, OnDb. by destruct (http_step _ _). Qed.

Lemma Pres_publish topic key v : Pres (OnDb R) (publish topic key v).
Proof. intros s. unfold publish, OnDb. by destruct (publish_step _ _ _ _). Qed.

Lemma Pres_metric name : Pres (OnDb R) (metric name).
Proof. intros s. unfold OnDb. simpl. reflexivity. Qed.

Lemma Pres_draw : Pres (OnDb R) draw.
Proof. intros s. unfold OnDb. simpl. reflexivity. Qed.
End ondb.

Lemma OnTx_commits `{Outside} (R : DB -> DB -> Prop) {A} (m : M A) (s : St) :
  Pres (OnTx R) m -> Forall (fun e => R e.1 e.2) (commits m s).
Proof. apply Logged_commits. Qed.

(** A run that has the database for itself composes its transactions. *)
Lemma OnTx_db `{Transport} (R : DB -> DB -> Prop) `{!PreOrder R} {A} (m : M A) (s : St) :
  Pres (OnTx R) m -> R (st_db s) (st_db (m s).2).
Proof.
  intros Hm. destruct (Hm s) as (l & _ & HL & HR). revert HL. generalize (st_db s) as d.
  induction HR as [|[a b] l He _ IH]; intros d; simpl; [by intros ->|].
  intros [[n ->] HL]. rewrite tr_alone in He. simpl in He. etrans; [exact He|by apply IH].
Qed.

Lemma OnTx_OnDb `{Transport} (R : DB -> DB -> Prop) `{!PreOrder R} {A} (m : M A) :
  Pres (OnTx R) m -> Pres (OnDb R) m.
Proof. intros Hm s. exact (OnTx_db R m s Hm). Qed.

#[export] Hint Resolve Pres_http Pres_publish Pres_metric Pres_draw Pres_query : pres.

(** ** Frames *)

Inductive Tbl := T_connections | T_sync_policies | T_canonical_records | T_source_events | T_processed_events
| T_retry_queue | T_dead_letter | T_conflicts | T_sync_jobs | T_reconciliation_runs
| T_reconciliation_findings | T_sync_operations | T_outbound_writes | T_audit_log | T_tenants
| T_users | T_api_keys | T_sessions | T_login_attempts.

(** Membership in a list of tables, as a boolean. *)
#[global] Instance Tbl_eq_dec : EqDecision Tbl.
Proof. solve_decision. Defined.

Definition among (l : list Tbl) (tb : Tbl) : bool := bool_decide (tb ∈ l).

(** The table is unchanged. *)
Definition same (tb : Tbl) (d d' : DB) : Prop :=
  match tb with
  | T_connections => connections d' = connections d
  | T_sync_policies => sync_policies d' = sync_policies d
  | T_canonical_records => canonical_records d' = canonical_records d
  | T_source_events => source_events d' = source_events d
  | T_processed_events => processed_events d' = processed_events d
  | T_retry_queue => retry_queue d' = retry_queue d
  | T_dead_letter => dead_letter d' = dead_letter d
  | T_conflicts => conflicts d' = conflicts d
  | T_sync_jobs => sync_jobs d' = sync_jobs d
  | T_reconciliation_runs => reconciliation_runs d' = reconciliation_runs d
  | T_reconciliation_findings => reconciliation_findings d' = reconciliation_findings d
  | T_sync_operations => sync_operations d' = sync_operations d
  | T_outbound_writes => outbound_writes d' = outbound_writes d
  | T_audit_log => audit_log d' = audit_log d
  | T_tenants => tenants d' = tenants d
  | T_users => users d' = users d
  | T_api_keys => api_keys d' = api_keys d
  | T_sessions => sessions d' = sessions d
  | T_login_attempts => login_attempts d' = login_attempts d
  end.

(** A row of another tenant. *)
Definition foreign (t rt : string) : bool := negb (rt =s t).
Definition foreign_opt (t : string) (rt : option string) : bool :=
  match rt with Some x => foreign t x | None => true end.

(** The rows of the other tenants are unchanged. *)
Definition foreign_same (t : string) (tb : Tbl) (d d' : DB) : Prop :=
  match tb with
  | T_connections => select_where (fun r => foreign t (cn_TenantID r)) (connections d') =
      select_where (fun r => foreign t (cn_TenantID r)) (connections d)
  | T_sync_policies => select_where (fun r => foreign t (po_TenantID r)) (sync_policies d') =
      select_where (fun r => foreign t (po_TenantID r)) (sync_policies d)
  | T_canonical_records => select_where (fun r => foreign t (cr_TenantID r)) (canonical_records d') =
      select_where (fun r => foreign t (cr_TenantID r)) (canonical_records d)
  | T_source_events => select_where (fun r => foreign t (se_TenantID r)) (source_events d') =
      select_where (fun r => foreign t (se_TenantID r)) (source_events d)
  | T_processed_events => select_where (fun r => foreign t (pe_TenantID r)) (processed_events d') =
      select_where (fun r => foreign t (pe_TenantID r)) (processed_events d)
  | T_retry_queue => select_where (fun r => foreign t (rt_TenantID r)) (retry_queue d') =
      select_where (fun r => foreign t (rt_TenantID r)) (retry_queue d)
  | T_dead_letter => select_where (fun r => foreign t (dl_TenantID r)) (dead_letter d') =
      select_where (fun r => foreign t (dl_TenantID r)) (dead_letter d)
  | T_conflicts => select_where (fun r => foreign t (co_TenantID r)) (conflicts d') =
      select_where (fun r => foreign t (co_TenantID r)) (conflicts d)
  | T_sync_jobs => select_where (fun r => foreign t (sj_TenantID r)) (sync_jobs d') =
      select_where (fun r => foreign t (sj_TenantID r)) (sync_jobs d)
  | T_reconciliation_runs => select_where (fun r => foreign t (rr_TenantID r)) (reconciliation_runs d') =
      select_where (fun r => foreign t (rr_TenantID r)) (reconciliation_runs d)
  | T_reconciliation_findings => select_where (fun r => foreign t (rf_TenantID r)) (reconciliation_findings d') =
      select_where (fun r => foreign t (rf_TenantID r)) (reconciliation_findings d)
  | T_sync_operations => select_where (fun r => foreign t (so_TenantID r)) (sync_operations d') =
      select_where (fun r => foreign t (so_TenantID r)) (sync_operations d)
  | T_outbound_writes => select_where (fun r => foreign t (ow_TenantID r)) (outbound_writes d') =
      select_where (fun r => foreign t (ow_TenantID r)) (outbound_writes d)
  | T_audit_log => select_where (fun r => foreign_opt t (au_TenantID r)) (audit_log d') =
      select_where (fun r => foreign_opt t (au_TenantID r)) (audit_log d)
  | T_tenants => select_where (fun r => foreign t (tn_ID r)) (tenants d') =
      select_where (fun r => foreign t (tn_ID r)) (tenants d)
  | T_users => select_where (fun r => foreign t (us_TenantID r)) (users d') =
      select_where (fun r => foreign t (us_TenantID r)) (users d)
  | T_api_keys => select_where (fun r => foreign t (ak_TenantID r)) (api_keys d') =
      select_where (fun r => foreign t (ak_TenantID r)) (api_keys d)
  | T_sessions => select_where (fun r => foreign t (ss_TenantID r)) (sessions d') =
      select_where (fun r => foreign t (ss_TenantID r)) (sessions d)
  | T_login_attempts => select_where (fun r => foreign t (la_TenantID r)) (login_attempts d') =
      select_where (fun r => foreign t (la_TenantID r)) (login_attempts d)
  end.

Definition Frame (ts : Tbl -> bool) (t : string) (d d' : DB) : Prop :=
  forall tb, foreign_same t tb d d' /\ (ts tb = false -> same tb d d').

Lemma same_trans tb d1 d2 d3 : same tb d1 d2 -> same tb d2 d3 -> same tb d1 d3.
Proof. destruct tb; simpl; congruence. Qed.

Lemma foreign_same_trans t tb d1 d2 d3 :
  foreign_same t tb d1 d2 -> foreign_same t tb d2 d3 -> foreign_same t tb d1 d3.
Proof. destruct tb; simpl; congruence. Qed.

#[global] Instance Frame_preorder ts t : PreOrder (Frame ts t).
Proof.
  split.
  - intros d tb. by destruct tb.
  - intros d1 d2 d3 H1 H2 tb. destruct (H1 tb) as [F1 S1], (H2 tb) as [F2 S2]. split.
    + by eapply foreign_same_trans.
    + intros E. eapply same_trans; eauto.
Qed.

(** Frames that differ in the tables they name. *)
Lemma Frame_weaken (ts ts' : Tbl -> bool) t d d' :
  (forall tb, ts' tb = false -> ts tb = false) -> Frame ts t d d' -> Frame ts' t d d'.
Proof. intros Hts HF tb. destruct (HF tb). split; auto. Qed.

(** A rewrite of one table that keeps the other tenants' rows. *)

Lemma Frame_on_connections (ts : Tbl -> bool) t f d :
  ts T_connections = true ->
  select_where (fun r => foreign t (cn_TenantID r)) (f (connections d)) =
    select_where (fun r => foreign t (cn_TenantID r)) (connections d) ->
  Frame ts t d (on_connections f d).
Proof. intros Hts Hf tb. destruct tb; simpl; split; auto; congruence. Qed.

Lemma Frame_on_sync_policies (ts : Tbl -> bool) t f d :
  ts T_sync_policies = true ->
  select_where (fun r => foreign t (po_TenantID r)) (f (sync_policies d)) =
    select_where (fun r => foreign t (po_TenantID r)) (sync_policies d) ->
  Frame ts t d (on_sync_policies f d).
Proof. intros Hts Hf tb. destruct tb; simpl; split; auto; congruence. Qed.

Lemma Frame_on_canonical_records (ts : Tbl -> bool) t f d :
  ts T_canonical_records = true ->
  select_where (fun r => foreign t (cr_TenantID r)) (f (canonical_records d)) =
    select_where (fun r => foreign t (cr_TenantID r)) (canonical_records d) ->
  Frame ts t d (on_canonical_records f d).
Proof. intros Hts Hf tb. destruct tb; simpl; split; auto; congruence. Qed.

Lemma Frame_on_source_events (ts : Tbl -> bool) t f d :
  ts T_source_events = true ->
  select_where (fun r => foreign t (se_TenantID r)) (f (source_events d)) =
    select_where (fun r => foreign t (se_TenantID r)) (source_events d) ->
  Frame ts t d (on_source_events f d).
Proof. intros Hts Hf tb. destruct tb; simpl; split; auto; congruence. Qed.

Lemma Frame_on_processed_events (ts : Tbl -> bool) t f d :
  ts T_processed_events = true ->
  select_where (fun r => foreign t (pe_TenantID r)) (f (processed_events d)) =
    select_where (fun r => foreign t (pe_TenantID r)) (processed_events d) ->
  Frame ts t d (on_processed_events f d).
Proof. intros Hts Hf tb. destruct tb; simpl; split; auto; congruence. Qed.

Lemma Frame_on_retry_queue (ts : Tbl -> bool) t f d :
  ts T_retry_queue = true ->
  select_where (fun r => foreign t (rt_TenantID r)) (f (retry_queue d)) =
    select_where (fun r => foreign t (rt_TenantID r)) (retry_queue d) ->
  Frame ts t d (on_retry_queue f d).
Proof. intros Hts Hf tb. destruct tb; simpl; split; auto; congruence. Qed.

Lemma Frame_on_dead_letter (ts : Tbl -> bool) t f d :
  ts T_dead_letter = true ->
  select_where (fun r => foreign t (dl_TenantID r)) (f (dead_letter d)) =
    select_where (fun r => foreign t (dl_TenantID r)) (dead_letter d) ->
  Frame ts t d (on_dead_letter f d).
Proof. intros Hts Hf tb. destruct tb; simpl; split; auto; congruence. Qed.

Lemma Frame_on_conflicts (ts : Tbl -> bool) t f d :
  ts T_conflicts = true ->
  select_where (fun r => foreign t (co_TenantID r)) (f (conflicts d)) =
    select_where (fun r => foreign t (co_TenantID r)) (conflicts d) ->
  Frame ts t d (on_conflicts f d).
Proof. intros Hts Hf tb. destruct tb; simpl; split; auto; congruence. Qed.

Lemma Frame_on_sync_jobs (ts : Tbl -> bool) t f d :
  ts T_sync_jobs = true ->
  select_where (fun r => foreign t (sj_TenantID r)) (f (sync_jobs d)) =
    select_where (fun r => foreign t (sj_TenantID r)) (sync_jobs d) ->
  Frame ts t d (on_sync_jobs f d).
Proof. intros Hts Hf tb. destruct tb; simpl; split; auto; congruence. Qed.

Lemma Frame_on_reconciliation_runs (ts : Tbl -> bool) t f d :
  ts T_reconciliation_runs = true ->
  select_where (fun r => foreign t (rr_TenantID r)) (f (reconciliation_runs d)) =
    select_where (fun r => foreign t (rr_TenantID r)) (reconciliation_runs d) ->
  Frame ts t d (on_reconciliation_runs f d).
Proof. intros Hts Hf tb. destruct tb; simpl; split; auto; congruence. Qed.

Lemma Frame_on_reconciliation_findings (ts : Tbl -> bool) t f d :
  ts T_reconciliation_findings = true ->
  select_where (fun r => foreign t (rf_TenantID r)) (f (reconciliation_findings d)) =
    select_where (fun r => foreign t (rf_TenantID r)) (reconciliation_findings d) ->
  Frame ts t d (on_reconciliation_findings f d).
Proof. intros Hts Hf tb. destruct tb; simpl; split; auto; congruence. Qed.

Lemma Frame_on_sync_operations (ts : Tbl -> bool) t f d :
  ts T_sync_operations = true ->
  select_where (fun r => foreign t (so_TenantID r)) (f (sync_operations d)) =
    select_where (fun r => foreign t (so_TenantID r)) (sync_operations d) ->
  Frame ts t d (on_sync_operations f d).
Proof. intros Hts Hf tb. destruct tb; simpl; split; auto; congruence. Qed.

Lemma Frame_on_outbound_writes (ts : Tbl -> bool) t f d :
  ts T_outbound_writes = true ->
  select_where (fun r => foreign t (ow_TenantID r)) (f (outbound_writes d)) =
    select_where (fun r => foreign t (ow_TenantID r)) (outbound_writes d) ->
  Frame ts t d (on_outbound_writes f d).
Proof. intros Hts Hf tb. destruct tb; simpl; split; auto; congruence. Qed.

Lemma Frame_on_audit_log (ts : Tbl -> bool) t f d :
  ts T_audit_log = true ->
  select_where (fun r => foreign_opt t (au_TenantID r)) (f (audit_log d)) =
    select_where (fun r => foreign_opt t (au_TenantID r)) (audit_log d) ->
  Frame ts t d (on_audit_log f d).
Proof. intros Hts Hf tb. destruct tb; simpl; split; auto; congruence. Qed.

Lemma Frame_on_tenants (ts : Tbl -> bool) t f d :
  ts T_tenants = true ->
  select_where (fun r => foreign t (tn_ID r)) (f (tenants d)) =
    select_where (fun r => foreign t (tn_ID r)) (tenants d) ->
  Frame ts t d (on_tenants f d).
Proof. intros Hts Hf tb. destruct tb; simpl; split; auto; congruence. Qed.

Lemma Frame_on_users (ts : Tbl -> bool) t f d :
  ts T_users = true ->
  select_where (fun r => foreign t (us_TenantID r)) (f (users d)) =
    select_where (fun r => foreign t (us_TenantID r)) (users d) ->
  Frame ts t d (on_users f d).
Proof. intros Hts Hf tb. destruct tb; simpl; split; auto; congruence. Qed.

Lemma Frame_on_api_keys (ts : Tbl -> bool) t f d :
  ts T_api_keys = true ->
  select_where (fun r => foreign t (ak_TenantID r)) (f (api_keys d)) =
    select_where (fun r => foreign t (ak_TenantID r)) (api_keys d) ->
  Frame ts t d (on_api_keys f d).
Proof. intros Hts Hf tb. destruct tb; simpl; split; auto; congruence. Qed.

Lemma Frame_on_sessions (ts : Tbl -> bool) t f d :
  ts T_sessions = true ->
  select_where (fun r => foreign t (ss_TenantID r)) (f (sessions d)) =
    select_where (fun r => foreign t (ss_TenantID r)) (sessions d) ->
  Frame ts t d (on_sessions f d).
Proof. intros Hts Hf tb. destruct tb; simpl; split; auto; congruence. Qed.

Lemma Frame_on_login_attempts (ts : Tbl -> bool) t f d :
  ts T_login_attempts = true ->
  select_where (fun r => foreign t (la_TenantID r)) (f (login_attempts d)) =
    select_where (fun r => foreign t (la_TenantID r)) (login_attempts d) ->
  Frame ts t d (on_login_attempts f d).
Proof. intros Hts Hf tb. destruct tb; simpl; split; auto; congruence. Qed.

(** ** The store operations *)

(** A row of the tenant itself is not foreign. *)
Ltac own_row := unfold foreign, foreign_opt; simpl; seqb_simpl; subst; by rewrite ?seqb_refl.

Ltac own_rows :=
  let r := fresh "r" in let Hr := fresh "Hr" in
  intros r Hr; unfold canonical_key, processed_key, outbound_key, source_event_key, retry_key,
    dead_key, conflict_key, job_key in Hr; seqb_simpl;
  match goal with
  | E : ?f r = ?t |- _ => split; unfold foreign; simpl; rewrite ?E, ?seqb_refl; reflexivity
  end.

(** The transaction of one operation, reduced to the rows of its table. *)
Ltac frame_tx lem :=
  apply OnTx_tx; [typeclasses eauto|];
  let now := fresh in let seq := fresh in let d := fresh "d" in
  let Hb := fresh "Hb" in
  intros now seq d ? ? Hb; cbv zeta in Hb; repeat case_match; simplify_eq; try reflexivity;
  try (apply lem; [done|]).

#[export] Hint Extern 1 (among _ _ = true) => reflexivity : pres.
#[export] Hint Extern 1 (PreOrder _) => typeclasses eauto : pres.

Section frames.
Context `{Outside}.
Implicit Types (ts : Tbl -> bool) (t : string).

Lemma GetCanonical_frame ts t a b : Pres (OnTx (Frame ts t)) (GetCanonical t a b).
Proof. apply OnTx_query. typeclasses eauto. Qed.
Lemma GetCanonicalByProvider_frame ts t a b c : Pres (OnTx (Frame ts t)) (GetCanonicalByProvider t a b c).
Proof. apply OnTx_query. typeclasses eauto. Qed.
Lemma GetCanonicalByEmail_frame ts t a b : Pres (OnTx (Frame ts t)) (GetCanonicalByEmail t a b).
Proof. apply OnTx_query. typeclasses eauto. Qed.
Lemma GetOutboundWrite_frame ts t a b c : Pres (OnTx (Frame ts t)) (GetOutboundWrite t a b c).
Proof. apply OnTx_query. typeclasses eauto. Qed.
Lemma ListPolicies_frame ts t : Pres (OnTx (Frame ts t)) (ListPolicies t).
Proof. apply OnTx_query. typeclasses eauto. Qed.
Lemma GetConnectionByProvider_frame ts t a : Pres (OnTx (Frame ts t)) (GetConnectionByProvider t a).
Proof. apply OnTx_query. typeclasses eauto. Qed.
Lemma GetReconciliationFinding_frame ts t a : Pres (OnTx (Frame ts t)) (GetReconciliationFinding t a).
Proof. apply OnTx_query. typeclasses eauto. Qed.
Lemma GetReconciliationRun_frame ts t a : Pres (OnTx (Frame ts t)) (GetReconciliationRun t a).
Proof. apply OnTx_query. typeclasses eauto. Qed.

Lemma AddProviderID_frame ts t a b c e :
  ts T_canonical_records = true -> Pres (OnTx (Frame ts t)) (AddProviderID t a b c e).
Proof.
  intros Hts. frame_tx Frame_on_canonical_records. apply select_update_where_out. own_rows.
Qed.

Lemma select_upsert_canonical t now id c l :
  cr_TenantID c = t ->
  select_where (fun r => foreign t (cr_TenantID r)) (upsert_canonical_row now id c l) =
  select_where (fun r => foreign t (cr_TenantID r)) l.
Proof.
  intros <-. apply select_upsert_out; [own_rows|own_row].
Qed.

Lemma UpsertCanonical_frame ts t c :
  cr_TenantID c = t -> ts T_canonical_records = true -> Pres (OnTx (Frame ts t)) (UpsertCanonical c).
Proof.
  intros Ht Hts. frame_tx Frame_on_canonical_records. by apply select_upsert_canonical.
Qed.

Lemma ClaimProcessedEvent_frame ts t a b c e :
  ts T_processed_events = true -> Pres (OnTx (Frame ts t)) (ClaimProcessedEvent t a b c e).
Proof.
  intros Hts. frame_tx Frame_on_processed_events.
  eapply select_insert_new_out; [|done]. own_row.
Qed.

Lemma ReleaseProcessedEvent_frame ts t a b :
  ts T_processed_events = true -> Pres (OnTx (Frame ts t)) (ReleaseProcessedEvent t a b).
Proof.
  intros Hts. frame_tx Frame_on_processed_events. apply select_delete_where_out.
  intros r Hr. unfold processed_key in Hr. own_row.
Qed.

Lemma select_upsert_outbound t now w l :
  ow_TenantID w = t ->
  select_where (fun r => foreign t (ow_TenantID r)) (upsert_outbound_row now w l) =
  select_where (fun r => foreign t (ow_TenantID r)) l.
Proof.
  intros <-. apply select_upsert_out; [own_rows|own_row].
Qed.

Lemma UpsertOutboundWrite_frame ts t w :
  ow_TenantID w = t -> ts T_outbound_writes = true -> Pres (OnTx (Frame ts t)) (UpsertOutboundWrite w).
Proof.
  intros Ht Hts. frame_tx Frame_on_outbound_writes. by apply select_upsert_outbound.
Qed.

Lemma InsertSyncOperation_frame ts t o :
  so_TenantID o = t -> ts T_sync_operations = true -> Pres (OnTx (Frame ts t)) (InsertSyncOperation o).
Proof.
  intros Ht Hts. frame_tx Frame_on_sync_operations. apply select_snoc_out. own_row.
Qed.

Lemma insert_operations_frame ts t now seq k ops d :
  Forall (fun o => so_TenantID o = t) ops -> ts T_sync_operations = true ->
  Frame ts t d (insert_operations now seq k ops d).
Proof.
  intros Ho Hts. revert k d. induction Ho as [|o ops Ho _ IH]; intros k d; simpl; [done|].
  etrans; [|apply IH]. apply Frame_on_sync_operations; [done|].
  apply select_snoc_out. own_row.
Qed.

Lemma outbound_fold_frame ts t now ws d :
  Forall (fun w => ow_TenantID w = t) ws -> ts T_outbound_writes = true ->
  Frame ts t d (foldl (fun d w => on_outbound_writes (upsert_outbound_row now w) d) d ws).
Proof.
  intros Hw Hts. revert d. induction Hw as [|w ws Hw _ IH]; intros d; simpl; [done|].
  etrans; [|apply IH]. apply Frame_on_outbound_writes; [done|]. by apply select_upsert_outbound.
Qed.

Lemma PersistApplyState_frame ts t c ws ops :
  cr_TenantID c = t -> Forall (fun w => ow_TenantID w = t) ws ->
  Forall (fun o => so_TenantID o = t) ops ->
  ts T_canonical_records = true -> ts T_outbound_writes = true ->
  ts T_sync_operations = true -> Pres (OnTx (Frame ts t)) (PersistApplyState c ws ops).
Proof.
  intros Hc Hw Ho H1 H2 H3. apply OnTx_tx; [typeclasses eauto|].
  intros now seq d a d' [= _ <-].
  etrans; [by apply (outbound_fold_frame ts t now)|].
  etrans; [by apply (insert_operations_frame ts t now seq 1 ops)|].
  apply Frame_on_canonical_records; [done|]. by apply select_upsert_canonical.
Qed.

Lemma SetSourceEventStatus_frame ts t a b c :
  ts T_source_events = true -> Pres (OnTx (Frame ts t)) (SetSourceEventStatus t a b c).
Proof.
  intros Hts. frame_tx Frame_on_source_events. apply select_update_where_out. own_rows.
Qed.

Lemma SetSourceEventStatusTo_frame ts t a b :
  ts T_source_events = true -> Pres (OnTx (Frame ts t)) (SetSourceEventStatusTo t a b).
Proof.
  intros Hts. frame_tx Frame_on_source_events. apply select_update_where_out. own_rows.
Qed.

Lemma EnqueueRetry_frame ts t e delay :
  rt_TenantID e = t -> ts T_retry_queue = true -> Pres (OnTx (Frame ts t)) (EnqueueRetry e delay).
Proof.
  intros <- Hts. frame_tx Frame_on_retry_queue. apply select_upsert_out; [own_rows|own_row].
Qed.

Lemma DeleteRetry_frame ts t a : ts T_retry_queue = true -> Pres (OnTx (Frame ts t)) (DeleteRetry t a).
Proof.
  intros Hts. frame_tx Frame_on_retry_queue. apply select_delete_where_out.
  intros r Hr. unfold retry_key in Hr. own_row.
Qed.

Lemma InsertDeadLetter_frame ts t e :
  dl_TenantID e = t -> ts T_dead_letter = true -> Pres (OnTx (Frame ts t)) (InsertDeadLetter e).
Proof.
  intros <- Hts. frame_tx Frame_on_dead_letter. apply select_upsert_out; [own_rows|own_row].
Qed.

Lemma ResolveDeadLetterForEvent_frame ts t a :
  ts T_dead_letter = true -> Pres (OnTx (Frame ts t)) (ResolveDeadLetterForEvent t a).
Proof.
  intros Hts. frame_tx Frame_on_dead_letter. apply select_update_where_out. own_rows.
Qed.

Lemma SetDeadLetterStatus_frame ts t a b :
  ts T_dead_letter = true -> Pres (OnTx (Frame ts t)) (SetDeadLetterStatus t a b).
Proof.
  intros Hts. frame_tx Frame_on_dead_letter. apply select_update_where_out. own_rows.
Qed.

Lemma InsertConflict_frame ts t c :
  co_TenantID c = t -> ts T_conflicts = true -> Pres (OnTx (Frame ts t)) (InsertConflict c).
Proof.
  intros <- Hts. frame_tx Frame_on_conflicts.
  eapply select_insert_new_out; [|done]. own_row.
Qed.

Lemma SetConflictStatus_frame ts t a b c e :
  ts T_conflicts = true -> Pres (OnTx (Frame ts t)) (SetConflictStatus t a b c e).
Proof.
  intros Hts. frame_tx Frame_on_conflicts. apply select_update_where_out. own_rows.
Qed.

Lemma SetReconciliationFindingStatus_frame ts t a b c :
  ts T_reconciliation_findings = true -> Pres (OnTx (Frame ts t)) (SetReconciliationFindingStatus t a b c).
Proof.
  intros Hts. frame_tx Frame_on_reconciliation_findings. apply select_update_where_out. own_rows.
Qed.
End frames.

#[export] Hint Resolve GetCanonical_frame GetCanonicalByProvider_frame GetCanonicalByEmail_frame
  GetOutboundWrite_frame ListPolicies_frame GetConnectionByProvider_frame
  GetReconciliationFinding_frame GetReconciliationRun_frame AddProviderID_frame
  UpsertCanonical_frame ClaimProcessedEvent_frame ReleaseProcessedEvent_frame
  UpsertOutboundWrite_frame InsertSyncOperation_frame PersistApplyState_frame
  SetSourceEventStatus_frame SetSourceEventStatusTo_frame EnqueueRetry_frame DeleteRetry_frame
  InsertDeadLetter_frame ResolveDeadLetterForEvent_frame SetDeadLetterStatus_frame
  InsertConflict_frame SetConflictStatus_frame SetReconciliationFindingStatus_frame : pres.
