(* ===== verification/Interleave.v ===== *)
(** * Runs whose transactions interleave

    [Interleaved] merges the logs of any number of runs into one history of the
    database, each run up to any point; what all transactions guarantee holds of
    the whole.  A
    resource that a transaction takes only when it is free, and that a run gives
    back only when it took it, is never held by two runs. *)

From S2P Require Import Prelude Json Tables Effects Store Frame.
Local Open Scope string_scope.

(** ** Histories *)

(** One history of the database, made of the transactions that the runs with
    logs [ls] commit in any order: [ls'] is what they have yet to commit, [d'] the
    database.  A run may stop anywhere. *)
Inductive Interleaved : list Log -> DB -> list Log -> DB -> Prop :=
| inter_nil ls d : Interleaved ls d ls d
| inter_turn ls i d a l ls' d' :
    ls !! i = Some ((d, a) :: l) -> Interleaved (<[i := l]> ls) a ls' d' -> Interleaved ls d ls' d'.

(** A run that has the database for itself. *)
Lemma Linked_interleaved `{Transport} (ls : list Log) i l d d' :
  ls !! i = Some l -> Linked d l d' -> Interleaved ls d (<[i := []]> ls) d'.
Proof.
  revert ls d. induction l as [|[a b] l IH]; intros ls d Hi; simpl.
  { intros ->. rewrite list_insert_id by done. constructor. }
  intros [[n ->] Hl]. rewrite tr_alone in Hi. apply (inter_turn _ i d b l); [done|].
  rewrite <- (list_insert_insert_eq ls i [] l). apply IH; [|done].
  apply list_lookup_insert_eq. by eapply lookup_lt_Some.
Qed.

Lemma interleaved_rel (R : DB -> DB -> Prop) `{!PreOrder R} ls d ls' d' :
  Interleaved ls d ls' d' -> Forall (Forall (fun e => R e.1 e.2)) ls -> R d d'.
Proof.
  induction 1 as [|ls i d a l ls' d' Hi _ IH]; intros HF; [done|].
  pose proof (Forall_lookup_1 _ _ _ _ HF Hi) as [He Hl]%Forall_cons. simpl in He.
  etrans; [exact He|]. apply IH. by apply Forall_insert.
Qed.

(** What a transaction of a run that has ended brought about, and no transaction
    undoes, is so at the end. *)
Lemma interleaved_stable (R : DB -> DB -> Prop) `{!PreOrder R} (Q : DB -> Prop) ls d ls' d' i li e :
  (forall d1 d2, R d1 d2 -> Q d1 -> Q d2) -> Interleaved ls d ls' d' ->
  Forall (Forall (fun e => R e.1 e.2)) ls ->
  ls !! i = Some li -> ls' !! i = Some [] -> e ∈ li -> Q e.2 -> Q d'.
Proof.
  intros HQ HI. revert li. induction HI as [ls d|ls n d a l ls' d' Hn HI IH]; intros li HF Hi He Hin Hq.
  { simplify_eq. by apply not_elem_of_nil in Hin. }
  assert (HF' : Forall (Forall (fun e => R e.1 e.2)) (<[n := l]> ls)).
  { apply Forall_insert; [done|]. eapply Forall_cons, (Forall_lookup_1 _ _ _ _ HF Hn). }
  destruct (decide (i = n)) as [->|Hne].
  - rewrite Hn in Hi. injection Hi as <-. apply elem_of_cons in Hin as [->|Hin].
    + eapply HQ; [by eapply (interleaved_rel R)|exact Hq].
    + eapply IH; [done|apply list_lookup_insert_eq; by eapply lookup_lt_Some|done..].
  - eapply IH; [done|by rewrite list_lookup_insert_ne|done..].
Qed.

(** A history by its schedule: which run takes each turn. *)
Fixpoint play (sched : list nat) (ls : list Log) (d : DB) : list Log * DB :=
  match sched with
  | [] => (ls, d)
  | i :: sched =>
      match ls !! i with
      | Some ((_, a) :: l) => play sched (<[i := l]> ls) a
      | _ => (ls, d)
      end
  end.

(** Each turn finds the database the turn before it left. *)
Fixpoint fits (sched : list nat) (ls : list Log) (d : DB) : bool :=
  match sched with
  | [] => true
  | i :: sched =>
      match ls !! i with
      | Some ((d0, a) :: l) => bool_decide (d0 = d) && fits sched (<[i := l]> ls) a
      | _ => false
      end
  end.

Lemma fits_interleaved sched ls d :
  fits sched ls d = true -> Interleaved ls d (play sched ls d).1 (play sched ls d).2.
Proof.
  revert ls d. induction sched as [|i sched IH]; intros ls d; simpl; [constructor|].
  destruct (ls !! i) as [[|[d0 a] l]|] eqn:Ei; [done| |done].
  intros [->%bool_decide_eq_true Hf]%andb_prop. eapply inter_turn; [exact Ei|by apply IH].
Qed.

(** ** A resource in the database *)

Section resource.
Context {K : Type} (has : K -> DB -> Prop).

Definition takes (k : K) (e : DB * DB) : Prop := ~ has k e.1 /\ has k e.2.
Definition releases (k : K) (e : DB * DB) : Prop := has k e.1 /\ ~ has k e.2.

(** Who holds [k] after the transaction [e] of a run that held [H]. *)
Definition after (H : K -> Prop) (e : DB * DB) (k : K) : Prop := (H k /\ ~ releases k e) \/ takes k e.

(** A run that holds [H] releases nothing it does not hold. *)
Fixpoint Owned (H : K -> Prop) (l : Log) : Prop :=
  match l with
  | [] => True
  | e :: l => (forall k, releases k e -> H k) /\ Owned (after H e) l
  end.

Definition nothing : K -> Prop := fun _ => False.

Lemma Owned_mono (H H' : K -> Prop) l : (forall k, H k -> H' k) -> Owned H l -> Owned H' l.
Proof.
  revert H H'. induction l as [|e l IH]; intros H H' HH; simpl; [done|]. intros [He Hl]. split; [by eauto|].
  eapply IH; [|exact Hl]. intros k [[Hk Hr]|Ht]; [left; by eauto|by right].
Qed.

Lemma Owned_app H l1 l2 : Owned H l1 -> Owned nothing l2 -> Owned H (l1 ++ l2)%list.
Proof.
  revert H. induction l1 as [|e l1 IH]; intros H; simpl.
  { intros _ Hl2. eapply Owned_mono; [|exact Hl2]. by intros k []. }
  intros [He Hl] Hl2. split; [done|by apply IH].
Qed.

Lemma Owned_free H l : Forall (fun e => forall k, ~ releases k e) l -> Owned H l.
Proof.
  intros HF. revert H. induction HF as [|e l He _ IH]; intros H; simpl; [done|].
  split; [|apply IH]. intros k Hk. by destruct (He k).
Qed.

Lemma Owned_skip H l1 l2 :
  Forall (fun e => forall k, ~ releases k e) l1 -> Owned H l2 -> Owned H (l1 ++ l2)%list.
Proof.
  intros HF. revert H. induction HF as [|e l He _ IH]; intros H Hl; simpl; [done|].
  split; [by intros k Hk; destruct (He k)|]. apply IH. eapply Owned_mono; [|exact Hl].
  intros k Hk. left. by split.
Qed.

(** What the runs of a history hold, at one point of it. *)
Record Holding (H : nat -> K -> Prop) (ls : list Log) (d : DB) : Prop := mkHolding {
  hold_owned i l : ls !! i = Some l -> Owned (H i) l;
  hold_excl i j k : H i k -> H j k -> i = j;
  hold_has i k : H i k -> has k d;
}.

Definition turn (H : nat -> K -> Prop) (i : nat) (e : DB * DB) (j : nat) : K -> Prop :=
  if decide (j = i) then after (H i) e else H j.

Lemma turn_self H i e : turn H i e i = after (H i) e.
Proof. unfold turn. by rewrite decide_True. Qed.
Lemma turn_other H i e j : j <> i -> turn H i e j = H j.
Proof. intros Hj. unfold turn. by rewrite decide_False. Qed.

Lemma after_cases H i e j k : turn H i e j k -> H j k \/ (j = i /\ takes k e).
Proof.
  destruct (decide (j = i)) as [->|Hj]; [|rewrite turn_other; auto].
  rewrite turn_self. intros [[? _]|?]; auto.
Qed.

Context {Hdec : forall k d, Decision (has k d)}.

Lemma Holding_turn H ls i d a l :
  ls !! i = Some ((d, a) :: l) -> Holding H ls d -> Holding (turn H i (d, a)) (<[i := l]> ls) a.
Proof.
  intros Hi [Ho He Hh]. pose proof (Ho _ _ Hi) as [Hrel Hl]. constructor.
  - intros j l' Hj. destruct (decide (j = i)) as [->|Hne].
    + rewrite list_lookup_insert_eq in Hj by (by eapply lookup_lt_Some). simplify_eq. by rewrite turn_self.
    + rewrite list_lookup_insert_ne in Hj by done. rewrite turn_other by done. by apply Ho.
  - intros j1 j2 k H1 H2. destruct (after_cases _ _ _ _ _ H1) as [K1|[-> [N1 _]]];
      destruct (after_cases _ _ _ _ _ H2) as [K2|[-> [N2 _]]]; [by eapply He| | |done].
    + by destruct (N2 (Hh _ _ K1)).
    + by destruct (N1 (Hh _ _ K2)).
  - intros j k Hj. destruct (decide (has k a)) as [|Hna]; [done|]. exfalso.
    destruct (after_cases _ _ _ _ _ Hj) as [Kj|[-> [_ ?]]]; [|done].
    assert (releases k (d, a)) as Hr by (split; [by eapply Hh|done]).
    assert (j = i) as -> by (eapply He; [exact Kj|by apply Hrel]).
    rewrite turn_self in Hj. destruct Hj as [[_ ?]|[_ ?]]; done.
Qed.

Lemma Holding_start ls d : Forall (Owned nothing) ls -> Holding (fun _ => nothing) ls d.
Proof. intros HF. constructor; [|done|done]. intros i l Hi. by eapply Forall_lookup_1 in HF. Qed.

(** What no run holds stays. *)
Lemma interleaved_free ls d ls' d' H k :
  Interleaved ls d ls' d' -> Holding H ls d -> has k d -> (forall i, ~ H i k) -> has k d'.
Proof.
  intros HI. revert H. induction HI as [|ls i d a l ls' d' Hi _ IH]; intros H HH Hk Hf; [done|].
  apply (IH _ (Holding_turn _ _ _ _ _ _ Hi HH)).
  - destruct (decide (has k a)) as [|Hn]; [done|]. exfalso. apply (Hf i).
    pose proof (hold_owned _ _ _ HH _ _ Hi) as [Hr _]. by apply Hr.
  - intros j Hj. destruct (after_cases _ _ _ _ _ Hj) as [?|[_ [? _]]]; [by eapply Hf|done].
Qed.

Lemma interleaved_has ls d ls' d' k :
  Interleaved ls d ls' d' -> Forall (Owned nothing) ls -> has k d -> has k d'.
Proof.
  intros HI HF Hk. apply (interleaved_free ls d ls' d' (fun _ => nothing)); [done|by apply Holding_start|done|].
  by intros i [].
Qed.

(** A run that takes [k], first thing, and keeps it. *)
Definition Keeps (k : K) (l : Log) : Prop :=
  exists e r, l = e :: r /\ takes k e /\ Forall (fun e => ~ releases k e) r.

Definition Keeping (k : K) (H : K -> Prop) (l : Log) : Prop :=
  (H k /\ Forall (fun e => ~ releases k e) l) \/ Keeps k l.

Lemma Keeping_turn k H (ls : list Log) i d a l j lj :
  ls !! i = Some ((d, a) :: l) -> ls !! j = Some lj -> Keeping k (H j) lj ->
  exists lj', <[i := l]> ls !! j = Some lj' /\ Keeping k (turn H i (d, a) j) lj'.
Proof.
  intros Hi Hj HK. destruct (decide (j = i)) as [->|Hne].
  - rewrite Hi in Hj. injection Hj as <-. exists l. rewrite list_lookup_insert_eq by (by eapply lookup_lt_Some). split; [done|].
    rewrite turn_self. left. destruct HK as [[Hk [Hn Hl]%Forall_cons]|(e & r & [= <- <-] & Ht & Hl)].
    + split; [by left|done].
    + split; [by right|done].
  - exists lj. rewrite list_lookup_insert_ne by done. by rewrite turn_other.
Qed.

(** A run that has ended and kept [k] holds it. *)
Lemma interleaved_holding ls d ls' d' H k :
  Interleaved ls d ls' d' -> Holding H ls d ->
  exists H', Holding H' ls' d' /\
    forall i li, ls !! i = Some li -> Keeping k (H i) li -> ls' !! i = Some [] -> H' i k.
Proof.
  intros HI. revert H. induction HI as [ls d|ls n d a l ls' d' Hn _ IH]; intros H HH.
  - exists H. split; [done|]. intros i li Hi HK He. simplify_eq. destruct HK as [[? _]|(? & ? & ? & _)]; done.
  - destruct (IH _ (Holding_turn _ _ _ _ _ _ Hn HH)) as (H' & HH' & HK'). exists H'. split; [done|].
    intros i li Hi HK He. destruct (Keeping_turn _ _ _ _ _ _ _ _ _ Hn Hi HK) as (li' & Hi' & HK2). by eapply HK'.
Qed.

Lemma interleaved_keeps ls d ls' d' i k li :
  Interleaved ls d ls' d' -> Forall (Owned nothing) ls ->
  ls !! i = Some li -> Keeps k li -> ls' !! i = Some [] -> has k d'.
Proof.
  intros HI HF Hi HK He. destruct (interleaved_holding _ _ _ _ _ k HI (Holding_start ls d HF)) as (H' & HH & HK').
  eapply hold_has; [exact HH|]. eapply HK'; [exact Hi|by right|done].
Qed.

(** Two runs that have ended cannot both have taken and kept [k]. *)
Lemma interleaved_once ls d ls' d' i j k li lj :
  Interleaved ls d ls' d' -> Forall (Owned nothing) ls ->
  ls !! i = Some li -> ls !! j = Some lj -> Keeps k li -> Keeps k lj ->
  ls' !! i = Some [] -> ls' !! j = Some [] -> i = j.
Proof.
  intros HI HF Hi Hj Ki Kj Ei Ej.
  destruct (interleaved_holding _ _ _ _ _ k HI (Holding_start ls d HF)) as (H' & HH & HK').
  eapply (hold_excl _ _ _ HH); [eapply HK'; [exact Hi|by right|done]|eapply HK'; [exact Hj|by right|done]].
Qed.
End resource.
