(* ===== verification/Connectors.v ===== *)
(** * [internal/connectors]: the provider client and its error classification

    [Client.Do] on top of the transport, the classification of responses and
    errors, and the interface of an adapter: a record of operations
    ([Adapter]) with the laws its users rely on ([LawfulAdapter]).  Timeouts
    and the client-side rate limiter only delay a request or turn it into a
    transport failure, which the transport may answer at any time.  The texts
    of errors of net/http come from the transport; the text of a decoding error
    is a fixed placeholder. *)

From S2P Require Import Prelude Json GoTime Float64 Events Model Tables Effects Store Frame.
Local Open Scope string_scope.

(** [connectors.Classify]; a nil error is classified by nobody. *)
Definition Classify (e : error) : ErrorKind * Z :=
  match e with
  | ConnError k _ ra _ => (k, ra)
  | _ => (ErrUnknown, 0%Z)
  end.

(** [connectors.ShouldRetry]. *)
Definition ShouldRetry (k : ErrorKind) : bool :=
  match k with
  | ErrTransient | ErrRateLimited | ErrConflict | KErrNotFound | ErrUnknown => true
  | ErrPermanent | ErrAuth | ErrSchema => false
  end.

(** [connectors.IsKind]. *)
Definition IsKind (e : error) (k : ErrorKind) : bool :=
  match e with ConnError k' _ _ _ => bool_decide (k' = k) | _ => false end.

(** [connectors.NewError] without a wrapped error. *)
Definition NewError (k : ErrorKind) (msg : string) : error := ConnError k msg 0 None.

(** ** Numbers in texts *)

Fixpoint parse_nat (acc : Z) (s : string) : option Z :=
  match s with
  | "" => Some acc
  | String c s =>
      match digit_val c with Some d => parse_nat (acc * 10 + d) s | None => None end
  end.

Definition in_range (o : option Z) : option Z :=
  match o with Some n => if in_int64 n then Some n else None | None => None end.

(** [strconv.Atoi] and [strconv.ParseInt(s, 10, 64)]. *)
Definition atoi (s : string) : option Z :=
  match s with
  | "" => None
  | String "-" "" | String "+" "" => None
  | String "-" s => in_range (Z.opp <$> parse_nat 0 s)
  | String "+" s => in_range (parse_nat 0 s)
  | s => in_range (parse_nat 0 s)
  end.

(** [int64(v)] of the [float64] that [encoding/json] makes of the integer [n]: it
    is rounded to 53 significant bits (and, on amd64, is the least [int64] when out
    of range). *)
Definition int64_of_float (n : Z) : Z := let r := rne n 1 in if in_int64 r then r else int64_min.

(** ** Responses *)

(** [http.StatusText] on the statuses a provider answers with. *)
Definition StatusText (code : Z) : string :=
  match code with
  | 300%Z => "Multiple Choices" | 301%Z => "Moved Permanently" | 302%Z => "Found"
  | 303%Z => "See Other" | 304%Z => "Not Modified" | 307%Z => "Temporary Redirect"
  | 308%Z => "Permanent Redirect" | 400%Z => "Bad Request" | 401%Z => "Unauthorized"
  | 402%Z => "Payment Required" | 403%Z => "Forbidden" | 404%Z => "Not Found"
  | 405%Z => "Method Not Allowed" | 406%Z => "Not Acceptable"
  | 407%Z => "Proxy Authentication Required" | 408%Z => "Request Timeout"
  | 409%Z => "Conflict" | 410%Z => "Gone" | 411%Z => "Length Required"
  | 412%Z => "Precondition Failed" | 413%Z => "Request Entity Too Large"
  | 414%Z => "Request URI Too Long" | 415%Z => "Unsupported Media Type"
  | 416%Z => "Requested Range Not Satisfiable" | 417%Z => "Expectation Failed"
  | 418%Z => "I'm a teapot" | 421%Z => "Misdirected Request" | 422%Z => "Unprocessable Entity"
  | 423%Z => "Locked" | 424%Z => "Failed Dependency" | 425%Z => "Too Early"
  | 426%Z => "Upgrade Required" | 428%Z => "Precondition Required"
  | 429%Z => "Too Many Requests" | 431%Z => "Request Header Fields Too Large"
  | 451%Z => "Unavailable For Legal Reasons" | 500%Z => "Internal Server Error"
  | 501%Z => "Not Implemented" | 502%Z => "Bad Gateway" | 503%Z => "Service Unavailable"
  | 504%Z => "Gateway Timeout" | 505%Z => "HTTP Version Not Supported"
  | 506%Z => "Variant Also Negotiates" | 507%Z => "Insufficient Storage"
  | 508%Z => "Loop Detected" | 510%Z => "Not Extended"
  | 511%Z => "Network Authentication Required"
  | 305%Z => "Use Proxy"
  | _ => ""
  end.

(** [connectors.classifyError]. *)
Definition classifyError (status : Z) (retry_after text : string) : error :=
  let msg := if text =s "" then StatusText status else text in
  match status with
  | 429%Z =>
      let ra := match atoi retry_after with
                | Some sec => wrap64 (sec * 1000000000)
                | None => 0%Z
                end in
      ConnError ErrRateLimited ("provider rate limited: " +:+ msg) ra None
  | 401%Z | 403%Z => NewError ErrAuth ("provider auth failed: " +:+ msg)
  | 404%Z => NewError KErrNotFound ("resource not found: " +:+ msg)
  | 400%Z | 422%Z => NewError ErrSchema ("provider rejected request: " +:+ msg)
  | 409%Z => NewError ErrConflict ("provider reported conflict: " +:+ msg)
  | 500%Z | 502%Z | 503%Z | 504%Z => NewError ErrTransient ("provider transient error: " +:+ msg)
  | _ => NewError ErrUnknown ("unexpected status " +:+ pretty status +:+ ": " +:+ msg)
  end.

(** [connectors.ProviderRecord]. *)
Record ProviderRecord := mkProviderRecord {
  rec_ID : string; rec_SourceVersion : Z; rec_Deleted : bool; rec_Data : Fields;
}.

(** [connectors.ListOptions]; a zero [Since] is [time_zero]. *)
Record ListOptions := mkListOptions { lo_Cursor : string; lo_Limit : Z; lo_Since : Z }.

(** [connectors.Page]. *)
Record Page := mkPage {
  pg_Records : list ProviderRecord; pg_NextCursor : string; pg_HasMore : bool;
}.

(** [connectors.Health]. *)
Record Health := mkHealth { he_Status : string; he_Records : Z }.

(** [connectors.Client]: the parts the requests depend on. *)
Record Client := mkClient { cl_BaseURL : string }.

Section client.
Context `{Outside}.

(** [Client.Do]; [out] decodes the body of a 2xx response. *)
Definition Do {A} (c : Client) (method path : string) (body : option Json)
    (out : option Json -> option A) : M A :=
  resp ← http (mkHttpReq method (cl_BaseURL c) path body);
  match resp with
  | HttpBuildErr text => throw (ConnError ErrUnknown "build request" 0 (Some text))
  | HttpErr text => throw (ConnError ErrTransient "http request" 0 (Some text))
  | HttpResp status retry_after text b =>
      if (200 <=? status)%Z && (status <? 300)%Z then
        match out b with
        | Some a => mret a
        | None => throw (ConnError ErrSchema "decode response body" 0 (Some "invalid body"))
        end
      else throw (classifyError status retry_after text)
  end.

(** The [out] arguments: nil, a [map[string]any], a struct. *)
Definition discard (b : option Json) : option unit := Some tt.
Definition into_map (b : option Json) : option Fields :=
  match b with
  | Some JNull => Some ∅
  | Some j => as_object j
  | None => None
  end.
Definition into_struct {A} (dec : list (string * Json) -> option A) (b : option Json) : option A :=
  match b with
  | Some (JObj kvs) => dec kvs
  | Some JNull => dec []
  | _ => None
  end.

(** [connectors.Adapter] (with [Connector]). *)
Record Adapter := mkAdapter {
  ad_Name : string;
  ad_CanonicalEntityType : string;
  ad_HealthCheck : M Health;
  ad_List : ListOptions -> M Page;
  ad_Get : string -> M ProviderRecord;
  ad_Create : ProviderRecord -> M ProviderRecord;
  ad_Update : string -> ProviderRecord -> M ProviderRecord;
  ad_Delete : string -> M unit;
  ad_Normalize : ProviderRecord -> Customer;
  ad_Denormalize : Customer -> ProviderRecord;
  ad_Validate : ProviderRecord -> option error;
}.

(** ** Requests as an observation *)

(** Every request made is one that [P] allows. *)
Definition CallsIn (P : HttpReq -> Prop) (s s' : St) : Prop :=
  exists l, st_calls s' = (st_calls s ++ l)%list /\ Forall P l.

#[global] Instance CallsIn_preorder P : PreOrder (CallsIn P).
Proof.
  split.
  - intros s. exists []. by rewrite app_nil_r.
  - intros s1 s2 s3 (l1 & E1 & H1) (l2 & E2 & H2). exists (l1 ++ l2)%list.
    rewrite E2, E1, <- app_assoc. split; [done|]. by apply Forall_app.
Qed.

Lemma CallsIn_tx P {A} (body : Z -> nat -> DB -> Res A * DB) : Pres (CallsIn P) (tx body).
Proof.
  intros s. exists []. split; [|done]. rewrite app_nil_r. unfold tx.
  destruct (head (st_faults s)) as [[]|]; simpl; try done;
    by destruct (body _ _ _) as [[]].
Qed.

Lemma CallsIn_http (P : HttpReq -> Prop) rq : P rq -> Pres (CallsIn P) (http rq).
Proof.
  intros HP s. unfold http. destruct (http_step _ _). exists [rq]. by split; [|constructor].
Qed.

Lemma CallsIn_same P {A} (m : M A) : (forall s, st_calls (m s).2 = st_calls s) -> Pres (CallsIn P) m.
Proof. intros Hm s. exists []. by rewrite Hm, app_nil_r. Qed.

Lemma CallsIn_metric P n : Pres (CallsIn P) (metric n).
Proof. by apply CallsIn_same. Qed.
Lemma CallsIn_draw P : Pres (CallsIn P) draw.
Proof. by apply CallsIn_same. Qed.

Lemma Do_pres (R : St -> St -> Prop) `{!PreOrder R} {A} c method path body
    (out : option Json -> option A) :
  (forall rq, rq_base rq = cl_BaseURL c -> Pres R (http rq)) ->
  Pres R (Do c method path body out).
Proof. intros HR. unfold Do. apply Pres_bind; [done|by apply HR|]. intros r _. pres. Qed.

Lemma Do_get (R : St -> St -> Prop) `{!PreOrder R} {A} c path body
    (out : option Json -> option A) :
  (forall rq, rq_base rq = cl_BaseURL c -> rq_method rq = "GET" -> Pres R (http rq)) ->
  Pres R (Do c "GET" path body out).
Proof. intros HR. unfold Do. apply Pres_bind; [done|by apply HR|]. intros r _. pres. Qed.

Lemma Do_single {A} c method path body (out : option Json -> option A) s :
  st_calls (Do c method path body out s).2
  = (st_calls s ++ [mkHttpReq method (cl_BaseURL c) path body])%list.
Proof.
  unfold Do, http, mbind, M_bind.
  destruct (http_step _ _) as [w [| |status ra text b]]; simpl;
    try (destruct (_ && _); [destruct (out b)|]; simpl); done.
Qed.

(** What the worker relies on: an adapter acts through requests to its own
    base URL only (so whatever these preserve, its operations do), a write is one
    request that carries the record's data to the collection or to the member named,
    reads are [GET] requests, a created record has an id, and writing a customer and
    reading the written fields back gives the customer. *)
Class LawfulAdapter (base : string) (a : Adapter) : Prop := {
  law_step (R : St -> St -> Prop) `{!PreOrder R} :
    (forall rq, rq_base rq = base -> Pres R (http rq)) ->
    Pres R (ad_HealthCheck a) /\ (forall o, Pres R (ad_List a o)) /\
    (forall i, Pres R (ad_Get a i)) /\ (forall r, Pres R (ad_Create a r)) /\
    (forall i r, Pres R (ad_Update a i r)) /\ (forall i, Pres R (ad_Delete a i));
  law_roundtrip id v c :
    let data := rec_Data (ad_Denormalize a c) in
    cust_view (ad_Normalize a (mkProviderRecord id v false data)) = cust_view c;
  law_identity rec : cu_EntityID (ad_Normalize a rec) = rec_ID rec;
  law_created rec r : Returns (ad_Create a rec) r -> rec_ID r <> "";
  law_writes : exists path, forall s,
    (forall r, st_calls (ad_Create a r s).2 =
       (st_calls s ++ [mkHttpReq "POST" base path (Some (of_fields (rec_Data r)))])%list) /\
    (forall i r, st_calls (ad_Update a i r s).2 =
       (st_calls s ++ [mkHttpReq "PATCH" base (path +:+ "/" +:+ i) (Some (of_fields (rec_Data r)))])%list) /\
    (forall i, st_calls (ad_Delete a i s).2 =
       (st_calls s ++ [mkHttpReq "DELETE" base (path +:+ "/" +:+ i) None])%list);
  law_reads (R : St -> St -> Prop) `{!PreOrder R} :
    (forall rq, rq_base rq = base -> rq_method rq = "GET" -> Pres R (http rq)) ->
    Pres R (ad_HealthCheck a) /\ (forall o, Pres R (ad_List a o)) /\
    (forall i, Pres R (ad_Get a i));
}.

Lemma law_single base a `{!LawfulAdapter base a} s :
  (forall r, length (st_calls (ad_Create a r s).2) = S (length (st_calls s))) /\
  (forall i r, length (st_calls (ad_Update a i r s).2) = S (length (st_calls s))) /\
  (forall i, length (st_calls (ad_Delete a i s).2) = S (length (st_calls s))).
Proof.
  destruct (law_writes (base:=base) (a:=a)) as [path L]. destruct (L s) as (Lc & Lu & Ld).
  split_and!; intros; rewrite ?Lc, ?Lu, ?Ld, length_app; simpl; lia.
Qed.
End client.

#[export] Hint Resolve CallsIn_tx CallsIn_metric CallsIn_draw : pres.
