(* ===== verification/Run.v ===== *)
(** * Runs: inverting the execution of a handler

    Lemmas and tactics that take a run [m s = (r, s')] apart along the
    structure of [m], and [Quiet], the preorder of runs that change neither the
    database nor the outside world. *)

From S2P Require Import Prelude Json Tables Effects Store Frame Connectors.
Local Open Scope string_scope.

Section run.
Context `{Outside}.

Lemma run_bind {A B} (m : M A) (k : A -> M B) s r s' :
  (m ≫= k) s = (r, s') ->
  (exists e, m s = (Err e, s') /\ r = Err e) \/ (exists a s1, m s = (Ok a, s1) /\ k a s1 = (r, s')).
Proof.
  unfold mbind, M_bind. destruct (m s) as [[a|e] s1] eqn:E; intros Hr.
  - right. eauto.
  - left. exists e. by simplify_eq.
Qed.

Lemma run_attempt {A} (m : M A) s r s' :
  attempt m s = (r, s') -> exists x, m s = (x, s') /\ r = Ok x.
Proof. unfold attempt. destruct (m s) as [x s1]. intros [= <- <-]. by exists x. Qed.

Lemma run_ignore {A} (m : M A) s r s' :
  ignore m s = (r, s') -> exists x, m s = (x, s') /\ r = Ok tt.
Proof. unfold ignore. destruct (m s) as [x s1]. intros [= <- <-]. by exists x. Qed.

Lemma run_ret {A} (a : A) s r s' : (mret a : M A) s = (r, s') -> r = Ok a /\ s' = s.
Proof. by intros [= <- <-]. Qed.

Lemma run_throw {A} e s r s' : throw (A:=A) e s = (r, s') -> r = Err e /\ s' = s.
Proof. by intros [= <- <-]. Qed.

(** Steps that always return a value. *)
Definition add_metric (n : string) (s : St) : St := (metric n s).2.

Lemma bind_metric {B} n (k : unit -> M B) s : (metric n ≫= k) s = k tt (add_metric n s).
Proof. done. Qed.

Lemma run_metric n s r s' : metric n s = (r, s') -> r = Ok tt /\ s' = add_metric n s.
Proof. by intros [= <- <-]. Qed.

Lemma bind_attempt {A B} (m : M A) (k : Res A -> M B) s :
  (attempt m ≫= k) s = k (m s).1 (m s).2.
Proof. unfold attempt, mbind, M_bind. by destruct (m s). Qed.

Lemma bind_ignore {A B} (m : M A) (k : unit -> M B) s : (ignore m ≫= k) s = k tt (m s).2.
Proof. unfold ignore, mbind, M_bind. by destruct (m s). Qed.

(** A transaction commits, rolls back, or is hit by a fault; in every case
    the world is left alone. *)
Definition SameWorld (s s' : St) : Prop :=
  st_calls s' = st_calls s /\ st_published s' = st_published s /\
  st_world s' = st_world s /\ st_now s' = st_now s.

Lemma SameWorld_tx {A} (body : Z -> nat -> DB -> Res A * DB) : Pres SameWorld (tx body).
Proof.
  intros s. unfold tx. destruct (head (st_faults s)) as [[]|]; simpl; try done; by destruct (body _ _ _) as [[]].
Qed.
End run.

(** ** Quiet runs *)

Section quiet.
Context `{Transport}.

Definition Quiet (s s' : St) : Prop :=
  st_db s' = st_db s /\ st_calls s' = st_calls s /\ st_published s' = st_published s /\
  st_world s' = st_world s /\ st_now s' = st_now s.

#[global] Instance Quiet_preorder : PreOrder Quiet.
Proof. split; unfold Quiet; [by intros s|]. intros s1 s2 s3. intuition congruence. Qed.

Lemma Quiet_query {A} (f : DB -> Res A) : Pres Quiet (query f).
Proof.
  intros s. unfold Quiet, query, tx. rewrite tr_alone.
  destruct (head (st_faults s)) as [[]|]; simpl; try done; by destruct (f (st_db s)).
Qed.

Lemma Quiet_add_metric n s : Quiet s (add_metric n s).
Proof. done. Qed.

Lemma Quiet_metric n : Pres Quiet (metric n).
Proof. by intros s. Qed.
Lemma Quiet_draw : Pres Quiet draw.
Proof. by intros s. Qed.

(** A query answers from the database, or fails. *)
Lemma run_query {A} (f : DB -> Res A) s r s' :
  query f s = (r, s') -> Quiet s s' /\ (r = f (st_db s) \/ r = Err ErrDB).
Proof.
  intros E. pose proof (Quiet_query f s) as Q. rewrite E in Q. split; [done|].
  unfold query, tx in E. rewrite tr_alone in E.
  destruct (head (st_faults s)) as [[]|]; simplify_eq; auto; destruct (f (st_db s));
    simplify_eq; auto.
Qed.

Lemma run_tx {A} (body : Z -> nat -> DB -> Res A * DB) s r s' :
  tx body s = (r, s') ->
  SameWorld s s' /\
  ((exists a d, body (st_now s) (st_seq s) (st_db s) = (Ok a, d) /\ st_db s' = d /\
                (r = Ok a \/ r = Err ErrDB)) \/
   (st_db s' = st_db s /\ exists e, r = Err e)).
Proof.
  unfold tx, SameWorld. rewrite tr_alone. intros E.
  destruct (body _ _ _) as [[a|e] d]; destruct (head (st_faults s)) as [[]|]; simplify_eq/=;
    (split; [done|]);
    first [left; exists a, d; by auto | right; split; [done|by eexists]].
Qed.

(** With no fault ahead a transaction does what its statements say. *)
Lemma calm_tx {A} (body : Z -> nat -> DB -> Res A * DB) s :
  st_faults s = [] ->
  exists s', tx body s = ((body (st_now s) (st_seq s) (st_db s)).1, s') /\ SameWorld s s' /\
    st_faults s' = [] /\
    st_db s' = (match body (st_now s) (st_seq s) (st_db s) with
                | (Ok _, d) => d
                | (Err _, _) => st_db s
                end).
Proof.
  intros Hs. unfold tx, SameWorld. rewrite Hs, tr_alone. simpl.
  destruct (body _ _ _) as [[a|e] d]; eexists; by repeat split.
Qed.

Lemma calm_query {A} (f : DB -> Res A) s :
  st_faults s = [] ->
  exists s', query f s = (f (st_db s), s') /\ st_db s' = st_db s /\ SameWorld s s' /\
    st_faults s' = [].
Proof.
  intros Hs. destruct (calm_tx (fun _ _ d => (f d, d)) s Hs) as (s' & E & HW & Hf & Hd).
  exists s'. split; [exact E|]. split; [|done]. rewrite Hd. by destruct (f (st_db s)).
Qed.
End quiet.

#[export] Hint Resolve Quiet_query Quiet_metric Quiet_draw : pres.

(** Handlers that always return a value, because they handle every error. *)
Section total.
Context `{Outside}.

Definition Total {A} (m : M A) : Prop := forall s, exists a, (m s).1 = Ok a.

Lemma Total_ret {A} (a : A) : Total (mret a).
Proof. intros s. by exists a. Qed.
Lemma Total_attempt {A} (m : M A) : Total (attempt m).
Proof. intros s. unfold attempt. destruct (m s) as [r s']. by exists r. Qed.
Lemma Total_ignore {A} (m : M A) : Total (ignore m).
Proof. intros s. unfold ignore. destruct (m s) as [r s']. by exists tt. Qed.
Lemma Total_now : Total now.
Proof. intros s. by exists (st_now s). Qed.
Lemma Total_metric n : Total (metric n).
Proof. intros s. by exists tt. Qed.
Lemma Total_bind {A B} (m : M A) (k : A -> M B) :
  Total m -> (forall a, Total (k a)) -> Total (m ≫= k).
Proof.
  intros Hm Hk s. unfold mbind, M_bind. destruct (Hm s) as [a Ha].
  destruct (m s) as [r s']. simpl in Ha. subst r. apply Hk.
Qed.
End total.

Create HintDb total discriminated.
#[export] Hint Resolve Total_ret Total_attempt Total_ignore Total_now Total_metric : total.
Ltac total :=
  repeat match goal with
  | |- Total (mbind _ _) => apply Total_bind; [|intros ?]
  | |- Total (match ?x with _ => _ end) => destruct x
  | |- Total (let (_, _) := ?x in _) => destruct x
  | |- _ => solve [eauto with total]
  end.

(** Take the run in hypothesis [E] apart by one step. *)
Ltac run_step E :=
  match type of E with
  | (metric _ ≫= _) _ = _ => rewrite bind_metric in E
  | (attempt ?m ≫= _) ?s = _ =>
      let x := fresh "x" in let s1 := fresh "s" in
      rewrite bind_attempt in E; destruct (m s) as [x s1] eqn:?; cbn [fst snd] in E
  | (ignore ?m ≫= _) ?s = _ =>
      let x := fresh "x" in let s1 := fresh "s" in
      rewrite bind_ignore in E; destruct (m s) as [x s1] eqn:?; cbn [fst snd] in E
  | (_ ≫= _) _ = _ =>
      let e := fresh "e" in let a := fresh "a" in let s1 := fresh "s" in
      apply run_bind in E; destruct E as [(e & E & ?)|(a & s1 & ? & E)]
  | metric _ _ = _ => apply run_metric in E as [? ?]
  | attempt _ _ = _ => let x := fresh "x" in apply run_attempt in E as (x & E & ?)
  | ignore _ _ = _ => let x := fresh "x" in apply run_ignore in E as (x & E & ?)
  | mret _ _ = _ => apply run_ret in E as [? ?]
  | throw _ _ = _ => apply run_throw in E as [? ?]
  | (match ?x with _ => _ end) _ = _ => destruct x eqn:?
  end; simplify_eq.
Ltac run E := repeat run_step E.

(** The relation a run satisfies: [frame E R] adds [R s s'] for the run
    [E : m s = (r, s')], proved along [m]. *)
Ltac frame E R :=
  match type of E with
  | ?m ?s = (_, ?s') =>
      let P := fresh "P" in
      assert (P : Pres R m) by pres; specialize (P s); rewrite E in P; simpl in P
  end.

(** The first step of a bind that returned a value. *)
Tactic Notation "bind_ok" hyp(E) ident(a) ident(s1) ident(Ha) :=
  apply run_bind in E as [(? & _ & ?)|(a & s1 & Ha & E)]; [done|].
