(* ===== verification/Adapters.v ===== *)
(** * [internal/connectors/{salesforce,hubspot,registry}]: the provider adapters

    The two adapters send the same requests under different paths and read the
    record id from different members; [Rest] holds what they share, the modules
    [Salesforce] and [Hubspot] the mapping of each native schema.  Both are
    instances of [LawfulAdapter], and so is whatever the registry builds. *)

From S2P Require Import Prelude Json GoTime Events Model Tables Effects Store Frame Connectors.
Local Open Scope string_scope.

Module Rest.
(** [s]: the text of a field. *)
Definition s (v : Json) : string :=
  match v with
  | JNull => ""
  | JStr t => t
  | t => sprint t
  end.

Section rest.
Context `{Outside} (c : Client) (listPath idField : string).

(** [toProviderRecord]. *)
Definition toProviderRecord (raw : Fields) : Res ProviderRecord :=
  let id := match raw !! idField with Some (JStr i) => i | _ => "" end in
  if id =s "" then Err (NewError ErrSchema ("record missing " +:+ idField))
  else
    let version := match mget raw "version" with
                   | JNum n => int64_of_float n
                   | JStr t => default 0%Z (atoi t)
                   | _ => 0%Z
                   end in
    let deleted := match raw !! "deleted" with Some (JBool b) => b | _ => false end in
    Ok (mkProviderRecord id version deleted raw).

Definition ret_record (raw : Fields) : M ProviderRecord :=
  match toProviderRecord raw with Ok r => mret r | Err e => throw e end.

Fixpoint toProviderRecords (raws : list Fields) : Res (list ProviderRecord) :=
  match raws with
  | [] => Ok []
  | raw :: raws =>
      match toProviderRecord raw, toProviderRecords raws with
      | Err e, _ => Err e
      | Ok r, Ok rs => Ok (r :: rs)
      | Ok _, Err e => Err e
      end
  end.

(** The decoded health response: status and record count. *)
Definition health_out (kvs : list (string * Json)) : option (string * Z) :=
  status ← dec_string "status" kvs;
  records ← dec_int64 "records" kvs;
  Some (status, records).

Definition HealthCheck : M Health :=
  out ← Do c "GET" "/admin/health" None (into_struct health_out);
  mret (mkHealth out.1 out.2).

(** [listResponse]: an element that is not an object is a decoding error, a
    null one is a nil map. *)
Fixpoint dec_maps (l : list Json) : option (list Fields) :=
  match l with
  | [] => Some []
  | j :: l => m ← into_map (Some j); ms ← dec_maps l; Some (m :: ms)
  end.

Definition dec_bool (k : string) (kvs : list (string * Json)) : option bool :=
  match jlookup k kvs with
  | None | Some JNull => Some false
  | Some (JBool b) => Some b
  | _ => None
  end.

Definition list_out (kvs : list (string * Json)) : option (list Fields * string * bool) :=
  records ← match jlookup "records" kvs with
            | None | Some JNull => Some []
            | Some (JArr l) => dec_maps l
            | _ => None
            end;
  cursor ← dec_string "next_cursor" kvs;
  more ← dec_bool "has_more" kvs;
  Some (records, cursor, more).

Definition list_path (opts : ListOptions) : string :=
  listPath +:+ "?limit=" +:+ pretty (lo_Limit opts) +:+
  (if lo_Cursor opts =s "" then "" else "&cursor=" +:+ lo_Cursor opts) +:+
  (if (lo_Since opts =? time_zero)%Z then ""
   else "&since=" +:+ default "" (time_marshal (lo_Since opts / 10 ^ 9 * 10 ^ 9))).

Definition List_ (opts : ListOptions) : M Page :=
  resp ← Do c "GET" (list_path opts) None (into_struct list_out);
  match toProviderRecords resp.1.1 with
  | Ok rs => mret (mkPage rs resp.1.2 resp.2)
  | Err e => throw e
  end.

Definition Get (id : string) : M ProviderRecord :=
  raw ← Do c "GET" (listPath +:+ "/" +:+ id) None into_map;
  ret_record raw.

Definition Create (rec : ProviderRecord) : M ProviderRecord :=
  raw ← Do c "POST" listPath (Some (of_fields (rec_Data rec))) into_map;
  ret_record raw.

Definition Update (id : string) (rec : ProviderRecord) : M ProviderRecord :=
  raw ← Do c "PATCH" (listPath +:+ "/" +:+ id) (Some (of_fields (rec_Data rec))) into_map;
  ret_record raw.

Definition Delete (id : string) : M unit :=
  Do c "DELETE" (listPath +:+ "/" +:+ id) None discard.

(** The required fields, in order: the first that is absent, null or prints
    as the empty string is the error. *)
Definition require (fields : list string) (rec : ProviderRecord) : option error :=
  match List.find (fun f => match rec_Data rec !! f with
                            | None | Some JNull => true
                            | Some v => sprint v =s ""
                            end) fields with
  | Some f => Some (NewError ErrSchema ("missing required field " +:+ f))
  | None => None
  end.

Lemma ret_record_pres (R : St -> St -> Prop) `{!PreOrder R} raw : Pres R (ret_record raw).
Proof. unfold ret_record. destruct (toProviderRecord raw); pres. Qed.

Lemma rest_step (R : St -> St -> Prop) `{!PreOrder R} :
  (forall rq, rq_base rq = cl_BaseURL c -> Pres R (http rq)) ->
  Pres R HealthCheck /\ (forall o, Pres R (List_ o)) /\ (forall i, Pres R (Get i)) /\
  (forall r, Pres R (Create r)) /\ (forall i r, Pres R (Update i r)) /\
  (forall i, Pres R (Delete i)).
Proof.
  intros HR. repeat split; intros; unfold HealthCheck, List_, Get, Create, Update, Delete; pres;
    try (by apply Do_pres); try apply ret_record_pres; try typeclasses eauto.
Qed.

Lemma rest_reads (R : St -> St -> Prop) `{!PreOrder R} :
  (forall rq, rq_base rq = cl_BaseURL c -> rq_method rq = "GET" -> Pres R (http rq)) ->
  Pres R HealthCheck /\ (forall o, Pres R (List_ o)) /\ (forall i, Pres R (Get i)).
Proof.
  intros HR. repeat split; intros; unfold HealthCheck, List_, Get; pres;
    try (by apply Do_get); try apply ret_record_pres; try typeclasses eauto.
Qed.

Lemma toProviderRecord_id raw r : toProviderRecord raw = Ok r -> rec_ID r <> "".
Proof.
  unfold toProviderRecord. destruct (_ =s "") eqn:E; [done|]. apply seqb_false in E.
  intros [= <-]. exact E.
Qed.

Lemma create_id rec r : Returns (Create rec) r -> rec_ID r <> "".
Proof.
  unfold Create, ret_record. intros Hr. returns. by eapply toProviderRecord_id.
Qed.

(** A request followed by something that makes none. *)
Lemma single_bind {A B} method path body (out : option Json -> option A) (k : A -> M B) s0 :
  (forall a s1, st_calls (k a s1).2 = st_calls s1) ->
  st_calls ((Do c method path body out ≫= k) s0).2
  = (st_calls s0 ++ [mkHttpReq method (cl_BaseURL c) path body])%list.
Proof.
  intros Hk. pose proof (Do_single c method path body out s0) as E.
  unfold mbind, M_bind. destruct (Do _ _ _ _ _ s0) as [[a|e] s1]; simpl in *; [|done].
  by rewrite Hk.
Qed.

Lemma rest_writes : exists path, forall s0,
  (forall r, st_calls (Create r s0).2 =
     (st_calls s0 ++ [mkHttpReq "POST" (cl_BaseURL c) path (Some (of_fields (rec_Data r)))])%list) /\
  (forall i r, st_calls (Update i r s0).2 =
     (st_calls s0 ++ [mkHttpReq "PATCH" (cl_BaseURL c) (path +:+ "/" +:+ i) (Some (of_fields (rec_Data r)))])%list) /\
  (forall i, st_calls (Delete i s0).2 =
     (st_calls s0 ++ [mkHttpReq "DELETE" (cl_BaseURL c) (path +:+ "/" +:+ i) None])%list).
Proof.
  exists listPath. intros s0. split_and!; intros; [apply single_bind|apply single_bind|apply Do_single];
    intros raw s1; unfold ret_record; by destruct (toProviderRecord raw).
Qed.
End rest.
End Rest.

(** ** Salesforce *)

Module Salesforce.
Section salesforce.
Context `{Outside}.

Definition Provider : string := "salesforce".
Definition listPath : string := "/api/v1/customers".

Definition Validate : ProviderRecord -> option error :=
  Rest.require ["first_name"; "last_name"; "email"].

Definition Normalize (rec : ProviderRecord) : Customer :=
  let data := rec_Data rec in
  {| cu_SyncID := ""; cu_TenantID := ""; cu_EntityID := rec_ID rec;
     cu_FirstName := Rest.s (mget data "first_name"); cu_LastName := Rest.s (mget data "last_name");
     cu_Email := Rest.s (mget data "email"); cu_Phone := Rest.s (mget data "phone");
     cu_Company := Rest.s (mget data "company"); cu_Version := 0;
     cu_SourceVersions := {[ Provider := rec_SourceVersion rec ]};
     cu_CreatedAt := time_zero;
     cu_UpdatedAt := default time_zero (time_parse (Rest.s (mget data "updated_at")));
     cu_Deleted := rec_Deleted rec;
     cu_Metadata := list_to_map [("provider", JStr Provider); ("raw_id", JStr (rec_ID rec))] |}.

Definition Denormalize (cust : Customer) : ProviderRecord :=
  mkProviderRecord (cu_EntityID cust) 0 false
    (list_to_map [("first_name", JStr (cu_FirstName cust)); ("last_name", JStr (cu_LastName cust));
                  ("email", JStr (cu_Email cust)); ("phone", JStr (cu_Phone cust));
                  ("company", JStr (cu_Company cust)); ("deleted", JBool (cu_Deleted cust))]).

Definition adapter (baseURL : string) : Adapter :=
  let c := mkClient baseURL in
  {| ad_Name := Provider; ad_CanonicalEntityType := "customer";
     ad_HealthCheck := Rest.HealthCheck c; ad_List := Rest.List_ c listPath "id";
     ad_Get := Rest.Get c listPath "id"; ad_Create := Rest.Create c listPath "id";
     ad_Update := Rest.Update c listPath "id"; ad_Delete := Rest.Delete c listPath;
     ad_Normalize := Normalize; ad_Denormalize := Denormalize; ad_Validate := Validate |}.

#[global] Instance salesforce_lawful base : LawfulAdapter base (adapter base).
Proof.
  split.
  - intros R HR. exact (Rest.rest_step (mkClient base) listPath "id" R).
  - by intros ?? [].
  - done.
  - apply Rest.create_id.
  - apply (Rest.rest_writes (mkClient base) listPath "id").
  - intros R HR. exact (Rest.rest_reads (mkClient base) listPath "id" R).
Qed.
End salesforce.
End Salesforce.

(** ** HubSpot *)

Module Hubspot.
Section hubspot.
Context `{Outside}.

Definition Provider : string := "hubspot".
Definition listPath : string := "/api/v1/contacts".

Definition Validate : ProviderRecord -> option error :=
  Rest.require ["firstName"; "lastName"; "emailAddress"].

Definition Normalize (rec : ProviderRecord) : Customer :=
  let data := rec_Data rec in
  {| cu_SyncID := ""; cu_TenantID := ""; cu_EntityID := rec_ID rec;
     cu_FirstName := Rest.s (mget data "firstName"); cu_LastName := Rest.s (mget data "lastName");
     cu_Email := Rest.s (mget data "emailAddress"); cu_Phone := Rest.s (mget data "phoneNumber");
     cu_Company := Rest.s (mget data "organization"); cu_Version := 0;
     cu_SourceVersions := {[ Provider := rec_SourceVersion rec ]};
     cu_CreatedAt := time_zero;
     cu_UpdatedAt := default time_zero (time_parse (Rest.s (mget data "modifiedAt")));
     cu_Deleted := rec_Deleted rec;
     cu_Metadata := list_to_map [("provider", JStr Provider); ("raw_id", JStr (rec_ID rec))] |}.

Definition Denormalize (cust : Customer) : ProviderRecord :=
  mkProviderRecord (cu_EntityID cust) 0 false
    (list_to_map [("firstName", JStr (cu_FirstName cust)); ("lastName", JStr (cu_LastName cust));
                  ("emailAddress", JStr (cu_Email cust)); ("phoneNumber", JStr (cu_Phone cust));
                  ("organization", JStr (cu_Company cust)); ("deleted", JBool (cu_Deleted cust))]).

Definition adapter (baseURL : string) : Adapter :=
  let c := mkClient baseURL in
  {| ad_Name := Provider; ad_CanonicalEntityType := "customer";
     ad_HealthCheck := Rest.HealthCheck c; ad_List := Rest.List_ c listPath "contact_id";
     ad_Get := Rest.Get c listPath "contact_id"; ad_Create := Rest.Create c listPath "contact_id";
     ad_Update := Rest.Update c listPath "contact_id"; ad_Delete := Rest.Delete c listPath;
     ad_Normalize := Normalize; ad_Denormalize := Denormalize; ad_Validate := Validate |}.

#[global] Instance hubspot_lawful base : LawfulAdapter base (adapter base).
Proof.
  split.
  - intros R HR. exact (Rest.rest_step (mkClient base) listPath "contact_id" R).
  - by intros ?? [].
  - done.
  - apply Rest.create_id.
  - apply (Rest.rest_writes (mkClient base) listPath "contact_id").
  - intros R HR. exact (Rest.rest_reads (mkClient base) listPath "contact_id" R).
Qed.
End hubspot.
End Hubspot.

(** ** The registry *)

Section registry.
Context `{Outside}.

(** [registry.NewWithTimeout]. *)
Definition NewWithTimeout (provider baseURL : string) : Res Adapter :=
  if provider =s Salesforce.Provider then Ok (Salesforce.adapter baseURL)
  else if provider =s Hubspot.Provider then Ok (Hubspot.adapter baseURL)
  else Err (OtherError ("unsupported provider: " +:+ provider)).

Lemma NewWithTimeout_lawful provider base a :
  NewWithTimeout provider base = Ok a -> LawfulAdapter base a.
Proof.
  unfold NewWithTimeout. repeat case_if; intros Ha; simplify_eq; typeclasses eauto.
Qed.

Lemma NewWithTimeout_entity provider base a :
  NewWithTimeout provider base = Ok a -> ad_CanonicalEntityType a = "customer".
Proof. unfold NewWithTimeout. repeat case_if; intros Ha; by simplify_eq. Qed.
End registry.
