(* ===== verification/Worker.v ===== *)
(** * [internal/syncworker]: applying one canonical event

    [Process] claims an event, resolves the canonical entity, drops stale
    events and echoes, detects and resolves conflicts, writes the result to the
    destinations and persists it; [Handle] hands what fails to the retry queue
    or the dead-letter table.  The definitions follow worker.go call by call;
    logging and tracing are left out, metric increments are kept. *)

From S2P Require Import Prelude Json GoTime Events Model Conflict Backoff Tables Effects Store.
From S2P Require Import Frame Connectors Adapters.
Local Open Scope string_scope.

(** [syncworker.Options]; the connector timeout only reaches the transport. *)
Record Options := mkOptions {
  op_RetryBaseDelay : Z; op_RetryMaxDelay : Z; op_RetryMaxAttempts : Z; op_ConnectorTimeout : Z;
}.

(** The options [New] starts from. *)
Definition New_opts : Options := mkOptions (1 * Second) (60 * Second) 8 0.

(** [WithOptions]. *)
Definition WithOptions (o w : Options) : Options :=
  let pick new old := if (0 <? new)%Z then new else old in
  mkOptions (pick (op_RetryBaseDelay o) (op_RetryBaseDelay w))
            (pick (op_RetryMaxDelay o) (op_RetryMaxDelay w))
            (pick (op_RetryMaxAttempts o) (op_RetryMaxAttempts w))
            (pick (op_ConnectorTimeout o) (op_ConnectorTimeout w)).

Section worker.
Context `{Outside} (opts : Options).

Definition skip : M unit := mret tt.

Definition ret_res {A} (r : Res A) : M A :=
  match r with Ok a => mret a | Err e => throw e end.

(** A column that fails to marshal fails its statement. *)
Definition encodable {A} (o : option A) : M A :=
  match o with Some a => mret a | None => throw (OtherError "marshal json column") end.

(** [adapterFor]. *)
Definition adapterFor (provider baseURL : string) : M Adapter :=
  ret_res (NewWithTimeout provider baseURL).

(** The connection of a provider and its adapter. *)
Definition connect (tenant provider : string) : M Adapter :=
  conn ← GetConnectionByProvider tenant provider;
  adapterFor (cn_Provider conn) (cn_BaseURL conn).

(** [recordSyncOperation]: best effort. *)
Definition recordSyncOperation (tenant entityType entityID source target : string) (version : Z)
    (eventID fingerprint : string) : M unit :=
  ignore (InsertSyncOperation (mkSyncOperation "" tenant entityType entityID source target eventID
                                 version fingerprint 0)).

(** [fail]. *)
Definition fail (ev : Event) : M unit :=
  metric "EventsFailed";;
  ignore (ReleaseProcessedEvent (ev_TenantID ev) (ev_Source ev) (ev_EventID ev));;
  ignore (SetSourceEventStatus (ev_TenantID ev) (ev_EventID ev) "validated" "failed").

(** [deadLetter]. *)
Definition deadLetter (ev : Event) (reason errorClass : string) : M unit :=
  state ← encodable (encode_event ev);
  InsertDeadLetter (mkDeadLetter "" (ev_TenantID ev) (ev_EventID ev) reason errorClass state
                      "" 0 None);;
  ignore (SetSourceEventStatusTo (ev_TenantID ev) (ev_EventID ev) "dlq");;
  metric "DLQEvents".

(** The delay of a first failure: backoff, the provider's hint if shorter,
    the cap. *)
Definition first_delay (retryAfter k : Z) : Z :=
  let delay := ComputeDelay 1 (op_RetryBaseDelay opts) (op_RetryMaxDelay opts) k in
  let delay := if (0 <? retryAfter)%Z && (retryAfter <? delay)%Z then retryAfter else delay in
  if (op_RetryMaxDelay opts <? delay)%Z then op_RetryMaxDelay opts else delay.

(** [dispatchFailure]. *)
Definition dispatchFailure (ev : Event) (cause : error) : M unit :=
  let (kind, retryAfter) := Classify cause in
  if negb (ShouldRetry kind) then deadLetter ev (Error cause) (kind_String kind)
  else
    k ← draw;
    state ← encodable (encode_event ev);
    EnqueueRetry (mkRetryEntry "" (ev_TenantID ev) (ev_EventID ev) 0 (op_RetryMaxAttempts opts) 0
                    (Error cause) (kind_String kind) state 0)
      (first_delay retryAfter k);;
    metric "RetryScheduled".

(** [canonicalEntityType]. *)
Definition canonicalEntityType (ev : Event) : M string :=
  a ← connect (ev_TenantID ev) (ev_Source ev);
  mret (ad_CanonicalEntityType a).

(** [resolveCanonical]. *)
Definition resolveCanonical (ev : Event) (entityType : string) (cust : Customer)
    : M CanonicalRecord :=
  let tenant := ev_TenantID ev in
  let fresh : CanonicalRecord :=
    mkCanonicalRecord "" tenant entityType (ev_EntityID ev) ∅ 0 ∅ ∅ false "" "" ""
      {[ ev_Source ev := ev_EntityID ev ]} time_zero time_zero in
  r ← attempt (GetCanonicalByProvider tenant entityType (ev_Source ev) (ev_EntityID ev));
  match r with
  | Ok canonical => mret canonical
  | Err ErrNotFound =>
      if cu_Email cust =s "" then mret fresh
      else
        r ← attempt (GetCanonicalByEmail tenant entityType (cu_Email cust));
        match r with
        | Ok canonical =>
            AddProviderID tenant entityType (cr_EntityID canonical) (ev_Source ev)
              (ev_EntityID ev);;
            mret (cr_set_ProviderIDs
                    (<[ev_Source ev := ev_EntityID ev]> (cr_ProviderIDs canonical)) canonical)
        | Err ErrNotFound => mret fresh
        | Err e => throw e
        end
  | Err e => throw e
  end.

(** [isEcho]. *)
Definition isEcho (tenant entityType entityID source : string) (cust : Customer) : M bool :=
  r ← attempt (GetOutboundWrite tenant entityType entityID source);
  match r with
  | Ok outbound => mret (ow_Fingerprint outbound =s Fingerprint cust)
  | Err ErrNotFound => mret false
  | Err e => throw e
  end.

(** [recordConflict]; both callers drop its error. *)
Definition recordConflict (ev : Event) (entityType : string) (canonical : CanonicalRecord)
    (incomingFields : Fields) (detected : list FieldConflict) (status strategy : string) : M unit :=
  match detected with
  | [] => mret tt
  | c :: _ =>
      InsertConflict (mkConflictRecord "" (ev_TenantID ev) entityType (cr_EntityID canonical)
        (fc_SourceA c) (fc_VersionA c) (of_fields (cr_Fields canonical))
        (fc_SourceB c) (fc_VersionB c) (of_fields incomingFields)
        0 status strategy None None);;
      mret tt
  end.

(** Writing the customer to the destination of a policy: create it there when
    no id is mapped, update it otherwise; the record with the id mapped. *)
Definition push (tenant : string) (cust : Customer) (destination : string)
    (canonical : CanonicalRecord) : M CanonicalRecord :=
  dst ← connect tenant destination;
  let dstRec := ad_Denormalize dst cust in
  let dstID := default "" (cr_ProviderIDs canonical !! destination) in
  canonical ← (if dstID =s "" then
                 created ← ad_Create dst dstRec;
                 mret (cr_set_ProviderIDs
                         (<[destination := rec_ID created]> (cr_ProviderIDs canonical)) canonical)
               else ad_Update dst dstID dstRec;; mret canonical);
  metric "DestinationWrites";;
  mret canonical.

(** Step 5 of [applyUpsert]: every destination in turn, collecting what to
    persist. *)
Fixpoint propagate (ev : Event) (entityType : string) (cust : Customer)
    (policies : list SyncPolicy) (canonical : CanonicalRecord) (outs : list OutboundWrite)
    (ops : list SyncOperation) : M (CanonicalRecord * list OutboundWrite * list SyncOperation) :=
  match policies with
  | [] => mret (canonical, outs, ops)
  | p :: policies =>
      let tenant := ev_TenantID ev in
      canonical ← push tenant cust (po_Destination p) canonical;
      propagate ev entityType cust policies canonical
        (outs ++ [mkOutboundWrite tenant entityType (cr_EntityID canonical) (po_Destination p)
                    (Fingerprint cust) (ev_SourceVersion ev) 0])%list
        (ops ++ [mkSyncOperation "" tenant entityType (cr_EntityID canonical) (ev_Source ev)
                   (po_Destination p) (ev_EventID ev) (ev_SourceVersion ev)
                   (Fingerprint cust) 0])%list
  end.

(** The bookkeeping both upserts end with. *)
Definition stamp (source eventID : string) (version : Z) (canonical : CanonicalRecord)
    : CanonicalRecord :=
  cr_set_OriginEventID eventID (cr_set_OriginSource source
    (cr_set_Version (wrap64 (cr_Version canonical + 1))
       (cr_set_SourceVersions (<[source := version]> (cr_SourceVersions canonical)) canonical))).

(** Pushing a decided state to one destination, recording fingerprint and
    ledger row at once ([applyResolution], [applyAdoptProvider]). *)
Definition push_recorded (tenant entityType source destination : string) (version : Z)
    (eventID : string) (cust : Customer) (canonical : CanonicalRecord) : M CanonicalRecord :=
  canonical ← push tenant cust destination canonical;
  UpsertOutboundWrite (mkOutboundWrite tenant entityType (cr_EntityID canonical) destination
                         (Fingerprint cust) 0 0);;
  recordSyncOperation tenant entityType (cr_EntityID canonical) source destination version eventID
    (Fingerprint cust);;
  mret canonical.

Fixpoint push_all (tenant entityType source : string) (version : Z) (eventID : string)
    (cust : Customer) (policies : list SyncPolicy) (canonical : CanonicalRecord)
    : M CanonicalRecord :=
  match policies with
  | [] => mret canonical
  | p :: policies =>
      canonical ← push_recorded tenant entityType source (po_Destination p) version eventID cust
                    canonical;
      push_all tenant entityType source version eventID cust policies canonical
  end.

(** The provenance after an operator's resolution: the winner owns the fields
    it carried, at the priority they had. *)
Definition resolution_provenance (ev : Event) (fields : Fields) (fp : FieldProvenance)
    : FieldProvenance :=
  foldl (fun fp kv =>
           let prio := match fp !! kv.1 with Some e => pr_Priority e | None => 100%Z end in
           <[kv.1 := mkProv (ev_Source ev) (ev_SourceVersion ev) (ev_OccurredAt ev) prio]> fp)
    fp (map_to_list fields).

(** [applyResolution]. *)
Definition applyResolution (ev : Event) (entityType : string) (policies : list SyncPolicy)
    (fields : Fields) : M unit :=
  let tenant := ev_TenantID ev in
  r ← attempt (GetCanonical tenant entityType (ev_EntityID ev));
  match r with
  | Err ErrNotFound => mret tt
  | Err e => throw e
  | Ok canonical =>
      let cust := FromFields fields (new_customer tenant (cr_EntityID canonical)) in
      canonical ← push_all tenant entityType (ev_Source ev) (ev_SourceVersion ev) (ev_EventID ev)
                    cust policies canonical;
      fp ← encodable (ToMap (resolution_provenance ev fields
                               (FromMap (cr_FieldProvenance canonical))));
      UpsertCanonical
        (cr_set_Tombstone false (stamp (ev_Source ev) (ev_EventID ev) (ev_SourceVersion ev)
           (cr_set_FieldProvenance fp (cr_set_Fields (cust_Fields cust) canonical))));;
      ignore (SetConflictStatus tenant (pv_ResolvedConflictID (ev_Provenance ev)) ConflictResolved
                "manual" "operator");;
      metric "ConflictsResolved"
  end.

(** [ev.Payload["fields"].(map[string]any)], when it is not empty. *)
Definition payload_fields (ev : Event) : option Fields :=
  match ev_Payload ev !! "fields" with
  | Some (JObj kvs) =>
      let m : Fields := list_to_map kvs in if bool_decide (m = ∅) then None else Some m
  | _ => None
  end.

(** The strategy and priority of the first policy. *)
Definition policy_strategy (policies : list SyncPolicy) : string :=
  match policies with
  | p :: _ => if po_ConflictStrategy p =s "" then StrategyLastWriteWins else po_ConflictStrategy p
  | [] => StrategyLastWriteWins
  end.
Definition policy_priority (policies : list SyncPolicy) : Z :=
  match policies with p :: _ => po_SourcePriority p | [] => 100%Z end.

(** Steps 4 to 6 of [applyUpsert]: conflicts, destinations, persistence. *)
Definition merge_and_propagate (ev : Event) (entityType : string) (policies : list SyncPolicy)
    (cust : Customer) (canonical : CanonicalRecord) : M unit :=
  let strategy := policy_strategy policies in
  let r := Merge strategy (cr_Fields canonical) (FromMap (cr_FieldProvenance canonical))
             (cust_Fields cust) (ev_Source ev) (ev_SourceVersion ev) (ev_OccurredAt ev)
             (policy_priority policies) in
  match mr_out r with
  | None =>
      metric "ConflictsDetected";;
      ignore (recordConflict ev entityType canonical (cust_Fields cust) (mr_detected r)
                ConflictPending strategy)
  | Some (merged, mergedFP) =>
      match mr_detected r with
      | [] => skip
      | _ =>
         metric "ConflictsDetected";;
         metric "ConflictsResolved";;
         ignore (recordConflict ev entityType canonical (cust_Fields cust) (mr_detected r)
                   ConflictAutoResolved strategy)
      end;;
      let cust := FromFields merged cust in
      '(canonical, outs, ops) ← propagate ev entityType cust policies canonical [] [];
      fp ← encodable (ToMap mergedFP);
      PersistApplyState
        (cr_set_Tombstone false (stamp (ev_Source ev) (ev_EventID ev) (ev_SourceVersion ev)
           (cr_set_FieldProvenance fp (cr_set_Fields (cust_Fields cust) canonical)))) outs ops;;
      mret tt
  end.

(** [applyUpsert]. *)
Definition applyUpsert (ev : Event) (entityType : string) (policies : list SyncPolicy) : M unit :=
  let tenant := ev_TenantID ev in
  match payload_fields ev with
  | None => throw (NewError ErrSchema "event payload missing fields")
  | Some fields =>
      if negb (pv_ResolvedConflictID (ev_Provenance ev) =s "")
      then applyResolution ev entityType policies fields
      else
        src ← connect tenant (ev_Source ev);
        let srcRec := mkProviderRecord (ev_EntityID ev) (ev_SourceVersion ev) false fields in
        match ad_Validate src srcRec with
        | Some e => throw e
        | None =>
            let cust := set_TenantID tenant (ad_Normalize src srcRec) in
            canonical ← resolveCanonical ev entityType cust;
            if (ev_SourceVersion ev <=?
                  default 0 (cr_SourceVersions canonical !! ev_Source ev))%Z
            then metric "StaleEvents"
            else
              echo ← isEcho tenant entityType (cr_EntityID canonical) (ev_Source ev) cust;
              if (echo : bool) then metric "LoopsPrevented"
              else merge_and_propagate ev entityType policies cust canonical
        end
  end.

(** The loop of [applyDelete]. *)
Fixpoint delete_all (ev : Event) (entityType : string) (policies : list SyncPolicy)
    (canonical : CanonicalRecord) : M unit :=
  match policies with
  | [] => mret tt
  | p :: policies =>
      let dstID := default "" (cr_ProviderIDs canonical !! po_Destination p) in
      (if negb (po_DeletePolicy p =s "propagate") || (dstID =s "") then skip
       else
         dst ← connect (ev_TenantID ev) (po_Destination p);
         ad_Delete dst dstID;;
         metric "DestinationWrites";;
         recordSyncOperation (ev_TenantID ev) entityType (cr_EntityID canonical) (ev_Source ev)
           (po_Destination p) (ev_SourceVersion ev) (ev_EventID ev) "");;
      delete_all ev entityType policies canonical
  end.

(** [applyDelete]. *)
Definition applyDelete (ev : Event) (entityType : string) (policies : list SyncPolicy) : M unit :=
  r ← attempt (GetCanonicalByProvider (ev_TenantID ev) entityType (ev_Source ev) (ev_EntityID ev));
  match r with
  | Err ErrNotFound => mret tt
  | Err e => throw e
  | Ok canonical =>
      if cr_Tombstone canonical then mret tt
      else
        delete_all ev entityType policies canonical;;
        UpsertCanonical (stamp (ev_Source ev) (ev_EventID ev) (ev_SourceVersion ev)
                           (cr_set_Tombstone true canonical));;
        mret tt
  end.

(** [reconcileApplied], [reconcileSkip], [reconcileFail]. *)
Definition reconcileApplied (f : ReconciliationFinding) : M unit :=
  ignore (SetReconciliationFindingStatus (rf_TenantID f) (rf_ID f) FindingApplied None);;
  metric "ReconcileRepairs".
Definition reconcileSkip (f : ReconciliationFinding) (reason : string) : M unit :=
  ignore (SetReconciliationFindingStatus (rf_TenantID f) (rf_ID f) FindingSkipped (Some reason)).
Definition reconcileFail {A} (f : ReconciliationFinding) (cause : error) : M A :=
  ignore (SetReconciliationFindingStatus (rf_TenantID f) (rf_ID f) FindingFailed
            (Some (Error cause)));;
  throw cause.

(** [m], a provider call whose error fails the finding. *)
Definition or_reconcileFail {A} (f : ReconciliationFinding) (m : M A) : M A :=
  r ← attempt m;
  match r with Ok a => mret a | Err e => reconcileFail f e end.

(** The canonical entity of an adopted provider record. *)
Definition adoptCanonical (tenant entityType source providerID : string) (cust : Customer)
    : M CanonicalRecord :=
  r ← attempt (GetCanonicalByProvider tenant entityType source providerID);
  match r with
  | Ok canonical => mret canonical
  | Err ErrNotFound =>
      r ← attempt (GetCanonicalByEmail tenant entityType (cu_Email cust));
      match r with
      | Ok canonical =>
          AddProviderID tenant entityType (cr_EntityID canonical) source providerID;;
          mret (cr_set_ProviderIDs (<[source := providerID]> (cr_ProviderIDs canonical)) canonical)
      | Err ErrNotFound =>
          mret (mkCanonicalRecord "" tenant entityType providerID ∅ 0 ∅ ∅ false "" "" ""
                  {[ source := providerID ]} time_zero time_zero)
      | Err e => throw e
      end
  | Err e => throw e
  end.

(** The provenance [applyAdoptProvider] writes for every field. *)
Definition adopt_provenance (source : string) (version occurredAt : Z) (fields : Fields)
    : option Fields :=
  o ← time_marshal occurredAt;
  Some ((fun _ => JObj [("source", JStr source); ("version", JNum version);
                        ("occurred_at", JStr o); ("priority", JNum 100)]) <$> fields).

(** [applyAdoptProvider]. *)
Definition applyAdoptProvider (ev : Event) (entityType : string) (policies : list SyncPolicy)
    (finding : ReconciliationFinding) (run : ReconciliationRun) : M unit :=
  let tenant := ev_TenantID ev in
  let source := rr_Source run in
  let cust := FromFields (rf_ProviderFields finding)
                (new_customer tenant (rf_ProviderID finding)) in
  canonical ← adoptCanonical tenant entityType source (rf_ProviderID finding) cust;
  let canonical := if cr_EntityID canonical =s ""
                   then cr_set_EntityID (rf_ProviderID finding) canonical else canonical in
  let cust := set_EntityID (cr_EntityID canonical) cust in
  canonical ← push_all tenant entityType source (rf_ProviderVersion finding) (ev_EventID ev) cust
                (List.filter (fun p => po_Source p =s source) policies) canonical;
  fp ← encodable (adopt_provenance source (rf_ProviderVersion finding) (ev_OccurredAt ev)
                    (cust_Fields cust));
  UpsertCanonical
    (cr_set_Tombstone false (stamp source (ev_EventID ev) (rf_ProviderVersion finding)
       (cr_set_FieldProvenance fp (cr_set_Fields (cust_Fields cust) canonical))));;
  reconcileApplied finding.

(** The provider write of a [push_canonical] repair. *)
Definition pushRepair (src : Adapter) (finding : ReconciliationFinding) (dstRec : ProviderRecord)
    : M ProviderRecord :=
  let providerID := rf_ProviderID finding in
  if (rf_Kind finding =s FindingMissing) || (providerID =s "")
  then or_reconcileFail finding (ad_Create src dstRec)
  else
    r ← attempt (ad_Update src providerID dstRec);
    match r with
    | Ok updated => mret (mkProviderRecord providerID (rec_SourceVersion updated)
                            (rec_Deleted updated) (rec_Data updated))
    | Err e =>
        if negb (IsKind e KErrNotFound) then reconcileFail finding e
        else or_reconcileFail finding (ad_Create src dstRec)
    end.

(** [applyReconcileFinding]. *)
Definition applyReconcileFinding (ev : Event) (entityType : string) (policies : list SyncPolicy)
    : M unit :=
  let tenant := ev_TenantID ev in
  r ← attempt (GetReconciliationFinding tenant (pv_ReconcileFindingID (ev_Provenance ev)));
  match r with
  | Err ErrNotFound => mret tt
  | Err e => throw e
  | Ok finding =>
      if negb (rf_Status finding =s FindingPending) then mret tt
      else
        run ← GetReconciliationRun tenant (rf_RunID finding);
        src ← connect tenant (rr_Source run);
        if rf_Direction finding =s "delete" then
          r ← attempt (ad_Delete src (rf_ProviderID finding));
          match r with
          | Err e => if IsKind e KErrNotFound then skip else reconcileFail finding e
          | Ok _ => skip
          end;;
          metric "DestinationWrites";;
          recordSyncOperation tenant entityType (rf_CanonicalID finding) (rr_Source run)
            (rr_Source run) (rf_ProviderVersion finding) (ev_EventID ev) "";;
          reconcileApplied finding
        else if rf_Direction finding =s "push_canonical" then
          r ← attempt (GetCanonical tenant entityType (rf_CanonicalID finding));
          match r with
          | Err ErrNotFound => reconcileSkip finding "canonical record gone"
          | Err e => throw e
          | Ok canonical =>
              let cust := FromFields (cr_Fields canonical)
                            (new_customer tenant (cr_EntityID canonical)) in
              updated ← pushRepair src finding (ad_Denormalize src cust);
              UpsertCanonical
                (cr_set_Tombstone false
                   (cr_set_Version (wrap64 (cr_Version canonical + 1))
                      (cr_set_SourceVersions
                         (<[rr_Source run := rec_SourceVersion updated]>
                            (cr_SourceVersions canonical))
                         (cr_set_ProviderIDs
                            (<[rr_Source run := rec_ID updated]> (cr_ProviderIDs canonical))
                            canonical))));;
              UpsertOutboundWrite (mkOutboundWrite tenant entityType (cr_EntityID canonical)
                (rr_Source run) (Fingerprint cust) (rec_SourceVersion updated) 0);;
              metric "DestinationWrites";;
              recordSyncOperation tenant entityType (cr_EntityID canonical) (rr_Source run)
                (rr_Source run) (rf_ProviderVersion finding) (ev_EventID ev) (Fingerprint cust);;
              reconcileApplied finding
          end
        else if rf_Direction finding =s "adopt_provider" then
          applyAdoptProvider ev entityType policies finding run
        else
          reconcileFail finding
            (OtherError ("unknown reconcile direction " +:+ marshal_string (rf_Direction finding)))
  end.

(** [if err := m; err != nil { w.fail(ctx, ev, err); return err }]. *)
Definition or_fail {A B} (ev : Event) (m : M A) (k : A -> M B) : M B :=
  r ← attempt m;
  match r with
  | Ok a => k a
  | Err e => fail ev;; throw e
  end.

(** The policies an event is propagated by. *)
Definition targets (ev : Event) (entityType : string) (policies : list SyncPolicy)
    : list SyncPolicy :=
  List.filter (fun p => (po_Source p =s ev_Source ev) && (po_Entity p =s entityType)) policies.

(** What a successful apply ends with. *)
Definition succeed (ev : Event) : M unit :=
  ignore (SetSourceEventStatus (ev_TenantID ev) (ev_EventID ev) "validated" "processed");;
  metric "EventsSuccess".

(** [Process] after the claim. *)
Definition process_claimed (ev : Event) : M unit :=
  or_fail ev (ListPolicies (ev_TenantID ev)) (fun policies =>
  or_fail ev (canonicalEntityType ev) (fun entityType =>
  if negb (pv_ReconcileFindingID (ev_Provenance ev) =s "") then
    or_fail ev (applyReconcileFinding ev entityType policies) (fun _ => succeed ev)
  else
    match targets ev entityType policies with
    | [] =>
        ignore (ReleaseProcessedEvent (ev_TenantID ev) (ev_Source ev) (ev_EventID ev));;
        ignore (SetSourceEventStatus (ev_TenantID ev) (ev_EventID ev) "validated" "processed")
    | ts =>
        or_fail ev
          (if ev_EventType ev =s EventDeleted then applyDelete ev entityType ts
           else applyUpsert ev entityType ts)
          (fun _ => succeed ev)
    end)).

(** [Process]. *)
Definition Process (ev : Event) : M unit :=
  metric "EventsTotal";;
  r ← attempt (ClaimProcessedEvent (ev_TenantID ev) (ev_Source ev) (ev_EventID ev)
                 (ev_EntityType ev) (ev_EntityID ev));
  match r with
  | Err e => metric "EventsFailed";; throw e
  | Ok false => metric "Duplicates"
  | Ok true => process_claimed ev
  end.

(** [Handle] once the message is decoded. *)
Definition handle_event (ev : Event) : M unit :=
  r ← attempt (Process ev);
  match r with
  | Ok _ => mret tt
  | Err e => dispatchFailure ev e
  end.

(** [Handle]; [None] stands for bytes that are not JSON. *)
Definition Handle (value : option Json) : M unit :=
  match value ≫= decode_event with
  | None => throw (OtherError "unmarshal event")
  | Some ev => handle_event ev
  end.
End worker.
