(* ===== verification/WorkerFrame.v ===== *)
(** * What processing an event may touch

    The frames of the worker's operations: which tables they write, that they
    leave the rows of other tenants alone, and that every request goes to a
    connection of the event's own tenant. *)

From S2P Require Import Prelude Json GoTime Events Model Conflict Backoff Tables Effects Store.
From S2P Require Import Frame Connectors Adapters Worker.
Local Open Scope string_scope.

(** ** Results *)

Section results.
Context `{Outside}.

Lemma found_or_Ok {A} (o : option A) a : found_or o = Ok a -> o = Some a.
Proof. destruct o; simpl; congruence. Qed.

Lemma connect_lawful t p a : Returns (connect t p) a -> exists base, LawfulAdapter base a.
Proof.
  unfold connect, adapterFor, ret_res. intros Ha. returns.
  exists (cn_BaseURL x). by eapply NewWithTimeout_lawful.
Qed.

Lemma GetCanonical_tenant t et eid c : Returns (GetCanonical t et eid) c -> cr_TenantID c = t.
Proof.
  intros Hc. unfold GetCanonical in Hc. returns. apply found_or_Ok, select_one_Some in Hc as [_ Hc].
  unfold canonical_key in Hc. by seqb_simpl.
Qed.

Lemma GetCanonicalByProvider_tenant t et p i c :
  Returns (GetCanonicalByProvider t et p i) c -> cr_TenantID c = t.
Proof.
  intros Hc. unfold GetCanonicalByProvider in Hc. returns.
  apply found_or_Ok, select_one_Some in Hc as [_ Hc]. unfold provider_key in Hc. by seqb_simpl.
Qed.

Lemma order_by_head {A} (key : A -> Z) l a : head (order_by key l) = Some a -> a ∈ l.
Proof.
  intros Ha. apply (elem_of_isort (fun x y => (key x <=? key y)%Z)).
  unfold order_by in Ha. destruct (isort _ l); [done|]. simplify_eq/=. by left.
Qed.

Lemma GetCanonicalByEmail_tenant t et e c :
  Returns (GetCanonicalByEmail t et e) c -> cr_TenantID c = t.
Proof.
  intros Hc. unfold GetCanonicalByEmail in Hc. returns.
  apply found_or_Ok, order_by_head in Hc. unfold select_where in Hc.
  apply list_elem_of_In, filter_In in Hc as [_ Hc]. unfold email_key in Hc. by seqb_simpl.
Qed.

Lemma GetReconciliationFinding_tenant t i f :
  Returns (GetReconciliationFinding t i) f -> rf_TenantID f = t.
Proof.
  intros Hc. unfold GetReconciliationFinding in Hc. returns.
  apply found_or_Ok, select_one_Some in Hc as [_ Hc]. by seqb_simpl.
Qed.

Lemma resolveCanonical_tenant ev et cust c :
  Returns (resolveCanonical ev et cust) c -> cr_TenantID c = ev_TenantID ev.
Proof.
  unfold resolveCanonical. intros Hc. returns; simpl;
    eauto using GetCanonicalByProvider_tenant, GetCanonicalByEmail_tenant.
Qed.

Lemma adoptCanonical_tenant t et src pid cust c :
  Returns (adoptCanonical t et src pid cust) c -> cr_TenantID c = t.
Proof.
  unfold adoptCanonical. intros Hc. returns; simpl;
    eauto using GetCanonicalByProvider_tenant, GetCanonicalByEmail_tenant.
Qed.

(** Pushing only changes the provider ids of the record. *)
Lemma push_result t cust dst c c' :
  Returns (push t cust dst c) c' -> exists ids, c' = cr_set_ProviderIDs ids c.
Proof.
  unfold push. intros Hc. returns; [by eexists|]. exists (cr_ProviderIDs c). by destruct c.
Qed.

Lemma push_all_result t et src v eid cust ps c c' :
  Returns (push_all t et src v eid cust ps c) c' -> exists ids, c' = cr_set_ProviderIDs ids c.
Proof.
  revert c. induction ps as [|p ps IH]; intros c Hc; simpl in Hc.
  - returns. exists (cr_ProviderIDs c). by destruct c.
  - unfold push_recorded in Hc. returns.
    apply IH in Hc as [ids ->].
    match goal with Hp : Returns (push _ _ _ _) _ |- _ => apply push_result in Hp as [ids' ->] end.
    exists ids. by destruct c.
Qed.

Lemma propagate_result ev et cust ps c outs ops c' outs' ops' :
  Returns (propagate ev et cust ps c outs ops) (c', outs', ops') ->
  (exists ids, c' = cr_set_ProviderIDs ids c) /\
  outs' = (outs ++ map (fun p => mkOutboundWrite (ev_TenantID ev) et (cr_EntityID c)
                          (po_Destination p) (Fingerprint cust) (ev_SourceVersion ev) 0) ps)%list /\
  ops' = (ops ++ map (fun p => mkSyncOperation "" (ev_TenantID ev) et (cr_EntityID c)
                        (ev_Source ev) (po_Destination p) (ev_EventID ev) (ev_SourceVersion ev)
                        (Fingerprint cust) 0) ps)%list.
Proof.
  revert c outs ops. induction ps as [|p ps IH]; intros c outs ops Hc; simpl in Hc.
  - returns. rewrite !app_nil_r. split_and!; [|done..]. exists (cr_ProviderIDs c). by destruct c.
  - returns.
    match goal with Hp : Returns (push _ _ _ _) _ |- _ => apply push_result in Hp as [ids' ->] end.
    apply IH in Hc as ([ids ->] & -> & ->). rewrite <- !app_assoc. split_and!; [|done..].
    exists ids. by destruct c.
Qed.
End results.

#[export] Hint Resolve GetCanonical_tenant GetCanonicalByProvider_tenant GetCanonicalByEmail_tenant
  GetReconciliationFinding_tenant resolveCanonical_tenant adoptCanonical_tenant : pres.

(** ** Database frames *)

(** A connected adapter preserves whatever requests preserve. *)
Section adapter_ops.
Context `{Outside} (R : St -> St -> Prop) `{!PreOrder R} (HR : forall rq, Pres R (http rq))
  (t p : string) (a : Adapter) (Ha : Returns (connect t p) a).

Lemma connected_create r : Pres R (ad_Create a r).
Proof using All. destruct (connect_lawful _ _ _ Ha) as [b [L _ _ _ _ _]]. apply (L R); auto. Qed.
Lemma connected_update i r : Pres R (ad_Update a i r).
Proof using All. destruct (connect_lawful _ _ _ Ha) as [b [L _ _ _ _ _]]. apply (L R); auto. Qed.
Lemma connected_delete i : Pres R (ad_Delete a i).
Proof using All. destruct (connect_lawful _ _ _ Ha) as [b [L _ _ _ _ _]]. apply (L R); auto. Qed.
End adapter_ops.

#[export] Hint Extern 2 (Pres _ (ad_Create _ _)) =>
  eapply connected_create; [typeclasses eauto|intros; solve [eauto with pres]|eassumption] : pres.
#[export] Hint Extern 2 (Pres _ (ad_Update _ _ _)) =>
  eapply connected_update; [typeclasses eauto|intros; solve [eauto with pres]|eassumption] : pres.
#[export] Hint Extern 2 (Pres _ (ad_Delete _ _)) =>
  eapply connected_delete; [typeclasses eauto|intros; solve [eauto with pres]|eassumption] : pres.

Lemma ret_res_pres `{Outside} (R : St -> St -> Prop) `{!PreOrder R} {A} (r : Res A) :
  Pres R (ret_res r).
Proof. unfold ret_res. pres. Qed.

Lemma encodable_pres `{Outside} (R : St -> St -> Prop) `{!PreOrder R} {A} (o : option A) :
  Pres R (encodable o).
Proof. unfold encodable. pres. Qed.

Lemma skip_pres `{Outside} (R : St -> St -> Prop) `{!PreOrder R} : Pres R skip.
Proof. unfold skip. pres. Qed.

#[export] Hint Resolve ret_res_pres encodable_pres skip_pres : pres.

Section apply_frames.
Context `{Outside} (ts : Tbl -> bool)
  (Hcr : ts T_canonical_records = true) (Hco : ts T_conflicts = true)
  (How : ts T_outbound_writes = true) (Hso : ts T_sync_operations = true)
  (Hrf : ts T_reconciliation_findings = true).

Lemma connect_frame t p : Pres (OnTx (Frame ts t)) (connect t p).
Proof. unfold connect, adapterFor. pres. Qed.
Hint Resolve connect_frame : pres.

Lemma recordSyncOperation_frame t a b c e f g h :
  Pres (OnTx (Frame ts t)) (recordSyncOperation t a b c e f g h).
Proof using Hso. unfold recordSyncOperation. pres. Qed.
Hint Resolve recordSyncOperation_frame : pres.

Lemma push_frame t cust dst c : Pres (OnTx (Frame ts t)) (push t cust dst c).
Proof. unfold push. pres. Qed.
Hint Resolve push_frame : pres.

Lemma push_all_frame t a b c e cust ps r :
  Pres (OnTx (Frame ts t)) (push_all t a b c e cust ps r).
Proof using How Hso.
  revert r. induction ps as [|p ps IH]; intros r; simpl; [pres|]. unfold push_recorded. pres.
Qed.
Hint Resolve push_all_frame : pres.

Lemma propagate_frame ev et cust ps c outs ops :
  Pres (OnTx (Frame ts (ev_TenantID ev))) (propagate ev et cust ps c outs ops).
Proof.
  revert c outs ops. induction ps as [|p ps IH]; intros c outs ops; simpl; pres.
Qed.
Hint Resolve propagate_frame : pres.

Lemma delete_all_frame ev et ps c :
  Pres (OnTx (Frame ts (ev_TenantID ev))) (delete_all ev et ps c).
Proof using Hso. induction ps as [|p ps IH]; simpl; pres. Qed.
Hint Resolve delete_all_frame : pres.

Lemma resolveCanonical_frame ev et cust :
  Pres (OnTx (Frame ts (ev_TenantID ev))) (resolveCanonical ev et cust).
Proof using Hcr. unfold resolveCanonical. pres. Qed.
Hint Resolve resolveCanonical_frame : pres.

Lemma adoptCanonical_frame t et src pid cust :
  Pres (OnTx (Frame ts t)) (adoptCanonical t et src pid cust).
Proof using Hcr. unfold adoptCanonical. pres. Qed.
Hint Resolve adoptCanonical_frame : pres.

Lemma recordConflict_frame ev et c inc ds st strat :
  Pres (OnTx (Frame ts (ev_TenantID ev))) (recordConflict ev et c inc ds st strat).
Proof using Hco. unfold recordConflict. pres. Qed.
Hint Resolve recordConflict_frame : pres.

Lemma isEcho_frame t et eid src cust : Pres (OnTx (Frame ts t)) (isEcho t et eid src cust).
Proof. unfold isEcho. pres. Qed.
Hint Resolve isEcho_frame : pres.

Lemma merge_and_propagate_frame ev et ps cust c :
  cr_TenantID c = ev_TenantID ev ->
  Pres (OnTx (Frame ts (ev_TenantID ev))) (merge_and_propagate ev et ps cust c).
Proof using Hcr Hco How Hso.
  intros Hc. unfold merge_and_propagate. pres.
  match goal with Hp : Returns (propagate _ _ _ _ _ _ _) _ |- _ =>
    apply propagate_result in Hp as ([ids ->] & -> & ->) end.
  apply PersistApplyState_frame; try done; by apply Forall_map, Forall_true.
Qed.
Hint Resolve merge_and_propagate_frame : pres.

Lemma applyResolution_frame ev et ps fields :
  Pres (OnTx (Frame ts (ev_TenantID ev))) (applyResolution ev et ps fields).
Proof using Hcr Hco How Hso.
  unfold applyResolution. pres.
  match goal with Hp : Returns (push_all _ _ _ _ _ _ _ _) _ |- _ =>
    apply push_all_result in Hp as [ids ->] end.
  returns. apply UpsertCanonical_frame; [|done]. simpl. eauto with pres.
Qed.
Hint Resolve applyResolution_frame : pres.

Lemma applyUpsert_frame ev et ps :
  Pres (OnTx (Frame ts (ev_TenantID ev))) (applyUpsert ev et ps).
Proof using Hcr Hco How Hso. unfold applyUpsert. pres. Qed.

Lemma applyDelete_frame ev et ps :
  Pres (OnTx (Frame ts (ev_TenantID ev))) (applyDelete ev et ps).
Proof using Hcr Hso.
  unfold applyDelete. pres. returns. apply UpsertCanonical_frame; [|done].
  simpl. eauto with pres.
Qed.

Lemma reconcileApplied_frame t f :
  rf_TenantID f = t -> Pres (OnTx (Frame ts t)) (reconcileApplied f).
Proof using Hrf. intros <-. unfold reconcileApplied. pres. Qed.

Lemma reconcileSkip_frame t f r :
  rf_TenantID f = t -> Pres (OnTx (Frame ts t)) (reconcileSkip f r).
Proof using Hrf. intros <-. unfold reconcileSkip. pres. Qed.

Lemma reconcileFail_frame t {A} f e :
  rf_TenantID f = t -> Pres (OnTx (Frame ts t)) (reconcileFail (A:=A) f e).
Proof using Hrf. intros <-. unfold reconcileFail. pres. Qed.
Hint Resolve reconcileApplied_frame reconcileSkip_frame reconcileFail_frame : pres.

Lemma applyAdoptProvider_frame ev et ps f run :
  rf_TenantID f = ev_TenantID ev ->
  Pres (OnTx (Frame ts (ev_TenantID ev))) (applyAdoptProvider ev et ps f run).
Proof using Hcr How Hso Hrf.
  intros Hf. unfold applyAdoptProvider. pres.
  match goal with Hp : Returns (push_all _ _ _ _ _ _ _ _) _ |- _ =>
    apply push_all_result in Hp as [ids ->] end.
  apply UpsertCanonical_frame; [|done]. simpl. case_if; simpl; eauto with pres.
Qed.
Hint Resolve applyAdoptProvider_frame : pres.

Lemma applyReconcileFinding_frame ev et ps :
  Pres (OnTx (Frame ts (ev_TenantID ev))) (applyReconcileFinding ev et ps).
Proof using Hcr How Hso Hrf.
  unfold applyReconcileFinding. apply Pres_bind; [typeclasses eauto|pres|].
  intros r Hr. destruct r as [f|e]; [|pres]. apply Returns_attempt in Hr.
  assert (rf_TenantID f = ev_TenantID ev) by eauto with pres.
  unfold pushRepair, or_reconcileFail. pres.
  all: match goal with Hp : Returns (attempt (GetCanonical _ _ _)) _ |- _ =>
         apply Returns_attempt in Hp end.
  all: apply UpsertCanonical_frame; [simpl; eauto with pres|done].
Qed.
End apply_frames.

(** The tables an apply writes; those of [Process], which also keeps the claim
    and the event's status; those of [Handle], which may queue the event. *)
Definition apply_tables : Tbl -> bool :=
  among [T_canonical_records; T_conflicts; T_outbound_writes; T_sync_operations;
         T_reconciliation_findings].
Definition process_tables : Tbl -> bool :=
  among [T_canonical_records; T_conflicts; T_outbound_writes; T_sync_operations;
         T_reconciliation_findings; T_processed_events; T_source_events].
Definition handle_tables : Tbl -> bool :=
  among [T_canonical_records; T_conflicts; T_outbound_writes; T_sync_operations;
         T_reconciliation_findings; T_processed_events; T_source_events; T_retry_queue;
         T_dead_letter].

#[export] Hint Resolve connect_frame applyUpsert_frame applyDelete_frame
  applyReconcileFinding_frame : pres.
#[export] Hint Extern 1 (apply_tables _ = true) => reflexivity : pres.
#[export] Hint Extern 1 (process_tables _ = true) => reflexivity : pres.
#[export] Hint Extern 1 (handle_tables _ = true) => reflexivity : pres.

Section process_frames.
Context `{Outside} (ts : Tbl -> bool)
  (Hcr : ts T_canonical_records = true) (Hco : ts T_conflicts = true)
  (How : ts T_outbound_writes = true) (Hso : ts T_sync_operations = true)
  (Hrf : ts T_reconciliation_findings = true)
  (Hpe : ts T_processed_events = true) (Hse : ts T_source_events = true).

Lemma canonicalEntityType_frame ev :
  Pres (OnTx (Frame ts (ev_TenantID ev))) (canonicalEntityType ev).
Proof. unfold canonicalEntityType. pres. Qed.
Hint Resolve canonicalEntityType_frame : pres.

Lemma Process_frame ev : Pres (OnTx (Frame ts (ev_TenantID ev))) (Process ev).
Proof using All. unfold Process, process_claimed, or_fail, fail, succeed. pres. Qed.
End process_frames.
