(* ===== verification/WorkerCalls.v ===== *)
(** * Where the worker's requests go

    While the worker runs, the connections of the database are [conns];
    [Reach conns t] says that this stays so and that every request made goes
    to the base URL of a connection of tenant [t]. *)

From S2P Require Import Prelude Json GoTime Events Model Conflict Backoff Tables Effects Store.
From S2P Require Import Frame Connectors Adapters Worker WorkerFrame.
Local Open Scope string_scope.

(** A request to one of the tenant's connections. *)
Definition allowed (conns : list Connection) (t : string) (rq : HttpReq) : Prop :=
  exists c, c ∈ conns /\ cn_TenantID c = t /\ cn_BaseURL c = rq_base rq.

Create HintDb reach discriminated.

Section reach.
Context `{Transport} (conns : list Connection).

Definition Reach (t : string) (s s' : St) : Prop :=
  connections (st_db s) = conns ->
  connections (st_db s') = conns /\ CallsIn (allowed conns t) s s'.

#[global] Instance Reach_preorder t : PreOrder (Reach t).
Proof.
  split.
  - intros s Hs. by split.
  - intros s1 s2 s3 H1 H2 Hs. destruct (H1 Hs) as [E1 C1]. destruct (H2 E1) as [E2 C2].
    split; [done|]. by etrans.
Qed.

(** A result obtained while the connections are [conns]. *)
Definition Gives {A} (m : M A) (a : A) : Prop :=
  exists s s', connections (st_db s) = conns /\ m s = (Ok a, s').

Lemma Reach_bind t {A B} (m : M A) (k : A -> M B) :
  Pres (Reach t) m -> (forall a, Gives m a -> Pres (Reach t) (k a)) ->
  Pres (Reach t) (m ≫= k).
Proof.
  intros Hm Hk s Hs. unfold mbind, M_bind. destruct (Hm s Hs) as [E1 C1].
  destruct (m s) as [[a|e] s1] eqn:E; simpl in *; [|done].
  destruct (Hk a (ex_intro _ s (ex_intro _ s1 (conj Hs E))) s1 E1). split; [done|]. by etrans.
Qed.

(** A transaction that leaves the connections alone makes no request. *)
Lemma Reach_tx t {A} (body : Z -> nat -> DB -> Res A * DB) :
  (forall now seq d a d', body now seq d = (Ok a, d') -> connections d' = connections d) ->
  Pres (Reach t) (tx body).
Proof.
  intros Hb s Hs. split; [|apply CallsIn_tx].
  assert (P : Pres (OnDb (fun d d' => connections d' = connections d)) (tx body)).
  { apply Pres_tx; [|done]. split; [by intros ?|]. intros ??? E1 E2. by rewrite E2. }
  by rewrite (P s).
Qed.

Lemma Reach_metric t n : Pres (Reach t) (metric n).
Proof. intros s Hs. split; [done|]. apply CallsIn_metric. Qed.
Lemma Reach_draw t : Pres (Reach t) draw.
Proof. intros s Hs. split; [done|]. apply CallsIn_draw. Qed.

Lemma connect_gives t p a :
  Gives (connect t p) a ->
  exists c, c ∈ conns /\ cn_TenantID c = t /\ LawfulAdapter (cn_BaseURL c) a.
Proof.
  intros (s & s' & Hs & E). unfold connect, adapterFor, ret_res, mbind, M_bind in E.
  destruct (GetConnectionByProvider t p s) as [[c|e] s1] eqn:E1; [|done]. exists c.
  unfold GetConnectionByProvider, query, tx in E1. rewrite tr_alone in E1.
  assert (Hsel : select_one (fun r => (cn_TenantID r =s t) && (cn_Provider r =s p)) conns = Some c).
  { rewrite <- Hs. destruct (head (st_faults s)) as [[]|]; try done;
      destruct (found_or _) eqn:Ef; try done; apply found_or_Ok in Ef; congruence. }
  apply select_one_Some in Hsel as [Hin Hc]. seqb_simpl. split_and!; [done..|].
  destruct (NewWithTimeout _ _) as [a'|e] eqn:En; [|done].
  assert (a' = a) as -> by (unfold mret, M_ret in E; congruence).
  by eapply NewWithTimeout_lawful.
Qed.

(** A request to a connection of the tenant stays within reach. *)
Lemma Reach_http t c rq :
  c ∈ conns -> cn_TenantID c = t -> rq_base rq = cn_BaseURL c -> Pres (Reach t) (http rq).
Proof.
  intros Hc Ht Hb s Hs. split.
  - unfold http. by destruct (http_step _ _).
  - apply CallsIn_http. by exists c.
Qed.

Lemma Reach_create t p a r : Gives (connect t p) a -> Pres (Reach t) (ad_Create a r).
Proof.
  intros (c & Hc & Ht & [L _ _ _ _ _])%connect_gives. apply (L (Reach t) _).
  intros. by eapply Reach_http.
Qed.
Lemma Reach_update t p a i r : Gives (connect t p) a -> Pres (Reach t) (ad_Update a i r).
Proof.
  intros (c & Hc & Ht & [L _ _ _ _ _])%connect_gives. apply (L (Reach t) _).
  intros. by eapply Reach_http.
Qed.
Lemma Reach_delete t p a i : Gives (connect t p) a -> Pres (Reach t) (ad_Delete a i).
Proof.
  intros (c & Hc & Ht & [L _ _ _ _ _])%connect_gives. apply (L (Reach t) _).
  intros. by eapply Reach_http.
Qed.
End reach.

(** Along a handler, as [pres] does. *)
Ltac reach_step :=
  match goal with
  | |- Pres (Reach _ _) (mbind _ _) => apply Reach_bind; [|intros ? ?]
  | |- Pres _ (attempt _) => apply Pres_attempt
  | |- Pres _ (ignore _) => apply Pres_ignore
  | |- Pres _ (match ?x with _ => _ end) => destruct x
  | |- Pres _ (mret _) => apply Pres_ret; typeclasses eauto
  | |- Pres _ (throw _) => apply Pres_throw; typeclasses eauto
  | |- Pres _ (metric _) => apply Reach_metric
  | |- Pres _ draw => apply Reach_draw
  | |- Pres _ (ad_Create _ _) => eapply Reach_create; eassumption
  | |- Pres _ (ad_Update _ _ _) => eapply Reach_update; eassumption
  | |- Pres _ (ad_Delete _ _) => eapply Reach_delete; eassumption
  | |- _ => solve [eauto with reach pres]
  end.
Ltac reach := repeat reach_step.

Section worker_reach.
Context `{Transport} (conns : list Connection).

(** No statement of the store writes the connections. *)
#[local] Hint Extern 3 (Pres (Reach _ _) _) =>
  apply Reach_tx; intros ????? Hb; cbv zeta in Hb; repeat case_match; simplify_eq; reflexivity
  : reach.

Lemma outbound_fold_connections now ws d :
  connections (foldl (fun d w => on_outbound_writes (upsert_outbound_row now w) d) d ws) =
  connections d.
Proof. revert d. induction ws as [|w ws IH]; intros d; simpl; [done|]. by rewrite IH. Qed.

Lemma insert_operations_connections now seq k ops d :
  connections (insert_operations now seq k ops d) = connections d.
Proof. revert k d. induction ops as [|o ops IH]; intros k d; simpl; [done|]. by rewrite IH. Qed.

Lemma PersistApplyState_reach t c ws ops : Pres (Reach conns t) (PersistApplyState c ws ops).
Proof.
  apply Reach_tx. intros now seq d a d' [= _ <-]. simpl.
  by rewrite insert_operations_connections, outbound_fold_connections.
Qed.
Hint Resolve PersistApplyState_reach : reach.

Lemma connect_reach t p : Pres (Reach conns t) (connect t p).
Proof. unfold connect, adapterFor, ret_res. reach. Qed.
Hint Resolve connect_reach : reach.

Lemma push_reach t cust dst c : Pres (Reach conns t) (push t cust dst c).
Proof. unfold push. reach. Qed.
Hint Resolve push_reach : reach.

Lemma recordSyncOperation_reach t a b c e f g h :
  Pres (Reach conns t) (recordSyncOperation t a b c e f g h).
Proof. unfold recordSyncOperation. reach. Qed.
Hint Resolve recordSyncOperation_reach : reach.

Lemma push_all_reach t a b c e cust ps r : Pres (Reach conns t) (push_all t a b c e cust ps r).
Proof.
  revert r. induction ps as [|p ps IH]; intros r; simpl; [reach|]. unfold push_recorded. reach.
Qed.
Hint Resolve push_all_reach : reach.

Lemma propagate_reach ev et cust ps c outs ops :
  Pres (Reach conns (ev_TenantID ev)) (propagate ev et cust ps c outs ops).
Proof. revert c outs ops. induction ps as [|p ps IH]; intros c outs ops; simpl; reach. Qed.
Hint Resolve propagate_reach : reach.

Lemma delete_all_reach ev et ps c :
  Pres (Reach conns (ev_TenantID ev)) (delete_all ev et ps c).
Proof. induction ps as [|p ps IH]; simpl; unfold skip; reach. Qed.
Hint Resolve delete_all_reach : reach.

Lemma resolveCanonical_reach ev et cust :
  Pres (Reach conns (ev_TenantID ev)) (resolveCanonical ev et cust).
Proof. unfold resolveCanonical. reach. Qed.
Hint Resolve resolveCanonical_reach : reach.

Lemma merge_and_propagate_reach ev et ps cust c :
  Pres (Reach conns (ev_TenantID ev)) (merge_and_propagate ev et ps cust c).
Proof. unfold merge_and_propagate, recordConflict, encodable, skip. reach. Qed.
Hint Resolve merge_and_propagate_reach : reach.

Lemma applyResolution_reach ev et ps fields :
  Pres (Reach conns (ev_TenantID ev)) (applyResolution ev et ps fields).
Proof. unfold applyResolution, encodable. reach. Qed.
Hint Resolve applyResolution_reach : reach.

Lemma applyUpsert_reach ev et ps : Pres (Reach conns (ev_TenantID ev)) (applyUpsert ev et ps).
Proof. unfold applyUpsert, isEcho. reach. Qed.

Lemma applyDelete_reach ev et ps : Pres (Reach conns (ev_TenantID ev)) (applyDelete ev et ps).
Proof. unfold applyDelete. reach. Qed.

Lemma applyAdoptProvider_reach ev et ps f run :
  Pres (Reach conns (ev_TenantID ev)) (applyAdoptProvider ev et ps f run).
Proof. unfold applyAdoptProvider, adoptCanonical, encodable, reconcileApplied. reach. Qed.
Hint Resolve applyUpsert_reach applyDelete_reach applyAdoptProvider_reach : reach.

Lemma applyReconcileFinding_reach ev et ps :
  Pres (Reach conns (ev_TenantID ev)) (applyReconcileFinding ev et ps).
Proof.
  unfold applyReconcileFinding, pushRepair, or_reconcileFail, reconcileFail, reconcileSkip,
    reconcileApplied, skip. reach.
Qed.
Hint Resolve applyReconcileFinding_reach : reach.

Lemma Process_reach ev : Pres (Reach conns (ev_TenantID ev)) (Process ev).
Proof.
  unfold Process, process_claimed, or_fail, fail, succeed, canonicalEntityType. reach.
Qed.
End worker_reach.
