(* ===== verification/Sample.v ===== *)
(** * A concrete system, for the witnesses

    One tenant with a Salesforce and a HubSpot connection synchronized both
    ways, providers that accept everything, and providers that are down. *)

From S2P Require Import Prelude Json GoTime Events Model Tables Effects Store Connectors Worker.
Local Open Scope string_scope.

(** The record every accepted write is answered with. *)
Definition sample_answer : Json :=
  JObj [("id", JStr "sf-000009"); ("contact_id", JStr "hs-000009"); ("version", JNum 1);
        ("deleted", JBool false)].

(** Providers that accept everything; the world counts the requests. *)
Definition up : Transport :=
  isolated nat (fun w _ => (S w, HttpResp 200 "" "" (Some sample_answer))) (fun w _ _ _ => (w, true)).

(** Providers that cannot be reached. *)
Definition down : Transport :=
  isolated nat (fun w _ => (S w, HttpErr "connection refused")) (fun w _ _ _ => (w, false)).

Definition sample_policy (src dst strategy : string) (prio : Z) : SyncPolicy :=
  mkSyncPolicy (src +:+ "-policy") "t1" "customer" src dst "bidirectional" strategy "propagate"
    "exponential_backoff" prio true 0 0.

Definition sample_connection (p base : string) : Connection :=
  mkConnection ("conn-" +:+ p) "t1" p p base "healthy" "secret" ∅ 0 0 None.

Definition sample_db (strategy : string) : DB :=
  mkDB [sample_connection "salesforce" "http://sf"; sample_connection "hubspot" "http://hs"]
    [sample_policy "salesforce" "hubspot" strategy 100;
     sample_policy "hubspot" "salesforce" strategy 100]
    [] [] [] [] [] [] [] [] [] [] [] [] [mkTenant "t1" "Acme" "acme" "active" 0] [] [] [] [].

(** The customer synchronized so far: known to both providers, its email last
    written by HubSpot. *)
Definition sample_canonical (tombstone : bool) : CanonicalRecord :=
  mkCanonicalRecord "sync-1" "t1" "customer" "sf-000001"
    (list_to_map [("first_name", JStr "Ada"); ("last_name", JStr "Lovelace");
       ("email", JStr "ada@acme.dev"); ("phone", JStr "555"); ("company", JStr "Acme")])
    3 (list_to_map [("salesforce", 5%Z); ("hubspot", 2%Z)])
    (list_to_map [("email", JObj [("source", JStr "hubspot"); ("version", JNum 2);
       ("occurred_at", JStr "2024-02-29T10:00:00Z"); ("priority", JNum 100)])])
    tombstone "hubspot" "evt-0" "" (list_to_map [("salesforce", "sf-000001"); ("hubspot", "hs-1")]) 0 0.

Definition with_canonical (c : CanonicalRecord) (d : DB) : DB :=
  on_canonical_records (fun _ => [c]) d.

(** A Salesforce update of the customer's email. *)
Definition sample_update (version : Z) : Event :=
  mkEvent "evt-1" "t1" "salesforce" "customer" "sf-000001" EventUpdated version
    1709202600250000000 1709202601000000000 "" no_provenance
    (list_to_map [("fields", JObj [("first_name", JStr "Ada"); ("last_name", JStr "Lovelace");
       ("email", JStr "ada@new.dev"); ("phone", JStr "555"); ("company", JStr "Acme")])]).

(** The customer the update describes, as the worker normalizes it. *)
Definition sample_cust : Customer :=
  FromFields (list_to_map [("first_name", JStr "Ada"); ("last_name", JStr "Lovelace");
       ("email", JStr "ada@new.dev"); ("phone", JStr "555"); ("company", JStr "Acme")])
    (new_customer "t1" "sf-000001").

Definition sample_delete : Event :=
  mkEvent "evt-2" "t1" "salesforce" "customer" "sf-000001" EventDeleted 9
    1709202600250000000 1709202601000000000 "" no_provenance ∅.

(** A state over [d] with no faults ahead. *)
Definition state_up (d : DB) : @St up := @mkSt up d 0 1000 [] [] 0 [] [] [] [].
Definition state_down (d : DB) : @St down := @mkSt down d 0 1000 [] [] 0 [] [] [] [].
