(* ===== verification/WorkerSpec.v ===== *)
(** * The worker's guarantees

    Isolation, idempotency, the dropped events (duplicates, stale, echoes,
    deletes of deleted records), the parking of manual conflicts, what a
    successful apply persists, and the durability of failures. *)

From S2P Require Import Prelude Json GoTime Events Model Conflict Backoff Tables Effects Store.
From S2P Require Import Frame Connectors Run Adapters Worker WorkerFrame WorkerCalls Sample.
Local Open Scope string_scope.

#[local] Hint Extern 1 (Pres Quiet (connect _ _)) =>
  unfold connect, adapterFor, ret_res; pres : pres.

Lemma or_fail_Ok `{Outside} {A B} ev (m : M A) (k : A -> M B) s0 b s' :
  or_fail ev m k s0 = (Ok b, s') -> exists a s1, m s0 = (Ok a, s1) /\ k a s1 = (Ok b, s').
Proof.
  unfold or_fail. intros E. run_step E. destruct x as [a|e]; [by exists a, s|].
  unfold fail in E. repeat run_step E; by simplify_eq.
Qed.

(** ** Isolation *)

Section frames.
Context `{Outside} (opts : Options).

Lemma dispatchFailure_frame ev e :
  Pres (OnTx (Frame handle_tables (ev_TenantID ev))) (dispatchFailure opts ev e).
Proof. unfold dispatchFailure, deadLetter. pres. Qed.

Lemma handle_event_frame ev :
  Pres (OnTx (Frame handle_tables (ev_TenantID ev))) (handle_event opts ev).
Proof.
  unfold handle_event. apply Pres_bind; [typeclasses eauto| |intros r _].
  - apply Pres_attempt, Process_frame; reflexivity.
  - destruct r; [pres|apply dispatchFailure_frame].
Qed.
End frames.

Section reach.
Context `{Transport} (opts : Options).

Lemma dispatchFailure_reach conns ev e :
  Pres (Reach conns (ev_TenantID ev)) (dispatchFailure opts ev e).
Proof.
  intros s0 Hc. split.
  - destruct (OnTx_db _ _ s0 (dispatchFailure_frame opts ev e) T_connections) as [_ E].
    specialize (E eq_refl). unfold same in E. by rewrite E.
  - revert s0 Hc. enough (Pres (CallsIn (allowed conns (ev_TenantID ev)))
                            (dispatchFailure opts ev e)) by auto.
    unfold dispatchFailure, deadLetter, encodable. pres; apply CallsIn_tx.
Qed.

Lemma handle_event_reach conns ev :
  Pres (Reach conns (ev_TenantID ev)) (handle_event opts ev).
Proof.
  unfold handle_event. apply Reach_bind; [apply Pres_attempt, Process_reach|intros r _].
  destruct r; [reach|apply dispatchFailure_reach].
Qed.
End reach.

(** C5: handling a message stays inside the event's tenant, whatever fails on the
    way.  Each transaction it commits, whatever other runs do in between, leaves
    every row of every other tenant as it was and writes no table besides those
    of the event pipeline; and unless others change the connections meanwhile,
    requests go only to connections of the event's own tenant.  A message that
    is not an event is answered without any transaction. *)
Theorem handle_isolated (opts : Options) (value : option Json) :
  match value ≫= decode_event with
  | None => forall (O : Outside) (s : @St O), (@Handle O opts value s).2 = s
  | Some ev =>
      (forall (O : Outside) (s : @St O),
         Forall (fun e => forall tb, foreign_same (ev_TenantID ev) tb e.1 e.2 /\
                    (handle_tables tb = false -> same tb e.1 e.2)) (commits (@Handle O opts value) s)) /\
      (forall (T : Transport) (s : @St T), exists l,
         st_calls (@Handle T opts value s).2 = (st_calls s ++ l)%list /\
         Forall (allowed (connections (st_db s)) (ev_TenantID ev)) l)
  end.
Proof.
  unfold Handle. destruct (value ≫= decode_event) as [ev|]; [|done]. split.
  - intros O s. apply (OnTx_commits (Frame handle_tables (ev_TenantID ev))), handle_event_frame.
  - intros T s. by apply (handle_event_reach opts (connections (st_db s))).
Qed.

Section spec.
Context `{Transport} (opts : Options).

(** ** Idempotency *)

(** The event has been claimed. *)
Definition claimed (ev : Event) (d : DB) : bool :=
  existsb (processed_key (ev_TenantID ev) (ev_Source ev) (ev_EventID ev)) (processed_events d).

Lemma claimed_Key ev ev' d : Key ev = Key ev' -> claimed ev d = claimed ev' d.
Proof. unfold Key, claimed. by intros [= -> -> ->]. Qed.

Lemma Claim_claimed ev s0 r s' :
  claimed ev (st_db s0) = true ->
  ClaimProcessedEvent (ev_TenantID ev) (ev_Source ev) (ev_EventID ev) (ev_EntityType ev)
    (ev_EntityID ev) s0 = (r, s') ->
  Quiet s0 s' /\ (r = Ok false \/ r = Err ErrDB).
Proof.
  intros Hc E. unfold ClaimProcessedEvent, tx, insert_new in E. unfold claimed in Hc.
  rewrite tr_alone, Hc in E. unfold Quiet. destruct (head (st_faults s0)) as [[]|]; simplify_eq/=; naive_solver.
Qed.

Lemma Process_claimed ev s0 :
  claimed ev (st_db s0) = true ->
  Quiet s0 (Process ev s0).2 /\ ((Process ev s0).1 = Ok tt \/ (Process ev s0).1 = Err ErrDB).
Proof.
  intros Hc. destruct (Process ev s0) as [r s'] eqn:E. unfold Process in E. simpl.
  run_step E. run_step E. apply Claim_claimed in Heqp as [Q2 Hr]; [|done].
  assert (Q1 : Quiet s0 s) by (etrans; [apply Quiet_add_metric|done]).
  destruct Hr as [-> | ->]; run E; (split; [etrans; [exact Q1|done]|auto]).
Qed.

Lemma canonicalEntityType_quiet ev : Pres Quiet (canonicalEntityType ev).
Proof. unfold canonicalEntityType. pres. Qed.

Lemma ListPolicies_quiet t : Pres Quiet (ListPolicies t).
Proof. unfold ListPolicies. pres. Qed.
Hint Resolve canonicalEntityType_quiet ListPolicies_quiet : pres.

(** The frame of a run, specialized to the claims. *)
Lemma apply_keeps_claims t {A} (m : M A) :
  Pres (OnTx (Frame apply_tables t)) m ->
  Pres (OnDb (fun d d' => processed_events d' = processed_events d)) m.
Proof. intros HP s0. destruct (OnTx_db _ m s0 HP T_processed_events) as [_ E]. by apply E. Qed.

Lemma succeed_effect ev :
  Pres (OnDb (fun d d' => processed_events d' = processed_events d)) (succeed ev).
Proof.
  intros s0. destruct (succeed ev s0) as [r s'] eqn:E. unfold succeed in E. run_step E.
  unfold OnDb. run E. simpl.
  match goal with Ht : SetSourceEventStatus _ _ _ _ _ = _ |- _ =>
    apply run_tx in Ht as [_ [(? & ? & [= _ <-] & -> & _)|[-> _]]]; done end.
Qed.

Lemma process_claimed_keeps ev s0 s' :
  process_claimed ev s0 = (Ok tt, s') ->
  st_calls s' <> st_calls s0 ->
  processed_events (st_db s') = processed_events (st_db s0).
Proof.
  intros E Hcalls. unfold process_claimed in E.
  apply or_fail_Ok in E as (ps & s1 & E1 & E). frame E1 Quiet. rename P into Q1.
  apply or_fail_Ok in E as (et & s2 & E2 & E). frame E2 Quiet. rename P into Q2.
  assert (Q : Quiet s0 s2) by (by etrans). clear Q1 Q2 E1 E2. destruct Q as (Qd & Qc & _).
  rewrite <- Qd, <- Qc in *. clear Qd Qc s0 s1.
  assert (Hend : forall (m : M unit), Pres (OnTx (Frame apply_tables (ev_TenantID ev))) m ->
      or_fail ev m (fun _ => succeed ev) s2 = (Ok tt, s') ->
      processed_events (st_db s') = processed_events (st_db s2)).
  { intros m Hm Em. apply or_fail_Ok in Em as ([] & s3 & E3 & E4).
    pose proof (apply_keeps_claims _ m Hm s2) as K. rewrite E3 in K.
    pose proof (succeed_effect ev s3) as K'. rewrite E4 in K'. unfold OnDb in *. simpl in *.
    congruence. }
  destruct (negb _).
  - apply (Hend _ (applyReconcileFinding_frame apply_tables eq_refl eq_refl eq_refl eq_refl
                     ev et ps) E).
  - destruct (targets ev et ps) as [|p ps'] eqn:Et.
    + exfalso. apply Hcalls. repeat run_step E.
      repeat match goal with Ht : _ _ = (_, _) |- _ => apply run_tx in Ht as [(? & _) _] end.
      congruence.
    + refine (Hend _ _ E). case_if.
      * by apply applyDelete_frame.
      * by apply applyUpsert_frame.
Qed.

(** Processing that succeeded after talking to a provider left its claim. *)
Lemma Process_leaves_claim ev s0 s' :
  Process ev s0 = (Ok tt, s') -> st_calls s' <> st_calls s0 -> claimed ev (st_db s') = true.
Proof.
  intros E Hcalls. unfold claimed, Process in *. run_step E. run_step E.
  destruct x as [[]|e]; [..|by run E].
  - pose proof Heqp as Hw. apply run_tx in Hw as [(Hw & _) Hd].
    rewrite (process_claimed_keeps ev s s' E) by (rewrite Hw; exact Hcalls).
    destruct Hd as [(b & d & Hb & -> & Hr)|[_ [e He]]]; [|done].
    destruct (insert_new _ _ _) as [t|] eqn:Ei; simplify_eq; [|by destruct Hr].
    simpl. unfold insert_new in Ei. destruct (existsb _ _); simplify_eq.
    rewrite existsb_app. simpl. unfold processed_key. simpl. rewrite !seqb_refl.
    by rewrite orb_true_r.
  - exfalso. apply Hcalls. run E. apply run_tx in Heqp as [(Hw & _) _]. exact Hw.
Qed.

(** ** Durability of failures *)

Lemma decode_event_int64 j ev : decode_event j = Some ev -> in_int64 (ev_SourceVersion ev) = true.
Proof.
  destruct j; simpl; try discriminate; [intros [= <-]; reflexivity|]. intros E.
  repeat match type of E with
  | (?x ≫= _) = Some _ => destruct x eqn:?; simpl in E; [|discriminate E]
  end.
  injection E as <-. simpl.
  match goal with Hv : dec_int64 _ _ = Some _ |- _ => revert Hv end.
  unfold dec_int64. destruct (jlookup _ _) as [[]|]; try discriminate;
    try (by intros [= <-]). case_if; [|discriminate]. by intros [= <-].
Qed.

Lemma retry_key_self t i r :
  rt_TenantID r = t -> rt_EventID r = i -> retry_key t i r = true.
Proof. intros <- <-. unfold retry_key. by rewrite !seqb_refl. Qed.

Lemma dead_key_self t i r :
  dl_TenantID r = t -> dl_EventID r = i -> dead_key t i r = true.
Proof. intros <- <-. unfold dead_key. by rewrite !seqb_refl. Qed.

(** Queueing a retry leaves a row for the event, with the given state, due
    after the delay. *)
Lemma EnqueueRetry_row e delay s0 r s' :
  EnqueueRetry e delay s0 = (Ok r, s') ->
  SameWorld s0 s' /\
  exists row, select_one (retry_key (rt_TenantID e) (rt_EventID e)) (retry_queue (st_db s')) = Some row /\
    rt_State row = rt_State e /\ rt_LastError row = rt_LastError e /\
    rt_ErrorClass row = rt_ErrorClass e /\
    rt_NextAttemptAt row = (st_now s0 + pg_interval delay)%Z /\
    rt_Attempt row =
      match select_one (retry_key (rt_TenantID e) (rt_EventID e)) (retry_queue (st_db s0)) with
      | Some old => (rt_Attempt old + 1)%Z
      | None => 1%Z
      end.
Proof.
  intros E. apply run_tx in E as [W [(a & d & Eb & Hd & _)|[_ [? ?]]]]; [|done].
  split; [done|]. cbv zeta in Eb. apply (f_equal snd) in Eb. simpl in Eb. rewrite Hd, <- Eb.
  simpl. rewrite select_one_upsert.
  - eexists. split; [done|]. by destruct (select_one _ _).
  - intros r0 Hr. unfold retry_key in *. exact Hr.
  - unfold retry_key. simpl. by rewrite !seqb_refl.
Qed.

Lemma InsertDeadLetter_row e s0 r s' :
  InsertDeadLetter e s0 = (Ok r, s') ->
  SameWorld s0 s' /\
  exists row, select_one (dead_key (dl_TenantID e) (dl_EventID e)) (dead_letter (st_db s')) = Some row /\
    dl_Payload row = dl_Payload e /\ dl_Reason row = dl_Reason e /\
    dl_ErrorClass row = dl_ErrorClass e /\ dl_Status row = "open" /\ dl_ResolvedAt row = None.
Proof.
  intros E. apply run_tx in E as [W [(a & d & Eb & Hd & _)|[_ [? ?]]]]; [|done].
  split; [done|]. cbv zeta in Eb. apply (f_equal snd) in Eb. simpl in Eb. rewrite Hd, <- Eb.
  simpl. rewrite select_one_upsert.
  - eexists. split; [done|]. by destruct (select_one _ _).
  - intros r0 Hr. unfold dead_key in *. exact Hr.
  - unfold dead_key. simpl. by rewrite !seqb_refl.
Qed.

(** The row of the retry queue, or of the dead-letter table, that makes the
    failure [e] of [ev] durable. *)
Definition queued (ev : Event) (e : error) (now : Z) (d : DB) : Prop :=
  exists row k,
    select_one (retry_key (ev_TenantID ev) (ev_EventID ev)) (retry_queue d) = Some row /\
    decode_event (rt_State row) = Some ev /\ rt_LastError row = Error e /\
    rt_ErrorClass row = kind_String (Classify e).1 /\
    rt_NextAttemptAt row = (now + pg_interval (first_delay opts (Classify e).2 k))%Z.

Definition parked (ev : Event) (e : error) (d : DB) : Prop :=
  exists row,
    select_one (dead_key (ev_TenantID ev) (ev_EventID ev)) (dead_letter d) = Some row /\
    decode_event (dl_Payload row) = Some ev /\ dl_Reason row = Error e /\
    dl_ErrorClass row = kind_String (Classify e).1 /\ dl_Status row = "open".

Lemma run_encodable {A} (o : option A) s0 a s' :
  encodable o s0 = (Ok a, s') -> o = Some a /\ s' = s0.
Proof. unfold encodable. destruct o; intros E; run E; done. Qed.

Lemma SetStatusTo_dead t i to s0 r s' :
  SetSourceEventStatusTo t i to s0 = (r, s') -> dead_letter (st_db s') = dead_letter (st_db s0).
Proof. intros E. by apply run_tx in E as [_ [(? & ? & [= _ <-] & -> & _)|[-> _]]]. Qed.

Lemma dispatchFailure_durable ev e s0 s' :
  in_int64 (ev_SourceVersion ev) = true ->
  dispatchFailure opts ev e s0 = (Ok tt, s') ->
  if ShouldRetry (Classify e).1 then queued ev e (st_now s0) (st_db s')
  else parked ev e (st_db s').
Proof.
  intros Hv E. unfold dispatchFailure in E.
  destruct (Classify e) as [kind ra] eqn:Ec. cbn [fst].
  destruct (ShouldRetry kind); cbn [negb] in E.
  - apply run_bind in E as [(? & _ & ?)|(k & s1 & Ek & E)]; [done|].
    frame Ek Quiet. destruct P as (_ & _ & _ & _ & Hn).
    apply run_bind in E as [(? & _ & ?)|(j & s2 & Ej & E)]; [done|].
    apply run_encodable in Ej as [Ej ->].
    apply run_bind in E as [(? & _ & ?)|(r & s3 & Er & E)]; [done|].
    apply EnqueueRetry_row in Er as [_ (row & Hrow & Hst & Hle & Hec & Hdue & _)].
    run E. exists row, k. rewrite Ec, <- Hn. cbn [fst snd] in *. split_and!; try done.
    rewrite Hst. by apply decode_encode_event.
  - unfold deadLetter in E.
    apply run_bind in E as [(? & _ & ?)|(j & s2 & Ej & E)]; [done|].
    apply run_encodable in Ej as [Ej ->].
    apply run_bind in E as [(? & _ & ?)|(r & s3 & Er & E)]; [done|].
    apply InsertDeadLetter_row in Er as [_ (row & Hrow & Hst & Hle & Hec & Hs & _)].
    run E. match goal with Ht : SetSourceEventStatusTo _ _ _ _ = _ |- _ =>
      apply SetStatusTo_dead in Ht as Hd end.
    exists row. rewrite Ec. cbn [fst]. simpl. rewrite Hd. split_and!; try done.
    rewrite Hst. by apply decode_encode_event.
Qed.

Lemma Handle_acknowledged (value : option Json) (ev : Event) (s0 s' : St) :
  value ≫= decode_event = Some ev ->
  Handle opts value s0 = (Ok tt, s') ->
  Process ev s0 = (Ok tt, s') \/
  exists e s1, Process ev s0 = (Err e, s1) /\
    if ShouldRetry (Classify e).1 then queued ev e (st_now s1) (st_db s')
    else parked ev e (st_db s').
Proof.
  intros Hv E. unfold Handle in E. rewrite Hv in E. unfold handle_event in E. run_step E.
  destruct x as [[]|e].
  - run E. by left.
  - right. exists e, s. split; [done|]. apply dispatchFailure_durable; [|done].
    destruct value as [j|]; [|done]. simpl in Hv. by eapply decode_event_int64.
Qed.

(** C4: no failure is lost.  When [Handle] acknowledges a message, the event
    was processed, or its failure is durable: a retryable failure is a row of
    the retry queue, a permanent one an open dead letter, and either row
    holds the whole event, the reason and the error class. *)
Theorem handle_durable (value : option Json) (ev : Event) (s0 s' : St) :
  value ≫= decode_event = Some ev ->
  Handle opts value s0 = (Ok tt, s') ->
  Process ev s0 = (Ok tt, s') \/
  exists e s1, Process ev s0 = (Err e, s1) /\
    if ShouldRetry (Classify e).1 then queued ev e (st_now s1) (st_db s')
    else parked ev e (st_db s').
Proof. apply Handle_acknowledged. Qed.

(** ** Events that change nothing *)

(** No request, and no table written but those of [ts]. *)
Definition Idle (ts : Tbl -> bool) (t : string) (s s' : St) : Prop :=
  Frame ts t (st_db s) (st_db s') /\ st_calls s' = st_calls s.

#[global] Instance Idle_preorder ts t : PreOrder (Idle ts t).
Proof.
  split; [by intros s0|]. intros s1 s2 s3 [F1 E1] [F2 E2]. split; [by etrans|congruence].
Qed.

Lemma Idle_Quiet ts t s0 s' : Quiet s0 s' -> Idle ts t s0 s'.
Proof. intros (Ed & Ec & _). split; [by rewrite Ed|done]. Qed.

Lemma Idle_tx ts t {A} (body : Z -> nat -> DB -> Res A * DB) :
  Pres (OnTx (Frame ts t)) (tx body) -> Pres (Idle ts t) (tx body).
Proof.
  intros HF s0. split; [exact (OnTx_db _ _ s0 HF)|]. destruct (tx body s0) as [r s'] eqn:E. simpl.
  by apply run_tx in E as [(-> & _) _].
Qed.

Lemma Idle_of_Quiet ts t {A} (m : M A) : Pres Quiet m -> Pres (Idle ts t) m.
Proof. intros Hm s0. by apply Idle_Quiet. Qed.

Definition status_tables : Tbl -> bool := among [T_processed_events; T_source_events].

Lemma canonicalEntityType_customer ev et :
  Returns (canonicalEntityType ev) et -> et = "customer".
Proof.
  unfold canonicalEntityType, connect, adapterFor, ret_res. intros Hr. returns.
  by eapply NewWithTimeout_entity.
Qed.

Section around.
Context (ts : Tbl -> bool) (ev : Event)
  (Hts : forall tb, status_tables tb = true -> ts tb = true).
Let t := ev_TenantID ev.

Lemma fail_idle : Pres (Idle ts t) (fail ev).
Proof using Hts.
  unfold fail. pres; try (apply Idle_of_Quiet; by eauto with pres);
    apply Idle_tx; eauto with pres.
Qed.

Lemma succeed_idle : Pres (Idle ts t) (succeed ev).
Proof using Hts.
  unfold succeed. pres; try (apply Idle_of_Quiet; by eauto with pres);
    apply Idle_tx; eauto with pres.
Qed.

Lemma or_fail_idle {A} (m : M A) (k : A -> M unit) s1 :
  Idle ts t s1 (m s1).2 ->
  (forall a s2, m s1 = (Ok a, s2) -> Idle ts t s2 (k a s2).2) ->
  Idle ts t s1 (or_fail ev m k s1).2.
Proof using Hts.
  intros Hm Hk. unfold or_fail. rewrite bind_attempt.
  destruct (m s1) as [[a|e] s2] eqn:E; cbn [fst snd] in *.
  - etrans; [done|by apply Hk].
  - etrans; [done|]. apply (Pres_bind (Idle ts t) (fail ev)); [apply fail_idle|].
    intros; apply Pres_throw. typeclasses eauto.
Qed.

Lemma Claim_idle s0 r s1 :
  ClaimProcessedEvent t (ev_Source ev) (ev_EventID ev) (ev_EntityType ev) (ev_EntityID ev) s0
    = (r, s1) ->
  Frame status_tables t (st_db s0) (st_db s1) /\ Idle ts t s0 s1.
Proof using Hts.
  intros Ec.
  pose proof (OnTx_db _ _ s0 (ClaimProcessedEvent_frame status_tables t (ev_Source ev) (ev_EventID ev)
    (ev_EntityType ev) (ev_EntityID ev) eq_refl)) as F. rewrite Ec in F.
  split; [done|]. split; [|by apply run_tx in Ec as [(-> & _) _]].
  eapply Frame_weaken; [|exact F]. intros tb Htb.
  destruct (status_tables tb) eqn:Es; [|done]. apply Hts in Es. congruence.
Qed.

(** The steps around an apply are idle; so [Process] is idle when the apply
    is, from the state the event arrives in. *)
Lemma Process_idle s0 (P : DB -> Prop) :
  pv_ReconcileFindingID (ev_Provenance ev) = "" ->
  (forall d d', Frame status_tables t d d' -> P d -> P d') -> P (st_db s0) ->
  (forall ps s1, P (st_db s1) ->
     Idle ts t s1 ((if ev_EventType ev =s EventDeleted then applyDelete ev "customer" ps
                    else applyUpsert ev "customer" ps) s1).2) ->
  Idle ts t s0 (Process ev s0).2.
Proof using Hts.
  intros Hrf HP HP0 Happ. unfold Process. rewrite bind_metric, bind_attempt.
  destruct (ClaimProcessedEvent _ _ _ _ _ _) as [r s1] eqn:Ec. cbn [fst snd].
  apply Claim_idle in Ec as [Hc1 HI]. etrans; [exact HI|].
  specialize (HP _ _ Hc1 HP0). clear HI HP0 Hc1 s0.
  destruct r as [[]|e]; [|by apply (Idle_of_Quiet ts t (metric "Duplicates"))|].
  2: { apply Idle_Quiet. apply (Pres_bind Quiet (metric "EventsFailed")); [done|].
       intros; apply Pres_throw. typeclasses eauto. }
  unfold process_claimed. rewrite Hrf, seqb_refl. cbn [negb].
  apply or_fail_idle; [by apply Idle_Quiet, ListPolicies_quiet|]. intros ps s2 E2.
  frame E2 Quiet. rename P0 into Q2.
  apply or_fail_idle; [by apply Idle_Quiet, canonicalEntityType_quiet|]. intros et s3 E3.
  frame E3 Quiet. rename P0 into Q3.
  assert (et = "customer") as -> by (apply (canonicalEntityType_customer ev); by exists s2, s3).
  assert (HP3 : P (st_db s3)).
  { destruct Q2 as [Q2 _], Q3 as [Q3 _]. by rewrite Q3, Q2. }
  destruct (targets ev "customer" ps) as [|p ps'].
  - apply (Pres_bind (Idle ts t)
             (ignore (ReleaseProcessedEvent t (ev_Source ev) (ev_EventID ev))));
      intros; apply Pres_ignore, Idle_tx; eauto with pres.
  - apply or_fail_idle; [by apply Happ|]. intros [] s4 E4. apply succeed_idle.
Qed.
End around.

(** The record mapped to the event's provider id. *)
Definition mapped (ev : Event) (d : DB) : option CanonicalRecord :=
  select_one (provider_key (ev_TenantID ev) "customer" (ev_Source ev) (ev_EntityID ev))
    (canonical_records d).

Lemma resolveCanonical_mapped ev cust c s1 r s2 :
  mapped ev (st_db s1) = Some c ->
  resolveCanonical ev "customer" cust s1 = (r, s2) ->
  Quiet s1 s2 /\ (r = Ok c \/ r = Err ErrDB).
Proof.
  intros Hm E. unfold resolveCanonical in E. run_step E.
  apply run_query in Heqp as [Q Hx]. unfold mapped in Hm. rewrite Hm in Hx. simpl in Hx.
  destruct Hx as [-> | ->]; run E; auto.
Qed.

(** What [applyUpsert] does up to the merge, for an event whose record is
    mapped: nothing visible, unless the event is neither stale nor an echo. *)
Lemma applyUpsert_mapped ev ps c s1 (R : St -> St -> Prop) `{!PreOrder R} :
  (forall s s', Quiet s s' -> R s s') ->
  pv_ResolvedConflictID (ev_Provenance ev) = "" ->
  mapped ev (st_db s1) = Some c ->
  (forall src cust s2, (exists s', connect (ev_TenantID ev) (ev_Source ev) s1 = (Ok src, s')) ->
     (forall fields, payload_fields ev = Some fields ->
        cust = set_TenantID (ev_TenantID ev) (ad_Normalize src
                 (mkProviderRecord (ev_EntityID ev) (ev_SourceVersion ev) false fields))) ->
     Quiet s1 s2 ->
     (ev_SourceVersion ev > default 0 (cr_SourceVersions c !! ev_Source ev))%Z ->
     R s2 ((echo ← isEcho (ev_TenantID ev) "customer" (cr_EntityID c) (ev_Source ev) cust;
            if (echo : bool) then metric "LoopsPrevented"
            else merge_and_propagate ev "customer" ps cust c) s2).2) ->
  R s1 (applyUpsert ev "customer" ps s1).2.
Proof.
  intros HQ Hr Hm Hk. unfold applyUpsert. rewrite Hr, seqb_refl. cbn [negb].
  destruct (payload_fields ev) as [fields|] eqn:Ef; [|reflexivity].
  destruct (connect (ev_TenantID ev) (ev_Source ev) s1) as [x s2] eqn:Ec.
  frame Ec Quiet. unfold mbind at 1, M_bind at 1. rewrite Ec.
  destruct x as [src|e]; [|by apply HQ].
  destruct (ad_Validate src _); [by apply HQ|].
  set (cust := set_TenantID _ _). unfold mbind at 1, M_bind at 1.
  destruct (resolveCanonical ev "customer" cust s2) as [y s3] eqn:Er.
  apply (resolveCanonical_mapped ev cust c) in Er as [Q3 Hy];
    [|by destruct P as [-> _]].
  assert (Q : Quiet s1 s3) by (by etrans).
  destruct Hy as [-> | ->]; [|by apply HQ].
  etrans; [by apply HQ, Q|].
  destruct (_ <=? _)%Z eqn:El.
  - apply HQ. done.
  - apply (Hk src cust s3); [by exists s2|by intros ? [= <-]|done|lia].
Qed.

Lemma mapped_frame ev d d' :
  Frame status_tables (ev_TenantID ev) d d' -> mapped ev d' = mapped ev d.
Proof.
  intros F. unfold mapped. destruct (F T_canonical_records) as [_ E].
  specialize (E eq_refl). unfold same in E. by rewrite E.
Qed.

(** C16: out-of-order protection.  A created or updated event, neither a
    conflict's resolution nor a repair, of a record that is mapped by its provider
    id and whose version is not above the last one applied from its source: run
    alone, whatever faults the database has, [Process] makes no request and writes
    no table but the claims and the events' statuses.  (Deletes are not so
    protected: [stale_delete_applied].) *)
Theorem stale_dropped (ev : Event) (c : CanonicalRecord) (s0 : St) :
  pv_ReconcileFindingID (ev_Provenance ev) = "" ->
  pv_ResolvedConflictID (ev_Provenance ev) = "" ->
  ev_EventType ev <> EventDeleted ->
  mapped ev (st_db s0) = Some c ->
  (ev_SourceVersion ev <= default 0 (cr_SourceVersions c !! ev_Source ev))%Z ->
  let s' := (Process ev s0).2 in
  st_calls s' = st_calls s0 /\
  forall tb, status_tables tb = false -> same tb (st_db s0) (st_db s').
Proof.
  intros Hrf Hrc Hdel Hm Hstale.
  assert (I : Idle status_tables (ev_TenantID ev) s0 (Process ev s0).2).
  { apply (Process_idle _ ev (fun _ H => H) s0 (fun d => mapped ev d = Some c)); try done.
    - intros d d' F <-. by apply mapped_frame.
    - intros ps s1 Hm1. rewrite (seqb_ne _ _ Hdel).
      eapply applyUpsert_mapped; [typeclasses eauto|intros; by apply Idle_Quiet|done..|].
      intros. lia. }
  destruct I as [F E]. split; [done|]. intros tb Htb. by apply (F tb).
Qed.

(** ** Own writes coming back *)

(** The adapter of the source's connection in [d]. *)
Definition source_adapter (ev : Event) (d : DB) (a : Adapter) : Prop :=
  exists conn,
    select_one (fun r => (cn_TenantID r =s ev_TenantID ev) && (cn_Provider r =s ev_Source ev))
      (connections d) = Some conn /\
    NewWithTimeout (cn_Provider conn) (cn_BaseURL conn) = Ok a.

Lemma connect_source ev a s1 src s2 :
  source_adapter ev (st_db s1) a ->
  connect (ev_TenantID ev) (ev_Source ev) s1 = (Ok src, s2) -> src = a.
Proof.
  intros (conn & Hs & Ha) E. unfold connect, adapterFor in E.
  apply run_bind in E as [(? & _ & ?)|(c & s3 & Ec & E)]; [done|].
  apply run_query in Ec as [_ [Ec|?]]; [|done]. rewrite Hs in Ec. simpl in Ec.
  simplify_eq. rewrite Ha in E. by injection E.
Qed.

Lemma isEcho_own t et eid src cust w s1 r s2 :
  select_one (outbound_key t et eid src) (outbound_writes (st_db s1)) = Some w ->
  ow_Fingerprint w = Fingerprint cust ->
  isEcho t et eid src cust s1 = (r, s2) ->
  Quiet s1 s2 /\ (r = Ok true \/ r = Err ErrDB).
Proof.
  intros Hw Hf E. unfold isEcho in E. run_step E.
  apply run_query in Heqp as [Q Hx]. rewrite Hw in Hx. simpl in Hx.
  destruct Hx as [-> | ->]; run E; rewrite ?Hf, ?seqb_refl; auto.
Qed.

Lemma Fingerprint_view c1 c2 : cust_view c1 = cust_view c2 -> Fingerprint c1 = Fingerprint c2.
Proof. unfold cust_view, Fingerprint, fingerprint_text. by intros [= -> -> -> -> ->]. Qed.

(** Loop prevention.  When the ledger records that the customer [cust]
    was last written to a provider, an event of that provider whose fields
    are the ones written (as its adapter denormalizes [cust]) is recognized
    as the engine's own echo: no request is made, and no table but the claims
    and the statuses is written. *)
Theorem own_echo_dropped (ev : Event) (c : CanonicalRecord) (a : Adapter) (w : OutboundWrite)
    (cust : Customer) (s0 : St) :
  pv_ReconcileFindingID (ev_Provenance ev) = "" ->
  pv_ResolvedConflictID (ev_Provenance ev) = "" ->
  ev_EventType ev <> EventDeleted ->
  mapped ev (st_db s0) = Some c ->
  source_adapter ev (st_db s0) a ->
  select_one (outbound_key (ev_TenantID ev) "customer" (cr_EntityID c) (ev_Source ev))
    (outbound_writes (st_db s0)) = Some w ->
  ow_Fingerprint w = Fingerprint cust ->
  payload_fields ev = Some (rec_Data (ad_Denormalize a cust)) ->
  let s' := (Process ev s0).2 in
  st_calls s' = st_calls s0 /\
  forall tb, status_tables tb = false -> same tb (st_db s0) (st_db s').
Proof.
  intros Hrf Hrc Hdel Hm Ha Hw Hfp Hpay.
  assert (I : Idle status_tables (ev_TenantID ev) s0 (Process ev s0).2).
  { apply (Process_idle _ ev (fun _ H => H) s0 (fun d => mapped ev d = Some c /\
      connections d = connections (st_db s0) /\ outbound_writes d = outbound_writes (st_db s0)));
      try done.
    - intros d d' F (<- & <- & <-). split_and!; [by apply mapped_frame|..].
      + by destruct (F T_connections) as [_ E]; apply E.
      + by destruct (F T_outbound_writes) as [_ E]; apply E.
    - intros ps s1 (Hm1 & Hc1 & Ho1). rewrite (seqb_ne _ _ Hdel).
      eapply applyUpsert_mapped; [typeclasses eauto|intros; by apply Idle_Quiet|done..|].
      intros src cust' s2 [s3 Ec] Hcust Q _.
      apply (connect_source ev a) in Ec; [subst src|unfold source_adapter; by rewrite Hc1].
      specialize (Hcust _ Hpay). apply Idle_Quiet. unfold mbind, M_bind.
      destruct (isEcho _ _ _ _ cust' s2) as [r s4] eqn:Ee.
      apply (isEcho_own _ _ _ _ cust' w) in Ee as [Qe [-> | ->]].
      + etrans; [exact Qe|done].
      + done.
      + destruct Q as [-> _]. by rewrite Ho1.
      + rewrite Hfp. apply Fingerprint_view. rewrite Hcust.
        destruct Ha as (conn & _ & Ha). apply NewWithTimeout_lawful in Ha as [_ L _ _ _].
        by rewrite <- (L (ev_EntityID ev) (ev_SourceVersion ev) cust). }
  destruct I as [F E]. split; [done|]. intros tb Htb. by apply (F tb).
Qed.

(** Deletes do not bounce.  A delete event for a record that is already
    tombstoned makes no request and writes no table but the claims and the
    statuses: the destination's own delete webhook ends the chain. *)
Theorem tombstone_stops_deletes (ev : Event) (c : CanonicalRecord) (s0 : St) :
  pv_ReconcileFindingID (ev_Provenance ev) = "" ->
  ev_EventType ev = EventDeleted ->
  mapped ev (st_db s0) = Some c -> cr_Tombstone c = true ->
  let s' := (Process ev s0).2 in
  st_calls s' = st_calls s0 /\
  forall tb, status_tables tb = false -> same tb (st_db s0) (st_db s').
Proof.
  intros Hrf Hdel Hm Ht.
  assert (I : Idle status_tables (ev_TenantID ev) s0 (Process ev s0).2).
  { apply (Process_idle _ ev (fun _ H => H) s0 (fun d => mapped ev d = Some c)); try done.
    - intros d d' F <-. by apply mapped_frame.
    - intros ps s1 Hm1. rewrite Hdel, seqb_refl. unfold applyDelete. rewrite bind_attempt.
      destruct (GetCanonicalByProvider _ _ _ _ s1) as [r s2] eqn:E. cbn [fst snd].
      apply run_query in E as [Q Hx]. unfold mapped in Hm1. rewrite Hm1 in Hx. simpl in Hx.
      apply Idle_Quiet. destruct Hx as [-> | ->]; [rewrite Ht|]; exact Q. }
  destruct I as [F E]. split; [done|]. intros tb Htb. by apply (F tb).
Qed.
End spec.

(** ** The hypotheses hold somewhere *)

Definition synced : @St up :=
  state_up (with_canonical (sample_canonical false) (sample_db StrategyLastWriteWins)).

(** A failing provider: the update ends up in the retry queue. *)
Definition synced_down : @St down :=
  state_down (with_canonical (sample_canonical false) (sample_db StrategyLastWriteWins)).

Lemma handle_durable_witness :
  match encode_event (sample_update 7) with
  | Some j =>
      exists e s1, @Process down (sample_update 7) synced_down = (Err e, s1) /\
        if ShouldRetry (Classify e).1
        then queued New_opts (sample_update 7) e (st_now s1)
               (st_db (@Handle down New_opts (Some j) synced_down).2)
        else parked (sample_update 7) e (st_db (@Handle down New_opts (Some j) synced_down).2)
  | None => False
  end.
Proof.
  destruct (encode_event (sample_update 7)) as [j|] eqn:Ej; [|vm_compute in Ej; discriminate].
  assert (Hd : Some j ≫= decode_event = Some (sample_update 7)).
  { apply (decode_encode_event (sample_update 7) j); [reflexivity|exact Ej]. }
  assert (Hh : (@Handle down New_opts (Some j) synced_down).1 = Ok tt).
  { unfold Handle. rewrite Hd. vm_compute. reflexivity. }
  destruct (@handle_durable down New_opts (Some j) (sample_update 7) synced_down
              (@Handle down New_opts (Some j) synced_down).2 Hd) as [Hp|Hp].
  - rewrite <- Hh. apply surjective_pairing.
  - apply (f_equal fst) in Hp. vm_compute in Hp. discriminate.
  - exact Hp.
Defined.

Lemma stale_dropped_witness :
  let s' := (@Process up (sample_update 4) synced).2 in
  st_calls s' = st_calls synced /\
  forall tb, status_tables tb = false -> same tb (st_db synced) (st_db s').
Proof.
  apply (@stale_dropped up (sample_update 4) (sample_canonical false) synced);
    [reflexivity|reflexivity|discriminate|reflexivity|vm_compute; discriminate].
Defined.

(** A delete older than the version known for its source is applied all the
    same: the record is deleted at the destination and tombstoned, and the version
    known for the source goes back. *)
Definition late_delete : Event :=
  mkEvent "evt-2" "t1" "salesforce" "customer" "sf-000001" EventDeleted 2
    1709202600250000000 1709202601000000000 "" no_provenance ∅.

Lemma stale_delete_applied :
  let s' := (@Process up late_delete synced).2 in
  (2 < default 0 (cr_SourceVersions (sample_canonical false) !! "salesforce"))%Z /\
  length (st_calls s') = 1 /\
  (fun r => (cr_Tombstone r, cr_SourceVersions r !! "salesforce")) <$> canonical_records (st_db s') =
    [(true, Some 2%Z)].
Proof. vm_compute. split_and!; reflexivity. Qed.

(** The HubSpot webhook that answers the engine's own write. *)
Definition echo_event : Event :=
  mkEvent "evt-3" "t1" "hubspot" "contact" "hs-1" EventUpdated 9
    1709202600250000000 1709202601000000000 "" no_provenance
    (list_to_map [("fields", of_fields (rec_Data (Hubspot.Denormalize sample_cust)))]).

Lemma payload_of_fields (ev : Event) (m : Fields) :
  ev_Payload ev !! "fields" = Some (of_fields m) -> map_to_list m <> [] ->
  payload_fields ev = Some m.
Proof.
  intros Hp Hm. unfold payload_fields. rewrite Hp. unfold of_fields. cbv zeta.
  rewrite list_to_map_to_list, bool_decide_eq_false_2; [done|]. intros ->.
  by rewrite map_to_list_empty in Hm.
Qed.

Definition echoed : @St up :=
  state_up (on_outbound_writes
    (fun _ => [mkOutboundWrite "t1" "customer" "sf-000001" "hubspot" (Fingerprint sample_cust) 7 0])
    (with_canonical (sample_canonical false) (sample_db StrategyLastWriteWins))).

Lemma own_echo_dropped_witness :
  let s' := (@Process up echo_event echoed).2 in
  st_calls s' = st_calls echoed /\
  forall tb, status_tables tb = false -> same tb (st_db echoed) (st_db s').
Proof.
  apply (@own_echo_dropped up echo_event (sample_canonical false) (@Hubspot.adapter up "http://hs")
           (mkOutboundWrite "t1" "customer" "sf-000001" "hubspot" (Fingerprint sample_cust) 7 0)
           sample_cust echoed);
    [reflexivity|reflexivity|discriminate|reflexivity| |reflexivity|reflexivity|].
  - exists (sample_connection "hubspot" "http://hs"). split; reflexivity.
  - apply (payload_of_fields echo_event (rec_Data (Hubspot.Denormalize sample_cust)));
      [apply lookup_insert_eq|vm_compute; discriminate].
Defined.

Lemma tombstone_stops_deletes_witness :
  let s0 := state_up (with_canonical (sample_canonical true) (sample_db StrategyLastWriteWins)) in
  let s' := (@Process up sample_delete s0).2 in
  st_calls s' = st_calls s0 /\
  forall tb, status_tables tb = false -> same tb (st_db s0) (st_db s').
Proof.
  apply (@tombstone_stops_deletes up sample_delete (sample_canonical true)
    (state_up (with_canonical (sample_canonical true) (sample_db StrategyLastWriteWins))));
    reflexivity.
Defined.
