(* ===== verification/WorkerApply.v ===== *)
(** * What an apply persists

    The functional behaviour of the upsert path: the record, the loop-prevention
    ledger and the operations ledger after a successful apply, and the parking
    of manual conflicts. *)

From S2P Require Import Prelude Json GoTime Events Model Conflict Backoff Tables Effects Store.
From S2P Require Import Frame Connectors Run Adapters Worker WorkerFrame WorkerCalls Sample.
From S2P Require Import WorkerSpec.
Local Open Scope string_scope.
#[local] Opaque Fingerprint.

Section apply.
Context `{Transport}.

(** ** One destination *)

Lemma connect_quiet t p : Pres Quiet (connect t p).
Proof. unfold connect, adapterFor, ret_res. pres. Qed.

Lemma connect_Ok t p s0 a s' :
  connect t p s0 = (Ok a, s') ->
  exists conn, conn ∈ connections (st_db s0) /\ cn_TenantID conn = t /\ cn_Provider conn = p /\
    NewWithTimeout p (cn_BaseURL conn) = Ok a.
Proof.
  intros E. unfold connect, adapterFor, ret_res in E. bind_ok E conn s1 E1. exists conn.
  unfold GetConnectionByProvider, query, tx in E1. rewrite tr_alone in E1.
  assert (Hsel : select_one (fun r => (cn_TenantID r =s t) && (cn_Provider r =s p)) (connections (st_db s0)) = Some conn).
  { destruct (head (st_faults s0)) as [[]|]; try done;
      destruct (found_or _) eqn:Ef; try done; apply found_or_Ok in Ef; congruence. }
  apply select_one_Some in Hsel as [Hin Hc]. seqb_simpl. subst.
  destruct (NewWithTimeout _ _) as [a'|e]; [|by run E]. by run E.
Qed.

(** [rq] writes [cust] to the tenant's destination [dst]: it goes to the base URL
    of the connection to [dst] and carries the customer as that provider's adapter
    denormalizes it, to the collection when no record is known there, to the record
    [id] otherwise. *)
Definition delivers (conns : list Connection) (t : string) (cust : Customer) (dst id : string) (rq : HttpReq) : Prop :=
  exists conn a path, conn ∈ conns /\ cn_TenantID conn = t /\ cn_Provider conn = dst /\
    NewWithTimeout dst (cn_BaseURL conn) = Ok a /\
    let body := Some (of_fields (rec_Data (ad_Denormalize a cust))) in
    rq = if id =s "" then mkHttpReq "POST" (cn_BaseURL conn) path body
         else mkHttpReq "PATCH" (cn_BaseURL conn) (path +:+ "/" +:+ id) body.

Lemma push_connections t cust dst c s0 :
  connections (st_db (push t cust dst c s0).2) = connections (st_db s0).
Proof. by destruct (push_reach (connections (st_db s0)) t cust dst c s0). Qed.

(** A successful push is one request, to the destination, and leaves a provider id mapped. *)
Lemma push_Ok t cust dst c s0 c' s' :
  push t cust dst c s0 = (Ok c', s') ->
  (exists rq, st_calls s' = (st_calls s0 ++ [rq])%list /\
     delivers (connections (st_db s0)) t cust dst (default "" (cr_ProviderIDs c !! dst)) rq) /\
  (exists id, cr_ProviderIDs c' !! dst = Some id /\ id <> "") /\
  (forall p id, cr_ProviderIDs c !! p = Some id -> id <> "" ->
     cr_ProviderIDs c' !! p = Some id) /\
  (forall p, p <> dst -> cr_ProviderIDs c' !! p = cr_ProviderIDs c !! p).
Proof.
  intros E. unfold push in E. bind_ok E a s1 Ea.
  pose proof (connect_quiet t dst s0) as (_ & Q & _). rewrite Ea in Q. simpl in Q.
  pose proof (connect_Ok _ _ _ _ _ Ea) as Hconn. bind_ok E c1 s2 Ec. run E. simpl.
  destruct Hconn as (conn & Hin & <- & <- & Ha).
  destruct (NewWithTimeout_lawful _ _ _ Ha) as [_ _ _ Lid [path Lw] _]. destruct (Lw s1) as (Lc & Lu & _).
  rewrite <- Q. clear Q. unfold delivers. destruct (_ =s "") eqn:Eid.
  - bind_ok Ec r s3 Er. run Ec. pose proof (Lc (ad_Denormalize a cust)) as Hl.
    rewrite Er in Hl. simpl in Hl |- *. split_and!.
    + eexists. split; [exact Hl|]. exists conn, a, path. by split_and!.
    + exists (rec_ID r). rewrite lookup_insert_eq. split; [done|].
      eapply Lid. by exists s1, s3.
    + intros p id Hpi Hid. destruct (decide (p = cn_Provider conn)) as [->|Hne].
      * rewrite Hpi in Eid. simpl in Eid. by apply seqb_true in Eid.
      * by rewrite lookup_insert_ne.
    + intros p Hne. by rewrite lookup_insert_ne.
  - bind_ok Ec r s3 Er. run Ec.
    pose proof (Lu (default "" (cr_ProviderIDs c !! cn_Provider conn)) (ad_Denormalize a cust)) as Hl.
    rewrite Er in Hl. simpl in Hl |- *. split_and!; [|..|done|done].
    + eexists. split; [exact Hl|]. exists conn, a, path. by split_and!.
    + apply seqb_false in Eid. destruct (cr_ProviderIDs _ !! cn_Provider conn) as [id|]; [|done]. by exists id.
Qed.

Lemma propagate_Ok ev et cust ps c outs ops s0 c' outs' ops' s' :
  propagate ev et cust ps c outs ops s0 = (Ok (c', outs', ops'), s') ->
  (exists rqs, st_calls s' = (st_calls s0 ++ rqs)%list /\
     Forall2 (fun p rq => exists id, delivers (connections (st_db s0)) (ev_TenantID ev) cust (po_Destination p) id rq /\
       (NoDup (po_Destination <$> ps) -> id = default "" (cr_ProviderIDs c !! po_Destination p))) ps rqs) /\
  (forall p, p ∈ ps -> exists id, cr_ProviderIDs c' !! po_Destination p = Some id /\ id <> "") /\
  (forall q id, cr_ProviderIDs c !! q = Some id -> id <> "" -> cr_ProviderIDs c' !! q = Some id).
Proof.
  revert c outs ops s0. induction ps as [|p ps IH]; intros c outs ops s0 E; simpl in E.
  - run E. split_and!; [|by intros p ?%elem_of_nil|done]. exists []. rewrite app_nil_r. split; [done|constructor].
  - bind_ok E c1 s1 Ep. pose proof (push_connections (ev_TenantID ev) cust (po_Destination p) c s0) as Hcon.
    rewrite Ep in Hcon. simpl in Hcon.
    apply push_Ok in Ep as ((rq & Hl1 & Hd1) & (id & Hid & Hne) & Hk1 & Ho1).
    apply IH in E as ((rqs & Hl & HF) & Hall & Hk).
    split_and!; [| |eauto].
    + exists (rq :: rqs). rewrite Hl, Hl1, <- app_assoc. split; [done|]. constructor; [by eexists|].
      rewrite Hcon, Forall2_lookup in HF. apply Forall2_lookup. intros k. specialize (HF k).
      destruct (ps !! k) as [q|] eqn:Eq; inversion HF as [? y (i & Hd & Hi)|]; constructor. exists i. split; [done|].
      simpl. intros [Hni Hnd]%NoDup_cons. rewrite (Hi Hnd), Ho1; [done|]. intros Eqp. apply Hni. rewrite <- Eqp.
      by apply list_elem_of_fmap_2, list_elem_of_lookup_2 in Eq || (apply list_elem_of_fmap_2; by eapply list_elem_of_lookup_2).
    + intros q [->|Hq]%elem_of_cons; [|by apply Hall]. exists id. eauto.
Qed.

(** ** The transaction that ends an apply *)

(** The ledger row of (entity, target) holds fingerprint [fp] at version [v]. *)
Definition ledger (t et eid target fp : string) (v : Z) (rows : list OutboundWrite) : Prop :=
  exists row, select_one (outbound_key t et eid target) rows = Some row /\
    ow_Fingerprint row = fp /\ ow_AppliedVersion row = v.

Lemma ledger_upsert t et eid target fp v now w rows :
  ow_TenantID w = t -> ow_EntityType w = et -> ow_EntityID w = eid -> ow_Fingerprint w = fp ->
  ow_AppliedVersion w = v ->
  (ow_TargetSource w = target \/ ledger t et eid target fp v rows) ->
  ledger t et eid target fp v (upsert_outbound_row now w rows).
Proof.
  intros Ht Het Heid Hf Hv Hor. unfold ledger, upsert_outbound_row.
  rewrite Ht, Het, Heid, Hf, Hv.
  destruct (decide (ow_TargetSource w = target)) as [Heq|Hne].
  - rewrite Heq. rewrite select_one_upsert.
    + eexists. split; [done|]. by destruct (select_one _ rows).
    + intros r _. unfold outbound_key. simpl. by rewrite !seqb_refl.
    + unfold outbound_key. simpl. by rewrite !seqb_refl.
  - destruct Hor as [|Hl]; [done|]. rewrite select_one_upsert_out; [exact Hl| |].
    + intros r Hr. unfold outbound_key in *. seqb_simpl. simpl. rewrite !seqb_refl.
      simpl. rewrite (seqb_ne (ow_TargetSource w) target) by done.
      assert ((ow_TargetSource r =s target) = false) as -> by (apply seqb_ne; congruence).
      by rewrite !andb_false_r.
    + unfold outbound_key. simpl. by rewrite (seqb_ne _ _ Hne), andb_false_r.
Qed.

Lemma ledger_fold t et eid target fp v now ws d :
  Forall (fun w => ow_TenantID w = t /\ ow_EntityType w = et /\ ow_EntityID w = eid /\
                   ow_Fingerprint w = fp /\ ow_AppliedVersion w = v) ws ->
  (ledger t et eid target fp v (outbound_writes d) \/ Exists (fun w => ow_TargetSource w = target) ws) ->
  ledger t et eid target fp v (outbound_writes
    (foldl (fun d w => on_outbound_writes (upsert_outbound_row now w) d) d ws)).
Proof.
  intros Hws. revert d. induction Hws as [|w ws (H1 & H2 & H3 & H4 & H5) _ IH]; intros d Hor; simpl.
  - destruct Hor as [|Hx]; [done|]. by inversion Hx.
  - apply IH. destruct Hor as [Hl|Hx].
    + left. apply ledger_upsert; auto.
    + inversion Hx; subst; [|by right]. left. apply ledger_upsert; auto.
Qed.

Lemma insert_operations_outbound now seq k ops d :
  outbound_writes (insert_operations now seq k ops d) = outbound_writes d.
Proof. revert k d. induction ops as [|o ops IH]; intros k d; simpl; [done|]. by rewrite IH. Qed.

Lemma insert_operations_length now seq k ops d :
  length (sync_operations (insert_operations now seq k ops d)) =
  (length (sync_operations d) + length ops)%nat.
Proof.
  revert k d. induction ops as [|o ops IH]; intros k d; simpl; [lia|].
  rewrite IH. simpl. rewrite length_app. simpl. lia.
Qed.

Lemma outbound_fold_operations now ws d :
  sync_operations (foldl (fun d w => on_outbound_writes (upsert_outbound_row now w) d) d ws) =
  sync_operations d.
Proof. revert d. induction ws as [|w ws IH]; intros d; simpl; [done|]. by rewrite IH. Qed.

Lemma PersistApplyState_Ok c ws ops s0 c' s' :
  PersistApplyState c ws ops s0 = (Ok c', s') ->
  SameWorld s0 s' /\
  (exists old id, select_one (canonical_key (cr_TenantID c) (cr_EntityType c) (cr_EntityID c))
     (canonical_records (st_db s')) = Some (canonical_row (st_now s0) id old c)) /\
  outbound_writes (st_db s') = outbound_writes
    (foldl (fun d w => on_outbound_writes (upsert_outbound_row (st_now s0) w) d) (st_db s0) ws) /\
  length (sync_operations (st_db s')) = (length (sync_operations (st_db s0)) + length ops)%nat.
Proof.
  intros E. apply run_tx in E as [W [(a & d & Eb & Hd & _)|[_ [? ?]]]]; [|done].
  split; [done|]. cbv zeta in Eb. apply (f_equal snd) in Eb. simpl in Eb. rewrite Hd, <- Eb.
  clear Hd Eb. simpl. split_and!.
  - unfold upsert_canonical_row. rewrite select_one_upsert.
    + destruct (select_one _ _) as [o|]; eauto.
    + intros r _. unfold canonical_key. simpl. by rewrite !seqb_refl.
    + unfold canonical_key. simpl. by rewrite !seqb_refl.
  - apply insert_operations_outbound.
  - by rewrite insert_operations_length, outbound_fold_operations.
Qed.

(** Recording auto-resolved conflicts writes the conflicts only. *)
Lemma record_detected_idle ev et c inc ds strategy :
  Pres (Idle (among [T_conflicts]) (ev_TenantID ev))
    (match ds with
     | [] => skip
     | _ =>
        metric "ConflictsDetected";;
        metric "ConflictsResolved";;
        ignore (recordConflict ev et c inc ds ConflictAutoResolved strategy)
     end).
Proof.
  destruct ds as [|fc ds]; [unfold skip; pres|].
  apply Pres_bind; [typeclasses eauto|apply Idle_of_Quiet, Quiet_metric|intros _ _].
  apply Pres_bind; [typeclasses eauto|apply Idle_of_Quiet, Quiet_metric|intros _ _].
  apply Pres_ignore. unfold recordConflict. apply Pres_bind; [typeclasses eauto| |intros; pres].
  by apply Idle_tx, InsertConflict_frame.
Qed.

(** The record an upsert of [ev] leaves, up to provider ids and times. *)
Definition applied (ev : Event) (c row : CanonicalRecord) (fields : Fields)
    (fp : FieldProvenance) : Prop :=
  cr_Fields row = fields /\ ToMap fp = Some (cr_FieldProvenance row) /\
  cr_SourceVersions row = <[ev_Source ev := ev_SourceVersion ev]> (cr_SourceVersions c) /\
  cr_Version row = wrap64 (cr_Version c + 1) /\ cr_Tombstone row = false /\
  cr_OriginSource row = ev_Source ev /\ cr_OriginEventID row = ev_EventID ev.

(** C7: what a successful upsert leaves behind.  With [merged] and [fp] the
    outcome of the conflict merge, the record holds exactly the merged
    customer with its provenance, the event's version for its source and the
    next record version; the requests made are one per policy, in order, each to the
    base URL of the tenant's connection to that policy's destination, carrying the
    merged customer as that provider's adapter denormalizes it, to the record known
    there or, when none is known, to the collection (if no two policies share a
    destination); every destination has a provider id mapped afterwards (so the next
    event updates instead of creating again), and its ledger row holds the
    fingerprint of the stored customer; one operation per destination was logged. *)
Theorem upsert_persisted (ev : Event) (et : string) (ps : list SyncPolicy) (cust : Customer)
    (c : CanonicalRecord) (merged : Fields) (fp : FieldProvenance) (s0 s' : St) :
  mr_out (Merge (policy_strategy ps) (cr_Fields c) (FromMap (cr_FieldProvenance c))
            (cust_Fields cust) (ev_Source ev) (ev_SourceVersion ev) (ev_OccurredAt ev)
            (policy_priority ps)) = Some (merged, fp) ->
  merge_and_propagate ev et ps cust c s0 = (Ok tt, s') ->
  let cust' := FromFields merged cust in
  exists row,
    select_one (canonical_key (cr_TenantID c) (cr_EntityType c) (cr_EntityID c))
      (canonical_records (st_db s')) = Some row /\
    applied ev c row (cust_Fields cust') fp /\
    (exists rqs, st_calls s' = (st_calls s0 ++ rqs)%list /\
       Forall2 (fun p rq => exists id, delivers (connections (st_db s0)) (ev_TenantID ev) cust' (po_Destination p) id rq /\
         (NoDup (po_Destination <$> ps) -> id = default "" (cr_ProviderIDs c !! po_Destination p))) ps rqs) /\
    length (sync_operations (st_db s')) =
      (length (sync_operations (st_db s0)) + length ps)%nat /\
    forall p, p ∈ ps ->
      (exists id, cr_ProviderIDs row !! po_Destination p = Some id /\ id <> "") /\
      ledger (ev_TenantID ev) et (cr_EntityID c) (po_Destination p) (Fingerprint cust')
        (ev_SourceVersion ev) (outbound_writes (st_db s')).
Proof.
  intros Hmerge E. unfold merge_and_propagate in E. cbv zeta in E. rewrite Hmerge in E.
  bind_ok E u s1 Erc.
  assert (H1 : st_calls s1 = st_calls s0 /\ sync_operations (st_db s1) = sync_operations (st_db s0) /\
    connections (st_db s1) = connections (st_db s0)).
  { pose proof (record_detected_idle ev et c (cust_Fields cust) (mr_detected (Merge
      (policy_strategy ps) (cr_Fields c) (FromMap (cr_FieldProvenance c)) (cust_Fields cust)
      (ev_Source ev) (ev_SourceVersion ev) (ev_OccurredAt ev) (policy_priority ps)))
      (policy_strategy ps) s0) as [F Ec]. rewrite Erc in F, Ec. split; [exact Ec|].
    split; [by apply (F T_sync_operations)|by apply (F T_connections)]. }
  destruct H1 as (Hc1 & Ho1 & Hn1). set (cust' := FromFields merged cust) in *.
  bind_ok E r s2 Ep. destruct r as [[c1 outs] ops].
  pose proof (OnTx_db _ _ s1 (propagate_frame (fun _ => false) ev et cust' ps c [] []) T_sync_operations)
    as [_ Fo]. rewrite Ep in Fo. specialize (Fo eq_refl). simpl in Fo.
  assert (Hres : Returns (propagate ev et cust' ps c [] []) (c1, outs, ops)) by (by exists s1, s2).
  apply propagate_result in Hres as ([ids ->] & -> & ->).
  apply propagate_Ok in Ep as ((rqs & Hl & HF) & Hids & _).
  bind_ok E fpm s3 Ef. apply run_encodable in Ef as [Ef ->].
  bind_ok E c2 s4 Es. apply run_ret in E as [_ ->].
  apply PersistApplyState_Ok in Es as ((Hc4 & _) & (old & id & Hrow) & How & Hops).
  eexists. split; [exact Hrow|]. split; [by split_and!|].
  split; [exists rqs; rewrite Hc4, Hl, Hc1; rewrite Hn1 in HF; by split|].
  split; [rewrite Hops, Fo, Ho1, app_nil_l; by rewrite length_map|].
  intros p Hp. split; [by apply Hids|]. rewrite How. apply ledger_fold.
  - apply Forall_map, Forall_true. intros x. by split_and!.
  - right. apply Exists_exists. eexists.
    split; [apply list_elem_of_In, in_map, list_elem_of_In; exact Hp|reflexivity].
Qed.

(** ** Parking *)

Lemma tx_unless_refused {A} (body : Z -> nat -> DB -> Res A * DB) s0 a d :
  body (st_now s0) (st_seq s0) (st_db s0) = (Ok a, d) ->
  exists r s', tx body s0 = (r, s') /\ st_calls s' = st_calls s0 /\
    st_db s' = (if decide (head (st_faults s0) = Some Ffail) then st_db s0 else d).
Proof.
  intros Hb. unfold tx. rewrite tr_alone, Hb.
  destruct (head (st_faults s0)) as [[]|]; simpl; by do 2 eexists.
Qed.

(** The row the conflict of [detected] is recorded as. *)
Definition conflict_of (ev : Event) (et : string) (c : CanonicalRecord) (incoming : Fields)
    (fc : FieldConflict) (status strategy : string) : ConflictRecord :=
  mkConflictRecord "" (ev_TenantID ev) et (cr_EntityID c)
    (fc_SourceA fc) (fc_VersionA fc) (of_fields (cr_Fields c))
    (fc_SourceB fc) (fc_VersionB fc) (of_fields incoming) 0 status strategy None None.

(** The conflict of [row] is on record between [d] and [d']: open, with both
    sides' fields, when it was not on record before. *)
Definition Parked (row : ConflictRecord) (d d' : DB) : Prop :=
  exists r, select_one (conflict_key row) (conflicts d') = Some r /\
    (select_one (conflict_key row) (conflicts d) = None ->
     co_Status r = co_Status row /\ co_PayloadA r = co_PayloadA row /\
     co_PayloadB r = co_PayloadB row /\ co_ResolvedBy r = None).

Lemma InsertConflict_run row s0 :
  exists r s', InsertConflict row s0 = (r, s') /\ st_calls s' = st_calls s0 /\
    (exists t, st_db s' = on_conflicts (fun _ => t) (st_db s0)) /\
    if decide (head (st_faults s0) = Some Ffail) then st_db s' = st_db s0
    else Parked row (st_db s0) (st_db s').
Proof.
  assert (Hid : exists t, st_db s0 = on_conflicts (fun _ => t) (st_db s0))
    by (exists (conflicts (st_db s0)); by destruct (st_db s0)).
  unfold InsertConflict, Parked.
  destruct (select_one (conflict_key row) (conflicts (st_db s0))) as [old|] eqn:Eo;
    match goal with |- context [tx ?b s0] =>
      edestruct (tx_unless_refused b s0) as (r & s' & -> & Ec & Ed);
        [unfold insert_new; rewrite existsb_select_one, Eo; reflexivity|] end;
    exists r, s'; rewrite Ed; case_decide; split_and!; try done; [by exists old|by eexists|].
  simpl. rewrite select_one_snoc; [|by rewrite existsb_select_one, Eo|].
  - eexists. split; [done|]. by intros _.
  - unfold conflict_key. simpl. by rewrite !seqb_refl, !Z.eqb_refl.
Qed.

(** C17: manual conflicts are parked, not applied.  Under the manual strategy
    an event that conflicts is acknowledged, whatever faults the database has;
    it makes no request and changes nothing but the conflicts table.  Unless
    the database refuses the insertion, the pair of versions is then on record
    for the operator, pending with both sides' fields if it is new; if the
    insertion is refused nothing is parked at all. *)
Theorem manual_conflict_parked (ev : Event) (et : string) (ps : list SyncPolicy)
    (cust : Customer) (c : CanonicalRecord) (fc : FieldConflict) (ds : list FieldConflict)
    (s0 : St) :
  policy_strategy ps = StrategyManual ->
  Detect (cr_Fields c) (FromMap (cr_FieldProvenance c)) (cust_Fields cust) (ev_Source ev)
    (ev_SourceVersion ev) (ev_OccurredAt ev) (policy_priority ps) = fc :: ds ->
  let row := conflict_of ev et c (cust_Fields cust) fc ConflictPending StrategyManual in
  exists s', merge_and_propagate ev et ps cust c s0 = (Ok tt, s') /\
    st_calls s' = st_calls s0 /\
    (exists t, st_db s' = on_conflicts (fun _ => t) (st_db s0)) /\
    if decide (head (st_faults s0) = Some Ffail) then st_db s' = st_db s0
    else Parked row (st_db s0) (st_db s').
Proof.
  intros Hs Hd row. unfold merge_and_propagate. cbv zeta. rewrite Hs.
  unfold Merge. cbv zeta. rewrite Hd. change (normalizeStrategy StrategyManual) with StrategyManual.
  rewrite seqb_refl. cbn [mr_out mr_detected]. rewrite bind_metric.
  destruct (InsertConflict_run row (add_metric "ConflictsDetected" s0)) as (r & s' & E & HP).
  exists s'. split; [|exact HP]. unfold ignore.
  change (recordConflict ev et c (cust_Fields cust) (fc :: ds) ConflictPending StrategyManual)
    with (InsertConflict row;; mret tt). unfold mbind, M_bind. rewrite E.
  by destruct r.
Qed.
End apply.

(** ** The hypotheses hold somewhere *)

Lemma upsert_persisted_witness :
  let ps := [sample_policy "salesforce" "hubspot" StrategyLastWriteWins 100] in
  let s' := (@merge_and_propagate up (sample_update 7) "customer" ps sample_cust
               (sample_canonical false) synced).2 in
  exists row, select_one (canonical_key "t1" "customer" "sf-000001")
                (canonical_records (st_db s')) = Some row /\
    cr_Version row = 4%Z /\ cr_SourceVersions row !! "salesforce" = Some 7%Z.
Proof.
  set (ps := [sample_policy "salesforce" "hubspot" StrategyLastWriteWins 100]).
  set (c := sample_canonical false).
  set (out := mr_out (Merge (policy_strategy ps) (cr_Fields c) (FromMap (cr_FieldProvenance c))
              (cust_Fields sample_cust) "salesforce" 7 1709202600250000000 (policy_priority ps))).
  assert (Hs : match out with Some _ => true | None => false end = true)
    by (vm_compute; reflexivity).
  destruct out as [[merged fp]|] eqn:Em; [|discriminate Hs].
  assert (Hok : (@merge_and_propagate up (sample_update 7) "customer" ps sample_cust c synced).1
                = Ok tt) by (vm_compute; reflexivity).
  destruct (@upsert_persisted up (sample_update 7) "customer" ps sample_cust c merged fp synced
    (@merge_and_propagate up (sample_update 7) "customer" ps sample_cust c synced).2 Em)
    as (row & Hrow & (_ & _ & Hsv & Hv & _) & _).
  - rewrite <- Hok. apply surjective_pairing.
  - exists row. split; [exact Hrow|]. split; [exact Hv|]. rewrite Hsv. reflexivity.
Defined.

Lemma manual_conflict_parked_witness :
  let ps := [sample_policy "salesforce" "hubspot" StrategyManual 100] in
  exists s' row, @merge_and_propagate up (sample_update 7) "customer" ps sample_cust
               (sample_canonical false) synced = (Ok tt, s') /\ st_calls s' = st_calls synced /\
    Parked row (st_db synced) (st_db s').
Proof.
  set (ps := [sample_policy "salesforce" "hubspot" StrategyManual 100]).
  set (c := sample_canonical false).
  destruct (Detect (cr_Fields c) (FromMap (cr_FieldProvenance c)) (cust_Fields sample_cust)
    "salesforce" 7 1709202600250000000 (policy_priority ps)) as [|fc ds] eqn:Ed;
    [vm_compute in Ed; discriminate|].
  destruct (@manual_conflict_parked up (sample_update 7) "customer" ps sample_cust c fc ds synced)
    as (s' & E & Hc & _ & Hp); [reflexivity|exact Ed|].
  exists s'. eexists. split; [exact E|]. split; [exact Hc|exact Hp].
Defined.

(** ** Losses *)

(** The state of a customer known from both sides and under the manual
    strategy, on a database whose next transactions behave as [fs]. *)
Definition disputed (fs : list Fault) : @St up :=
  @mkSt up (with_canonical (sample_canonical false) (sample_db StrategyManual))
    0 1000 fs [] 0 [] [] [] [].

(** A manual conflict whose record the database refuses is lost: the event is
    acknowledged and neither the conflicts table nor the canonical record shows
    it (the error of [recordConflict] is dropped). *)
Lemma refused_conflict_lost :
  let fs := [Fok; Fok; Fok; Fok; Fok; Fok; Ffail] in
  let r := @Process up (sample_update 7) (disputed fs) in
  r.1 = Ok tt /\ conflicts (st_db r.2) = [] /\
  canonical_records (st_db r.2) = canonical_records (st_db (disputed fs)).
Proof. vm_compute. by split_and!. Qed.
