(* ===== verification/Retry.v ===== *)
(** * [internal/retry]: draining the retry queue

    [processRetry] re-applies one due row: on success the row goes away and a
    dead letter of the event is resolved; a permanent failure, or a failure
    that exhausts the attempts, becomes a dead letter; otherwise the row is
    scheduled again.  Both the theorem that nothing is lost while the database
    works and the run that loses an event when one statement fails are below. *)

From S2P Require Import Prelude Json GoTime Events Model Conflict Backoff Tables Effects Store.
From S2P Require Import Frame Connectors Run Adapters Worker WorkerFrame WorkerCalls Sample.
From S2P Require Import WorkerSpec WorkerApply.
Local Open Scope string_scope.

(** [retry.Options]; the poll interval only paces [Run]. *)
Record RetryOptions := mkRetryOptions {
  ro_BaseDelay : Z; ro_MaxDelay : Z; ro_MaxAttempts : Z; ro_PollEvery : Z; ro_BatchSize : Z;
}.

(** The options [New] starts from. *)
Definition New_retry_opts : RetryOptions :=
  mkRetryOptions (1 * Second) (60 * Second) 8 250000000 100.

(** [WithOptions]. *)
Definition WithRetryOptions (o e : RetryOptions) : RetryOptions :=
  let pick new old := if (0 <? new)%Z then new else old in
  mkRetryOptions (pick (ro_BaseDelay o) (ro_BaseDelay e)) (pick (ro_MaxDelay o) (ro_MaxDelay e))
    (pick (ro_MaxAttempts o) (ro_MaxAttempts e)) (pick (ro_PollEvery o) (ro_PollEvery e))
    (pick (ro_BatchSize o) (ro_BatchSize e)).

Section retry.
Context `{Outside} (opts : RetryOptions).

(** [Engine.deadLetter]: an insert that fails is logged, nothing more. *)
Definition engine_deadLetter (r : RetryEntry) (reason errorClass : string) : M unit :=
  x ← attempt (InsertDeadLetter (mkDeadLetter "" (rt_TenantID r) (rt_EventID r) reason errorClass
                                   (rt_State r) "" 0 None));
  match x with
  | Err _ => skip
  | Ok _ =>
      ignore (SetSourceEventStatusTo (rt_TenantID r) (rt_EventID r) "dlq");;
      metric "DLQEvents"
  end.

(** [Engine.discard]. *)
Definition engine_discard (r : RetryEntry) : M unit :=
  ignore (DeleteRetry (rt_TenantID r) (rt_EventID r)).

(** The delay before the next attempt. *)
Definition retry_delay (failureCount retryAfter k : Z) : Z :=
  let delay := ComputeDelay failureCount (ro_BaseDelay opts) (ro_MaxDelay opts) k in
  let delay := if (0 <? retryAfter)%Z && (retryAfter <? delay)%Z then retryAfter else delay in
  if (ro_MaxDelay opts <? delay)%Z then ro_MaxDelay opts else delay.

(** What follows a failed attempt. *)
Definition retry_failed (r : RetryEntry) (e : error) : M unit :=
  let (kind, retryAfter) := Classify e in
  let failureCount := wrap64 (rt_Attempt r + 1) in
  if negb (ShouldRetry kind) || (rt_MaxAttempts r <=? failureCount)%Z then
    engine_deadLetter r (Error e) (kind_String kind);;
    engine_discard r
  else
    k ← draw;
    x ← attempt (EnqueueRetry (mkRetryEntry "" (rt_TenantID r) (rt_EventID r) 0 (rt_MaxAttempts r)
                                 0 (Error e) (kind_String kind) (rt_State r) 0)
                   (retry_delay failureCount retryAfter k));
    match x with
    | Err _ => skip
    | Ok _ => metric "RetryScheduled"
    end.

(** [Engine.processRetry]. *)
Definition processRetry (r : RetryEntry) : M unit :=
  match decode_event (rt_State r) with
  | None =>
      engine_deadLetter r "corrupt retry state" (kind_String ErrSchema);;
      engine_discard r
  | Some ev =>
      x ← attempt (Process ev);
      match x with
      | Ok _ =>
          ignore (DeleteRetry (rt_TenantID r) (rt_EventID r));;
          ignore (ResolveDeadLetterForEvent (rt_TenantID r) (rt_EventID r))
      | Err e => retry_failed r e
      end
  end.

Fixpoint process_all (rs : list RetryEntry) : M unit :=
  match rs with
  | [] => skip
  | r :: rs => processRetry r;; process_all rs
  end.

(** [Engine.drain]: the number of rows handled. *)
Definition drain : M nat :=
  x ← attempt (ClaimDueRetries (ro_BatchSize opts));
  match x with
  | Err _ => mret 0%nat
  | Ok due => process_all due;; mret (length due)
  end.
End retry.

(** ** Runs without faults *)

Section calm.
Context `{Transport}.

(** No fault lies ahead, and none appears. *)
Definition Calm (s s' : St) : Prop :=
  st_faults s = [] -> st_faults s' = [] /\ st_now s' = st_now s.

#[global] Instance Calm_preorder : PreOrder Calm.
Proof.
  split; [by intros s|]. intros s1 s2 s3 H1 H2 E1. destruct (H1 E1) as [E2 ?].
  destruct (H2 E2). split; congruence.
Qed.

Lemma Calm_tx {A} (body : Z -> nat -> DB -> Res A * DB) : Pres Calm (tx body).
Proof.
  intros s Hs. unfold tx. rewrite Hs. simpl. by destruct (body _ _ _) as [[]].
Qed.
Lemma Calm_http rq : Pres Calm (http rq).
Proof. intros s Hs. unfold http. by destruct (http_step _ _). Qed.
Lemma Calm_metric n : Pres Calm (metric n).
Proof. by intros s Hs. Qed.
Lemma Calm_draw : Pres Calm draw.
Proof. by intros s Hs. Qed.
End calm.

#[export] Hint Resolve Calm_http Calm_metric Calm_draw : pres.
#[export] Hint Extern 3 (Pres Calm _) => apply Calm_tx : pres.

Section calm_worker.
Context `{Transport}.

Lemma connect_calm t p : Pres Calm (connect t p).
Proof. unfold connect, adapterFor, ret_res. pres. Qed.
Hint Resolve connect_calm : pres.
Lemma push_calm t cust dst c : Pres Calm (push t cust dst c).
Proof. unfold push. pres. Qed.
Hint Resolve push_calm : pres.
Lemma push_all_calm t a b c e cust ps r : Pres Calm (push_all t a b c e cust ps r).
Proof.
  revert r. induction ps as [|p ps IH]; intros r; simpl; [pres|].
  unfold push_recorded, recordSyncOperation. pres.
Qed.
Lemma propagate_calm ev et cust ps c outs ops : Pres Calm (propagate ev et cust ps c outs ops).
Proof. revert c outs ops. induction ps as [|p ps IH]; intros c outs ops; simpl; pres. Qed.
Lemma delete_all_calm ev et ps c : Pres Calm (delete_all ev et ps c).
Proof. induction ps as [|p ps IH]; simpl; unfold recordSyncOperation; pres. Qed.
Hint Resolve push_all_calm propagate_calm delete_all_calm : pres.

Lemma applyUpsert_calm ev et ps : Pres Calm (applyUpsert ev et ps).
Proof.
  unfold applyUpsert, applyResolution, isEcho, merge_and_propagate, resolveCanonical,
    recordConflict. pres.
Qed.
Lemma applyDelete_calm ev et ps : Pres Calm (applyDelete ev et ps).
Proof. unfold applyDelete. pres. Qed.
Lemma applyAdoptProvider_calm ev et ps f run : Pres Calm (applyAdoptProvider ev et ps f run).
Proof. unfold applyAdoptProvider, adoptCanonical, reconcileApplied. pres. Qed.
Hint Resolve applyUpsert_calm applyDelete_calm applyAdoptProvider_calm : pres.
Lemma applyReconcileFinding_calm ev et ps : Pres Calm (applyReconcileFinding ev et ps).
Proof.
  unfold applyReconcileFinding, pushRepair, or_reconcileFail, reconcileFail, reconcileSkip,
    reconcileApplied, recordSyncOperation. pres.
Qed.
Hint Resolve applyReconcileFinding_calm : pres.
Lemma Process_calm ev : Pres Calm (Process ev).
Proof. unfold Process, process_claimed, or_fail, fail, succeed, canonicalEntityType. pres. Qed.
End calm_worker.

#[export] Hint Resolve Process_calm : pres.

(** ** What becomes of a due row *)

Section outcome.
Context `{Transport} (opts : RetryOptions).

(** A statement without fault: the run of [tx]. *)
Lemma tx_calm {A} (body : Z -> nat -> DB -> Res A * DB) s0 a d :
  st_faults s0 = [] -> body (st_now s0) (st_seq s0) (st_db s0) = (Ok a, d) ->
  exists s', tx body s0 = (Ok a, s') /\ st_db s' = d /\ st_faults s' = [].
Proof. intros Hf Hb. unfold tx. rewrite Hf, tr_alone, Hb. simpl. eexists. by split_and!. Qed.

Lemma discard_calm r s0 :
  st_faults s0 = [] ->
  st_db (engine_discard r s0).2 =
    on_retry_queue (delete_where (retry_key (rt_TenantID r) (rt_EventID r))) (st_db s0).
Proof.
  intros Hf. unfold engine_discard, ignore, DeleteRetry.
  match goal with |- context [tx ?b s0] =>
    destruct (tx_calm b s0 tt _ Hf eq_refl) as (s' & -> & Ed & _) end. exact Ed.
Qed.

(** Dead-lettering a row whose state is the event [ev]. *)
Lemma deadLetter_calm r reason cls s0 :
  st_faults s0 = [] ->
  let s' := (engine_deadLetter r reason cls s0).2 in
  st_faults s' = [] /\ retry_queue (st_db s') = retry_queue (st_db s0) /\
  exists d, select_one (dead_key (rt_TenantID r) (rt_EventID r)) (dead_letter (st_db s')) = Some d /\
    dl_Payload d = rt_State r /\ dl_Reason d = reason /\ dl_ErrorClass d = cls /\
    dl_Status d = "open".
Proof.
  intros Hf. unfold engine_deadLetter. rewrite bind_attempt.
  set (e := mkDeadLetter _ _ _ _ _ _ _ _ _).
  destruct (InsertDeadLetter e s0) as [[d|err] s1] eqn:E.
  - frame E Calm. destruct (P Hf) as [Hf1 _].
    assert (Hq : retry_queue (st_db s1) = retry_queue (st_db s0)).
    { apply run_tx in E as [_ [(? & ? & Eb & -> & _)|[_ [? ?]]]]; [|done].
      cbv zeta in Eb. apply (f_equal snd) in Eb. simpl in Eb. by rewrite <- Eb. }
    apply InsertDeadLetter_row in E as [_ (row & Hrow & Hp & Hr & Hc & Hs & _)].
    cbn [fst snd]. rewrite bind_ignore.
    destruct (SetSourceEventStatusTo _ _ _ s1) as [x s2] eqn:E2. simpl.
    frame E2 Calm. destruct (P0 Hf1) as [Hf2 _]. apply run_tx in E2 as [_ Hd].
    destruct Hd as [(? & ? & [= _ <-] & -> & _)|[-> _]]; simpl;
      (split; [done|]; split; [done|]; by exists row).
  - exfalso. unfold InsertDeadLetter in E.
    match type of E with tx ?b s0 = _ => edestruct (tx_calm b s0) as (s' & Et & _); [done| |] end;
      [|rewrite Et in E; discriminate E].
    cbv zeta. simpl. rewrite select_one_upsert; [reflexivity| |].
    + intros r0 Hr0. exact Hr0.
    + unfold dead_key. simpl. by rewrite !seqb_refl.
Qed.

(** The row is off the queue, its failure an open dead letter. *)
Definition dead_lettered (r : RetryEntry) (e : error) (d : DB) : Prop :=
  select_one (retry_key (rt_TenantID r) (rt_EventID r)) (retry_queue d) = None /\
  exists l, select_one (dead_key (rt_TenantID r) (rt_EventID r)) (dead_letter d) = Some l /\
    dl_Payload l = rt_State r /\ dl_Reason l = Error e /\
    dl_ErrorClass l = kind_String (Classify e).1 /\ dl_Status l = "open".

(** The row is due again, one attempt further. *)
Definition rescheduled (r : RetryEntry) (e : error) (now : Z) (d : DB) : Prop :=
  exists row k,
    select_one (retry_key (rt_TenantID r) (rt_EventID r)) (retry_queue d) = Some row /\
    rt_State row = rt_State r /\ rt_Attempt row = (rt_Attempt r + 1)%Z /\
    rt_MaxAttempts row = rt_MaxAttempts r /\ rt_LastError row = Error e /\
    rt_NextAttemptAt row =
      (now + pg_interval (retry_delay opts (rt_Attempt r + 1) (Classify e).2 k))%Z.

(** The row is off the queue and no dead letter of the event is open. *)
Definition settled (r : RetryEntry) (d : DB) : Prop :=
  select_one (retry_key (rt_TenantID r) (rt_EventID r)) (retry_queue d) = None /\
  forall l, l ∈ dead_letter d -> dead_key (rt_TenantID r) (rt_EventID r) l = true ->
    dl_Status l = "resolved" \/ dl_Status l = "discarded".

Lemma resolve_settles t i now rows l :
  l ∈ update_where (fun r => (dl_TenantID r =s t) && (dl_EventID r =s i) &&
                             negb (dl_Status r =s "discarded")) (dl_close now "resolved") rows ->
  dead_key t i l = true -> dl_Status l = "resolved" \/ dl_Status l = "discarded".
Proof.
  unfold update_where. intros Hl Hk. apply list_elem_of_In, in_map_iff in Hl as (r & <- & _).
  destruct (_ && _) eqn:E in Hk |- *; [by left|]. right.
  unfold dead_key in Hk. seqb_simpl. subst. rewrite !seqb_refl in E. simpl in E. by seqb_simpl.
Qed.

Lemma success_calm r s0 :
  st_faults s0 = [] ->
  settled r (st_db ((ignore (DeleteRetry (rt_TenantID r) (rt_EventID r));;
                     ignore (ResolveDeadLetterForEvent (rt_TenantID r) (rt_EventID r))) s0).2).
Proof.
  intros Hf. rewrite bind_ignore.
  destruct (DeleteRetry _ _ s0) as [x s1] eqn:E1. unfold DeleteRetry in E1.
  match type of E1 with tx ?b s0 = _ =>
    destruct (tx_calm b s0 tt _ Hf eq_refl) as (s1' & Et & Ed1 & Hf1) end.
  rewrite E1 in Et. injection Et as -> ->. cbn [snd].
  unfold ignore, ResolveDeadLetterForEvent.
  match goal with |- context [tx ?b s1'] =>
    destruct (tx_calm b s1' tt _ Hf1 eq_refl) as (s2 & -> & Ed2 & _) end. simpl.
  rewrite Ed2. split.
  - simpl. rewrite Ed1. simpl. apply select_one_delete.
  - intros l Hl Hk. simpl in Hl. eapply resolve_settles; [exact Hl|exact Hk].
Qed.

Lemma Process_retry_queue ev : Pres (OnDb (fun d d' => retry_queue d' = retry_queue d)) (Process ev).
Proof.
  intros s0. destruct (OnTx_db _ _ s0 (Process_frame process_tables eq_refl eq_refl eq_refl eq_refl eq_refl
    eq_refl eq_refl ev) T_retry_queue) as [_ E]. by apply E.
Qed.

Lemma EnqueueRetry_calm e delay s0 :
  st_faults s0 = [] -> exists row s', EnqueueRetry e delay s0 = (Ok row, s').
Proof.
  intros Hf. unfold EnqueueRetry.
  match goal with |- context [tx ?b s0] => edestruct (tx_calm b s0) as (s' & -> & _) end; [done| |eauto].
  cbv zeta. simpl. rewrite select_one_upsert; [reflexivity| |].
  - intros r0 Hr0. exact Hr0.
  - unfold retry_key. simpl. by rewrite !seqb_refl.
Qed.

Lemma EnqueueRetry_max e delay s0 row s' old :
  select_one (retry_key (rt_TenantID e) (rt_EventID e)) (retry_queue (st_db s0)) = Some old ->
  EnqueueRetry e delay s0 = (Ok row, s') ->
  exists row', select_one (retry_key (rt_TenantID e) (rt_EventID e)) (retry_queue (st_db s'))
                 = Some row' /\ rt_MaxAttempts row' = rt_MaxAttempts old.
Proof.
  intros Hold E. apply run_tx in E as [_ [(a & d & Eb & Hd & _)|[_ [? ?]]]]; [|done].
  cbv zeta in Eb. apply (f_equal snd) in Eb. simpl in Eb. rewrite Hd, <- Eb. simpl.
  rewrite select_one_upsert; [|intros r0 Hr0; exact Hr0|unfold retry_key; simpl; by rewrite !seqb_refl].
  rewrite Hold. by eexists.
Qed.

(** A failed attempt, faults aside. *)
Lemma retry_failed_calm r e s0 :
  st_faults s0 = [] ->
  select_one (retry_key (rt_TenantID r) (rt_EventID r)) (retry_queue (st_db s0)) = Some r ->
  in_int64 (rt_Attempt r + 1) = true ->
  let d := st_db (retry_failed opts r e s0).2 in
  if ShouldRetry (Classify e).1 && (rt_Attempt r + 1 <? rt_MaxAttempts r)%Z
  then rescheduled r e (st_now s0) d else dead_lettered r e d.
Proof.
  intros Hf Hr Hi. unfold retry_failed. rewrite wrap64_id by done.
  destruct (Classify e) as [kind ra] eqn:Ec. cbn [fst].
  assert (Hcond : (negb (ShouldRetry kind) || (rt_MaxAttempts r <=? rt_Attempt r + 1)%Z)
                  = negb (ShouldRetry kind && (rt_Attempt r + 1 <? rt_MaxAttempts r)%Z)).
  { destruct (ShouldRetry kind); simpl; lia. }
  rewrite Hcond. destruct (_ && _); cbn [negb].
  - destruct (draw s0) as [[k|?] s1] eqn:Ek; [|done]. unfold mbind at 1, M_bind at 1. rewrite Ek.
    frame Ek Quiet. destruct P as (Pd & _ & _ & _ & Pn). frame Ek Calm. destruct (P Hf) as [Hf1 _].
    set (x := mkRetryEntry _ _ _ _ _ _ _ _ _ _). rewrite bind_attempt.
    destruct (EnqueueRetry_calm x (retry_delay opts (rt_Attempt r + 1) ra k) s1 Hf1)
      as (row & s2 & E). rewrite E. cbn [fst snd].
    pose proof (EnqueueRetry_row _ _ _ _ _ E) as (_ & row' & H1 & H2 & H3 & _ & H5 & H6).
    rewrite <- Pd in Hr.
    destruct (EnqueueRetry_max x _ s1 row s2 r Hr E) as (row'' & H1' & H7).
    rewrite H1 in H1'. injection H1' as <-. change (rt_TenantID x) with (rt_TenantID r) in H6.
    change (rt_EventID x) with (rt_EventID r) in H6. rewrite Hr in H6.
    exists row', k. rewrite Ec. cbn [snd]. rewrite <- Pn. by split_and!.
  - pose proof (deadLetter_calm r (Error e) (kind_String kind) s0 Hf) as (Hf1 & Hq & l & Hl & Hp).
    destruct (engine_deadLetter r (Error e) (kind_String kind) s0) as [y s1] eqn:Ed.
    assert (y = Ok tt) as ->.
    { unfold engine_deadLetter, skip in Ed. run_step Ed. destruct x; run Ed; done. }
    unfold mbind, M_bind. rewrite Ed. cbn [snd] in *. unfold dead_lettered.
    rewrite discard_calm by done. rewrite Ec. cbn [fst]. simpl.
    split; [apply select_one_delete|]. by exists l.
Qed.

(** C12: the retry engine loses nothing while the database works.  A due row
    whose event is processed leaves the queue, and no dead letter of the
    event stays open; a permanent failure, or one that exhausts the attempts,
    leaves the queue as an open dead letter holding the event; any other
    failure puts the row back, one attempt further and still below the
    maximum, due after the backoff delay. *)
Theorem retry_outcome (r : RetryEntry) (ev : Event) (s0 : St) :
  st_faults s0 = [] ->
  select_one (retry_key (rt_TenantID r) (rt_EventID r)) (retry_queue (st_db s0)) = Some r ->
  decode_event (rt_State r) = Some ev ->
  in_int64 (rt_Attempt r + 1) = true ->
  let d := st_db (processRetry opts r s0).2 in
  match (Process ev s0).1 with
  | Ok _ => settled r d
  | Err e =>
      if ShouldRetry (Classify e).1 && (rt_Attempt r + 1 <? rt_MaxAttempts r)%Z
      then rescheduled r e (st_now s0) d else dead_lettered r e d
  end.
Proof.
  intros Hf Hr Hd Hi. unfold processRetry. rewrite Hd, bind_attempt.
  pose proof (Process_calm ev s0 Hf) as [Hf1 Hn]. pose proof (Process_retry_queue ev s0) as Hq.
  unfold OnDb in Hq. destruct (Process ev s0) as [[u|e] s1]; cbn [fst snd] in *.
  - by apply success_calm.
  - rewrite <- Hn. apply retry_failed_calm; [done| |done]. by rewrite Hq.
Qed.
End outcome.

(** The delay never exceeds the engine's own schedule: a provider's Retry-After
    can only shorten it. *)
Lemma retry_after_only_shortens (o : RetryOptions) (n ra k : Z) :
  (retry_delay o n ra k <= ComputeDelay n (ro_BaseDelay o) (ro_MaxDelay o) k)%Z.
Proof.
  unfold retry_delay. cbv zeta. generalize (ComputeDelay n (ro_BaseDelay o) (ro_MaxDelay o) k).
  intros d. destruct ((0 <? ra)%Z && (ra <? d)%Z) eqn:E; case_if; lia.
Qed.

(** ** Concrete runs *)

(** The row of the sample update, after [attempt] failures. *)
Definition sample_retry (attempt : Z) (state : Json) : RetryEntry :=
  mkRetryEntry "retry-1" "t1" "evt-1" attempt 8 500 "TRANSIENT: http request" "TRANSIENT" state 0.

Definition retrying (attempt : Z) (state : Json) (d : DB) : DB :=
  on_retry_queue (fun _ => [sample_retry attempt state]) d.

Lemma retry_outcome_witness :
  match encode_event (sample_update 7) with
  | Some j =>
      let s0 := state_down (retrying 7 j (with_canonical (sample_canonical false)
                                            (sample_db StrategyLastWriteWins))) in
      exists e, dead_lettered (sample_retry 7 j) e
                  (st_db (@processRetry down New_retry_opts (sample_retry 7 j) s0).2)
  | None => False
  end.
Proof.
  destruct (encode_event (sample_update 7)) as [j|] eqn:Ej; [|vm_compute in Ej; discriminate].
  set (s0 := state_down (retrying 7 j (with_canonical (sample_canonical false)
                                         (sample_db StrategyLastWriteWins)))).
  cbv zeta. pose proof (@retry_outcome down New_retry_opts (sample_retry 7 j) (sample_update 7) s0
    eq_refl eq_refl (decode_encode_event (sample_update 7) j eq_refl Ej) eq_refl) as O.
  cbv zeta in O.
  assert (E : (@Process down (sample_update 7) s0).1 =
              Err (ConnError ErrTransient "http request" 0 (Some "connection refused")))
    by (vm_compute; reflexivity).
  rewrite E in O. eexists. exact O.
Defined.

(** One lost statement loses the event: when the insert of the dead letter
    fails, the row is deleted all the same, and the event is nowhere. *)
Lemma dead_letter_fault_loses_event :
  match encode_event (sample_update 7) with
  | Some j =>
      let d := retrying 7 j (with_canonical (sample_canonical false)
                               (sample_db StrategyLastWriteWins)) in
      let s0 := @mkSt down d 0%nat 1000 (replicate 10 Fok ++ [Ffail]) [] 0 [] [] [] [] in
      let s' := (@processRetry down New_retry_opts (sample_retry 7 j) s0).2 in
      retry_queue (st_db s') = [] /\ dead_letter (st_db s') = [] /\
      processed_events (st_db s') = []
  | None => False
  end.
Proof. vm_compute. split_and!; reflexivity. Qed.

(** A provider that fails once and then recovers. *)
Definition flaky : Transport :=
  isolated nat
    (fun w _ => (S w, match w with O => HttpErr "connection reset"
                                 | _ => HttpResp 200 "" "" (Some sample_answer) end))
    (fun w _ _ _ => (w, true)).

Definition sample_source_event (status : string) : SourceEvent :=
  mkSourceEvent "se-1" "t1" "salesforce" "evt-1" "customer" "sf-000001" EventUpdated 7
    (Some 1709202600250000000%Z) 900 "" ∅ ∅ status.

(** An event that fails once and succeeds on retry is applied, but its status
    stays 'failed': success only moves 'validated' events on. *)
Lemma retried_event_stays_failed :
  match encode_event (sample_update 7) with
  | Some j =>
      let d := on_source_events (fun _ => [sample_source_event "validated"])
                 (with_canonical (sample_canonical false) (sample_db StrategyLastWriteWins)) in
      let s0 := @mkSt flaky d 0%nat 1000 [] [] 0 [] [] [] [] in
      let s1 := (@Handle flaky New_opts (Some j) s0).2 in
      match retry_queue (st_db s1) with
      | [r] =>
          let s2 := (@processRetry flaky New_retry_opts r s1).2 in
          retry_queue (st_db s2) = [] /\ length (processed_events (st_db s2)) = 1%nat /\
          (cr_Version <$> canonical_records (st_db s2)) = [4%Z] /\
          (se_Status <$> source_events (st_db s2)) = ["failed"]
      | _ => False
      end
  | None => False
  end.
Proof. vm_compute. split_and!; reflexivity. Qed.
