(* ===== verification/Ingestion.v ===== *)
(** * [internal/api/webhooks.go] and [internal/ingestion]: from webhook to broker

    A provider's webhook is authenticated, stored once as a source event, and
    later published as a canonical event.  The request carries the body's text
    and the JSON value the text denotes, if any. *)

From S2P Require Import Prelude Json GoTime Crypto Events Model Tables Effects Store Frame.
From S2P Require Import Connectors Run Worker Sample.
Local Open Scope string_scope.
#[local] Arguments String.append !_ _ /.

(** An HTTP answer of the API: status code and members of the body. *)
Record Response := mkResponse { rs_code : Z; rs_body : list (string * Json) }.

(** [writeError]. *)
Definition error_response (code : Z) (msg : string) : Response :=
  mkResponse code [("error", JStr msg)].

(** ** Signatures *)

(** [strings.TrimPrefix] guarded by [strings.HasPrefix]. *)
Fixpoint strip_prefix (p t : string) : option string :=
  match p with
  | "" => Some t
  | String a p =>
      match t with
      | String b t => if Ascii.eqb a b then strip_prefix p t else None
      | "" => None
      end
  end.

Definition mac_of (secret body : string) : list Z :=
  hmac sha256 (bytes_of_string secret) (bytes_of_string body).

(** [verifySignature]. *)
Definition verifySignature (body secret header : string) : bool :=
  if secret =s "" then false
  else
    match strip_prefix "sha256=" header with
    | None => false
    | Some h =>
        match hex_decode h with
        | None => false
        | Some want => bool_decide (mac_of secret body = want)
        end
    end.

Lemma strip_prefix_Some p t r : strip_prefix p t = Some r <-> t = p +:+ r.
Proof.
  revert t. induction p as [|a p IH]; intros t; simpl; [split; congruence|].
  destruct t as [|b t]; [split; discriminate|].
  destruct (Ascii.eqb_spec a b) as [->|Hne].
  - rewrite IH. split; [by intros ->|]. by intros [= ->].
  - split; [discriminate|]. intros [= -> _]. done.
Qed.

(** The signature a provider computes with the shared secret. *)
Lemma signature_accepted body secret :
  secret <> "" -> verifySignature body secret ("sha256=" +:+ hex_encode (mac_of secret body)) = true.
Proof.
  intros Hs. unfold verifySignature. rewrite (seqb_ne _ _ Hs).
  rewrite (proj2 (strip_prefix_Some "sha256=" _ _) eq_refl).
  rewrite hex_roundtrip by apply sha256_bytes. by apply bool_decide_eq_true.
Qed.

(** A delivery is accepted exactly when the connection has a secret and the
    header is [sha256=] followed by a hexadecimal text of the HMAC-SHA256 of the
    body under that secret; the signature a provider computes with the shared
    secret is accepted, and a connection without a secret accepts nothing. *)
Theorem signature_exact (body secret header : string) :
  (verifySignature body secret header = true <->
     secret <> "" /\ exists h, header = "sha256=" +:+ h /\ hex_decode h = Some (mac_of secret body)) /\
  (secret <> "" -> verifySignature body secret ("sha256=" +:+ hex_encode (mac_of secret body)) = true).
Proof.
  assert (Hiff : verifySignature body secret header = true <->
     secret <> "" /\ exists h, header = "sha256=" +:+ h /\ hex_decode h = Some (mac_of secret body)).
  { unfold verifySignature. destruct (secret =s "") eqn:Es; seqb_simpl.
    { split; [discriminate|]. by intros [? _]. }
    destruct (strip_prefix "sha256=" header) as [h|] eqn:Eh.
    - apply strip_prefix_Some in Eh as ->. split.
      + destruct (hex_decode h) as [w|] eqn:Ew; [|discriminate].
        intros ->%bool_decide_eq_true. split; [done|]. by exists h.
      + intros (_ & h' & E & Hw). apply str_app_inj_l in E as <-. rewrite Hw.
        by apply bool_decide_eq_true.
    - split; [discriminate|]. intros (_ & h' & -> & _).
      assert (strip_prefix "sha256=" ("sha256=" +:+ h') = Some h') as E by by apply strip_prefix_Some.
      congruence. }
  split; [exact Hiff|]. apply signature_accepted.
Qed.

(** ** The webhook gateway *)

(** [providerWebhook]. *)
Record providerWebhook := mkWebhook {
  wh_EventID : string; wh_Source : string; wh_EntityType : string; wh_EntityID : string;
  wh_EventType : string; wh_SourceVersion : Z; wh_OccurredAt : Z; wh_CorrelationID : string;
  wh_Provenance : Fields; wh_Payload : Fields;
}.

(** [json.Unmarshal(body, &wh)]. *)
Definition decode_webhook (j : option Json) : option providerWebhook :=
  into_struct (fun kvs =>
    event_id ← dec_string "event_id" kvs;
    source ← dec_string "source" kvs;
    etype ← dec_string "entity_type" kvs;
    eid ← dec_string "entity_id" kvs;
    evtype ← dec_string "event_type" kvs;
    version ← dec_int64 "source_version" kvs;
    occurred ← dec_time "occurred_at" kvs;
    corr ← dec_string "correlation_id" kvs;
    prov ← dec_fields "provenance" kvs;
    payload ← dec_fields "payload" kvs;
    Some (mkWebhook event_id source etype eid evtype version occurred corr prov payload)) j.

(** A delivery: route, body as read (and as JSON), signature header. *)
Record WebhookReq := mkWebhookReq {
  wq_provider : string; wq_slug : string; wq_body : string; wq_json : option Json;
  wq_signature : string;
}.

(** [unmarshalToMap]: a body that is no object gives the nil map. *)
Definition unmarshalToMap (j : option Json) : Json :=
  match j with Some (JObj kvs) => JObj kvs | _ => JNull end.

Section webhook.
Context `{Outside}.

(** The body of [handleWebhook] once the delivery is authenticated. *)
Definition accept_webhook (tenant provider : string) (json : option Json) : M Response :=
  match decode_webhook json with
  | None => mret (error_response 400 "malformed webhook payload")
  | Some wh =>
      event_id ← (if wh_EventID wh =s "" then new_uuid else mret (wh_EventID wh));
      let source := if wh_Source wh =s "" then provider else wh_Source wh in
      if (wh_EntityType wh =s "") || (wh_EntityID wh =s "")
      then mret (error_response 400 "missing entity_type/entity_id")
      else
        r ← attempt (InsertSourceEvent (mkSourceEvent "" tenant source event_id
               (wh_EntityType wh) (wh_EntityID wh) (wh_EventType wh) (wh_SourceVersion wh)
               (Some (wh_OccurredAt wh)) 0 (wh_CorrelationID wh) (wh_Provenance wh)
               {[ "webhook" := unmarshalToMap json ]} ""));
        match r with
        | Err ErrDuplicate =>
            mret (mkResponse 200 [("status", JStr "duplicate"); ("event_id", JStr event_id)])
        | Err _ => mret (error_response 500 "failed to persist event")
        | Ok ev => mret (mkResponse 202 [("status", JStr "received"); ("event_id", JStr event_id);
                                         ("id", JStr (se_ID ev))])
        end
  end.

(** [handleWebhook]. *)
Definition handleWebhook (rq : WebhookReq) : M Response :=
  r ← attempt (GetTenantBySlug (wq_slug rq));
  match r with
  | Err ErrNotFound => mret (error_response 404 "unknown tenant")
  | Err _ => mret (error_response 500 "internal error")
  | Ok tenant =>
      r ← attempt (GetConnectionByProvider (tn_ID tenant) (wq_provider rq));
      match r with
      | Err ErrNotFound => mret (error_response 404 "no connection for provider")
      | Err _ => mret (error_response 500 "internal error")
      | Ok conn =>
          if negb (verifySignature (wq_body rq) (cn_WebhookSecret conn) (wq_signature rq))
          then mret (error_response 401 "invalid signature")
          else accept_webhook (tn_ID tenant) (wq_provider rq) (wq_json rq)
      end
  end.

(** ** The ingestion processor *)

Definition TopicSyncEvents : string := "sync.events".

(** A string member, if it is one. *)
Definition str_member (m : Fields) (k : string) : string :=
  match m !! k with Some (JStr v) => v | _ => "" end.

(** [fromSourceEvent]; [received] is the clock. *)
Definition fromSourceEvent (received : Z) (se : SourceEvent) : Event :=
  let payload : Fields :=
    match se_Raw se !! "webhook" with
    | Some (JObj kvs) =>
        match (list_to_map kvs : Fields) !! "payload" with
        | Some (JObj p) => list_to_map p
        | _ => ∅
        end
    | _ => ∅
    end in
  mkEvent (se_EventID se) (se_TenantID se) (se_Source se) (se_EntityType se) (se_EntityID se)
    (se_EventType se) (se_SourceVersion se) (default time_zero (se_OccurredAt se)) received
    (se_CorrelationID se)
    (mkProvenance (str_member (se_Provenance se) "origin_source")
       (str_member (se_Provenance se) "origin_event_id")
       (str_member (se_Provenance se) "sync_operation_id") "" "")
    payload.

(** The loop body of [drain]. *)
Definition publish_one (se : SourceEvent) : M unit :=
  t ← now;
  let ev := fromSourceEvent t se in
  match encode_event ev with
  | None => mret tt
  | Some payload =>
      r ← attempt (publish TopicSyncEvents (PartitionKey ev) payload);
      match r with
      | Err _ => mret tt
      | Ok _ => ignore (SetSourceEventStatus (se_TenantID se) (se_EventID se) "received"
                          "validated")
      end
  end.

Fixpoint publish_all (ses : list SourceEvent) : M unit :=
  match ses with
  | [] => mret tt
  | se :: ses => publish_one se;; publish_all ses
  end.

(** [Processor.drain], with the batch size of [New]. *)
Definition ingest_drain : M unit :=
  r ← attempt (PendingSourceEvents 100);
  match r with
  | Err _ => mret tt
  | Ok pending => publish_all pending
  end.
End webhook.

(** ** The gateway: what a delivery can do *)

Section gateway.
Context `{Transport}.

(** The row a delivery asks for is new under its key, or nothing is stored. *)
Lemma run_InsertSourceEvent ev s r s' :
  InsertSourceEvent ev s = (r, s') ->
  SameWorld s s' /\
  ((exists row, st_db s' = on_source_events (fun l => (l ++ [row])%list) (st_db s) /\
      se_TenantID row = se_TenantID ev /\ se_Source row = se_Source ev /\
      se_EventID row = se_EventID ev /\ se_Raw row = se_Raw ev /\ se_Status row = "received" /\
      select_one (source_event_key (se_TenantID ev) (se_Source ev) (se_EventID ev))
        (source_events (st_db s)) = None /\
      (r = Ok row \/ r = Err ErrDB)) \/
   (st_db s' = st_db s /\ exists e, r = Err e)).
Proof.
  unfold InsertSourceEvent. intros E. apply run_tx in E as [HW [(a & d & E & Hd & Hr)|Hf]];
    (split; [done|]); [left|by right].
  unfold insert_new in E. cbv zeta in E. rewrite existsb_select_one in E.
  destruct (select_one _ _) eqn:Es; [discriminate|]. injection E as <- <-. eexists.
  split; [exact Hd|]. by repeat split.
Qed.

Definition authenticated (rq : WebhookReq) (d : DB) (tenant : Tenant) (conn : Connection) : Prop :=
  tenant ∈ tenants d /\ tn_Slug tenant = wq_slug rq /\ conn ∈ connections d /\
  cn_TenantID conn = tn_ID tenant /\ cn_Provider conn = wq_provider rq /\
  verifySignature (wq_body rq) (cn_WebhookSecret conn) (wq_signature rq) = true.

(** What an authenticated delivery leaves behind. *)
Definition stored (tenant : Tenant) (d d' : DB) : Prop :=
  exists row, d' = on_source_events (fun l => (l ++ [row])%list) d /\ se_TenantID row = tn_ID tenant /\
    se_Status row = "received" /\ se_EventID row <> "" /\ 
    select_one (source_event_key (se_TenantID row) (se_Source row) (se_EventID row))
      (source_events d) = None.

Lemma gen_id_nonempty n k : gen_id n k <> "".
Proof. unfold gen_id. by simpl. Qed.

Lemma run_accept tenant provider json s r s' :
  accept_webhook (tn_ID tenant) provider json s = (r, s') ->
  exists resp, r = Ok resp /\
    ((st_db s' = st_db s /\ rs_code resp <> 202%Z) \/
     (stored tenant (st_db s) (st_db s') /\ (rs_code resp = 202 \/ rs_code resp = 500)%Z)).
Proof.
  unfold accept_webhook. destruct (decode_webhook json) as [wh|]; cycle 1.
  { intros E. run E. eexists. split; [done|]. by left. }
  intros E. apply run_bind in E as [(e & E & ->)|(eid & s1 & E1 & E)].
  { destruct (wh_EventID wh =s ""); discriminate E. }
  assert (st_db s1 = st_db s /\ eid <> "") as [Hs1 Heid].
  { destruct (wh_EventID wh =s "") eqn:En; seqb_simpl; [|by run E1].
    unfold new_uuid in E1. simplify_eq. split; [done|apply gen_id_nonempty]. }
  cbv zeta in E. destruct (_ || _). { run E. eexists. split; [done|]. left. by rewrite <- Hs1. }
  run_step E. apply run_InsertSourceEvent in Heqp as [_ [Hok|[Hd [e ->]]]]; cycle 1.
  { destruct e; run E; (eexists; split; [done|]); left; (split; [congruence|done]). }
  destruct Hok as (row & Hd & H1 & H2 & H3 & H4 & H5 & H6 & Hr). simpl in *.
  assert (stored tenant (st_db s) (st_db s')) as Hst.
  { assert (s' = s0) as -> by (destruct Hr as [->| ->]; by run E).
    exists row. rewrite H1, H2, H3, Hd, <- Hs1. auto. }
  destruct Hr as [->| ->]; run E; (eexists; split; [done|]); right; simpl; auto.
Qed.

(** Either nothing is stored, or an authenticated delivery is. *)
Lemma run_handleWebhook rq s r s' :
  handleWebhook rq s = (r, s') ->
  exists resp, r = Ok resp /\
    ((st_db s' = st_db s /\ rs_code resp <> 202%Z) \/
     (exists tenant conn, authenticated rq (st_db s) tenant conn /\
        stored tenant (st_db s) (st_db s') /\ (rs_code resp = 202 \/ rs_code resp = 500)%Z)).
Proof.
  unfold handleWebhook. intros E. run_step E.
  apply run_query in Heqp as [(Q1 & _) Hx].
  destruct x as [tenant|e]; cycle 1.
  { destruct e; run E; (eexists; split; [done|]); left; (split; [done|by simpl]). }
  destruct Hx as [Hx|]; [|done].
  run_step E. apply run_query in Heqp as [(Q2 & _) Hy].
  destruct x as [conn|e]; cycle 1.
  { destruct e; run E; (eexists; split; [done|]); left; (split; [congruence|by simpl]). }
  destruct Hy as [Hy|]; [|done].
  destruct (verifySignature _ _ _) eqn:Ev; simpl in E; cycle 1.
  { run E. eexists. split; [done|]. left. split; [congruence|by simpl]. }
  apply run_accept in E as (resp & -> & HE). exists resp. split; [done|].
  rewrite Q2, Q1 in HE. destruct HE as [HE|[Hst Hc]]; [by left|right].
  exists tenant, conn. split; [|done]. rewrite Q1 in Hy. unfold found_or in *.
  destruct (select_one _ (tenants _)) as [t'|] eqn:Et; simplify_eq.
  destruct (select_one _ (connections _)) as [c'|] eqn:Ec; simplify_eq.
  apply select_one_Some in Et as [? ?], Ec as [? ?]. seqb_simpl. by repeat split.
Qed.
End gateway.

(** C13: the webhook gateway always answers, and stores something only for an
    authenticated delivery: the slug names a tenant, that tenant has a
    connection to the provider, and the signature verifies under that
    connection's secret.  What is stored is then one new [received] row of that
    tenant, under a key no row had; no other table is touched.  A 202 answer is
    given only with the row stored.  This holds whatever statements fail. *)
Theorem webhook_authentic `{Transport} (rq : WebhookReq) (s : St) :
  match handleWebhook rq s with
  | (Ok resp, s') =>
      (st_db s' = st_db s /\ rs_code resp <> 202%Z) \/
      (exists tenant conn, authenticated rq (st_db s) tenant conn /\
         stored tenant (st_db s) (st_db s') /\ (rs_code resp = 202 \/ rs_code resp = 500)%Z)
  | (Err _, _) => False
  end.
Proof.
  destruct (handleWebhook rq s) as [r s'] eqn:E.
  apply run_handleWebhook in E as (resp & -> & HE). exact HE.
Qed.

(** ** Accepted deliveries *)

(** [row] is what a delivery with body [json], read as [wh], is stored as. *)
Definition row_of (tenant : string) (wh : providerWebhook) (json : option Json) (row : SourceEvent) : Prop :=
  exists id now, row = mkSourceEvent id tenant (wh_Source wh) (wh_EventID wh) (wh_EntityType wh) (wh_EntityID wh)
    (wh_EventType wh) (wh_SourceVersion wh) (Some (pg_time (wh_OccurredAt wh))) now (wh_CorrelationID wh)
    (wh_Provenance wh) {[ "webhook" := unmarshalToMap json ]} "received".

(** A complete delivery signed with the connection's secret, on a working
    database, is stored; or it is known already. *)
Lemma webhook_stored `{Transport} (rq : WebhookReq) (wh : providerWebhook) (tenant : Tenant) (conn : Connection)
    (s : St) :
  st_faults s = [] ->
  select_one (fun r => tn_Slug r =s wq_slug rq) (tenants (st_db s)) = Some tenant ->
  select_one (fun r => (cn_TenantID r =s tn_ID tenant) && (cn_Provider r =s wq_provider rq))
    (connections (st_db s)) = Some conn ->
  cn_WebhookSecret conn <> "" ->
  wq_signature rq = "sha256=" +:+ hex_encode (mac_of (cn_WebhookSecret conn) (wq_body rq)) ->
  decode_webhook (wq_json rq) = Some wh ->
  wh_EventID wh <> "" -> wh_Source wh <> "" -> wh_EntityType wh <> "" -> wh_EntityID wh <> "" ->
  exists resp s', handleWebhook rq s = (Ok resp, s') /\ st_faults s' = [] /\
    if existsb (source_event_key (tn_ID tenant) (wh_Source wh) (wh_EventID wh)) (source_events (st_db s))
    then rs_code resp = 200%Z /\ st_db s' = st_db s
    else rs_code resp = 202%Z /\ exists row, row_of (tn_ID tenant) wh (wq_json rq) row /\
           st_db s' = on_source_events (fun l => (l ++ [row])%list) (st_db s).
Proof.
  intros Hf Ht Hc Hsec Hsig Hd He Hs Hty Hid. unfold handleWebhook.
  rewrite bind_attempt. unfold GetTenantBySlug.
  edestruct (calm_query (A:=Tenant)) as (s1 & -> & Hd1 & _ & Hf1); [exact Hf|].
  rewrite Ht. cbn [fst snd found_or]. rewrite bind_attempt. unfold GetConnectionByProvider.
  edestruct (calm_query (A:=Connection)) as (s2 & -> & Hd2 & _ & Hf2); [exact Hf1|].
  rewrite Hd1, Hc. cbn [fst snd found_or]. rewrite Hsig, signature_accepted by done. cbn [negb].
  unfold accept_webhook. rewrite Hd, (seqb_ne _ _ He). unfold mbind at 1, M_bind at 1, mret at 1, M_ret at 1.
  cbv zeta. rewrite (seqb_ne _ _ Hs), (seqb_ne _ _ Hty), (seqb_ne _ _ Hid). cbn [orb].
  rewrite bind_attempt. unfold InsertSourceEvent.
  edestruct (calm_tx (A:=SourceEvent)) as (s3 & -> & _ & Hf3 & Hd3); [exact Hf2|].
  cbv zeta in Hd3 |- *. rewrite Hd2, Hd1 in Hd3 |- *. unfold insert_new in Hd3 |- *.
  cbn [se_TenantID se_Source se_EventID] in Hd3 |- *.
  destruct (existsb _ (source_events (st_db s))); cbn [fst snd] in Hd3 |- *.
  - eexists _, s3. by split_and!.
  - eexists _, s3. do 2 (split; [done|]). split; [done|]. eexists. split; [|rewrite Hd3; reflexivity].
    by eexists _, _.
Qed.

(** ** Redelivery *)

Section redelivery.
Context `{Transport}.

(** Every event recorded in [d] is still recorded in [d'], whatever its
    status has become. *)
Definition events_kept (d d' : DB) : Prop :=
  forall r, r ∈ source_events d -> exists r', r' ∈ source_events d' /\
    se_TenantID r' = se_TenantID r /\ se_Source r' = se_Source r /\ se_EventID r' = se_EventID r.

(** The row a 202 answer vouches for. *)
Lemma accept_202 tenant provider json wh s resp s' :
  decode_webhook json = Some wh -> wh_EventID wh <> "" ->
  accept_webhook tenant provider json s = (Ok resp, s') -> rs_code resp = 202%Z ->
  (wh_EntityType wh =s "") || (wh_EntityID wh =s "") = false /\
  exists row, row ∈ source_events (st_db s') /\ se_TenantID row = tenant /\
    se_Source row = (if wh_Source wh =s "" then provider else wh_Source wh) /\
    se_EventID row = wh_EventID wh.
Proof.
  intros Hwh Hid E Hc. unfold accept_webhook in E. rewrite Hwh, (seqb_ne _ _ Hid) in E.
  apply run_bind in E as [(e & E & ?)|(eid & s1 & E1 & E)]; [done|]. run E1. cbv zeta in E.
  destruct (_ || _). { by run E. }
  split; [done|]. run_step E.
  apply run_InsertSourceEvent in Heqp as [_ [Hok|[Hd [e ->]]]]; [|destruct e; by run E].
  destruct Hok as (row & Hd & H1 & H2 & H3 & _ & _ & _ & [->| ->]); [|by run E]. run E.
  exists row. rewrite Hd. simpl in *. split; [|done]. apply elem_of_app. right.
  by apply list_elem_of_singleton.
Qed.

Lemma accept_again tenant provider json wh row s :
  decode_webhook json = Some wh -> wh_EventID wh <> "" ->
  (wh_EntityType wh =s "") || (wh_EntityID wh =s "") = false ->
  row ∈ source_events (st_db s) -> se_TenantID row = tenant ->
  se_Source row = (if wh_Source wh =s "" then provider else wh_Source wh) ->
  se_EventID row = wh_EventID wh -> st_faults s = [] ->
  exists s', accept_webhook tenant provider json s =
    (Ok (mkResponse 200 [("status", JStr "duplicate"); ("event_id", JStr (wh_EventID wh))]), s') /\
    st_db s' = st_db s.
Proof.
  intros Hwh Hid Hent Hrow H1 H2 H3 Hf. unfold accept_webhook.
  rewrite Hwh, (seqb_ne _ _ Hid). unfold mbind at 1, M_bind at 1, mret at 1, M_ret at 1.
  cbv zeta. rewrite Hent, bind_attempt. unfold InsertSourceEvent. cbv zeta. cbn [se_TenantID se_Source se_EventID].
  set (key := source_event_key _ _ _).
  assert (existsb key (source_events (st_db s)) = true) as Hex.
  { apply existsb_exists. exists row. split; [by apply list_elem_of_In|].
    unfold key, source_event_key. by rewrite H1, H2, H3, !seqb_refl. }
  edestruct (calm_tx (A:=SourceEvent)) as (s' & E & _ & _ & Hd); [exact Hf|].
  rewrite E. unfold insert_new in *. rewrite Hex in *. exists s'. split; [done|exact Hd].
Qed.
End redelivery.

(** A redelivered webhook is dropped.  Once a delivery that names its event
    has been answered 202, the same delivery is answered 200 and changes
    nothing, however far the processing of the event has got in between (the
    row is still there, in any status), as long as the tenant and connection
    tables are as they were. *)
Theorem redelivery_dropped `{Transport} (rq : WebhookReq) (wh : providerWebhook)
    (s s1 s2 : St) (resp : Response) :
  decode_webhook (wq_json rq) = Some wh -> wh_EventID wh <> "" ->
  handleWebhook rq s = (Ok resp, s1) -> rs_code resp = 202%Z ->
  st_faults s2 = [] -> tenants (st_db s2) = tenants (st_db s) ->
  connections (st_db s2) = connections (st_db s) -> events_kept (st_db s1) (st_db s2) ->
  exists s3, handleWebhook rq s2 =
    (Ok (mkResponse 200 [("status", JStr "duplicate"); ("event_id", JStr (wh_EventID wh))]), s3) /\
    st_db s3 = st_db s2.
Proof.
  intros Hwh Hid E Hc Hf Ht Hcn Hkept. unfold handleWebhook in *.
  run_step E. apply run_query in Heqp as [(Q1 & _) Hx].
  destruct x as [tenant|e]; [|by destruct e; run E]. destruct Hx as [Hx|]; [|done].
  run_step E. apply run_query in Heqp as [(Q2 & _) Hy].
  destruct x as [conn|e]; [|by destruct e; run E]. destruct Hy as [Hy|]; [|done].
  destruct (verifySignature _ _ _) eqn:Ev; simpl in E; [|by run E].
  destruct (accept_202 _ _ _ _ _ _ _ Hwh Hid E Hc) as (Hent & row & Hrow & H1 & H2 & H3).
  destruct (Hkept row Hrow) as (row' & Hrow' & K1 & K2 & K3).
  rewrite bind_attempt. unfold GetTenantBySlug.
  edestruct (calm_query (A:=Tenant)) as (t1 & -> & D1 & _ & F1); [exact Hf|]. cbn [fst snd].
  rewrite Ht, <- Hx. rewrite bind_attempt. unfold GetConnectionByProvider.
  edestruct (calm_query (A:=Connection)) as (t2 & -> & D2 & _ & F2); [exact F1|]. cbn [fst snd].
  rewrite D1, Hcn, <- Q1, <- Hy, Ev. simpl.
  destruct (accept_again (tn_ID tenant) (wq_provider rq) (wq_json rq) wh row' t2)
    as (s9 & -> & D3); [done..| | | | |done|].
  - by rewrite D2, D1.
  - congruence.
  - congruence.
  - congruence.
  - exists s9. split; [done|]. congruence.
Qed.

(** A Salesforce delivery signed with the connection's secret. *)
Definition sample_webhook_json : Json :=
  JObj [("event_id", JStr "evt-1"); ("entity_type", JStr "customer");
        ("entity_id", JStr "sf-000001"); ("event_type", JStr "updated");
        ("source_version", JNum 6);
        ("provenance", JObj [("resolved_conflict_id", JStr "forged")]);
        ("payload", JObj [("fields", JObj [("email", JStr "ada@new.dev")])])].

Definition sample_delivery : WebhookReq :=
  mkWebhookReq "salesforce" "acme" "{...}" (Some sample_webhook_json)
    ("sha256=" +:+ hex_encode (mac_of "secret" "{...}")).

Definition undelivered : @St up := state_up (sample_db "last_write_wins").
Definition delivered : @St up := (handleWebhook sample_delivery undelivered).2.
Definition sample_202 : Response :=
  mkResponse 202 [("status", JStr "received"); ("event_id", JStr "evt-1"); ("id", JStr "id-2-0")].
Definition sample_200 : Response :=
  mkResponse 200 [("status", JStr "duplicate"); ("event_id", JStr "evt-1")].

Lemma sample_delivered :
  (handleWebhook sample_delivery undelivered).1 = Ok sample_202 /\ st_faults delivered = [] /\
  tenants (st_db delivered) = tenants (st_db undelivered) /\
  connections (st_db delivered) = connections (st_db undelivered).
Proof. vm_compute. auto. Qed.

Definition sample_hook : providerWebhook :=
  default (mkWebhook "" "" "" "" "" 0 0 "" ∅ ∅) (decode_webhook (Some sample_webhook_json)).

Lemma redelivery_dropped_witness :
  exists s3, handleWebhook sample_delivery delivered = (Ok sample_200, s3) /\ 
             st_db s3 = st_db delivered.
Proof.
  destruct sample_delivered as (E & F & T & C).
  apply (redelivery_dropped sample_delivery sample_hook undelivered delivered delivered sample_202).
  - vm_compute. reflexivity.
  - discriminate.
  - unfold delivered. rewrite <- E. apply surjective_pairing.
  - reflexivity.
  - exact F.
  - exact T.
  - exact C.
  - intros r Hr. exists r. auto.
Defined.

(** ** Handing events to the broker *)

Section handover.
Context `{Transport}.

(** [m] is the message of the stored event [se]. *)
Definition message_of (se : SourceEvent) (m : string * string * Json) : Prop :=
  exists t payload, encode_event (fromSourceEvent t se) = Some payload /\
    m = (TopicSyncEvents, PartitionKey (fromSourceEvent t se), payload).

Definition mark_validated (se : SourceEvent) : DB -> DB :=
  on_source_events (update_where
    (fun r => (se_TenantID r =s se_TenantID se) && (se_EventID r =s se_EventID se) &&
              (se_Status r =s "received")) (se_set_Status "validated")).

Lemma run_publish_one se s r s' :
  publish_one se s = (r, s') ->
  r = Ok tt /\
  ((st_db s' = st_db s /\ st_published s' = st_published s) \/
   (exists m, message_of se m /\ st_published s' = (st_published s ++ [m])%list /\
      (st_db s' = st_db s \/ st_db s' = mark_validated se (st_db s)))).
Proof.
  unfold publish_one. intros E. unfold mbind at 1, M_bind at 1, now in E. cbv zeta in E.
  destruct (encode_event _) as [payload|] eqn:Ep; cycle 1.
  { run E. auto. }
  run_step E. unfold publish in Heqp. destruct (publish_step _ _ _ _) as [w ok].
  destruct ok; simplify_eq; cycle 1.
  { run E. split; [done|]. by left. }
  run_step E. unfold SetSourceEventStatus in E.
  apply run_tx in E as [(_ & HP & _) HE]. split; [done|right].
  eexists. split; [exists (st_now s), payload; split; [exact Ep|reflexivity]|].
  split; [by rewrite HP|].
  destruct HE as [(a & d & [= <- <-] & Hd & _)|[Hd _]]; [right|left]; exact Hd.
Qed.

(** One row per tenant and event id. *)
Definition unique_events (d : DB) : Prop :=
  forall r r', r ∈ source_events d -> r' ∈ source_events d ->
    se_TenantID r = se_TenantID r' -> se_EventID r = se_EventID r' -> r = r'.

(** [se] is still waiting, or its message has been published. *)
Definition waiting_or_sent (se : SourceEvent) (s : St) : Prop :=
  se ∈ source_events (st_db s) \/ exists m, message_of se m /\ m ∈ st_published s.

Lemma waiting_or_sent_step se0 se s r s' :
  (se0 ∈ source_events (st_db s) -> se_TenantID se0 = se_TenantID se ->
     se_EventID se0 = se_EventID se -> se0 = se) ->
  publish_one se s = (r, s') -> waiting_or_sent se0 s -> waiting_or_sent se0 s'.
Proof.
  intros Hu E Hw. apply run_publish_one in E as [_ [[Hd Hp]|(m & Hm & Hp & Hd)]].
  { unfold waiting_or_sent. by rewrite Hd, Hp. }
  destruct Hw as [Hin|(m' & Hm' & Hin)]; cycle 1.
  { right. exists m'. split; [done|]. rewrite Hp. apply elem_of_app. by left. }
  destruct Hd as [Hd|Hd]; [left; by rewrite Hd|].
  destruct (decide (se_TenantID se0 = se_TenantID se /\ se_EventID se0 = se_EventID se))
    as [[H1 H2]|Hne].
  - right. exists m. rewrite (Hu Hin H1 H2). split; [done|]. rewrite Hp.
    apply elem_of_app. right. by apply list_elem_of_singleton.
  - left. rewrite Hd. unfold mark_validated. simpl. unfold update_where.
    apply list_elem_of_In, in_map_iff. exists se0. split; [|by apply list_elem_of_In].
    destruct (_ && _) eqn:Ek; [|done]. seqb_simpl. exfalso. by apply Hne.
Qed.

(** A drain only ever moves statuses: the rows it sees later are rows it saw
    first, or validated ones. *)
Lemma publish_one_rows se s r s' x :
  publish_one se s = (r, s') -> x ∈ source_events (st_db s') ->
  x ∈ source_events (st_db s) \/ se_Status x = "validated".
Proof.
  intros E Hx. apply run_publish_one in E as [_ [[Hd _]|(m & _ & _ & [Hd|Hd])]];
    rewrite Hd in Hx; [by left..|].
  unfold mark_validated in Hx. simpl in Hx. unfold update_where in Hx.
  apply list_elem_of_In, in_map_iff in Hx as (y & <- & Hy). apply list_elem_of_In in Hy.
  destruct (_ && _); [by right|by left].
Qed.

Lemma publish_all_kept ses se0 s r s' :
  (forall se x, se ∈ ses -> x ∈ source_events (st_db s) -> se_TenantID x = se_TenantID se ->
     se_EventID x = se_EventID se -> x = se \/ se_Status x = "validated") ->
  se_Status se0 = "received" ->
  publish_all ses s = (r, s') -> waiting_or_sent se0 s -> waiting_or_sent se0 s'.
Proof.
  revert s. induction ses as [|se ses IH]; intros s Hu Hst E Hw; simpl in E.
  { by run E. }
  apply run_bind in E as [(e & E & ->)|(a & s1 & E1 & E)].
  { by apply run_publish_one in E as [? _]. }
  apply (IH s1); [|done|done|].
  - intros se' x Hse' Hx H1 H2.
    destruct (publish_one_rows _ _ _ _ _ E1 Hx) as [Hx'|]; [|by right].
    apply (Hu se' x); [by right|done..].
  - eapply waiting_or_sent_step; [|exact E1|exact Hw]. intros Hin H1 H2.
    destruct (Hu se se0) as [|Hv]; [by left|done..|]. congruence.
Qed.

Lemma publish_all_sent ses s r s' :
  publish_all ses s = (r, s') ->
  exists ms, st_published s' = (st_published s ++ ms)%list /\
    Forall (fun m => exists se, se ∈ ses /\ message_of se m) ms.
Proof.
  revert s. induction ses as [|se ses IH]; intros s E; simpl in E.
  { run E. exists []. by rewrite app_nil_r. }
  apply run_bind in E as [(e & E & ->)|(a & s1 & E1 & E)].
  { by apply run_publish_one in E as [? _]. }
  destruct (IH s1 E) as (ms & Hms & HF).
  assert (Forall (fun m => exists x, x ∈ se :: ses /\ message_of x m) ms) as HF'.
  { eapply Forall_impl; [exact HF|]. intros m (x & Hx & Hm). exists x. split; [by right|done]. }
  apply run_publish_one in E1 as [_ [[_ Hp]|(m & Hm & Hp & _)]]; rewrite Hms, Hp.
  - by exists ms.
  - exists (m :: ms). rewrite <- app_assoc. split; [done|]. constructor; [|done].
    exists se. split; [by left|done].
Qed.

Lemma pending_rows se l limit :
  se ∈ take limit (order_by se_ReceivedAt (select_where (fun r => se_Status r =s "received") l)) ->
  se ∈ l /\ se_Status se = "received".
Proof.
  intros Hin. pose proof (subseteq_take _ _ _ Hin) as Hi. unfold order_by in Hi. apply elem_of_isort in Hi.
  apply list_elem_of_In, filter_In in Hi as [Hi Hs]. apply list_elem_of_In in Hi.
  by seqb_simpl.
Qed.
End handover.

(** Only stored events reach the broker, and none of them carries an
    operator's authority.  Every message a drain publishes is the message of a
    row that was [received]; it decodes to the event of that row, of the same
    tenant and source, and its provenance names neither a resolved conflict nor
    a reconciliation finding, whatever the webhook's provenance said. *)
Theorem published_are_received `{Transport} (s : St) :
  let s' := (ingest_drain s).2 in
  exists ms, st_published s' = (st_published s ++ ms)%list /\
    Forall (fun m => exists se ev, se ∈ source_events (st_db s) /\ se_Status se = "received" /\
      message_of se m /\
      (in_int64 (se_SourceVersion se) = true -> decode_event m.2 = Some ev) /\
      ev_TenantID ev = se_TenantID se /\ ev_Source ev = se_Source se /\
      ev_EventID ev = se_EventID se /\
      pv_ResolvedConflictID (ev_Provenance ev) = "" /\
      pv_ReconcileFindingID (ev_Provenance ev) = "") ms.
Proof.
  cbv zeta. destruct (ingest_drain s) as [r s'] eqn:E. unfold ingest_drain in E. run_step E.
  apply run_query in Heqp as [(Qd & _ & Qp & _) Hx].
  destruct x as [pending|e]; cycle 1.
  { run E. exists []. simpl. rewrite app_nil_r. by split. }
  destruct Hx as [[= ->]|]; [|done].
  destruct (publish_all_sent _ _ _ _ E) as (ms & Hp & HF). exists ms. simpl. rewrite Hp, Qp.
  split; [done|]. eapply Forall_impl; [exact HF|]. intros m (se & Hse & Hm).
  apply pending_rows in Hse as [Hin Hst]. pose proof Hm as (t & payload & Ep & ->).
  exists se, (fromSourceEvent t se). repeat (split; [done|]). split; [|done].
  intros Hv. by apply (decode_encode_event (fromSourceEvent t se)).
Qed.

(** C14: ingestion loses no event.  If event ids are unique within each tenant,
    then after a drain every [received] row is unchanged in the table, waiting
    for the next drain, or its message has been accepted by the broker;
    whatever statements and publishes fail on the way. *)
Theorem ingestion_no_loss `{Transport} (s : St) (se : SourceEvent) :
  unique_events (st_db s) ->
  se ∈ source_events (st_db s) -> se_Status se = "received" ->
  waiting_or_sent se (ingest_drain s).2.
Proof.
  intros Hu Hin Hst. destruct (ingest_drain s) as [r s'] eqn:E. unfold ingest_drain in E.
  run_step E. apply run_query in Heqp as [(Qd & _ & Qp & _) Hx].
  assert (waiting_or_sent se s0) as Hw by (left; by rewrite Qd).
  destruct x as [pending|e]; [|by run E].
  destruct Hx as [[= ->]|]; [|done].
  eapply publish_all_kept; [|exact Hst|exact E|exact Hw].
  intros x y Hx Hy H1 H2. left. rewrite Qd in Hy. apply pending_rows in Hx as [Hx _].
  by apply Hu.
Qed.

(** The first row of a table of one is unique. *)
Lemma unique_one d r : source_events d = [r] -> unique_events d.
Proof.
  intros E x y. rewrite E. by intros ->%list_elem_of_singleton ->%list_elem_of_singleton.
Qed.

Definition received_row (source : string) : SourceEvent :=
  mkSourceEvent ("row-" +:+ source) "t1" source "evt-1" "customer" "sf-000001" EventUpdated 6
    (Some 1709202600250000000%Z) 5 "" ∅ ∅ "received".

Definition received_db (rows : list SourceEvent) : DB :=
  on_source_events (fun _ => rows) (sample_db "last_write_wins").

Lemma ingestion_no_loss_witness :
  waiting_or_sent (received_row "salesforce")
    (ingest_drain (state_up (received_db [received_row "salesforce"]))).2.
Proof.
  apply ingestion_no_loss; [|by left|reflexivity].
  apply (unique_one _ (received_row "salesforce")). reflexivity.
Defined.

(** A broker that accepts the messages of Salesforce only. *)
Definition picky : Transport :=
  isolated nat (fun w _ => (S w, HttpErr "unused"))
    (fun w _ _ v =>
       (w, match decode_event v with Some ev => ev_Source ev =s "salesforce" | None => false end)).

Definition picky_state : @St picky :=
  @mkSt picky (received_db [received_row "salesforce"; received_row "hubspot"]) 0 1000 [] [] 0 [] [] [] [].

(** Without unique event ids an event is lost: the same event id from two
    providers gives two rows (the key has the source), and publishing one marks
    both [validated], for the status update goes by tenant and event id. *)
Lemma same_id_two_sources_lost :
  let s' := (ingest_drain picky_state).2 in
  received_row "hubspot" ∈ source_events (st_db picky_state) /\
  se_Status <$> source_events (st_db s') = ["validated"; "validated"] /\
  (fun m => ev_Source <$> decode_event m.2) <$> st_published s' = [Some "salesforce"].
Proof. cbv zeta. split; [by right; left|]. split; vm_compute; reflexivity. Qed.
