(* ===== verification/BrokerSpec.v ===== *)
(** * What the transports guarantee to the pipeline

    At each of its commits the consumer loop has marked exactly the records its
    handler accepted, and has handed over every record an offset past which is
    committed; a record whose handler failed is passed over all the same when
    a later one succeeds.  The in-process bus drops what is published before
    anyone listens. *)

From S2P Require Import Prelude Json GoTime Events Model Conflict Backoff Tables Effects Store.
From S2P Require Import Frame Connectors Run Adapters Worker WorkerFrame Sample WorkerSpec Ingestion Broker.
Local Open Scope string_scope.

(** Between a consumer that starts at its committed offsets as [c] and has come
    by the steps [tr] to [c']: the records marked in between are those for which
    [Handle] returned nil; and in every partition each offset committed in
    between belongs to a record handed to [Handle] among [tr], and, when [Handle]
    returned nil for it and it held an event, right after that call the event was
    processed, or was a row of the retry queue or an open dead letter. *)
Definition AtLeastOnce `{Kgo} `{!KgoLaws} `{Transport} (opts : Options) (c : Client)
    (tr : list Step) (c' : Client) : Prop :=
  marked c' = (marked c ++ omap success tr)%list /\
  forall p o, committed c p <= o < committed c' p ->
  exists h, Handing h ∈ tr /\ kr_partition (ha_rec h) = p /\ kr_offset (ha_rec h) = o /\
    exists s1, Handle opts (kr_value (ha_rec h)) (ha_before h) = (ha_result h, s1) /\
      forall ev, kr_value (ha_rec h) ≫= decode_event = Some ev -> ha_result h = Ok tt ->
        Process ev (ha_before h) = (Ok tt, s1) \/
        exists err s0, Process ev (ha_before h) = (Err err, s0) /\
          if ShouldRetry (Classify err).1 then queued opts ev err (st_now s0) (st_db s1)
          else parked ev err (st_db s1).

Lemma AtLeastOnce_covers `{Kgo} `{!KgoLaws} `{Transport} opts c tr c' :
  (forall q, committed c q = position c q) ->
  Forall (called (fun _ v => Handle opts v)) tr -> Covers c tr c' -> AtLeastOnce opts c tr c'.
Proof.
  intros Hc HF [Hm Hh]. split; [done|]. intros p o Ho. rewrite Hc in Ho.
  destruct (Hh p o Ho) as (h & Hin & Hp & Hof). rewrite Forall_forall in HF.
  destruct (HF _ Hin) as [s1 Hs1]. exists h. split; [done|]. split; [done|]. split; [done|].
  exists s1. split; [done|]. intros ev Hev Hok. rewrite Hok in Hs1.
  by apply (Handle_acknowledged opts (kr_value (ha_rec h))).
Qed.

(** C6: at least once, as far as offsets go.  A consumer that starts at its
    committed offsets and hands the worker's [Handle] every record it polls: at
    its end, and already at each of its commits looking only at the steps before
    that commit, the records it has marked are exactly those for which [Handle]
    returned nil, and in every partition each offset committed since the start
    belongs to a record that had been handed to [Handle] by then; and if [Handle]
    returned nil for it and it held an event, then right after that call the
    event was processed, or was a row of the retry queue or an open dead letter
    carrying it.  (A record whose handler failed may be passed over by a commit:
    [failed_message_committed].) *)
Theorem at_least_once `{Kgo} `{!KgoLaws} `{Transport} (opts : Options) (done : nat -> bool)
    (rounds : nat) (c c' : Client) (s s' : St) (e : bool) (tr : list Step) :
  (forall q, committed c q = position c q) ->
  Subscribe (fun _ v => Handle opts v) done rounds c s = (e, tr, c', s') ->
  AtLeastOnce opts c tr c' /\
  forall pre cc post, tr = (pre ++ Committing cc :: post)%list -> AtLeastOnce opts c pre cc.
Proof.
  intros Hc E. pose proof (Subscribe_called _ _ _ _ _ _ _ _ _ E) as HF.
  assert (HC : Consumed c tr c') by (eapply Subscribe_consumed; [intros q; by rewrite Hc|exact E]).
  split.
  - apply AtLeastOnce_covers; [done|done|by apply Consumed_covers].
  - intros pre cc post ->. apply Forall_app in HF as [HF _].
    apply AtLeastOnce_covers; [done|done|by eapply cd_commits].
Qed.

(** ** A client *)

(** One partition: its records, the position, what was marked and committed. *)
Record Toy := mkToy { ty_log : list (option Json); ty_pos : nat; ty_marks : list Rec; ty_comm : nat }.

(** The offset up to which the marks reach. *)
Definition ty_head (c : Toy) : nat := foldr (fun r n => Nat.max (S (kr_offset r)) n) 0 (ty_marks c).

Fixpoint numbered (k : nat) (l : list (option Json)) : list Rec :=
  match l with [] => [] | v :: l => mkRec 0 k "" v :: numbered (S k) l end.

Definition toy : Kgo := {|
  Client := Toy;
  PollFetches c := (mkFetches (ty_pos c =? length (ty_log c))%nat (numbered (ty_pos c) (drop (ty_pos c) (ty_log c))),
                    mkToy (ty_log c) (Nat.max (ty_pos c) (length (ty_log c))) (ty_marks c) (ty_comm c));
  MarkCommitRecords r c := mkToy (ty_log c) (ty_pos c) (ty_marks c ++ [r])%list (ty_comm c);
  CommitUncommittedOffsets c :=
    (true, mkToy (ty_log c) (ty_pos c) (ty_marks c) (Nat.max (ty_comm c) (Nat.min (ty_head c) (ty_pos c))));
|}.

Lemma elem_of_numbered k l o :
  k <= o < k + length l -> exists r, r ∈ numbered k l /\ kr_partition r = 0%Z /\ kr_offset r = o.
Proof.
  revert k. induction l as [|v l IH]; intros k Ho; simpl in *; [lia|].
  destruct (decide (k = o)) as [<-|Hne]; [eexists; split; [by left|done]|].
  destruct (IH (S k)) as (r & Hr & Hp); [lia|]. exists r. split; [by right|done].
Qed.

Definition at_zero (p : Z) (n : nat) : nat := if (p =? 0)%Z then n else 0.

#[export] Program Instance toy_laws : @KgoLaws toy := {|
  position (c : @Client toy) p := at_zero p (ty_pos c);
  committed (c : @Client toy) p := at_zero p (ty_comm c);
  marked (c : @Client toy) := ty_marks c;
|}.
Next Obligation.
  intros c f c' [= <- <-]. simpl. split; [done|]. split; [done|]. split; [|split].
  - intros p o Ho. unfold at_zero in Ho. destruct (p =? 0)%Z eqn:E; [|lia].
    apply Z.eqb_eq in E as ->. apply elem_of_numbered. rewrite length_drop. lia.
  - intros p. unfold at_zero. case_match; lia.
  - intros E p. apply Nat.eqb_eq in E. unfold at_zero. case_match; lia.
Qed.
Next Obligation. done. Qed.
Next Obligation. done. Qed.
Next Obligation.
  intros c ok c' [= _ <-]. simpl. split; [done|]. intros p. split; [done|].
  unfold at_zero. case_match; lia.
Qed.

(** An update of the sample customer under the given event id. *)
Definition message (id : string) : option Json :=
  let e := sample_update 7 in
  encode_event (mkEvent id (ev_TenantID e) (ev_Source e) (ev_EntityType e) (ev_EntityID e) (ev_EventType e)
    (ev_SourceVersion e) (ev_OccurredAt e) (ev_ReceivedAt e) (ev_CorrelationID e) (ev_Provenance e)
    (ev_Payload e)).

Definition toy_start : @Client toy := mkToy [message "evt-1"] 0 [] 0.
Local Abbreviation consumed :=
  (@Subscribe toy down (fun _ v => @Handle down New_opts v) (fun _ => false) 2 toy_start synced_down).

(** The provider is down: the record is committed, and its event waits in the
    retry queue. *)
Lemma at_least_once_witness :
  exists e tr c' s' h, consumed = (e, tr, c', s') /\ Handing h ∈ tr /\ kr_offset (ha_rec h) = 0 /\
    exists s1, @Handle down New_opts (kr_value (ha_rec h)) (ha_before h) = (ha_result h, s1).
Proof.
  assert (F : ty_comm consumed.1.2 = 1) by (vm_compute; reflexivity).
  destruct consumed as [[[e tr] c'] s'] eqn:E. cbn [fst snd] in F.
  destruct (@at_least_once toy toy_laws down New_opts (fun _ => false) 2 toy_start c' synced_down s' e tr)
    as [[_ Hh] _].
  - intros q. reflexivity.
  - exact E.
  - destruct (Hh 0%Z 0) as (h & Hin & _ & Ho & s1 & Hs & _).
    + change (0 <= 0 < ty_comm c'). rewrite F. lia.
    + exists e, tr, c', s', h. split; [reflexivity|]. split; [exact Hin|]. split; [exact Ho|].
      exists s1. exact Hs.
Defined.

(** Two records, and a database that is away while the first is handled: its
    handler fails, the second succeeds, and the commit covers both.  The first
    event is nowhere, and a consumer that starts again does not see it. *)
Definition outage : @St down :=
  @mkSt down (st_db synced_down) 0 1000 [Ffail; Ffail] [] 0 [] [] [] [].

Lemma failed_message_committed :
  let r := @Subscribe toy down (fun _ v => @Handle down New_opts v) (fun _ => false) 1
             (mkToy [message "evt-1"; message "evt-2"] 0 [] 0)
             outage in
  omap (fun x => match x with Handing h => Some (ha_result h) | Committing _ => None end) r.1.1.2 =
    [Err ErrDB; Ok tt] /\ ty_comm r.1.2 = 2 /\
  dead_letter (st_db r.2) = [] /\ rt_EventID <$> retry_queue (st_db r.2) = ["evt-2"] /\
  processed_events (st_db r.2) = [].
Proof. vm_compute. repeat split; reflexivity. Qed.

(** ** Listening too late *)

(** The in-process bus as the pipeline's transport: a publish is carried out to
    its end when no channel is full. *)
Definition send_all (t key : string) (v : Json) (b : Memory.Bus) : option Memory.Bus :=
  r ← Memory.run Memory.step
        (Memory.Publish t (Memory.mkMsg key (Some v)) ::
         (const Memory.Sent <$> Memory.channels t b) ++ [Memory.Published])%list b;
  Some r.1.

Definition in_process : Transport :=
  isolated Memory.Bus (fun w _ => (w, HttpErr "unused"))
    (fun w t k v => match send_all t k v w with Some w' => (w', true) | None => (w, false) end).

(** An event published before the worker has subscribed: it is marked
    [validated], so no later drain publishes it again, and no channel holds it. *)
Lemma early_publish_lost :
  let s := @mkSt in_process (received_db [received_row "salesforce"]) Memory.NewMemoryBus 1000 [] [] 0 [] [] [] [] in
  let s' := (ingest_drain s).2 in
  se_Status <$> source_events (st_db s') = ["validated"] /\ st_world s' = Memory.NewMemoryBus.
Proof. vm_compute. split; reflexivity. Qed.
