(* ===== verification/Simulator.v ===== *)
(** * [internal/simulator]: a provider to test against

    The server around the store: fault injection, rate limiting, the REST
    surface, the admin endpoints and webhooks.  The package variable [prefix],
    which all servers of a process share, and the clock are arguments; random
    numbers come from a stream indexed by seed and position, so that a scenario
    can be repeated.  Requests are routed as [http.ServeMux] routes clean paths.
    Sleeping is compared with the client's timeout: a request that would sleep
    longer is given up by the client and changes nothing. *)

From S2P Require Import Prelude Json GoTime Crypto Encoding Totp JsonText Float64 Buckets SimStore.
From S2P Require Import Events Model Tables Effects Store Frame Connectors Adapters Ingestion.
Local Open Scope string_scope.

Module Simulator.

(** [Spec]. *)
Record Spec := mkSpec {
  sp_Name : string; sp_EntityType : string; sp_IDKey : string; sp_TimeKey : string;
  sp_IDPrefix : string; sp_Path : string;
}.

(** [FaultConfig]; rates are [float64]. *)
Record FaultConfig := mkFaults {
  fc_Seed : Z; fc_FailureRate : Z; fc_LatencyMS : Z; fc_LatencyMinMS : Z; fc_LatencyMaxMS : Z;
  fc_AuthFailure : bool; fc_AuthFailureRate : Z; fc_Malformed : bool; fc_MalformedRate : Z;
  fc_RateLimitPerMin : Z; fc_RateLimitProbability : Z; fc_DropWebhooks : bool; fc_DropWebhookRate : Z;
  fc_DuplicateWebhooks : bool; fc_DuplicateWebhookCount : Z; fc_DuplicateWebhookRate : Z;
  fc_WebhookDelayMS : Z; fc_OutOfOrder : bool; fc_OutOfOrderRate : Z; fc_HangMS : Z;
  fc_HangPercent : Z; fc_DropField : string; fc_CorruptFieldType : string;
}.

(** [defaultFaults]. *)
Definition defaultFaults : FaultConfig :=
  mkFaults 0 0 0 0 0 false 0 false 0 0 0 false 0 false 0 0 0 false 0 0 0 "" "".

(** [safeRand]: the seed and how many numbers were drawn. *)
Record Rng := mkRng { rg_seed : Z; rg_drawn : nat }.

(** [webhookEvent]. *)
Record webhookEvent := mkWebhookEvent {
  we_EventID : string; we_Source : string; we_EntityType : string; we_EntityID : string;
  we_EventType : string; we_SourceVersion : Z; we_OccurredAt : Z; we_Payload : Fields;
}.

(** [WebhookDispatcher]: what a server's own dispatcher adds to its spec. *)
Record Dispatcher := mkDispatcher { wd_URL : string; wd_Secret : string }.

(** [Server]; [sv_sent] are the deliveries started, each with its delay, and
    [sv_uuids] counts the event ids handed out. *)
Record Server := mkServer {
  sv_Spec : Spec; sv_Store : Sim.Store; sv_Rate : Limiter; sv_Faults : FaultConfig; sv_rng : Rng;
  sv_Webhook : option Dispatcher; sv_sent : list (Z * webhookEvent); sv_uuids : nat;
}.

Definition set_Store (x : Sim.Store) (s : Server) : Server :=
  mkServer (sv_Spec s) x (sv_Rate s) (sv_Faults s) (sv_rng s) (sv_Webhook s) (sv_sent s) (sv_uuids s).
Definition set_Rate (x : Limiter) (s : Server) : Server :=
  mkServer (sv_Spec s) (sv_Store s) x (sv_Faults s) (sv_rng s) (sv_Webhook s) (sv_sent s) (sv_uuids s).
Definition set_Faults (x : FaultConfig) (s : Server) : Server :=
  mkServer (sv_Spec s) (sv_Store s) (sv_Rate s) x (sv_rng s) (sv_Webhook s) (sv_sent s) (sv_uuids s).
Definition set_rng (x : Rng) (s : Server) : Server :=
  mkServer (sv_Spec s) (sv_Store s) (sv_Rate s) (sv_Faults s) x (sv_Webhook s) (sv_sent s) (sv_uuids s).
Definition set_Webhook (x : option Dispatcher) (s : Server) : Server :=
  mkServer (sv_Spec s) (sv_Store s) (sv_Rate s) (sv_Faults s) (sv_rng s) x (sv_sent s) (sv_uuids s).

(** [NewServer]; a seed function is given or not.  Setting the prefix of the
    process is the caller's part. *)
Definition NewServer (spec : Spec) (perMin now : Z) (url secret : string) (count : Z)
    (seedRec : option (string -> Z -> Fields)) : Server :=
  let store := match seedRec with
               | Some f => if (0 <? count)%Z then Sim.Seed (sp_IDPrefix spec) count f now Sim.NewStore
                           else Sim.NewStore
               | None => Sim.NewStore
               end in
  mkServer spec store (NewRateLimiter perMin now) defaultFaults (mkRng 42 0)
    (if url =s "" then None else Some (mkDispatcher url secret)) [] 0.

(** [SetWebhook]. *)
Definition SetWebhook (url secret : string) (s : Server) : Server :=
  set_Webhook (if url =s "" then None else Some (mkDispatcher url secret)) s.

Section server.
(** The numbers a source of a given seed produces. *)
Context (source : Z -> nat -> Z).

(** A step of the server that returns a value. *)
Definition S (A : Type) : Type := Server -> A * Server.

Definition next : S Z := fun s =>
  (source (rg_seed (sv_rng s)) (rg_drawn (sv_rng s)),
   set_rng (mkRng (rg_seed (sv_rng s)) (Datatypes.S (rg_drawn (sv_rng s)))) s).

(** [Float64] as a [float64], and [Intn]. *)
Definition Float64 : S Z := fun s => let (k, s) := next s in ((k mod 2 ^ 53 * (f1 / 2 ^ 53))%Z, s).
Definition Intn (n : Z) : S Z := fun s => let (k, s) := next s in ((k mod n)%Z, s).

(** ** faults.go *)

(** [FaultManager.Set]. *)
Definition Set_ (cfg : FaultConfig) (s : Server) : Server :=
  set_Faults cfg (if (fc_Seed cfg =? 0)%Z then s else set_rng (mkRng (fc_Seed cfg) 0) s).

(** [should]. *)
Definition should (rate : Z) : S bool := fun s =>
  if (rate <=? 0)%Z then (false, s)
  else if (f1 <=? rate)%Z then (true, s)
  else let (x, s) := Float64 s in ((x <? rate)%Z, s).

Definition forced_or (forced : bool) (rate : Z) : S bool := fun s =>
  if forced then (true, s) else should rate s.

Definition ShouldFail : S bool := fun s => should (fc_FailureRate (sv_Faults s)) s.
Definition AuthFailure : S bool := fun s =>
  forced_or (fc_AuthFailure (sv_Faults s)) (fc_AuthFailureRate (sv_Faults s)) s.
Definition Malformed : S bool := fun s =>
  forced_or (fc_Malformed (sv_Faults s)) (fc_MalformedRate (sv_Faults s)) s.

Definition ms (n : Z) : Z := (n * 1000000)%Z.

Definition Latency : S Z := fun s =>
  let c := sv_Faults s in
  if (0 <? fc_LatencyMinMS c)%Z && (fc_LatencyMinMS c <=? fc_LatencyMaxMS c)%Z
  then let (k, s) := Intn (fc_LatencyMaxMS c - fc_LatencyMinMS c + 1) s in (ms (fc_LatencyMinMS c + k), s)
  else (ms (fc_LatencyMS c), s).

Definition Hang : S (option Z) := fun s =>
  let c := sv_Faults s in
  if (fc_HangMS c <=? 0)%Z then (None, s)
  else if (0 <? fc_HangPercent c)%Z
       then let (x, s) := Float64 s in
            (if (fc_HangPercent c <=? x)%Z then None else Some (ms (fc_HangMS c)), s)
       else (Some (ms (fc_HangMS c)), s).

Definition RateLimited : S bool := fun s =>
  let c := sv_Faults s in
  if negb (0 <? fc_RateLimitPerMin c)%Z then (false, s)
  else if (fc_RateLimitProbability c <=? 0)%Z then (true, s)
  else should (fc_RateLimitProbability c) s.

(** [WebhookOptions]: drop, out of order, copies, delay. *)
Definition WebhookOptions : S (bool * bool * Z * Z) := fun s =>
  let c := sv_Faults s in
  let (drop, s) := forced_or (fc_DropWebhooks c) (fc_DropWebhookRate c) s in
  let (dup, s) := forced_or (fc_DuplicateWebhooks c) (fc_DuplicateWebhookRate c) s in
  let (ooo, s) := forced_or (fc_OutOfOrder c) (fc_OutOfOrderRate c) s in
  ((drop, ooo, (1 + (if dup then fc_DuplicateWebhookCount c else 0))%Z, ms (fc_WebhookDelayMS c)), s).

(** ** webhook.go *)

Fixpoint copies_from (n : nat) (ev : webhookEvent) (ooo : bool) (delay : Z) (s : Server) : Server :=
  match n with
  | O => s
  | Datatypes.S n =>
      let (d, s) := if ooo && (0 <? delay)%Z
                    then let (k, s) := Intn (delay / 1000000) s in ((delay + ms k)%Z, s)
                    else (delay, s) in
      copies_from n ev ooo delay
        (mkServer (sv_Spec s) (sv_Store s) (sv_Rate s) (sv_Faults s) (sv_rng s) (sv_Webhook s)
           (sv_sent s ++ [(d, ev)])%list (sv_uuids s))
  end.

(** [Emit]: the deliveries a change starts. *)
Definition Emit (eventType : string) (rec : Sim.Rec) (s : Server) : Server :=
  match sv_Webhook s with
  | None => s
  | Some d =>
      let (o, s) := WebhookOptions s in
      let '(drop, ooo, copies, delay) := o in
      if drop then s
      else
        let sp := sv_Spec s in
        let payload := if Sim.sr_ID rec =s "" then Sim.sr_Data rec
                       else <[sp_IDKey sp := JStr (Sim.sr_ID rec)]> (Sim.sr_Data rec) in
        let ev := mkWebhookEvent (sp_Name sp +:+ "-" +:+ pretty (sv_uuids s)) (sp_Name sp)
                    (sp_EntityType sp) (Sim.sr_ID rec) eventType (Sim.sr_Version rec)
                    (Sim.sr_UpdatedAt rec) {[ "fields" := of_fields payload ]} in
        copies_from (Z.to_nat copies) ev ooo delay
          (mkServer (sv_Spec s) (sv_Store s) (sv_Rate s) (sv_Faults s) (sv_rng s) (sv_Webhook s)
             (sv_sent s) (Datatypes.S (sv_uuids s)))
  end.
End server.

(** The members of a [webhookEvent]; a time that does not marshal makes the
    delivery fail before it is sent. *)
Definition event_members (ev : webhookEvent) : option (list (string * Json)) :=
  match time_marshal (we_OccurredAt ev) with
  | None => None
  | Some t =>
      Some ([("event_id", JStr (we_EventID ev)); ("source", JStr (we_Source ev));
                  ("entity_type", JStr (we_EntityType ev)); ("entity_id", JStr (we_EntityID ev));
                  ("event_type", JStr (we_EventType ev)); ("source_version", JNum (we_SourceVersion ev));
                  ("occurred_at", JStr t); ("payload", of_fields (we_Payload ev))])
  end.

(** [deliver]: the request that reaches the gateway's route, signed over the
    bytes it sends. *)
Definition deliver (secret provider slug : string) (ev : webhookEvent) : option WebhookReq :=
  match event_members ev with
  | None => None
  | Some kvs =>
      let body := object_text kvs in
      Some (mkWebhookReq provider slug body (Some (JObj kvs))
              ("sha256=" +:+ hex_encode (mac_of secret body)))
  end.

(** ** core.go *)

(** [http.Error] with a JSON text (the client sees the newline), and
    [writeJSON]. *)
Definition error_text (msg : string) : string := object_text [("error", JStr msg)].
Definition http_error (status : Z) (msg : string) : HttpOut :=
  HttpResp status "" (error_text msg +:+ String "010" "") (Some (JObj [("error", JStr msg)])).
Definition write_json (status : Z) (kvs : list (string * Json)) : HttpOut :=
  HttpResp status "" (object_text kvs) (Some (JObj kvs)).

(** [recordJSON]. *)
Definition recordJSON (s : Server) (rec : Sim.Rec) : Fields :=
  let sp := sv_Spec s in
  let data := <[sp_TimeKey sp := JStr (default "" (time_marshal (Sim.sr_UpdatedAt rec / 10 ^ 9 * 10 ^ 9)))]>
                (<["deleted" := JBool (Sim.sr_Deleted rec)]>
                   (<["version" := JNum (Sim.sr_Version rec)]>
                      (<[sp_IDKey sp := JStr (Sim.sr_ID rec)]> (Sim.sr_Data rec)))) in
  let c := sv_Faults s in
  let data := if fc_DropField c =s "" then data else delete (fc_DropField c) data in
  if fc_CorruptFieldType c =s "" then data
  else <[fc_CorruptFieldType c := JObj [("corrupted", JBool true)]]> data.

(** *** Queries *)

Definition hex_value (c : ascii) : option Z :=
  let n := Z.of_N (N_of_ascii c) in
  if (48 <=? n)%Z && (n <=? 57)%Z then Some (n - 48)%Z
  else if (97 <=? n)%Z && (n <=? 102)%Z then Some (n - 87)%Z
  else if (65 <=? n)%Z && (n <=? 70)%Z then Some (n - 55)%Z
  else None.

(** [url.QueryUnescape], and with [plus] unset [url.PathUnescape]. *)
Fixpoint unescape (plus : bool) (t : string) : option string :=
  match t with
  | "" => Some ""
  | String "%" t =>
      match t with
      | String a (String b t) =>
          match hex_value a, hex_value b, unescape plus t with
          | Some x, Some y, Some r => Some (String (ascii_of_N (Z.to_N (16 * x + y))) r)
          | _, _, _ => None
          end
      | _ => None
      end
  | String "+" t => String (if plus then " " else "+")%char <$> unescape plus t
  | String c t => String c <$> unescape plus t
  end.

(** [strings.Cut] at a character. *)
Fixpoint cut (c : ascii) (t : string) : string * option string :=
  match t with
  | "" => ("", None)
  | String x t =>
      if Ascii.eqb x c then ("", Some t)
      else let (a, b) := cut c t in (String x a, b)
  end.

(** [strings.Split] at a character. *)
Fixpoint split_at (c : ascii) (t : string) : list string :=
  match t with
  | "" => [""]
  | String x t =>
      if Ascii.eqb x c then "" :: split_at c t
      else match split_at c t with
           | p :: ps => String x p :: ps
           | [] => [String x ""]
           end
  end.

(** [url.ParseQuery]: pairs that do not parse are left out. *)
Definition parse_pair (t : string) : option (string * string) :=
  if (t =s "") || bool_decide (is_Some (cut ";" t).2) then None
  else
    let (k, v) := cut "=" t in
    k ← unescape true k; v ← unescape true (default "" v); Some (k, v).
Definition ParseQuery (q : string) : list (string * string) := omap parse_pair (split_at "&" q).

(** [q.Get]: the first value, or the empty text. *)
Definition query_get (q : list (string * string)) (k : string) : string :=
  match List.find (fun kv => kv.1 =s k) q with Some kv => kv.2 | None => "" end.

(** [fmt.Sscanf(v, %d, &limit)]: an optional sign and digits, after blanks and
    before anything else. *)
Fixpoint digits_of (t : string) : string :=
  match t with
  | String c t => match digit_val c with Some _ => String c (digits_of t) | None => "" end
  | "" => ""
  end.
Fixpoint skip_blanks (t : string) : string :=
  match t with
  | String " " t => skip_blanks t
  | String "009" t => skip_blanks t
  | t => t
  end.
Definition scan_int (v : string) (old : Z) : Z :=
  let t := skip_blanks v in
  let n := match t with
           | String "-" t => atoi ("-" +:+ digits_of t)
           | String "+" t => atoi ("+" +:+ digits_of t)
           | t => atoi (digits_of t)
           end in
  default old n.

(** *** Handlers *)

Section handlers.
Context (source : Z -> nat -> Z) (prefix : string) (now : Z) (seedRec : string -> Z -> Fields).

(** What a query asks of the store. *)
Definition list_result (q : list (string * string)) (s : Server) : list Sim.Rec * string * bool :=
  let v := query_get q "since" in
  let since := if v =s "" then time_zero else default time_zero (time_parse v) in
  let l := query_get q "limit" in
  let limit := if l =s "" then 100%Z else scan_int l 100 in
  Sim.List_ (sv_Store s) (query_get q "cursor") limit since.

Definition handleList (q : list (string * string)) (s : Server) : HttpOut :=
  let r := list_result q s in
  write_json 200 [("has_more", JBool r.2); ("next_cursor", JStr r.1.2);
                  ("records", JArr ((fun rec => of_fields (recordJSON s rec)) <$> r.1.1))].

Definition handleGet (id : string) (s : Server) : HttpOut :=
  match Sim.Get (sv_Store s) id with
  | None => http_error 404 "not found"
  | Some rec => write_json 200 (map_to_list (recordJSON s rec))
  end.

(** [decodeJSON] into a map is [into_map]. *)
Definition handleCreate (body : option Json) (s : Server) : HttpOut * Server :=
  match into_map body with
  | None => (http_error 400 "invalid json", s)
  | Some data =>
      let (rec, st) := Sim.Insert prefix now data (sv_Store s) in
      let s := Emit source "created" rec (set_Store st s) in
      (write_json 201 (map_to_list (recordJSON s rec)), s)
  end.

Definition handleUpdate (id : string) (body : option Json) (s : Server) : HttpOut * Server :=
  match into_map body with
  | None => (http_error 400 "invalid json", s)
  | Some data =>
      match Sim.Update now id data (sv_Store s) with
      | None => (http_error 404 "not found", s)
      | Some (rec, st) =>
          let s := Emit source "updated" rec (set_Store st s) in
          (write_json 200 (map_to_list (recordJSON s rec)), s)
      end
  end.

Definition handleDelete (id : string) (s : Server) : HttpOut * Server :=
  match Sim.SoftDelete now id (sv_Store s) with
  | None => (http_error 404 "not found", s)
  | Some (rec, st) => (HttpResp 204 "" "" None, Emit source "deleted" rec (set_Store st s))
  end.

(** The admin endpoints. *)
Definition handleHealth (s : Server) : HttpOut :=
  write_json 200 [("provider", JStr (sp_Name (sv_Spec s))); ("records", JNum (Sim.Count (sv_Store s)));
                  ("status", JStr "healthy"); ("time", JStr (default "" (time_marshal now)))].

Definition handleRecords (s : Server) : HttpOut :=
  write_json 200 [("records", JArr ((fun rec => of_fields (recordJSON s rec)) <$> Sim.All (sv_Store s)))].

(** A body that does not decode counts as zero. *)
Definition handleSeed (body : option Json) (s : Server) : HttpOut * Server :=
  let n := default 0%Z (into_struct (dec_int64 "count") body) in
  let n := if (n <=? 0)%Z || (1000000 <? n)%Z then 1000%Z else n in
  let s := set_Store (Sim.Seed prefix n seedRec now (sv_Store s)) s in
  (write_json 200 [("records", JNum (Sim.Count (sv_Store s)))], s).

(** [FaultConfig]'s JSON, with rates that are whole numbers. *)
Definition dec_rate (k : string) (kvs : list (string * Json)) : option Z := f_of_int <$> dec_int64 k kvs.
Definition decode_faults (body : option Json) : option FaultConfig :=
  into_struct (fun kvs =>
    seed ← dec_int64 "seed" kvs; fail ← dec_rate "failure_rate" kvs;
    lat ← dec_int64 "latency_ms" kvs; lmin ← dec_int64 "latency_min_ms" kvs;
    lmax ← dec_int64 "latency_max_ms" kvs; auth ← Rest.dec_bool "auth_failure" kvs;
    authr ← dec_rate "auth_failure_rate" kvs; mal ← Rest.dec_bool "malformed" kvs;
    malr ← dec_rate "malformed_rate" kvs; per ← dec_int64 "rate_limit_per_min" kvs;
    prob ← dec_rate "rate_limit_probability" kvs; drop ← Rest.dec_bool "drop_webhooks" kvs;
    dropr ← dec_rate "drop_webhook_rate" kvs; dup ← Rest.dec_bool "duplicate_webhooks" kvs;
    dupn ← dec_int64 "duplicate_webhook_count" kvs; dupr ← dec_rate "duplicate_webhook_rate" kvs;
    delay ← dec_int64 "webhook_delay_ms" kvs; ooo ← Rest.dec_bool "out_of_order" kvs;
    ooor ← dec_rate "out_of_order_rate" kvs; hang ← dec_int64 "hang_ms" kvs;
    hangp ← dec_rate "hang_percent" kvs; field ← dec_string "drop_field" kvs;
    ftype ← dec_string "corrupt_field_type" kvs;
    Some (mkFaults seed fail lat lmin lmax auth authr mal malr per prob drop dropr dup dupn dupr delay
            ooo ooor hang hangp field ftype)) body.

Definition faults_members (c : FaultConfig) : list (string * Json) :=
  let rate x := JNum (f_to_int x) in
  ((if (fc_Seed c =? 0)%Z then [] else [("seed", JNum (fc_Seed c))]) ++
   [("failure_rate", rate (fc_FailureRate c)); ("latency_ms", JNum (fc_LatencyMS c));
    ("latency_min_ms", JNum (fc_LatencyMinMS c)); ("latency_max_ms", JNum (fc_LatencyMaxMS c));
    ("auth_failure", JBool (fc_AuthFailure c)); ("auth_failure_rate", rate (fc_AuthFailureRate c));
    ("malformed", JBool (fc_Malformed c)); ("malformed_rate", rate (fc_MalformedRate c));
    ("rate_limit_per_min", JNum (fc_RateLimitPerMin c));
    ("rate_limit_probability", rate (fc_RateLimitProbability c));
    ("drop_webhooks", JBool (fc_DropWebhooks c)); ("drop_webhook_rate", rate (fc_DropWebhookRate c));
    ("duplicate_webhooks", JBool (fc_DuplicateWebhooks c));
    ("duplicate_webhook_count", JNum (fc_DuplicateWebhookCount c));
    ("duplicate_webhook_rate", rate (fc_DuplicateWebhookRate c));
    ("webhook_delay_ms", JNum (fc_WebhookDelayMS c)); ("out_of_order", JBool (fc_OutOfOrder c));
    ("out_of_order_rate", rate (fc_OutOfOrderRate c)); ("hang_ms", JNum (fc_HangMS c));
    ("hang_percent", rate (fc_HangPercent c)); ("drop_field", JStr (fc_DropField c));
    ("corrupt_field_type", JStr (fc_CorruptFieldType c))])%list.

Definition handleGetFaults (s : Server) : HttpOut := write_json 200 (faults_members (sv_Faults s)).

Definition handleSetFaults (body : option Json) (s : Server) : HttpOut * Server :=
  match decode_faults body with
  | None => (http_error 400 "invalid json", s)
  | Some cfg => let s := Set_ cfg s in (handleGetFaults s, s)
  end.

(** *** Routing and middleware *)

(** [rateLimit]: the answer that refuses the request, if any. *)
Definition rateLimit (s : Server) : option HttpOut * Server :=
  let (limited, s) := RateLimited source s in
  if negb limited then (None, s)
  else
    let s := if (0 <? fc_RateLimitPerMin (sv_Faults s))%Z
             then set_Rate (SetCapacity (sv_Rate s) (fc_RateLimitPerMin (sv_Faults s))) s else s in
    let '(ok, wait, l) := Allow (sv_Rate s) now in
    let s := set_Rate l s in
    if ok then (None, s)
    else (Some (HttpResp 429 (pretty (f_to_int (fadd (Seconds wait) f1)))
                  (error_text "rate limit exceeded") (Some (JObj [("error", JStr "rate limit exceeded")]))), s).

(** The resource path of the requests under [/api/]: the id after the slash, if
    there is one. *)
Inductive Route := Collection | Member (id : string).

Definition route (s : Server) (path : string) : option Route :=
  match strip_prefix ("/api/v1" +:+ sp_Path (sv_Spec s)) path with
  | Some "" => Some Collection
  | Some (String "/" id) =>
      if (id =s "") || bool_decide (is_Some (cut "/" id).2) then None
      else Member <$> unescape false id
  | _ => None
  end.

Definition not_found : HttpOut := HttpResp 404 "" ("404 page not found" +:+ String "010" "") None.
Definition not_allowed : HttpOut := HttpResp 405 "" ("Method Not Allowed" +:+ String "010" "") None.

Definition mux (method path : string) (query : list (string * string)) (body : option Json) (s : Server)
    : HttpOut * Server :=
  if path =s "/admin/health" then
    (if method =s "GET" then (handleHealth s, s) else (not_allowed, s))
  else if path =s "/admin/faults" then
    (if method =s "GET" then (handleGetFaults s, s)
     else if method =s "POST" then handleSetFaults body s else (not_allowed, s))
  else if path =s "/admin/records" then
    (if method =s "GET" then (handleRecords s, s) else (not_allowed, s))
  else if path =s "/admin/seed" then
    (if method =s "POST" then handleSeed body s else (not_allowed, s))
  else
    match route s path with
    | None => (not_found, s)
    | Some Collection =>
        if method =s "GET" then (handleList query s, s)
        else if method =s "POST" then handleCreate body s
        else (not_allowed, s)
    | Some (Member id) =>
        if method =s "GET" then (handleGet id s, s)
        else if method =s "PATCH" then handleUpdate id body s
        else if method =s "DELETE" then handleDelete id s
        else (not_allowed, s)
    end.

(** The text that is not JSON. *)
Definition broken_text : string :=
  "{" +:+ marshal_string "records" +:+ ": [{" +:+ marshal_string "id" +:+ ": " +:+ marshal_string "broken".

(** [middleware]; [timeout] is the client's, zero for none. *)
Definition gives_up (timeout slept : Z) : bool := (0 <? timeout)%Z && (timeout <=? slept)%Z.

Definition middleware (timeout : Z) (method path : string) (query : list (string * string))
    (body : option Json) (s : Server) : HttpOut * Server :=
  match strip_prefix "/api/" path with
  | None => mux method path query body s
  | Some _ =>
      let (auth, s) := AuthFailure source s in
      if auth then (http_error 401 "unauthorized", s)
      else
        let (fails, s) := ShouldFail source s in
        if fails then (http_error 500 "injected internal failure", s)
        else
          let (hang, s) := Hang source s in
          let slept := Z.max 0 (default 0%Z hang) in
          if gives_up timeout slept then (HttpErr "timeout", s)
          else
            let (lat, s) := Latency source s in
            if gives_up timeout (slept + Z.max 0 lat) then (HttpErr "timeout", s)
            else
              let (refused, s) := rateLimit s in
              match refused with
              | Some out => (out, s)
              | None =>
                  let (bad, s) := Malformed source s in
                  if bad then (HttpResp 200 "" broken_text None, s) else mux method path query body s
              end
  end.
End handlers.

(** ** A process of simulators as the outside world *)

(** The servers of a process by base URL, their shared prefix, the clock, and
    the timeout of the clients. *)
Record Process_ := mkProcess {
  pr_servers : gmap string Server; pr_prefix : string; pr_now : Z; pr_timeout : Z;
}.

(** [NewServer] sets the prefix of every server in the process. *)
Definition start (base : string) (spec : Spec) (perMin : Z) (url secret : string) (count : Z)
    (seedRec : option (string -> Z -> Fields)) (p : Process_) : Process_ :=
  mkProcess (<[base := NewServer spec perMin (pr_now p) url secret count seedRec]> (pr_servers p))
    (sp_IDPrefix spec) (pr_now p) (pr_timeout p).

(** A request from a client; nobody listens at an unknown base URL. *)
Definition request (source : Z -> nat -> Z) (seedRec : string -> Z -> Fields) (p : Process_) (rq : HttpReq)
    : Process_ * HttpOut :=
  match pr_servers p !! rq_base rq with
  | None => (p, HttpErr "connection refused")
  | Some s =>
      let (path, q) := cut "?" (rq_path rq) in
      let (out, s) := middleware source (pr_prefix p) (pr_now p) seedRec (pr_timeout p) (rq_method rq)
                        path (ParseQuery (default "" q)) (rq_body rq) s in
      (mkProcess (<[rq_base rq := s]> (pr_servers p)) (pr_prefix p) (pr_now p) (pr_timeout p), out)
  end.

(** The providers are simulators; the broker is there. *)
Definition transport (source : Z -> nat -> Z) (seedRec : string -> Z -> Fields) : Transport :=
  isolated Process_ (request source seedRec) (fun w _ _ _ => (w, true)).
End Simulator.
