(* ===== verification/SimSpec.v ===== *)
(** * The adapters against the simulated provider

    What a provider promises, as a relation on a map of records; and the proof
    that an adapter talking HTTP to a simulator without injected faults does
    exactly that.  Reading back what was written gives the customer. *)

From S2P Require Import Prelude Json GoTime Crypto Encoding Totp JsonText Float64 Buckets SimStore.
From S2P Require Import SimWalk Events Model Tables Effects Store Frame Connectors Adapters.
From S2P Require Import Sample Ingestion Simulator.
Local Open Scope string_scope.
#[local] Arguments String.append !_ _ /.

(** ** The promise *)

(** A record as a client knows it: version, tombstone, fields. *)
Record Entry := mkEntry { en_Version : Z; en_Deleted : bool; en_Fields : Fields }.

Inductive Op := OpGet (id : string) | OpCreate (data : Fields) | OpUpdate (id : string) (data : Fields)
  | OpDelete (id : string).

Section promise.
(** The members the provider itself fills in. *)
Context (reserved : list string).

(** The answer [r] shows the entry [e] under [id]; the client reads the version
    through a [float64], which is exact up to 2^53 ([version_exact]). *)
Definition shows (id : string) (e : Entry) (r : ProviderRecord) : Prop :=
  rec_ID r = id /\ rec_SourceVersion r = int64_of_float (en_Version e) /\ rec_Deleted r = en_Deleted e /\
  forall k, k ∉ reserved -> rec_Data r !! k = en_Fields e !! k.

(** From [m], the operation is answered and leaves [m']; [None] is an answer
    without a record. *)
Inductive promised (m : gmap string Entry) : Op -> Res (option ProviderRecord) -> gmap string Entry -> Prop :=
| get_found id e r : m !! id = Some e -> shows id e r -> promised m (OpGet id) (Ok (Some r)) m
| create_new id data r : m !! id = None -> id <> "" -> shows id (mkEntry 1 false data) r ->
    promised m (OpCreate data) (Ok (Some r)) (<[id := mkEntry 1 false data]> m)
| update_found id data e r : m !! id = Some e ->
    let e' := mkEntry (wrap64 (en_Version e + 1)) (en_Deleted e) (data ∪ en_Fields e) in
    shows id e' r -> promised m (OpUpdate id data) (Ok (Some r)) (<[id := e']> m)
| delete_found id e : m !! id = Some e ->
    let e' := mkEntry (wrap64 (en_Version e + 1)) true (<["deleted" := JBool true]> (en_Fields e)) in
    promised m (OpDelete id) (Ok None) (<[id := e']> m)
| unknown op id e : m !! id = None -> op = OpGet id \/ (exists data, op = OpUpdate id data) \/ op = OpDelete id ->
    IsKind e KErrNotFound = true -> promised m op (Err e) m.
End promise.

Lemma version_exact v : (Z.abs v <= 2 ^ 53)%Z -> int64_of_float v = v.
Proof.
  intros Hv. unfold int64_of_float. assert (E : rne v 1 = v).
  { unfold rne. destruct (Z.ltb_spec v 0); rewrite rne_exact; lia. }
  rewrite E. unfold in_int64, int64_min, int64_max.
  destruct (Z.leb_spec (- 2 ^ 63) v), (Z.leb_spec v (2 ^ 63 - 1)); simpl; lia.
Qed.

(** Beyond that, two versions can look the same. *)
Lemma version_rounded : int64_of_float (2 ^ 53 + 1) = int64_of_float (2 ^ 53).
Proof. vm_compute. reflexivity. Qed.

(** An operation through an adapter. *)
Definition run_op `{Outside} (a : Adapter) (op : Op) : M (option ProviderRecord) :=
  match op with
  | OpGet id => r ← ad_Get a id; mret (Some r)
  | OpCreate data => r ← ad_Create a (mkProviderRecord "" 0 false data); mret (Some r)
  | OpUpdate id data => r ← ad_Update a id (mkProviderRecord id 0 false data); mret (Some r)
  | OpDelete id => ad_Delete a id;; mret None
  end.

(** ** Paths *)

(** An id that needs no escaping. *)
Fixpoint clean (s : string) : bool :=
  match s with
  | "" => true
  | String c s => negb (Ascii.eqb c "/" || Ascii.eqb c "?" || Ascii.eqb c "%" || Ascii.eqb c "+"
                        || Ascii.eqb c "&" || Ascii.eqb c "=" || Ascii.eqb c ";" || Ascii.eqb c "#") && clean s
  end.

Lemma cut_none c s : (forall x, x ∈ String.list_ascii_of_string s -> Ascii.eqb x c = false) ->
  Simulator.cut c s = (s, None).
Proof.
  induction s as [|x s IH]; intros Hs; simpl; [done|].
  rewrite (Hs x) by (simpl; left). rewrite IH; [done|]. intros y Hy. apply Hs. simpl. by right.
Qed.

Lemma clean_char s x : clean s = true -> x ∈ String.list_ascii_of_string s ->
  Ascii.eqb x "/" = false /\ Ascii.eqb x "?" = false /\ Ascii.eqb x "%" = false /\ Ascii.eqb x "+" = false /\
  Ascii.eqb x "&" = false /\ Ascii.eqb x "=" = false /\ Ascii.eqb x ";" = false.
Proof.
  induction s as [|c s IH]; intros Hc Hx; simpl in *; [by apply elem_of_nil in Hx|].
  apply andb_prop in Hc as [H1 H2]. apply elem_of_cons in Hx as [->|Hx]; [|by apply IH].
  apply negb_true_iff in H1. repeat (apply orb_false_iff in H1 as [H1 ?]). by split_and!.
Qed.

Lemma clean_unescape plus s : clean s = true -> Simulator.unescape plus s = Some s.
Proof.
  induction s as [|c s IH]; intros Hc; [done|]. pose proof (clean_char (String c s) c Hc ltac:(left)) as Hx.
  simpl in Hc. apply andb_prop in Hc as [_ Hc]. specialize (IH Hc).
  destruct Hx as (_ & _ & H1 & H2 & _). simpl. rewrite IH.
  destruct c as [[] [] [] [] [] [] [] []]; try done.
Qed.

(** ** A simulator without faults *)

Section calm.
Context (source : Z -> nat -> Z) (seedRec : string -> Z -> Fields).
Context (base : string) (spec : Simulator.Spec).
Import Simulator.

#[local] Instance sim : Transport := transport source seedRec.

Definition reserved_keys : list string := [sp_IDKey spec; "version"; "deleted"; sp_TimeKey spec].
Context (Hspec : NoDup reserved_keys).

Let path : string := "/api/v1" +:+ sp_Path spec.

(** The server at [base] is of this kind, injects no faults and its store is in order. *)
Record Up (p : Process_) (sv : Server) : Prop := mkUp {
  up_at : pr_servers p !! base = Some sv;
  up_spec : sv_Spec sv = spec;
  up_faults : sv_Faults sv = defaultFaults;
  up_wf : Wf (pr_prefix p) (sv_Store sv);
  up_versions : forall id r, Sim.ms_records (sv_Store sv) !! id = Some r -> in_int64 (Sim.sr_Version r) = true;
}.

(** Deliveries leave everything but themselves alone. *)
Definition same_server (s s' : Server) : Prop :=
  sv_Spec s' = sv_Spec s /\ sv_Store s' = sv_Store s /\ sv_Faults s' = sv_Faults s /\
  sv_Webhook s' = sv_Webhook s.

Lemma should_same rate s : same_server s (should source rate s).2.
Proof. unfold should, Float64, next, same_server. repeat case_match; by simplify_eq/=. Qed.

Lemma forced_same f rate s : same_server s (forced_or source f rate s).2.
Proof. unfold forced_or. destruct f; [by repeat split|apply should_same]. Qed.

Lemma copies_same n ev ooo delay : forall s, same_server s (copies_from source n ev ooo delay s).
Proof.
  induction n as [|n IH]; intros s; [by repeat split|]. cbn [copies_from].
  destruct (ooo && _); unfold Intn, next;
    (match goal with |- same_server _ (copies_from _ _ _ _ _ ?x) => destruct (IH x) as (? & ? & ? & ?) end);
    simpl in *; by repeat split.
Qed.

Lemma Emit_same ty rec s : same_server s (Emit source ty rec s).
Proof.
  unfold Emit. destruct (sv_Webhook s) as [d|] eqn:Ed; [|by repeat split].
  unfold WebhookOptions.
  pose proof (forced_same (fc_DropWebhooks (sv_Faults s)) (fc_DropWebhookRate (sv_Faults s)) s) as H1.
  destruct (forced_or _ _ _ s) as [drop s1]. simpl in H1.
  pose proof (forced_same (fc_DuplicateWebhooks (sv_Faults s)) (fc_DuplicateWebhookRate (sv_Faults s)) s1) as H2.
  destruct (forced_or _ _ _ s1) as [dup s2]. simpl in H2.
  pose proof (forced_same (fc_OutOfOrder (sv_Faults s)) (fc_OutOfOrderRate (sv_Faults s)) s2) as H3.
  destruct (forced_or _ _ _ s2) as [ooo s3]. simpl in H3.
  unfold same_server in *. destruct_and!. destruct drop; [split_and!; congruence|].
  match goal with |- context [copies_from ?a ?b ?c ?d ?e ?x] =>
    destruct (copies_same b c d e x) as (? & ? & ? & ?) end. simpl in *. split_and!; congruence.
Qed.

(** No request under [/api/] meets a fault. *)
Lemma middleware_calm prefix now timeout method p q body s rest :
  sv_Faults s = defaultFaults -> strip_prefix "/api/" p = Some rest ->
  middleware source prefix now seedRec timeout method p q body s
  = mux source prefix now seedRec method p q body s.
Proof.
  intros Hf Hp. unfold middleware. rewrite Hp.
  assert (AuthFailure source s = (false, s)) as -> by (unfold AuthFailure; by rewrite Hf).
  assert (ShouldFail source s = (false, s)) as -> by (unfold ShouldFail; by rewrite Hf).
  assert (Hang source s = (None, s)) as -> by (unfold Hang; by rewrite Hf).
  assert (Latency source s = (0%Z, s)) as -> by (unfold Latency; by rewrite Hf).
  assert (rateLimit source now s = (None, s)) as -> by (unfold rateLimit, RateLimited; by rewrite Hf).
  assert (Malformed source s = (false, s)) as -> by (unfold Malformed; by rewrite Hf).
  assert (gives_up timeout 0 = false) as Hto
    by (unfold gives_up; destruct (Z.ltb_spec 0 timeout), (Z.leb_spec timeout 0); try done; lia).
  cbv zeta iota. change (Z.max 0 (default 0%Z None)) with 0%Z. change (0 + Z.max 0 0)%Z with 0%Z.
  by rewrite !Hto.
Qed.

(** *** Requests *)

Definition set_server (sv : Server) (p : Process_) : Process_ :=
  mkProcess (<[base := sv]> (pr_servers p)) (pr_prefix p) (pr_now p) (pr_timeout p).

Lemma strip_app a b : strip_prefix a (a +:+ b) = Some b.
Proof. by apply strip_prefix_Some. Qed.

Context (Hpath : forall x, x ∈ String.list_ascii_of_string (sp_Path spec) -> Ascii.eqb x "?" = false).

Lemma list_ascii_app a b :
  String.list_ascii_of_string (a +:+ b)
  = (String.list_ascii_of_string a ++ String.list_ascii_of_string b)%list.
Proof. induction a as [|c a IH]; simpl; [done|]. by rewrite IH. Qed.

Lemma cut_path rest :
  (forall x, x ∈ String.list_ascii_of_string rest -> Ascii.eqb x "?" = false) ->
  Simulator.cut "?" (path +:+ rest) = (path +:+ rest, None).
Proof using Hpath.
  intros Hr. apply cut_none. intros x. unfold path. rewrite !list_ascii_app, !elem_of_app.
  intros [[Hx|Hx]|Hx]; [|by apply Hpath|by apply Hr].
  repeat (apply elem_of_cons in Hx as [->|Hx]; [done|]). by apply elem_of_nil in Hx.
Qed.

(** A request, as the server sees it. *)
Lemma request_calm p sv method full rest q body :
  Up p sv -> Simulator.cut "?" full = (path +:+ rest, q) ->
  request source seedRec p (mkHttpReq method base full body) =
  let r := mux source (pr_prefix p) (pr_now p) seedRec method (path +:+ rest)
             (ParseQuery (default "" q)) body sv in
  (set_server r.2 p, r.1).
Proof.
  intros Hu Hc. unfold request. cbn [rq_base rq_path rq_method rq_body]. rewrite (up_at _ _ Hu), Hc.
  erewrite middleware_calm; [|apply Hu|reflexivity].
  by destruct (mux _ _ _ _ _ _ _ _ _).
Qed.

Lemma mux_route p sv method rest q body rt :
  route sv (path +:+ rest) = Some rt ->
  mux source (pr_prefix p) (pr_now p) seedRec method (path +:+ rest) q body sv =
  match rt with
  | Collection =>
      if method =s "GET" then (handleList q sv, sv)
      else if method =s "POST" then handleCreate source (pr_prefix p) (pr_now p) body sv
      else (not_allowed, sv)
  | Member id =>
      if method =s "GET" then (handleGet id sv, sv)
      else if method =s "PATCH" then handleUpdate source (pr_now p) id body sv
      else if method =s "DELETE" then handleDelete source (pr_now p) id sv
      else (not_allowed, sv)
  end.
Proof.
  intros Hr. unfold mux. rewrite Hr.
  rewrite !seqb_ne by (unfold path; simpl; congruence). done.
Qed.

Lemma route_member p sv id :
  Up p sv -> clean id = true -> id <> "" -> route sv (path +:+ "/" +:+ id) = Some (Member id).
Proof.
  intros Hu Hc Hne. unfold route. rewrite (up_spec _ _ Hu). fold path. rewrite strip_app. simpl.
  rewrite (seqb_ne _ _ Hne). rewrite cut_none by (intros x Hx; by destruct (clean_char id x Hc Hx)).
  simpl. by rewrite clean_unescape.
Qed.

Lemma route_collection p sv : Up p sv -> route sv (path +:+ "") = Some Collection.
Proof. intros Hu. unfold route. rewrite (up_spec _ _ Hu). fold path. by rewrite strip_app. Qed.

(** *** Records *)

Definition entry (r : Sim.Rec) : Entry := mkEntry (Sim.sr_Version r) (Sim.sr_Deleted r) (Sim.sr_Data r).
Definition entries (sv : Server) : gmap string Entry := entry <$> Sim.ms_records (sv_Store sv).

Let c : Client := mkClient base.

(** The client reads back the record the server shows. *)
Lemma record_shown sv r :
  sv_Spec sv = spec -> sv_Faults sv = defaultFaults -> Sim.sr_ID r <> "" ->
  in_int64 (Sim.sr_Version r) = true ->
  exists x, Rest.toProviderRecord (sp_IDKey spec) (recordJSON sv r) = Ok x /\
    shows reserved_keys (Sim.sr_ID r) (entry r) x.
Proof using All.
  intros Hs Hf Hid Hv. unfold recordJSON. rewrite Hs, Hf. cbn [fc_DropField fc_CorruptFieldType defaultFaults].
  change ("" =s "") with true. cbv iota zeta.
  set (data := <[sp_TimeKey spec := _]> _). unfold reserved_keys in Hspec.
  apply NoDup_cons in Hspec as [H1 Hspec']. apply NoDup_cons in Hspec' as [H2 Hspec'].
  apply NoDup_cons in Hspec' as [H3 _].
  assert (Hk : data !! sp_IDKey spec = Some (JStr (Sim.sr_ID r))).
  { unfold data. rewrite !lookup_insert_ne by (intros E; apply H1; rewrite <- E; set_solver).
    apply lookup_insert_eq. }
  assert (Hvr : data !! "version" = Some (JNum (Sim.sr_Version r))).
  { unfold data. rewrite !lookup_insert_ne by (first [done | intros E; apply H2; rewrite <- E; set_solver]).
    apply lookup_insert_eq. }
  assert (Hd : data !! "deleted" = Some (JBool (Sim.sr_Deleted r))).
  { unfold data. rewrite lookup_insert_ne by (intros E; apply H3; rewrite <- E; set_solver).
    apply lookup_insert_eq. }
  assert (Ho : forall k, k ∉ [sp_IDKey spec; "version"; "deleted"; sp_TimeKey spec] ->
    data !! k = Sim.sr_Data r !! k).
  { intros k Hn. unfold data. by rewrite !lookup_insert_ne by (intros <-; set_solver). }
  clearbody data. unfold Rest.toProviderRecord, mget. rewrite Hk, Hvr, Hd, (seqb_ne _ _ Hid).
  eexists. split; [reflexivity|]. by unfold shows, entry.
Qed.

(** What an operation leaves behind. *)
Definition settled (s s' : St) (sv' : Server) : Prop :=
  Up (st_world s') sv' /\ st_db s' = st_db s /\ st_faults s' = st_faults s.

(** What the client makes of an answer. *)
Definition read_answer {A} (out : option Json -> option A) (answer : HttpOut) (s : St) : Res A * St :=
  match answer with
  | HttpBuildErr text => (Err (ConnError ErrUnknown "build request" 0 (Some text)), s)
  | HttpErr text => (Err (ConnError ErrTransient "http request" 0 (Some text)), s)
  | HttpResp status retry_after text b =>
      if (200 <=? status)%Z && (status <? 300)%Z then
        match out b with
        | Some a => (Ok a, s)
        | None => (Err (ConnError ErrSchema "decode response body" 0 (Some "invalid body")), s)
        end
      else (Err (classifyError status retry_after text), s)
  end.

Lemma Do_query {A} method full rest q body (out : option Json -> option A) s sv :
  Up (st_world s) sv -> Simulator.cut "?" full = (path +:+ rest, q) ->
  let r := mux source (pr_prefix (st_world s)) (pr_now (st_world s)) seedRec method (path +:+ rest)
             (ParseQuery (default "" q)) body sv in
  exists s', st_world s' = set_server r.2 (st_world s) /\ st_db s' = st_db s /\ st_faults s' = st_faults s /\
    Do c method full body out s = read_answer out r.1 s'.
Proof.
  intros Hu Hc r. unfold Do, http, mbind, M_bind. cbn [cl_BaseURL c].
  change (http_step (st_world s) ?rq) with (request source seedRec (st_world s) rq).
  rewrite (request_calm _ sv _ _ _ _ _ Hu Hc). fold r. cbv zeta.
  exists (@mkSt sim (st_db s) (set_server r.2 (st_world s)) (st_now s) (st_faults s) (st_draws s) (st_seq s)
             (st_calls s ++ [mkHttpReq method base full body]) (st_published s) (st_metrics s) (st_log s)).
  do 3 (split; [reflexivity|]). destruct r.1 as [| |status ra text b]; [done|done|].
  unfold read_answer. destruct (_ && _); [|done]. by destruct (out b).
Qed.

(** The server's answer to a request for [rest] without a query. *)
Lemma Do_calm {A} method rest body (out : option Json -> option A) s sv :
  Up (st_world s) sv -> (forall x, x ∈ String.list_ascii_of_string rest -> Ascii.eqb x "?" = false) ->
  let r := mux source (pr_prefix (st_world s)) (pr_now (st_world s)) seedRec method (path +:+ rest) [] body sv in
  exists s', st_world s' = set_server r.2 (st_world s) /\ st_db s' = st_db s /\ st_faults s' = st_faults s /\
    Do c method (path +:+ rest) body out s = read_answer out r.1 s'.
Proof using Hpath.
  intros Hu Hr. exact (Do_query method _ rest None body out s sv Hu (cut_path rest Hr)).
Qed.

Lemma set_server_up p sv sv' :
  Up p sv -> sv_Spec sv' = spec -> sv_Faults sv' = defaultFaults -> Wf (pr_prefix p) (sv_Store sv') ->
  (forall id r, Sim.ms_records (sv_Store sv') !! id = Some r -> in_int64 (Sim.sr_Version r) = true) ->
  Up (set_server sv' p) sv'.
Proof. intros Hu H1 H2 H3 H4. split; try done. simpl. apply lookup_insert_eq. Qed.

(** *** The operations *)

Context (a : Adapter).
Context (Hget : ad_Get a = Rest.Get c path (sp_IDKey spec))
  (Hcreate : ad_Create a = Rest.Create c path (sp_IDKey spec))
  (Hupdate : ad_Update a = Rest.Update c path (sp_IDKey spec))
  (Hdelete : ad_Delete a = Rest.Delete c path).

Definition Refines (op : Op) (s : St) (sv : Server) : Prop :=
  exists sv', promised reserved_keys (entries sv) op (run_op a op s).1 (entries sv') /\
    settled s (run_op a op s).2 sv'.

Lemma entries_lookup sv id : entries sv !! id = entry <$> Sim.ms_records (sv_Store sv) !! id.
Proof. unfold entries. by rewrite lookup_fmap. Qed.

Lemma clean_member id : clean id = true ->
  forall x, x ∈ String.list_ascii_of_string ("/" +:+ id) -> Ascii.eqb x "?" = false.
Proof. intros Hc x [->|Hx]%elem_of_cons; [done|]. by apply (clean_char id). Qed.

(** A record of the store, shown. *)
Lemma stored_shown p sv id r :
  Up p sv -> Sim.ms_records (sv_Store sv) !! id = Some r ->
  exists x, Rest.toProviderRecord (sp_IDKey spec) (recordJSON sv r) = Ok x /\
    shows reserved_keys id (entry r) x.
Proof using All.
  intros Hu Hr. destruct (wf_key _ _ (up_wf _ _ Hu) id r Hr) as [Hid _].
  destruct (record_shown sv r (up_spec _ _ Hu) (up_faults _ _ Hu)) as (x & Hx & Hs).
  - rewrite Hid. by eapply Wf_nonempty; [apply Hu|exists r].
  - by eapply up_versions.
  - exists x. by rewrite Hid in Hs.
Qed.

(** The body of an answer with a record. *)
Lemma into_map_record (m : Fields) : into_map (Some (JObj (map_to_list m))) = Some m.
Proof. simpl. by rewrite list_to_map_to_list. Qed.

Lemma into_map_fields (m : Fields) : into_map (Some (of_fields m)) = Some m.
Proof. apply into_map_record. Qed.

Lemma same_up p sv : Up p sv -> Up (set_server sv p) sv.
Proof. intros Hu. eapply set_server_up; [exact Hu|apply Hu..]. Qed.

Lemma Get_refines id s sv :
  Up (st_world s) sv -> clean id = true -> id <> "" -> Refines (OpGet id) s sv.
Proof using All.
  intros Hu Hc Hne. exists sv. unfold run_op. rewrite Hget. unfold Rest.Get.
  pose proof (route_member _ sv id Hu Hc Hne) as Hrt.
  destruct (Do_calm "GET" ("/" +:+ id) None into_map s sv Hu (clean_member id Hc))
    as (s1 & Hw & Hd & Hf & E).
  rewrite (mux_route _ _ _ _ _ _ _ Hrt) in Hw, E. simpl in Hw.
  assert (Hset : settled s s1 sv) by (split; [rewrite Hw; by apply same_up|done]).
  unfold mbind, M_bind. change (path +:+ "/" +:+ id) with (path +:+ ("/" +:+ id)). rewrite E.
  cbn [fst]. change ("GET" =s "GET") with true. cbv iota. cbn [fst]. unfold handleGet, Sim.Get.
  destruct (Sim.ms_records (sv_Store sv) !! id) as [r|] eqn:Er.
  - destruct (stored_shown _ sv id r Hu Er) as (x & Hx & Hs). unfold write_json. simpl.
    rewrite list_to_map_to_list. unfold Rest.ret_record. rewrite Hx. simpl. split; [|done].
    apply (get_found _ _ id (entry r)); [by rewrite entries_lookup, Er|done].
  - simpl. split; [|done]. eapply unknown; [by rewrite entries_lookup, Er|by left|done].
Qed.

(** A write of the record [r] under [id], announced. *)
Lemma written p sv st ty r id :
  Up p sv -> Wf (pr_prefix p) st -> Sim.ms_records st = <[id := r]> (Sim.ms_records (sv_Store sv)) ->
  in_int64 (Sim.sr_Version r) = true ->
  let sv' := Emit source ty r (set_Store st sv) in
  Up (set_server sv' p) sv' /\ entries sv' = <[id := entry r]> (entries sv) /\
  Sim.ms_records (sv_Store sv') !! id = Some r.
Proof using All.
  intros Hu Hw Hr Hv sv'. destruct (Emit_same ty r (set_Store st sv)) as (E1 & E2 & E3 & _).
  fold sv' in E1, E2, E3. simpl in E1, E2, E3.
  assert (Hup : Up (set_server sv' p) sv').
  { eapply set_server_up; [exact Hu|by rewrite E1; apply Hu|by rewrite E3; apply Hu|by rewrite E2|].
    intros i x. rewrite E2, Hr, lookup_insert_Some. intros [[_ <-]|[_ Hx]]; [done|]. by eapply up_versions. }
  split; [done|]. unfold entries. rewrite E2, Hr, fmap_insert. split; [done|]. apply lookup_insert_eq.
Qed.

(** The answer that shows the record just written. *)
Lemma answered p sv id r s1 (status : Z) :
  Up p sv -> Sim.ms_records (sv_Store sv) !! id = Some r -> (200 <=? status)%Z && (status <? 300)%Z = true ->
  exists x, shows reserved_keys id (entry r) x /\
  read_answer into_map (write_json status (map_to_list (recordJSON sv r))) s1 = (Ok (recordJSON sv r), s1 : St) /\
  Rest.ret_record (sp_IDKey spec) (recordJSON sv r) s1 = (Ok x, s1).
Proof using All.
  intros Hu Hr Hst. destruct (stored_shown p sv id r Hu Hr) as (x & Hx & Hs). exists x. split; [done|].
  unfold read_answer, write_json. rewrite Hst. rewrite into_map_record. split; [done|].
  unfold Rest.ret_record. by rewrite Hx.
Qed.

Lemma Update_refines id data s sv :
  Up (st_world s) sv -> clean id = true -> id <> "" -> Refines (OpUpdate id data) s sv.
Proof using All.
  intros Hu Hc Hne. unfold Refines, run_op. rewrite Hupdate. unfold Rest.Update. cbn [rec_Data].
  pose proof (route_member _ sv id Hu Hc Hne) as Hrt.
  destruct (Do_calm "PATCH" ("/" +:+ id) (Some (of_fields data)) into_map s sv Hu (clean_member id Hc))
    as (s1 & Hw & Hd & Hf & E).
  rewrite (mux_route _ _ _ _ _ _ _ Hrt) in Hw, E.
  change ("PATCH" =s "GET") with false in Hw, E. change ("PATCH" =s "PATCH") with true in Hw, E.
  cbv iota in Hw, E. unfold handleUpdate in Hw, E. rewrite into_map_fields in Hw, E.
  unfold Sim.Update in Hw, E. unfold mbind, M_bind.
  change (path +:+ "/" +:+ id) with (path +:+ ("/" +:+ id)). rewrite E. clear E.
  destruct (Sim.ms_records (sv_Store sv) !! id) as [r|] eqn:Er.
  - set (r' := Sim.mkRec _ _ _ _ _) in *. set (st := Sim.mkStore _ _) in *. cbn [fst snd] in Hw |- *.
    destruct (written (st_world s) sv st "updated" r' id Hu) as (Hup & Hent & Hr');
      [by eapply replace_wf; [apply Hu|..]|done|apply wrap64_in|].
    set (sv' := Emit source "updated" r' (set_Store st sv)) in *.
    destruct (answered _ sv' id r' s1 200 Hup Hr' eq_refl) as (x & Hs & Eb & Ex).
    rewrite Eb, Ex. simpl. exists sv'. split; [|split; [by rewrite Hw|done]]. rewrite Hent.
    apply (update_found _ _ id data (entry r)); [by rewrite entries_lookup, Er|done].
  - exists sv. simpl in Hw |- *. split; [|split; [rewrite Hw; by apply same_up|done]].
    eapply unknown; [by rewrite entries_lookup, Er|right; left; by eexists|done].
Qed.

Lemma Delete_refines id s sv :
  Up (st_world s) sv -> clean id = true -> id <> "" -> Refines (OpDelete id) s sv.
Proof using All.
  intros Hu Hc Hne. unfold Refines, run_op. rewrite Hdelete. unfold Rest.Delete.
  pose proof (route_member _ sv id Hu Hc Hne) as Hrt.
  destruct (Do_calm "DELETE" ("/" +:+ id) None discard s sv Hu (clean_member id Hc))
    as (s1 & Hw & Hd & Hf & E).
  rewrite (mux_route _ _ _ _ _ _ _ Hrt) in Hw, E.
  change ("DELETE" =s "GET") with false in Hw, E. change ("DELETE" =s "PATCH") with false in Hw, E.
  change ("DELETE" =s "DELETE") with true in Hw, E. cbv iota in Hw, E.
  unfold handleDelete, Sim.SoftDelete in Hw, E. unfold mbind, M_bind.
  change (path +:+ "/" +:+ id) with (path +:+ ("/" +:+ id)). rewrite E. clear E.
  destruct (Sim.ms_records (sv_Store sv) !! id) as [r|] eqn:Er.
  - set (r' := Sim.mkRec _ _ _ _ _) in *. set (st := Sim.mkStore _ _) in *. cbn [fst snd] in Hw |- *.
    destruct (written (st_world s) sv st "deleted" r' id Hu) as (Hup & Hent & Hr');
      [by eapply replace_wf; [apply Hu|..]|done|apply wrap64_in|].
    set (sv' := Emit source "deleted" r' (set_Store st sv)) in *. simpl.
    exists sv'. split; [|split; [by rewrite Hw|done]]. rewrite Hent.
    apply (delete_found _ _ id (entry r)). by rewrite entries_lookup, Er.
  - exists sv. simpl in Hw |- *. split; [|split; [rewrite Hw; by apply same_up|done]].
    eapply unknown; [by rewrite entries_lookup, Er|by right; right|done].
Qed.

Lemma Create_refines data s sv :
  Up (st_world s) sv -> room 1 (sv_Store sv) -> Refines (OpCreate data) s sv.
Proof using All.
  intros Hu Hroom. unfold Refines, run_op. rewrite Hcreate. unfold Rest.Create. cbn [rec_Data].
  pose proof (route_collection _ sv Hu) as Hrt.
  destruct (Do_calm "POST" "" (Some (of_fields data)) into_map s sv Hu) as (s1 & Hw & Hd & Hf & E);
    [by intros x ?%elem_of_nil|].
  rewrite (mux_route _ _ _ _ _ _ _ Hrt) in Hw, E.
  change ("POST" =s "GET") with false in Hw, E. change ("POST" =s "POST") with true in Hw, E.
  cbv iota in Hw, E. unfold handleCreate in Hw, E. rewrite into_map_fields in Hw, E.
  unfold mbind, M_bind. rewrite (str_app_nil_r path) in E. rewrite E. clear E.
  set (p := st_world s) in *. pose proof (genID_fresh _ _ (up_wf _ _ Hu) Hroom) as Hfresh.
  pose proof (put_new_wf _ _ (Sim.mkRec (Sim.genID (pr_prefix p) (sv_Store sv)).1 1 (pr_now p) false data)
    (up_wf _ _ Hu) Hroom eq_refl) as Hwf.
  unfold Sim.Insert in *. destruct (Sim.genID (pr_prefix p) (sv_Store sv)) as [id st0] eqn:Eg.
  cbn [fst snd] in *. set (r := Sim.mkRec id 1 (pr_now p) false data) in *. set (st := Sim.put r st0) in *.
  assert (Hrec : Sim.ms_records st = <[id := r]> (Sim.ms_records (sv_Store sv)))
    by (unfold st, Sim.put; unfold Sim.genID in Eg; by simplify_eq/=).
  destruct (written p sv st "created" r id Hu Hwf Hrec eq_refl) as (Hup & Hent & Hr').
  set (sv' := Emit source "created" r (set_Store st sv)) in *.
  destruct (answered _ sv' id r s1 201 Hup Hr' eq_refl) as (x & Hs & Eb & Ex).
  rewrite Eb, Ex. simpl. exists sv'. split; [|split; [by rewrite Hw|done]]. rewrite Hent.
  apply (create_new _ _ id data); [by rewrite entries_lookup, Hfresh| |done].
  unfold Sim.genID in Eg. simplify_eq. apply idFormat_nonempty.
Qed.
End calm.

(** ** The two providers *)

Definition salesforce_spec : Simulator.Spec :=
  Simulator.mkSpec "salesforce" "customer" "id" "updated_at" "sf-" "/customers".
Definition hubspot_spec : Simulator.Spec :=
  Simulator.mkSpec "hubspot" "contact" "contact_id" "modifiedAt" "hub-" "/contacts".

(** An adapter and the simulator it is for. *)
Inductive Paired `{Transport} (base : string) : Simulator.Spec -> Adapter -> Prop :=
| paired_salesforce : Paired base salesforce_spec (Salesforce.adapter base)
| paired_hubspot : Paired base hubspot_spec (Hubspot.adapter base).

(** The id an operation names needs no escaping; a new one can be numbered. *)
Definition ready (op : Op) (sv : Simulator.Server) : Prop :=
  match op with
  | OpGet id | OpUpdate id _ | OpDelete id => clean id = true /\ id <> ""
  | OpCreate _ => room 1 (Simulator.sv_Store sv)
  end.

(** The world of simulators. *)
Abbreviation sim_world := sim.

Section refinement.
Context (source : Z -> nat -> Z) (seedRec : string -> Z -> Fields).

Lemma paired_path base spec (a : @Adapter (sim_world source seedRec)) : Paired base spec a ->
  forall x, x ∈ String.list_ascii_of_string (Simulator.sp_Path spec) -> Ascii.eqb x "?" = false.
Proof.
  intros Hp x. destruct Hp; simpl; intros Hx; repeat (apply elem_of_cons in Hx as [->|Hx]; [done|]);
    by apply elem_of_nil in Hx.
Qed.

Lemma paired_refines base spec (a : @Adapter (sim_world source seedRec)) op (s : @St (sim_world source seedRec)) sv :
  Paired base spec a -> Up base spec (st_world s) sv -> ready op sv ->
  exists sv', promised (reserved_keys spec) (entries sv) op (run_op a op s).1 (entries sv') /\
    Up base spec (st_world (run_op a op s).2) sv' /\ st_db (run_op a op s).2 = st_db s /\
    st_faults (run_op a op s).2 = st_faults s.
Proof.
  intros Hp Hu Hc. pose proof (paired_path _ _ _ Hp) as Hpath.
  assert (Hn : NoDup (reserved_keys spec)) by (destruct Hp; by apply (bool_decide_unpack _)).
  destruct Hp; destruct op as [id|data|id data|id]; simpl in Hc; destruct_and?;
    first [by eapply Get_refines | by eapply Create_refines | by eapply Update_refines | by eapply Delete_refines].
Qed.
End refinement.

(** Whatever the store holds is shown. *)
Lemma paired_shown source seedRec base spec (a : @Adapter (sim_world source seedRec)) p sv id r :
  Paired base spec a -> Up base spec p sv -> Sim.ms_records (Simulator.sv_Store sv) !! id = Some r ->
  exists x, Rest.toProviderRecord (Simulator.sp_IDKey spec) (Simulator.recordJSON sv r) = Ok x /\
    shows (reserved_keys spec) id (entry r) x.
Proof.
  intros Hp Hu Hr. destruct (wf_key _ _ (up_wf _ _ _ _ Hu) id r Hr) as [Hid _].
  assert (Hn : NoDup (reserved_keys spec)) by (destruct Hp; by apply (bool_decide_unpack _)).
  assert (Hpath : forall x, x ∈ String.list_ascii_of_string (Simulator.sp_Path spec) -> Ascii.eqb x "?" = false)
    by by eapply paired_path.
  rewrite <- Hid. eapply record_shown; [..|apply Hu|apply Hu| |by eapply up_versions]; try done.
  rewrite Hid. by eapply Wf_nonempty; [apply Hu|exists r].
Qed.


(** *** A fresh simulator *)

Lemma seed_versions prefix newRec now count : forall i st,
  (forall id r, Sim.ms_records st !! id = Some r -> in_int64 (Sim.sr_Version r) = true) ->
  forall id r, Sim.ms_records (Sim.seed_from prefix newRec now i count st) !! id = Some r ->
    in_int64 (Sim.sr_Version r) = true.
Proof.
  induction count as [|count IH]; intros i st Hst; [exact Hst|]. cbn [Sim.seed_from].
  destruct (Sim.genID prefix st) as [id0 st0] eqn:Eg. apply IH. intros id r. simpl.
  rewrite lookup_insert_Some. intros [[_ <-]|[_ Hr]]; [done|]. apply (Hst id).
  unfold Sim.genID in Eg. by simplify_eq.
Qed.

Lemma start_up base spec perMin url secret count f p :
  (0 <= count < 2 ^ 63)%Z ->
  let p' := Simulator.start base spec perMin url secret count (Some f) p in
  exists sv, Up base spec p' sv.
Proof.
  intros Hc p'. eexists. split; [apply lookup_insert_eq|done|done|..]; simpl.
  - case_match; [|apply Wf_new]. apply seed_from_wf; [apply Wf_new|]. unfold room. simpl. lia.
  - case_match; [|intros id r; simpl; by rewrite lookup_empty]. apply seed_versions.
    intros id r. simpl. by rewrite lookup_empty.
Qed.

Definition no_numbers : Z -> nat -> Z := fun _ _ => 0%Z.
Definition seed_name : string -> Z -> Fields := fun id n => {["first_name" := JStr id]}.

Definition sf_process : Simulator.Process_ :=
  Simulator.start "http://sf" salesforce_spec 100 "" "" 2 (Some seed_name)
    (Simulator.mkProcess ∅ "" 1000000000000000000 0).

Definition sf_state : @St (sim_world no_numbers seed_name) :=
  @mkSt (sim_world no_numbers seed_name) (sample_db "last_write_wins") sf_process 0 [] [] 0 [] [] [] [].

Definition sf_adapter : @Adapter (sim_world no_numbers seed_name) :=
  @Salesforce.adapter (sim_world no_numbers seed_name) "http://sf".
Definition sf_server : Simulator.Server :=
  default (Simulator.NewServer salesforce_spec 0 0 "" "" 0 None) (Simulator.pr_servers sf_process !! "http://sf").

Lemma sf_up : Up "http://sf" salesforce_spec sf_process sf_server.
Proof.
  destruct (start_up "http://sf" salesforce_spec 100 "" "" 2 seed_name
    (Simulator.mkProcess ∅ "" 1000000000000000000 0)) as [sv Hu]; [lia|].
  fold sf_process in Hu. unfold sf_server. by rewrite (up_at _ _ _ _ Hu).
Qed.


(** *** Reading back *)

Lemma clean_app x y : clean (x +:+ y) = clean x && clean y.
Proof. induction x as [|c x IH]; simpl; [done|]. by rewrite IH, andb_assoc. Qed.

Lemma clean_digits k : forall n acc, clean acc = true -> clean (itoa_digits k n acc) = true.
Proof.
  induction k as [|k IH]; intros n acc Hc; [done|]. simpl. case_match; [|done]. apply IH.
  change (chr (48 + n mod 10)) with (Totp.digit n).
  assert (Hd : clean (String (Totp.digit n) "") = true); [|simpl in Hd |- *; by rewrite andb_true_r in Hd; rewrite Hd].
  pose proof (Z.mod_pos_bound n 10 eq_refl) as Hm. unfold Totp.digit.
  apply (forall_below 10 (fun m => clean (String (chr (48 + m)) ""))); [vm_compute; reflexivity|lia].
Qed.

Lemma clean_id p n : clean p = true -> clean (Sim.idFormat p n) = true.
Proof.
  intros Hp. unfold Sim.idFormat. rewrite clean_app, Hp. simpl.
  assert (Hi : clean (Sim.itoa n) = true).
  { unfold Sim.itoa. repeat case_match; [done|..]; rewrite ?clean_app, clean_digits by done; done. }
  unfold Sim.pad. case_match; [|done]. rewrite clean_app, Hi.
  by destruct (6 - String.length (Sim.itoa n))%nat as [|[|[|[|[|[|[|k]]]]]]] eqn:E; try lia.
Qed.

(** Normalizing an entry that holds a denormalized customer gives the customer. *)
Lemma shown_customer `{Transport} base spec a id e r (c : Customer) :
  Paired base spec a -> shows (reserved_keys spec) id e r ->
  (forall k v, rec_Data (ad_Denormalize a c) !! k = Some v -> en_Fields e !! k = Some v) ->
  cust_view (ad_Normalize a r) = cust_view c.
Proof.
  intros Hp (_ & _ & _ & Hs) Hf.
  assert (Hk : forall k v, k ∉ reserved_keys spec -> rec_Data (ad_Denormalize a c) !! k = Some v ->
    mget (rec_Data r) k = v) by (intros k v Hn Hv; unfold mget; by rewrite (Hs k Hn), (Hf k v Hv)).
  clear Hs Hf. unfold cust_view. destruct Hp; simpl;
    repeat (erewrite Hk; [|by apply (bool_decide_unpack _)|reflexivity]); reflexivity.
Qed.

(** Requests do not change the prefix of the process. *)
Lemma op_prefix source seedRec base spec (a : @Adapter (sim_world source seedRec)) op
    (s : @St (sim_world source seedRec)) :
  Paired base spec a ->
  Simulator.pr_prefix (st_world (run_op a op s).2) = Simulator.pr_prefix (st_world s).
Proof.
  intros Hp. set (R := fun s s' : @St (sim_world source seedRec) =>
    Simulator.pr_prefix (st_world s') = Simulator.pr_prefix (st_world s)).
  assert (PreOrder R) by (split; unfold R; [by intros x|]; intros x y z; congruence).
  assert (LawfulAdapter base a) as Hl by (destruct Hp; typeclasses eauto).
  destruct (law_step (base := base) (a := a) R) as (_ & _ & Hg & Hc & Hu & Hd).
  - intros rq _ x. unfold http. change (http_step ?w rq) with (Simulator.request source seedRec w rq).
    unfold R, Simulator.request. by repeat case_match; simplify_eq/=.
  - assert (P : Pres R (run_op a op)); [|exact (P s)].
    destruct op; simpl; (apply Pres_bind; [done|auto|]; intros; apply Pres_ret; typeclasses eauto).
Qed.

(** The id of a stored entry. *)
Lemma entry_clean base spec p sv id e :
  Up base spec p sv -> clean (Simulator.pr_prefix p) = true -> entries sv !! id = Some e ->
  clean id = true /\ id <> "".
Proof.
  intros Hu Hc He. rewrite entries_lookup in He. apply fmap_Some in He as (r & Hr & _).
  split; [|by eapply Wf_nonempty; [apply Hu|exists r]].
  apply (wf_key _ _ (up_wf _ _ _ _ Hu)) in Hr as (_ & n & _ & ->). by apply clean_id.
Qed.

(** Reading what is there. *)
Lemma read_entry source seedRec base spec (a : @Adapter (sim_world source seedRec))
    (s : @St (sim_world source seedRec)) sv (id : string) (e : Entry) (c : Customer) :
  Paired base spec a -> Up base spec (st_world s) sv -> clean (Simulator.pr_prefix (st_world s)) = true ->
  entries sv !! id = Some e ->
  (forall k v, rec_Data (ad_Denormalize a c) !! k = Some v -> en_Fields e !! k = Some v) ->
  exists r, (run_op a (OpGet id) s).1 = Ok (Some r) /\ cust_view (ad_Normalize a r) = cust_view c.
Proof.
  intros Hp Hu Hpre He Hf.
  destruct (paired_refines source seedRec base spec a (OpGet id) s sv Hp Hu) as (sv1 & P1 & _);
    [by eapply entry_clean|].
  inversion P1 as [id' e' r H1 H2| | | |op' id' x H1 H2]; subst.
  - exists r. split; [done|]. simplify_eq. by eapply shown_customer.
  - destruct H2 as [[= ->]|[[? [=]]|[=]]]. congruence.
Qed.

(** C35: what is written to a provider is what is read from it.  Against its
    simulator configured with no faults, with an id prefix and ids that need no
    escaping in a URL and room to number a new record, creating a record for a
    customer, or writing the customer over a record that exists, is followed by a
    read of that id that succeeds and normalizes to the same five fields: first and
    last name, email, phone and company. *)
Theorem write_read_back (source : Z -> nat -> Z) (seedRec : string -> Z -> Fields) (base : string)
    (spec : Simulator.Spec) (a : @Adapter (sim_world source seedRec)) (c : Customer) (op : Op)
    (s : @St (sim_world source seedRec)) (sv : Simulator.Server) :
  Paired base spec a -> Up base spec (st_world s) sv -> clean (Simulator.pr_prefix (st_world s)) = true ->
  ready op sv ->
  let data := rec_Data (ad_Denormalize a c) in
  op = OpCreate data \/ (exists id, op = OpUpdate id data /\ is_Some (entries sv !! id)) ->
  let s1 := (run_op a op s).2 in
  exists r r', (run_op a op s).1 = Ok (Some r) /\ (run_op a (OpGet (rec_ID r)) s1).1 = Ok (Some r') /\
    cust_view (ad_Normalize a r') = cust_view c.
Proof.
  intros Hp Hu Hpre Hc data Hop s1.
  destruct (paired_refines source seedRec base spec a op s sv Hp Hu Hc) as (sv1 & P1 & U1 & _ & _).
  fold s1 in U1. assert (Hpre1 : clean (Simulator.pr_prefix (st_world s1)) = true)
    by (unfold s1; by rewrite (op_prefix _ _ base spec a op s Hp)).
  destruct Hop as [->|(id & -> & [e He])]; inversion P1 as [|id' d r H1 H2 Hs Ed Er Em|id' d e' r H1 e2 Hs Ed Er Em| |op' id' x H1 H2];
    subst; try (destruct H2 as [[=]|[[? [=]]|[=]]]; by simplify_eq).
  - destruct (read_entry source seedRec base spec a s1 sv1 id' (mkEntry 1 false data) c Hp U1 Hpre1) as (r' & Hr' & Hv);
      [by rewrite <- Em; apply lookup_insert_eq|done|].
    exists r, r'. split; [done|]. by rewrite (proj1 Hs).
  - destruct (read_entry source seedRec base spec a s1 sv1 id e2 c Hp U1 Hpre1) as (r' & Hr' & Hv);
      [by rewrite <- Em; apply lookup_insert_eq|intros k v Hk; by apply lookup_union_Some_l|].
    exists r, r'. split; [done|]. by rewrite (proj1 Hs).
Qed.

Definition grace : Customer := set_TenantID "t1" (FromFields
  (list_to_map [("first_name", JStr "Grace"); ("last_name", JStr "Hopper"); ("email", JStr "g@h.org");
                ("phone", JStr "1"); ("company", JStr "Navy")]) (Salesforce.Normalize (mkProviderRecord "" 0 false ∅))).

Local Abbreviation created := (run_op sf_adapter (OpCreate (rec_Data (Salesforce.Denormalize grace))) sf_state).

Lemma write_read_back_witness :
  exists r r', created.1 = Ok (Some r) /\ (run_op sf_adapter (OpGet (rec_ID r)) created.2).1 = Ok (Some r') /\
    cust_view (Salesforce.Normalize r') = ("Grace", "Hopper", "g@h.org", "1", "Navy").
Proof.
  destruct (write_read_back no_numbers seed_name "http://sf" salesforce_spec sf_adapter grace
    (OpCreate (rec_Data (Salesforce.Denormalize grace))) sf_state sf_server) as (r & r' & H1 & H2 & H3).
  - apply paired_salesforce.
  - apply sf_up.
  - reflexivity.
  - unfold ready, room. vm_compute. reflexivity.
  - left. reflexivity.
  - exists r, r'. split; [exact H1|]. split; [exact H2|exact H3].
Defined.
