(* ===== verification/SimHooks.v ===== *)
(** * From a change at the provider to a source event

    What a simulator announces when a record changes, and that the gateway
    stores it: the dispatcher's signature, its JSON and its routing are what
    [handleWebhook] expects. *)

From S2P Require Import Prelude Json GoTime Crypto Encoding Totp JsonText Float64 Buckets SimStore.
From S2P Require Import SimWalk Events Model Tables Effects Store Frame Connectors Run Adapters.
From S2P Require Import Sample Ingestion Simulator SimSpec.
Local Open Scope string_scope.

(** The announcement of a change. *)
Definition announcement (sv : Simulator.Server) (ty : string) (rec : Sim.Rec) : Simulator.webhookEvent :=
  let sp := Simulator.sv_Spec sv in
  Simulator.mkWebhookEvent (Simulator.sp_Name sp +:+ "-" +:+ pretty (Simulator.sv_uuids sv))
    (Simulator.sp_Name sp) (Simulator.sp_EntityType sp) (Sim.sr_ID rec) ty (Sim.sr_Version rec)
    (Sim.sr_UpdatedAt rec)
    {[ "fields" := of_fields (<[Simulator.sp_IDKey sp := JStr (Sim.sr_ID rec)]> (Sim.sr_Data rec)) ]}.

Lemma Emit_calm source sv d ty rec :
  Simulator.sv_Webhook sv = Some d -> Simulator.sv_Faults sv = Simulator.defaultFaults -> Sim.sr_ID rec <> "" ->
  Simulator.sv_sent (Simulator.Emit source ty rec sv)
  = (Simulator.sv_sent sv ++ [(0%Z, announcement sv ty rec)])%list.
Proof.
  intros Hw Hf Hid. unfold Simulator.Emit, Simulator.WebhookOptions, announcement.
  rewrite Hw, Hf, (seqb_ne _ _ Hid). done.
Qed.

(** The gateway decodes what the dispatcher encodes. *)
Lemma decode_announced ev kvs :
  Simulator.event_members ev = Some kvs -> in_int64 (Simulator.we_SourceVersion ev) = true ->
  decode_webhook (Some (JObj kvs)) = Some (mkWebhook (Simulator.we_EventID ev) (Simulator.we_Source ev)
    (Simulator.we_EntityType ev) (Simulator.we_EntityID ev) (Simulator.we_EventType ev)
    (Simulator.we_SourceVersion ev) (Simulator.we_OccurredAt ev) "" ∅ (Simulator.we_Payload ev)).
Proof.
  unfold Simulator.event_members. destruct (time_marshal _) as [t|] eqn:Et; [|done].
  intros [= <-] Hv. unfold decode_webhook, into_struct. apply time_roundtrip in Et.
  unfold dec_time, dec_int64, dec_fields. simpl. rewrite Hv, Et. simpl.
  by rewrite list_to_map_to_list.
Qed.

(** Ingestion finds the payload in the stored document. *)
Lemma announced_payload ev kvs t row :
  Simulator.event_members ev = Some kvs ->
  se_Raw row = {[ "webhook" := unmarshalToMap (Some (JObj kvs)) ]} ->
  ev_Payload (fromSourceEvent t row) = Simulator.we_Payload ev.
Proof.
  intros Hm Hr. unfold Simulator.event_members in Hm. destruct (time_marshal _); [|done].
  injection Hm as <-. unfold fromSourceEvent. cbn [ev_Payload]. rewrite Hr, lookup_singleton_eq.
  cbn [unmarshalToMap]. rewrite !list_to_map_cons, !lookup_insert_ne by done.
  rewrite lookup_insert_eq. cbn [of_fields]. apply list_to_map_to_list.
Qed.

(** [row] is the source event of the announced change. *)
Definition records_change (tenant : string) (ev : Simulator.webhookEvent) (row : SourceEvent) : Prop :=
  se_Status row = "received" /\ forall t, let e := fromSourceEvent t row in
  ev_EventID e = Simulator.we_EventID ev /\ ev_TenantID e = tenant /\ ev_Source e = Simulator.we_Source ev /\
  ev_EntityType e = Simulator.we_EntityType ev /\ ev_EntityID e = Simulator.we_EntityID ev /\
  ev_EventType e = Simulator.we_EventType ev /\ ev_SourceVersion e = Simulator.we_SourceVersion ev /\
  ev_OccurredAt e = pg_time (Simulator.we_OccurredAt ev) /\ ev_Payload e = Simulator.we_Payload ev.


Definition hooked : Simulator.Server :=
  Simulator.NewServer salesforce_spec 100 0 "http://gateway" "secret" 0 None.
Definition changed : Sim.Rec := Sim.mkRec "sf-000001" 2 1709202600250000000 false {["email" := JStr "a@b.c"]}.


(** ** What the simulator does not do *)

(** The limit a server is configured with is never applied: only a limit set
    through the fault configuration is. *)
Lemma default_limit_unused source now sv :
  Simulator.sv_Faults sv = Simulator.defaultFaults -> Simulator.rateLimit source now sv = (None, sv).
Proof. intros Hf. unfold Simulator.rateLimit, Simulator.RateLimited. by rewrite Hf. Qed.

(** Servers of one process share the prefix: after a HubSpot simulator was
    started beside it, the Salesforce simulator numbers new records as HubSpot's. *)
Lemma prefix_shared :
  let p := Simulator.start "http://hs" hubspot_spec 100 "" "" 0 None sf_process in
  Simulator.pr_prefix p = "hub-" /\
  option_map (fun sv => dom (Sim.ms_records (Simulator.sv_Store sv)))
    (Simulator.pr_servers (Simulator.request no_numbers seed_name p
       (mkHttpReq "POST" "http://sf" "/api/v1/customers" (Some (JObj [])))).1 !! "http://sf")
  = Some {["sf-000001"; "sf-000002"; "hub-000003"]}.
Proof. split; [reflexivity|]. vm_compute. reflexivity. Qed.
