(* ===== verification/SimList.v ===== *)
(** * Listing a simulated provider through an adapter

    The query string an adapter builds is the one the simulator parses, and the
    page it decodes is the page of the store. *)

From S2P Require Import Prelude Json GoTime Crypto Encoding Totp JsonText Float64 Buckets SimStore.
From S2P Require Import SimWalk Events Model Tables Effects Store Frame Connectors Run Adapters.
From S2P Require Import Sample Ingestion Simulator SimSpec.
Local Open Scope string_scope.
#[local] Arguments String.append !_ _ /.

(** ** Splitting *)

Section splitting.
Context (c : ascii).

(** [c] does not occur. *)
Definition free (s : string) : Prop :=
  forall x, x ∈ String.list_ascii_of_string s -> Ascii.eqb x c = false.

Lemma free_cons x s : free (String x s) -> Ascii.eqb x c = false /\ free s.
Proof. intros Hf. split; [apply Hf; by left|]. intros y Hy. apply Hf. by right. Qed.

Lemma cut_at a b : free a -> Simulator.cut c (a +:+ String c b) = (a, Some b).
Proof.
  induction a as [|x a IH]; intros Hf; simpl; [by rewrite Ascii.eqb_refl|].
  apply free_cons in Hf as [-> Hf]. by rewrite IH.
Qed.

Lemma split_last a : free a -> Simulator.split_at c a = [a].
Proof.
  induction a as [|x a IH]; intros Hf; simpl; [done|].
  apply free_cons in Hf as [-> Hf]. by rewrite IH.
Qed.

Lemma split_first a b : free a -> Simulator.split_at c (a +:+ String c b) = a :: Simulator.split_at c b.
Proof.
  induction a as [|x a IH]; intros Hf; simpl; [by rewrite Ascii.eqb_refl|].
  apply free_cons in Hf as [-> Hf]. by rewrite IH.
Qed.

Lemma free_app a b : free a -> free b -> free (a +:+ b).
Proof. intros Ha Hb x. rewrite list_ascii_app, elem_of_app. intros [?|?]; auto. Qed.
End splitting.

Lemma clean_free s : clean s = true ->
  free "&" s /\ free "=" s /\ free ";" s /\ free "?" s.
Proof. intros Hc. split_and!; intros x Hx; by destruct (clean_char s x Hc Hx) as (? & ? & ? & ? & ? & ? & ?). Qed.

(** A literal without the character. *)
Ltac free_literal :=
  let x := fresh in let Hx := fresh in intros x Hx;
  repeat (apply elem_of_cons in Hx as [->|Hx]; [reflexivity|]); by apply elem_of_nil in Hx.

Lemma parse_pair_clean k v :
  clean k = true -> k <> "" -> clean v = true -> Simulator.parse_pair (k +:+ "=" +:+ v) = Some (k, v).
Proof.
  intros Hk Hne Hv. unfold Simulator.parse_pair.
  destruct (clean_free k Hk) as (_ & Hk1 & Hk2 & _). destruct (clean_free v Hv) as (_ & _ & Hv2 & _).
  rewrite seqb_ne by by destruct k.
  rewrite cut_none; [|by apply free_app; [done|apply (free_app ";" "=" v); [free_literal|done]]].
  rewrite bool_decide_false by by intros []. cbn [orb].
  change ("=" +:+ v) with (String "=" v). rewrite (cut_at "=" k v Hk1). cbn [default]. by rewrite !clean_unescape.
Qed.

(** ** The limit *)

Lemma digit_of_val x : digit_of x = digit_val x.
Proof. by destruct x as [[] [] [] [] [] [] [] []]. Qed.

Lemma digit_clean x d : digit_val x = Some d -> clean (String x "") = true.
Proof. by destruct x as [[] [] [] [] [] [] [] []]. Qed.

Lemma scan_parse acc s n : scan_nat acc s = (n, "") ->
  parse_nat acc s = Some n /\ Simulator.digits_of s = s /\ clean s = true.
Proof.
  revert acc. induction s as [|x s IH]; intros acc; simpl; [by intros [= ->]|].
  rewrite digit_of_val. destruct (digit_val x) as [d|] eqn:Ed; [|done].
  intros (H1 & H2 & H3)%IH. split; [done|]. split; [by rewrite H2|].
  apply digit_clean in Ed. simpl in Ed. by rewrite andb_true_r in Ed; rewrite Ed.
Qed.

Lemma scan_pretty (n : Z) : (0 <= n)%Z -> scan_nat 0 (pretty n) = (n, "") /\
  exists x t d, pretty n = String x t /\ digit_val x = Some d.
Proof.
  intros Hn. assert (pretty n = pretty (Z.to_N n)) as -> by (destruct n; [reflexivity|reflexivity|lia]).
  unfold pretty, pretty_N. destruct (decide (Z.to_N n = 0)%N) as [E|E].
  - assert (n = 0)%Z as -> by lia. split; [reflexivity|]. by eexists _, _, _.
  - split; [rewrite scan_pretty_go; simpl; f_equal; lia|].
    destruct (pretty_go_head (Z.to_N n) "") as (d & t & -> & Hd); [lia|].
    eexists _, _, _. split; [done|]. rewrite <- digit_of_val. apply digit_of_pretty. lia.
Qed.

Lemma scan_int_pretty (n old : Z) : (0 <= n)%Z -> in_int64 n = true ->
  Simulator.scan_int (pretty n) old = n /\ clean (pretty n) = true /\ pretty n <> "".
Proof.
  intros Hn Hi. destruct (scan_pretty n Hn) as [Hs (x & t & d & Ep & Hd)].
  destruct (scan_parse 0 (pretty n) n Hs) as (H1 & H2 & H3). rewrite Ep in *.
  split; [|by split]. unfold Simulator.scan_int.
  assert (Hx : Simulator.skip_blanks (String x t) = String x t)
    by (clear -Hd; by destruct x as [[] [] [] [] [] [] [] []]).
  rewrite Hx.
  assert (Hm : atoi (Simulator.digits_of (String x t)) = Some n).
  { rewrite H2. assert (Hat : atoi (String x t) = in_range (parse_nat 0 (String x t)))
      by (clear -Hd; by destruct x as [[] [] [] [] [] [] [] []]).
    rewrite Hat, H1. simpl. by rewrite Hi. }
  clear -Hd Hm. destruct x as [[] [] [] [] [] [] [] []]; try done; by rewrite Hm.
Qed.

(** ** One page through an adapter *)

Section listing.
Context (source : Z -> nat -> Z) (seedRec : string -> Z -> Fields) (base : string) (spec : Simulator.Spec).
Context (a : @Adapter (sim_world source seedRec)) (Hp : Paired base spec a).

(** The query of a listing. *)
Definition list_query (cur : string) (limit : Z) : string :=
  "limit=" +:+ pretty limit +:+ (if cur =s "" then "" else "&cursor=" +:+ cur).

(** A record as the client reads it. *)
Definition read_record (sv : Simulator.Server) (r : Sim.Rec) : ProviderRecord :=
  match Rest.toProviderRecord (Simulator.sp_IDKey spec) (Simulator.recordJSON sv r) with
  | Ok x => x
  | Err _ => mkProviderRecord "" 0 false ∅
  end.

(** The page at a cursor. *)
Definition sim_page (sv : Simulator.Server) (limit : Z) (cur : string) : Page :=
  let r := Simulator.list_result (Simulator.ParseQuery (list_query cur limit)) sv in
  mkPage (read_record sv <$> r.1.1) r.1.2 r.2.

(** Records of the store, read by the client. *)
Lemma read_shown p sv id r :
  Up base spec p sv -> Sim.ms_records (Simulator.sv_Store sv) !! id = Some r ->
  Rest.toProviderRecord (Simulator.sp_IDKey spec) (Simulator.recordJSON sv r) = Ok (read_record sv r) /\
  shows (reserved_keys spec) id (entry r) (read_record sv r).
Proof using All.
  intros Hu Hr. unfold read_record. destruct (paired_shown source seedRec base spec a p sv id r Hp Hu Hr)
    as (x & Hx & Hs). by rewrite Hx.
Qed.

Lemma fill_stored recs since limit l : forall n r, r ∈ (Sim.fill recs since limit n l).1 ->
  exists id, recs !! id = Some r.
Proof.
  induction l as [|id l IH]; intros n r; simpl; [by intros ?%elem_of_nil|].
  destruct (recs !! id) as [x|] eqn:Ex; [|apply IH]. case_match; [apply IH|]. case_match.
  - intros ->%list_elem_of_singleton. by exists id.
  - pose proof (IH (S n) r) as Hr. destruct (Sim.fill recs since limit (S n) l) as [out next]. simpl in *.
    intros [->|Hin]%elem_of_cons; [by exists id|by apply Hr].
Qed.

Lemma dec_maps_fields {A} (f : A -> Fields) (l : list A) :
  Rest.dec_maps ((fun r => of_fields (f r)) <$> l) = Some (f <$> l).
Proof.
  induction l as [|x l IH]; [done|]. rewrite !fmap_cons. cbn [Rest.dec_maps].
  rewrite into_map_fields. simpl. by rewrite IH.
Qed.

Lemma records_read p sv (l : list Sim.Rec) :
  Up base spec p sv -> (forall r, r ∈ l -> exists id, Sim.ms_records (Simulator.sv_Store sv) !! id = Some r) ->
  Rest.toProviderRecords (Simulator.sp_IDKey spec) (Simulator.recordJSON sv <$> l) = Ok (read_record sv <$> l).
Proof using All.
  intros Hu. induction l as [|r l IH]; intros Hl; [done|]. rewrite !fmap_cons. cbn [Rest.toProviderRecords].
  destruct (Hl r) as [id Hr]; [by left|]. rewrite (proj1 (read_shown p sv id r Hu Hr)).
  rewrite IH; [done|]. intros x Hx. apply Hl. by right.
Qed.

Lemma list_read q p sv :
  Up base spec p sv ->
  let r := Simulator.list_result q sv in
  Rest.toProviderRecords (Simulator.sp_IDKey spec) (Simulator.recordJSON sv <$> r.1.1)
  = Ok (read_record sv <$> r.1.1).
Proof using All.
  intros Hu r. eapply records_read; [exact Hu|]. subst r. unfold Simulator.list_result, Sim.List_.
  match goal with |- context [Sim.fill ?x ?y ?z 0 ?l] =>
    intros rec Hin; apply (fill_stored x y z l 0); destruct (Sim.fill x y z 0 l) end. exact Hin.
Qed.

(** A listing through the adapter is the page, and changes nothing. *)
Lemma List_reads sv limit cur (s : @St (sim_world source seedRec)) :
  Up base spec (st_world s) sv ->
  exists s', ad_List a (mkListOptions cur limit time_zero) s = (Ok (sim_page sv limit cur), s') /\
    st_db s' = st_db s /\ st_faults s' = st_faults s /\ Up base spec (st_world s') sv.
Proof using All.
  intros Hu. pose proof (paired_path source seedRec base spec a Hp) as Hpath.
  set (path := "/api/v1" +:+ Simulator.sp_Path spec).
  assert (Ha : ad_List a = Rest.List_ (mkClient base) path (Simulator.sp_IDKey spec)) by by destruct Hp.
  rewrite Ha. unfold Rest.List_.
  assert (El : Rest.list_path path (mkListOptions cur limit time_zero)
               = path +:+ String "?" (list_query cur limit)).
  { unfold Rest.list_path, list_query. cbn [lo_Cursor lo_Limit lo_Since].
    rewrite Z.eqb_refl, str_app_nil_r. by destruct (cur =s ""). }
  rewrite El. assert (Hc : Simulator.cut "?" (path +:+ String "?" (list_query cur limit))
    = (path +:+ "", Some (list_query cur limit))).
  { rewrite str_app_nil_r. apply cut_at. apply (free_app "?" "/api/v1"); [free_literal|exact Hpath]. }
  destruct (Do_query source seedRec base spec "GET" _ "" _ None
    (into_struct Rest.list_out) s sv Hu Hc) as (s1 & Hw & Hd & Hf & E).
  unfold path in Hw, E |- *.
  erewrite mux_route in Hw by (eapply route_collection; exact Hu).
  erewrite mux_route in E by (eapply route_collection; exact Hu).
  change ("GET" =s "GET") with true in Hw, E. cbn [fst snd default] in Hw, E.
  exists s1. unfold mbind, M_bind. rewrite E. split; [|split_and!; [done|done|rewrite Hw; by apply same_up]].
  unfold Simulator.handleList, Simulator.write_json, read_answer, into_struct, Rest.list_out.
  simpl. rewrite dec_maps_fields. simpl. by rewrite (list_read _ _ sv Hu).
Qed.
End listing.
