(* ===== verification/Operator.v ===== *)
(** * [internal/api]: the operator's handlers

    Conflicts (resolve, dismiss), dead letters (retry, discard), reconciliation
    (start a sweep, apply or dismiss a finding) and synchronization jobs, behind
    the role gate of the router.  An operator's decision is not applied by the
    handler: it becomes a row of the retry queue that the retry engine hands to
    the worker. *)

From S2P Require Import Prelude Json GoTime Events Model Conflict Tables Effects Store Frame.
From S2P Require Import Connectors Run Adapters Worker WorkerFrame WorkerCalls Sample.
From S2P Require Import WorkerSpec WorkerApply Retry Ingestion.
Local Open Scope string_scope.

(** ** Callers and roles *)

(** What authentication puts into the request's context. *)
Record Caller := mkCaller {
  ca_TenantID : string; ca_Role : string; ca_Actor : string; ca_KeyID : string; ca_UserID : string;
}.

(** The map [roleRank]. *)
Definition roleRank (role : string) : option Z :=
  if role =s "VIEWER" then Some 0%Z
  else if role =s "DEVELOPER" then Some 1%Z
  else if role =s "OPERATOR" then Some 2%Z
  else if role =s "ADMIN" then Some 3%Z
  else None.

(** [roleRank[role]]: an unknown role has the zero value, the viewer's rank. *)
Definition rank_of (role : string) : Z := default 0%Z (roleRank role).

(** ** Rendering *)

Definition time_json (t : Z) : Json := JStr (default "" (time_marshal t)).
Definition opt_json {A} (f : A -> Json) (o : option A) : Json :=
  match o with Some a => f a | None => JNull end.

(** A slice: a nil one, which is what a query without rows leaves, is [null]. *)
Definition render_list {A} (f : A -> Json) (l : list A) : Json :=
  match l with [] => JNull | _ => JArr (f <$> l) end.

(** The server's configuration, as far as the handlers read it. *)
Record ServerConfig := mkServerConfig { sc_RetryMaxAttempts : Z; sc_SyncJobBatchSize : Z }.

Section operator.
Context `{Outside} (cfg : ServerConfig).
(** The text PostgreSQL gives for a [jsonb] value. *)
Context (jsonb_out : Json -> string).

(** [decodedPayload]: a [null] document is the nil map. *)
Definition decodedPayload (b : Json) : Json :=
  match b with
  | JObj _ | JNull => b
  | _ => JObj [("raw", JStr (jsonb_out b))]
  end.

(** [renderConflict]. *)
Definition renderConflict (c : ConflictRecord) : Json :=
  JObj [("id", JStr (co_ID c)); ("tenant_id", JStr (co_TenantID c));
        ("entity_type", JStr (co_EntityType c)); ("entity_id", JStr (co_EntityID c));
        ("source_a", JStr (co_SourceA c)); ("version_a", JNum (co_VersionA c));
        ("payload_a", decodedPayload (co_PayloadA c)); ("source_b", JStr (co_SourceB c));
        ("version_b", JNum (co_VersionB c)); ("payload_b", decodedPayload (co_PayloadB c));
        ("detected_at", time_json (co_DetectedAt c)); ("status", JStr (co_Status c));
        ("resolution_strategy", JStr (co_ResolutionStrategy c));
        ("resolved_by", opt_json JStr (co_ResolvedBy c));
        ("resolved_at", opt_json time_json (co_ResolvedAt c))].

(** [renderRun]. *)
Definition renderRun (r : ReconciliationRun) : Json :=
  JObj [("id", JStr (rr_ID r)); ("tenant_id", JStr (rr_TenantID r)); ("entity", JStr (rr_Entity r));
        ("source", JStr (rr_Source r)); ("mode", JStr (rr_Mode r)); ("status", JStr (rr_Status r));
        ("job_id", opt_json JStr (rr_JobID r)); ("total", JNum (rr_Total r));
        ("drift", JNum (rr_Drift r)); ("missed", JNum (rr_Missed r));
        ("deleted", JNum (rr_Deleted r)); ("started_at", time_json (rr_StartedAt r));
        ("finished_at", opt_json time_json (rr_FinishedAt r))].

(** [renderFinding]. *)
Definition renderFinding (f : ReconciliationFinding) : Json :=
  JObj [("id", JStr (rf_ID f)); ("run_id", JStr (rf_RunID f)); ("tenant_id", JStr (rf_TenantID f));
        ("kind", JStr (rf_Kind f)); ("provider_id", JStr (rf_ProviderID f));
        ("canonical_id", JStr (rf_CanonicalID f));
        ("canonical_fields", of_fields (rf_CanonicalFields f));
        ("provider_fields", of_fields (rf_ProviderFields f));
        ("provider_version", JNum (rf_ProviderVersion f)); ("direction", JStr (rf_Direction f));
        ("status", JStr (rf_Status f)); ("error", opt_json JStr (rf_Error f));
        ("created_at", time_json (rf_CreatedAt f)); ("applied_at", opt_json time_json (rf_AppliedAt f))].

(** [SyncJob]'s JSON; nil pointers are omitted. *)
Definition render_job (j : SyncJob) : Json :=
  let omit {A} (k : string) (f : A -> Json) (o : option A) :=
    match o with Some a => [(k, f a)] | None => [] end in
  JObj ([("id", JStr (sj_ID j)); ("tenant_id", JStr (sj_TenantID j)); ("entity", JStr (sj_Entity j));
         ("source", JStr (sj_Source j)); ("destination", JStr (sj_Destination j));
         ("type", JStr (sj_Type j)); ("status", JStr (sj_Status j))] ++
        omit "cursor" JStr (sj_Cursor j) ++
        [("processed", JNum (sj_Processed j)); ("failed", JNum (sj_Failed j));
         ("total", JNum (sj_Total j)); ("batch_size", JNum (sj_BatchSize j))] ++
        omit "started_at" time_json (sj_StartedAt j) ++
        omit "finished_at" time_json (sj_FinishedAt j) ++
        omit "last_error" JStr (sj_LastError j) ++ [("created_at", time_json (sj_CreatedAt j))])%list.

Definition body_of (j : Json) : list (string * Json) :=
  match j with JObj kvs => kvs | _ => [] end.

(** [Server.audit]: best effort. *)
Definition audit (c : Caller) (action resource resourceID : string) (meta : list (string * Json))
    : M unit :=
  ignore (InsertAuditLog (ca_TenantID c)
            (mkAuditLog "" (Some (ca_TenantID c))
               (if ca_Actor c =s "" then "unknown" else ca_Actor c) action resource resourceID
               (list_to_map meta) 0)).

(** The optional [limit] query parameter. *)
Definition limit_param (v : string) : Z :=
  match atoi v with
  | Some n => if (0 <? n)%Z then n else 100%Z
  | None => 100%Z
  end.

(** A row a handler starts from: 404 if absent, 500 if the database fails. *)
Definition with_row {A} (m : M A) (missing failed : string) (k : A -> M Response) : M Response :=
  r ← attempt m;
  match r with
  | Err ErrNotFound => mret (error_response 404 missing)
  | Err _ => mret (error_response 500 failed)
  | Ok a => k a
  end.

(** A statement whose failure is answered 500. *)
Definition or_500 {A} (m : M A) (failed : string) (k : A -> M Response) : M Response :=
  r ← attempt m;
  match r with
  | Err _ => mret (error_response 500 failed)
  | Ok a => k a
  end.

(** ** conflicts.go *)

Definition handleListConflicts (c : Caller) (status limit : string) : M Response :=
  or_500 (ListConflicts (ca_TenantID c) status (limit_param limit)) "failed to list conflicts"
    (fun items => mret (mkResponse 200 [("items", JArr (renderConflict <$> items));
                                        ("count", JNum (Z.of_nat (length items)))])).

Definition handleGetConflict (c : Caller) (id : string) : M Response :=
  with_row (GetConflict (ca_TenantID c) id) "conflict not found" "failed to get conflict"
    (fun x => mret (mkResponse 200 (body_of (renderConflict x)))).

(** The event an operator's choice becomes. *)
Definition resolution_event (t : Z) (tenant : string) (x : ConflictRecord) (a : bool) : Event :=
  mkEvent ("resolve:" +:+ co_ID x) tenant (if a then co_SourceA x else co_SourceB x)
    (co_EntityType x) (co_EntityID x) EventUpdated
    (if a then co_VersionA x else co_VersionB x) t t ""
    (mkProvenance "" "" "" (co_ID x) "")
    {[ "fields" := decodedPayload (if a then co_PayloadA x else co_PayloadB x) ]}.

Definition handleResolveConflict (c : Caller) (id : string) (body : option Json) : M Response :=
  let tenant := ca_TenantID c in
  with_row (GetConflict tenant id) "conflict not found" "failed to load conflict" (fun x =>
    if negb (co_Status x =s ConflictPending)
    then mret (error_response 409 "conflict is not pending resolution")
    else
      match into_struct (dec_string "side") body with
      | None => mret (error_response 400 "invalid body")
      | Some side =>
          if negb (side =s "a") && negb (side =s "b")
          then mret (error_response 400 ("side must be " +:+ dquote +:+ "a" +:+ dquote +:+ " or " +:+ dquote +:+ "b" +:+ dquote))
          else
            t ← now;
            let ev := resolution_event t tenant x (side =s "a") in
            match encode_event ev with
            | None => mret (error_response 500 "failed to encode resolution")
            | Some payload =>
                or_500 (EnqueueRetry (mkRetryEntry "" tenant (ev_EventID ev) 0
                          (sc_RetryMaxAttempts cfg) 0 "operator resolution" "RESOLUTION" payload 0) 0)
                  "failed to enqueue resolution" (fun _ =>
                  audit c "conflict.resolve" "conflict" (co_ID x)
                    [("entity_type", JStr (co_EntityType x)); ("entity_id", JStr (co_EntityID x));
                     ("side", JStr side); ("winner_source", JStr (ev_Source ev));
                     ("winner_version", JNum (ev_SourceVersion ev))];;
                  mret (mkResponse 202 [("status", JStr "resolution_queued"); ("id", JStr (co_ID x));
                                        ("winner", JStr (ev_Source ev)); ("queued_at", time_json t)]))
            end
      end).

Definition handleDismissConflict (c : Caller) (id : string) : M Response :=
  let tenant := ca_TenantID c in
  with_row (GetConflict tenant id) "conflict not found" "failed to load conflict" (fun x =>
    if negb (co_Status x =s ConflictPending)
    then mret (error_response 409 "conflict is not pending")
    else
      or_500 (SetConflictStatus tenant id ConflictDismissed (co_ResolutionStrategy x) "operator")
        "failed to dismiss conflict" (fun _ =>
        audit c "conflict.dismiss" "conflict" (co_ID x)
          [("entity_type", JStr (co_EntityType x)); ("entity_id", JStr (co_EntityID x));
           ("strategy", JStr (co_ResolutionStrategy x))];;
        mret (mkResponse 200 [("status", JStr "dismissed"); ("id", JStr id)]))).

(** ** dlq.go *)

Definition handleDLQRetry (c : Caller) (id : string) : M Response :=
  let tenant := ca_TenantID c in
  with_row (GetDeadLetter tenant id) "dead letter not found" "failed to load dead letter" (fun x =>
    or_500 (SetDeadLetterStatus tenant id "retrying") "failed to update dead letter" (fun _ =>
      or_500 (EnqueueRetry (mkRetryEntry "" (dl_TenantID x) (dl_EventID x) 0
                (sc_RetryMaxAttempts cfg) 0 "manual replay from DLQ" (dl_ErrorClass x)
                (dl_Payload x) 0) 0) "failed to enqueue retry" (fun _ =>
        audit c "dlq.retry" "dead_letter" (dl_ID x)
          [("event_id", JStr (dl_EventID x)); ("error_class", JStr (dl_ErrorClass x))];;
        t ← now;
        mret (mkResponse 200 [("status", JStr "retrying"); ("id", JStr (dl_ID x));
                              ("event_id", JStr (dl_EventID x)); ("queued_at", time_json t)])))).

Definition handleDLQDiscard (c : Caller) (id : string) : M Response :=
  let tenant := ca_TenantID c in
  with_row (GetDeadLetter tenant id) "dead letter not found" "failed to load dead letter" (fun x =>
    or_500 (SetDeadLetterStatus tenant id "discarded") "failed to update dead letter" (fun _ =>
      audit c "dlq.discard" "dead_letter" (dl_ID x)
        [("event_id", JStr (dl_EventID x)); ("error_class", JStr (dl_ErrorClass x))];;
      mret (mkResponse 200 [("status", JStr "discarded"); ("id", JStr (dl_ID x));
                            ("event_id", JStr (dl_EventID x))]))).

(** ** reconcile.go *)

Definition handleCreateReconciliation (c : Caller) (body : option Json) : M Response :=
  match into_struct (fun kvs =>
          entity ← dec_string "entity" kvs;
          source ← dec_string "source" kvs;
          mode ← dec_string "mode" kvs;
          Some (entity, source, mode)) body with
  | None => mret (error_response 400 "invalid request body")
  | Some (entity, source, mode) =>
      let entity := if entity =s "" then "customer" else entity in
      if source =s "" then mret (error_response 400 "source is required")
      else
        let mode := if negb (mode =s "auto") && negb (mode =s "manual") then "auto" else mode in
        or_500 (CreateSyncJob (mkSyncJob "" (ca_TenantID c) entity source "" "reconcile" "" None
                  0 0 0 (sc_SyncJobBatchSize cfg) None None None 0))
          "failed to create reconciliation" (fun job =>
          or_500 (CreateReconciliationRun (mkReconciliationRun "" (ca_TenantID c) entity source mode
                    ReconcileRunning (Some (sj_ID job)) 0 0 0 0 0 None None))
            "failed to create reconciliation run" (fun run =>
            mret (mkResponse 201 (body_of (renderRun run)))))
  end.

Definition handleListReconciliations (c : Caller) (limit : string) : M Response :=
  or_500 (ListReconciliationRuns (ca_TenantID c) (limit_param limit))
    "failed to list reconciliations"
    (fun runs => mret (mkResponse 200 [("items", JArr (renderRun <$> runs));
                                       ("count", JNum (Z.of_nat (length runs)))])).

Definition handleGetReconciliation (c : Caller) (id : string) : M Response :=
  with_row (GetReconciliationRun (ca_TenantID c) id) "reconciliation not found"
    "failed to get reconciliation" (fun run => mret (mkResponse 200 (body_of (renderRun run)))).

Definition handleListReconcileFindings (c : Caller) (runID status limit : string) : M Response :=
  or_500 (ListReconciliationFindings (ca_TenantID c) runID status (limit_param limit))
    "failed to list findings"
    (fun items => mret (mkResponse 200 [("items", JArr (renderFinding <$> items));
                                        ("count", JNum (Z.of_nat (length items)))])).

Definition reconcileEventID (findingID : string) : string := "reconcile:" +:+ findingID.

(** The event of a repair an operator approved. *)
Definition repair_event (t : Z) (tenant : string) (run : ReconciliationRun)
    (f : ReconciliationFinding) : Event :=
  mkEvent (reconcileEventID (rf_ID f)) tenant (rr_Source run) (rr_Entity run) (rf_ProviderID f)
    EventUpdated (rf_ProviderVersion f) t t "" (mkProvenance "" "" "" "" (rf_ID f)) ∅.

(** The direction the body asks for: [None] if it is not one, [Some ""] if the
    body does not decode or asks for none. *)
Definition asked_direction (body : option Json) : option string :=
  match into_struct (dec_string "direction") body with
  | None => Some ""
  | Some d =>
      if (d =s "") || (d =s "push_canonical") || (d =s "adopt_provider") || (d =s "delete")
      then Some d else None
  end.

Definition enqueue_repair (c : Caller) (run : ReconciliationRun) (f : ReconciliationFinding)
    (direction : string) : M Response :=
  t ← now;
  let ev := repair_event t (ca_TenantID c) run f in
  match encode_event ev with
  | None => mret (error_response 500 "failed to encode repair")
  | Some payload =>
      or_500 (EnqueueRetry (mkRetryEntry "" (ca_TenantID c) (ev_EventID ev) 0
                (sc_RetryMaxAttempts cfg) 0 "operator reconcile apply" "RECONCILIATION" payload 0) 0)
        "failed to enqueue repair" (fun _ =>
        audit c "finding.apply" "reconciliation_finding" (rf_ID f)
          [("run_id", JStr (rf_RunID f)); ("kind", JStr (rf_Kind f));
           ("direction", JStr direction); ("provider_id", JStr (rf_ProviderID f))];;
        mret (mkResponse 202 [("status", JStr "apply_queued"); ("id", JStr (rf_ID f));
                              ("direction", JStr direction); ("queued_at", time_json t)]))
  end.

Definition handleApplyFinding (c : Caller) (findingID : string) (body : option Json) : M Response :=
  let tenant := ca_TenantID c in
  with_row (GetReconciliationFinding tenant findingID) "finding not found" "failed to load finding"
    (fun f =>
    if negb (rf_Status f =s FindingPending) then mret (error_response 409 "finding is not pending")
    else
      or_500 (GetReconciliationRun tenant (rf_RunID f)) "failed to load run" (fun run =>
        match asked_direction body with
        | None => mret (error_response 400
                          "direction must be push_canonical, adopt_provider, or delete")
        | Some asked =>
            if asked =s "" then enqueue_repair c run f (rf_Direction f)
            else
              or_500 (SetReconciliationFindingDirection tenant (rf_ID f) asked)
                "failed to apply direction" (fun _ => enqueue_repair c run f asked)
        end)).

Definition handleDismissFinding (c : Caller) (findingID : string) : M Response :=
  let tenant := ca_TenantID c in
  with_row (GetReconciliationFinding tenant findingID) "finding not found" "failed to load finding"
    (fun f =>
    if negb (rf_Status f =s FindingPending) then mret (error_response 409 "finding is not pending")
    else
      or_500 (SetReconciliationFindingStatus tenant findingID FindingDismissed None)
        "failed to dismiss finding" (fun _ =>
        audit c "finding.dismiss" "reconciliation_finding" findingID
          [("run_id", JStr (rf_RunID f)); ("kind", JStr (rf_Kind f));
           ("provider_id", JStr (rf_ProviderID f))];;
        mret (mkResponse 200 [("status", JStr "dismissed"); ("id", JStr findingID)]))).

(** ** syncjobs.go *)

Definition handleCreateSyncJob (c : Caller) (body : option Json) : M Response :=
  match into_struct (fun kvs =>
          entity ← dec_string "entity" kvs;
          source ← dec_string "source" kvs;
          destination ← dec_string "destination" kvs;
          Some (entity, source, destination)) body with
  | None => mret (error_response 400 "invalid request body")
  | Some (entity, source, destination) =>
      let entity := if entity =s "" then "customer" else entity in
      if (source =s "") || (destination =s "")
      then mret (error_response 400 "source and destination are required")
      else
        or_500 (CreateSyncJob (mkSyncJob "" (ca_TenantID c) entity source destination "" "" None
                  0 0 0 (sc_SyncJobBatchSize cfg) None None None 0))
          "failed to create sync job" (fun job => mret (mkResponse 201 (body_of (render_job job))))
  end.

Definition handleListSyncJobs (c : Caller) (limit : string) : M Response :=
  or_500 (ListSyncJobs (ca_TenantID c) (limit_param limit)) "failed to list sync jobs"
    (fun jobs => mret (mkResponse 200 [("jobs", render_list render_job jobs)])).

Definition handleGetSyncJob (c : Caller) (id : string) : M Response :=
  with_row (GetSyncJob (ca_TenantID c) id) "sync job not found" "failed to get sync job"
    (fun job => mret (mkResponse 200 (body_of (render_job job)))).

(** The statement of [handleRerunSyncJob], on the admin pool. *)
Definition reopen_job (tenant id : string) : M unit :=
  tx (fun _ _ d =>
    (Ok tt, on_sync_jobs (update_where (job_key tenant id)
      (fun r => sj_set_Status "pending" (sj_set_FinishedAt None (sj_set_LastError None r)))) d)).

Definition handleRerunSyncJob (c : Caller) (id : string) : M Response :=
  with_row (GetSyncJob (ca_TenantID c) id) "sync job not found" "failed to reopen sync job"
    (fun job =>
    if sj_Status job =s "running" then mret (error_response 409 "sync job is already running")
    else
      or_500 (reopen_job (sj_TenantID job) (sj_ID job)) "failed to reopen sync job" (fun _ =>
        mret (mkResponse 200 [("status", JStr "pending"); ("id", JStr (sj_ID job))]))).

(** ** router.go: the routes above, with their role gate *)

Inductive Call :=
| ListSyncJobsCall (limit : string) | GetSyncJobCall (id : string)
| CreateSyncJobCall (body : option Json) | RerunSyncJobCall (id : string)
| RetryDLQCall (id : string) | DiscardDLQCall (id : string)
| ListConflictsCall (status limit : string) | GetConflictCall (id : string)
| ResolveConflictCall (id : string) (body : option Json) | DismissConflictCall (id : string)
| CreateReconciliationCall (body : option Json) | ListReconciliationsCall (limit : string)
| GetReconciliationCall (id : string) | ListFindingsCall (id status limit : string)
| ApplyFindingCall (findingID : string) (body : option Json) | DismissFindingCall (findingID : string).

Definition min_role (q : Call) : string :=
  match q with
  | CreateSyncJobCall _ => "DEVELOPER"
  | RerunSyncJobCall _ | RetryDLQCall _ | DiscardDLQCall _ | ResolveConflictCall _ _
  | DismissConflictCall _ | CreateReconciliationCall _ | ApplyFindingCall _ _
  | DismissFindingCall _ => "OPERATOR"
  | _ => "VIEWER"
  end.

(** [requireRole] around an authenticated caller. *)
Definition requireRole (min : string) (c : Caller) (next : M Response) : M Response :=
  if (rank_of (ca_Role c) <? rank_of min)%Z
  then mret (error_response 403 "insufficient role") else next.

Definition handler (c : Caller) (q : Call) : M Response :=
  match q with
  | ListSyncJobsCall limit => handleListSyncJobs c limit
  | GetSyncJobCall id => handleGetSyncJob c id
  | CreateSyncJobCall body => handleCreateSyncJob c body
  | RerunSyncJobCall id => handleRerunSyncJob c id
  | RetryDLQCall id => handleDLQRetry c id
  | DiscardDLQCall id => handleDLQDiscard c id
  | ListConflictsCall status limit => handleListConflicts c status limit
  | GetConflictCall id => handleGetConflict c id
  | ResolveConflictCall id body => handleResolveConflict c id body
  | DismissConflictCall id => handleDismissConflict c id
  | CreateReconciliationCall body => handleCreateReconciliation c body
  | ListReconciliationsCall limit => handleListReconciliations c limit
  | GetReconciliationCall id => handleGetReconciliation c id
  | ListFindingsCall id status limit => handleListReconcileFindings c id status limit
  | ApplyFindingCall id body => handleApplyFinding c id body
  | DismissFindingCall id => handleDismissFinding c id
  end.

Definition serve (c : Caller) (q : Call) : M Response := requireRole (min_role q) c (handler c q).
End operator.
