(* ===== verification/Auth.v ===== *)
(** * [internal/api]: sessions, API keys, users and second factors

    A session token is a base64 text of signed claims that names a row of the
    sessions table; a request authenticates with such a token or with an API
    key, and both reach the same role gate.  bcrypt is a library the program
    calls: class [Bcrypt] stands for it.  What Redis answers to the login
    throttle's [INCR], and what the random source returns, are arguments. *)

From S2P Require Import Prelude Json GoTime Crypto Encoding Totp JsonText Events Tables Effects.
From S2P Require Import Store AuthStore Connectors Ingestion Operator.
Local Open Scope string_scope.

(** [golang.org/x/crypto/bcrypt]: [GenerateFromPassword] (with the salt it
    draws; it fails on long passwords) and [CompareHashAndPassword]. *)
Class Bcrypt := {
  bcrypt_generate : string -> string -> option string;
  bcrypt_compare : string -> string -> bool;
}.

(** What the documentation promises. *)
Class BcryptLaws `{Bcrypt} : Prop := {
  bcrypt_accepts salt p h : bcrypt_generate salt p = Some h -> bcrypt_compare h p = true;
}.

(** The authentication part of the server's configuration. *)
Record AuthConfig := mkAuthConfig {
  ac_AuthSecret : string; ac_LoginThrottlePerMin : Z; ac_LoginLockoutMin : Z;
  ac_LoginMaxFailures : Z; ac_HasCache : bool;
}.

(** ** Tokens *)

(** [sessionTTL]. *)
Definition sessionTTL : Z := 43200000000000.

(** [sessionClaims]. *)
Record sessionClaims := mkClaims {
  cl_JTI : string; cl_UserID : string; cl_TenantID : string; cl_Role : string; cl_Exp : Z;
}.

Definition claims_members (c : sessionClaims) : list (string * Json) :=
  [("jti", JStr (cl_JTI c)); ("uid", JStr (cl_UserID c)); ("tid", JStr (cl_TenantID c));
   ("role", JStr (cl_Role c)); ("exp", JNum (cl_Exp c))].

(** [json.Marshal(claims)] and [json.Unmarshal(raw, &claims)]. *)
Definition encode_claims (c : sessionClaims) : string := object_text (claims_members c).

Definition decode_claims (raw : string) : option sessionClaims :=
  into_struct (fun kvs =>
    jti ← dec_string "jti" kvs;
    uid ← dec_string "uid" kvs;
    tid ← dec_string "tid" kvs;
    role ← dec_string "role" kvs;
    exp ← dec_int64 "exp" kvs;
    Some (mkClaims jti uid tid role exp)) (Unmarshal raw).

(** The HMAC of a token's first part. *)
Definition token_mac (secret part : string) : list Z :=
  hmac sha256 (bytes_of_string secret) (bytes_of_string part).

(** [mintSessionToken]; [t] is the clock. *)
Definition mintSessionToken (secret : string) (t : Z) (u : sessionClaims) : string :=
  let u := mkClaims (cl_JTI u) (cl_UserID u) (cl_TenantID u) (cl_Role u)
             ((t + sessionTTL) / 1000000000) in
  let b64 := b64_encode (bytes_of_string (encode_claims u)) in
  b64 +:+ "." +:+ b64_encode (token_mac secret b64).

(** [strings.Split(token, ".")]. *)
Fixpoint split_dots (s : string) : list string :=
  match s with
  | "" => [""]
  | String c s =>
      if Ascii.eqb c "." then "" :: split_dots s
      else match split_dots s with
           | x :: xs => String c x :: xs
           | [] => [String c ""]
           end
  end.

(** The part of [verifySessionToken] before the database. *)
Definition check_token (secret token : string) (t : Z) : Res sessionClaims :=
  match split_dots token with
  | [part; sig] =>
      match b64_decode part with
      | None => Err (OtherError "malformed token")
      | Some claimsRaw =>
          match b64_decode sig with
          | None => Err (OtherError "invalid token signature")
          | Some want =>
              if negb (bool_decide (want = token_mac secret part))
              then Err (OtherError "invalid token signature")
              else
                match decode_claims (string_of_bytes claimsRaw) with
                | None => Err (OtherError "invalid token claims")
                | Some c =>
                    if (cl_JTI c =s "") || (cl_UserID c =s "") || (cl_TenantID c =s "") ||
                       (cl_Role c =s "")
                    then Err (OtherError "incomplete token claims")
                    else if (cl_Exp c <? t / 1000000000)%Z then Err (OtherError "token expired")
                    else Ok c
                end
          end
      end
  | _ => Err (OtherError "malformed token")
  end.

(** [hashAPIKey] and [backupCodeHash]. *)
Definition hashAPIKey (key : string) : string := sha256_hex key.
Definition backupCodeHash (raw : string) : string := sha256_hex raw.

(** The credentials and the body of a request. *)
Record Req := mkReq {
  rq_Authorization : string; rq_XAPIKey : string; rq_RemoteAddr : string; rq_Body : option Json;
}.

(** [h[:7]] and [h[7:]] of a header longer than seven bytes. *)
Definition bearer_split (h : string) : option (string * string) :=
  if (7 <? String.length h)%nat
  then Some (String.substring 0 7 h, String.substring 7 (String.length h - 7) h) else None.

(** [bearerTokenFrom]: the scheme in any case. *)
Definition bearerTokenFrom (r : Req) : string :=
  match bearer_split (rq_Authorization r) with
  | Some (scheme, token) => if ToLower scheme =s "bearer " then token else ""
  | None => ""
  end.

(** [actorFromRequest]. *)
Definition actorFromRequest (r : Req) : string :=
  match bearer_split (rq_Authorization r) with
  | Some (scheme, token) => if scheme =s "Bearer " then token else rq_XAPIKey r
  | None => rq_XAPIKey r
  end.

(** [loginThrottled]; [incr] is Redis's answer. *)
Definition loginThrottled (cfg : AuthConfig) (incr : option Z) : bool :=
  if (ac_LoginThrottlePerMin cfg <=? 0)%Z || negb (ac_HasCache cfg) then false
  else match incr with
       | None => false
       | Some n => (ac_LoginThrottlePerMin cfg <? n)%Z
       end.

Section auth.
Context `{Outside} `{Bcrypt} (cfg : AuthConfig).

(** [verifySessionToken]. *)
Definition verifySessionToken (token : string) : M sessionClaims :=
  t ← now;
  match check_token (ac_AuthSecret cfg) token t with
  | Err e => throw e
  | Ok c =>
      r ← attempt (GetLiveSession (cl_TenantID c) (cl_JTI c));
      match r with
      | Err _ => throw (OtherError "session revoked or expired")
      | Ok _ => mret c
      end
  end.

(** ** Middleware: the caller, or the answer that refuses the request *)

(** [requireUser]. *)
Definition requireUser (r : Req) : M (Response + Caller) :=
  let token := bearerTokenFrom r in
  if token =s "" then mret (inl (error_response 401 "missing bearer token"))
  else
    x ← attempt (verifySessionToken token);
    match x with
    | Err _ => mret (inl (error_response 401 "invalid or expired session token"))
    | Ok c => mret (inr (mkCaller (cl_TenantID c) (cl_Role c) ("user:" +:+ cl_UserID c) ""
                           (cl_UserID c)))
    end.

(** [requireAPIKey]. *)
Definition requireAPIKey (r : Req) : M (Response + Caller) :=
  let key := actorFromRequest r in
  if key =s "" then mret (inl (error_response 401 "missing api key"))
  else
    x ← attempt (VerifyAPIKey (hashAPIKey key));
    match x with
    | Err ErrNotFound => mret (inl (error_response 401 "invalid api key"))
    | Err _ => mret (inl (error_response 500 "auth backend error"))
    | Ok k => mret (inr (mkCaller (ak_TenantID k) (ak_Role k) ("key:" +:+ ak_Name k) (ak_ID k) ""))
    end.

(** [authenticate]. *)
Definition authenticate (r : Req) : M (Response + Caller) :=
  if negb (bearerTokenFrom r =s "") then requireUser r else requireAPIKey r.

(** A middleware in front of a handler. *)
Definition behind (mw : M (Response + Caller)) (next : Caller -> M Response) : M Response :=
  x ← mw;
  match x with
  | inl resp => mret resp
  | inr c => next c
  end.

(** ** Signing in and out *)

(** [auditLogin]: best effort. *)
Definition auditLogin (tenant action email : string) (meta : list (string * Json)) : M unit :=
  ignore (InsertAuditLog tenant
            (mkAuditLog "" (if tenant =s "" then None else Some tenant) email action "auth" ""
               (list_to_map meta) 0)).

(** [loginFailure]. *)
Definition loginFailure (r : Req) (tenant slug email reason : string) : M unit :=
  (if negb (tenant =s "")
   then ignore (RecordLoginAttempt (mkLoginAttempt "" tenant email (rq_RemoteAddr r) false 0))
   else mret tt);;
  auditLogin tenant "auth.login_failed" email
    [("tenant_slug", JStr slug); ("reason", JStr reason)].

(** The server-side session and the token that names it. *)
Definition new_session (user tenant role : string) : M (Session * string) :=
  jti ← new_uuid;
  t ← now;
  sess ← CreateSession (mkSession "" jti user tenant role 0 (t + sessionTTL) None);
  mret (sess, mintSessionToken (ac_AuthSecret cfg) t (mkClaims (ss_JTI sess) user tenant role 0)).

Definition token_body (token : string) : list (string * Json) :=
  [("token", JStr token); ("token_type", JStr "Bearer"); ("expires_in", JNum 43200)].

(** [handleLogin] once the password is right: the second factor. *)
Definition second_factor (user : User) (code : string) : M (Res unit) :=
  if us_TOTPEnabled user then
    if code =s "" then mret (Err (OtherError "mfa code required"))
    else
      t ← now;
      match Validate (us_TOTPSecret user) code t with
      | Some true => mret (Ok tt)
      | _ =>
          x ← attempt (ConsumeBackupCode (us_TenantID user) (us_ID user) (backupCodeHash code));
          match x with
          | Ok true => mret (Ok tt)
          | _ => mret (Err (OtherError "invalid mfa code"))
          end
      end
  else mret (Ok tt).

(** [handleLogin] once both factors are right. *)
Definition login_succeeds (user : User) (email : string) : M Response :=
  ignore (ClearLoginFailures (us_TenantID user) email);;
  x ← attempt (new_session (us_ID user) (us_TenantID user) (us_Role user));
  match x with
  | Err _ => mret (error_response 500 "failed to issue session")
  | Ok (_, token) =>
      auditLogin (us_TenantID user) "auth.login" (us_Email user) [("role", JStr (us_Role user))];;
      mret (mkResponse 200 (token_body token ++
        [("user", JObj [("id", JStr (us_ID user)); ("email", JStr (us_Email user));
                        ("role", JStr (us_Role user))])])%list)
  end.

(** [loginRequest], decoded and complete. *)
Definition login_request (body : option Json) : option (string * string * string * string) :=
  match into_struct (fun kvs =>
          slug ← dec_string "tenant_slug" kvs;
          email ← dec_string "email" kvs;
          password ← dec_string "password" kvs;
          code ← dec_string "code" kvs;
          Some (slug, email, password, code)) body with
  | Some (slug, email, password, code) =>
      if (slug =s "") || (email =s "") || (password =s "") then None
      else Some (slug, email, password, code)
  | None => None
  end.

(** [handleLogin] for an account that is not locked. *)
Definition login_unlocked (r : Req) (tenant slug email password code : string) : M Response :=
  x ← attempt (GetUserByEmail tenant email);
  match x with
  | Err _ =>
      loginFailure r tenant slug email "unknown_user";;
      mret (error_response 401 "invalid credentials")
  | Ok user =>
      if negb (bcrypt_compare (us_PasswordHash user) password) then
        loginFailure r tenant slug email "bad_password";;
        mret (error_response 401 "invalid credentials")
      else
        m ← second_factor user code;
        match m with
        | Ok _ => login_succeeds user email
        | Err e =>
            loginFailure r tenant slug email
              (if code =s "" then "mfa_code_required" else "bad_mfa_code");;
            mret (error_response 401 (Error e))
        end
  end.

Definition lockout_window : Z := wrap64 (ac_LoginLockoutMin cfg * 60000000000).

(** [handleLogin]. *)
Definition handleLogin (r : Req) (incr : option Z) : M Response :=
  match login_request (rq_Body r) with
  | None => mret (error_response 400 "tenant_slug, email and password are required")
  | Some (slug, email, password, code) =>
      if loginThrottled cfg incr
      then mret (error_response 429 "too many login attempts, try again later")
      else
        x ← attempt (GetTenantBySlug slug);
        match x with
        | Err _ =>
            loginFailure r "" slug email "unknown_tenant";;
            mret (error_response 401 "invalid credentials")
        | Ok tenant =>
            n ← attempt (CountRecentFailures (tn_ID tenant) email lockout_window);
            if match n with Ok n => (ac_LoginMaxFailures cfg <=? n)%Z | Err _ => false end then
              auditLogin (tn_ID tenant) "auth.login_failed" email
                [("tenant_slug", JStr slug); ("reason", JStr "account_locked")];;
              mret (error_response 429 "account temporarily locked after too many failed attempts")
            else login_unlocked r (tn_ID tenant) slug email password code
        end
  end.

(** [handleLogout]. *)
Definition handleLogout (r : Req) : M Response :=
  x ← attempt (verifySessionToken (bearerTokenFrom r));
  match x with
  | Err _ => mret (mkResponse 200 [("status", JStr "logged_out")])
  | Ok c =>
      or_500 (RevokeSession (cl_TenantID c) (cl_JTI c)) "failed to log out" (fun _ =>
        auditLogin (cl_TenantID c) "auth.logout" ("user:" +:+ cl_UserID c) [];;
        mret (mkResponse 200 [("status", JStr "logged_out")]))
  end.

(** [handleRefresh]. *)
Definition handleRefresh (r : Req) : M Response :=
  x ← attempt (verifySessionToken (bearerTokenFrom r));
  match x with
  | Err _ => mret (error_response 401 "invalid or expired session token")
  | Ok c =>
      or_500 (RevokeSession (cl_TenantID c) (cl_JTI c)) "failed to refresh session" (fun _ =>
      or_500 (new_session (cl_UserID c) (cl_TenantID c) (cl_Role c)) "failed to refresh session"
        (fun st =>
        auditLogin (cl_TenantID c) "auth.refresh" ("user:" +:+ cl_UserID c) [];;
        mret (mkResponse 200 (token_body st.2))))
  end.
End auth.
