(* ===== verification/Accounts.v ===== *)
(** * [internal/api]: managing users, API keys, sessions and second factors

    The handlers behind [requireRole("ADMIN")] and [requireUser], with the
    routes that lead to them.  Random bytes are arguments ([None]: the source
    failed), and so is the salt bcrypt draws. *)

From S2P Require Import Prelude Json GoTime Crypto Encoding Totp JsonText Events Tables Effects.
From S2P Require Import Store AuthStore Connectors Ingestion Operator Auth.
Local Open Scope string_scope.

(** ** Rendering *)

(** [User]'s JSON: hash, secret and backup codes stay out of it. *)
Definition render_user (u : User) : Json :=
  JObj [("id", JStr (us_ID u)); ("tenant_id", JStr (us_TenantID u)); ("email", JStr (us_Email u));
        ("role", JStr (us_Role u)); ("totp_enabled", JBool (us_TOTPEnabled u));
        ("created_at", time_json (us_CreatedAt u))].

Definition render_key (k : APIKey) : Json :=
  JObj [("id", JStr (ak_ID k)); ("tenant_id", JStr (ak_TenantID k)); ("name", JStr (ak_Name k));
        ("role", JStr (ak_Role k)); ("enabled", JBool (ak_Enabled k));
        ("created_at", time_json (ak_CreatedAt k))].

Definition render_session (s : Session) : Json :=
  JObj ([("id", JStr (ss_ID s)); ("jti", JStr (ss_JTI s)); ("user_id", JStr (ss_UserID s));
         ("tenant_id", JStr (ss_TenantID s)); ("role", JStr (ss_Role s));
         ("created_at", time_json (ss_CreatedAt s)); ("expires_at", time_json (ss_ExpiresAt s))] ++
        match ss_RevokedAt s with Some t => [("revoked_at", time_json t)] | None => [] end)%list.

(** [newRawAPIKey]. *)
Definition newRawAPIKey (buf : option (list Z)) : option string :=
  match buf with Some b => Some ("sfk_" +:+ hex_encode b) | None => None end.

(** One backup code: [XXXX-XXXX] from five bytes. *)
Definition backup_code (buf : list Z) : string :=
  let s := b32_encode buf in
  String.substring 0 4 s +:+ "-" +:+ String.substring 4 4 s.

(** [newBackupCodes]: the codes and their hashes. *)
Definition newBackupCodes (bufs : option (list (list Z))) : option (list string * list string) :=
  match bufs with
  | Some bs => let raw := backup_code <$> bs in Some (raw, backupCodeHash <$> raw)
  | None => None
  end.

Section accounts.
Context `{Outside} `{Bcrypt} (cfg : AuthConfig).

(** A role a handler is asked to give: known, and not above the caller's. *)
Definition grantable (c : Caller) (role denied : string) (k : M Response) : M Response :=
  match roleRank role with
  | None => mret (error_response 400 "role must be ADMIN, OPERATOR, DEVELOPER, or VIEWER")
  | Some rank =>
      if (rank_of (ca_Role c) <? rank)%Z then mret (error_response 403 denied) else k
  end.

(** [bcrypt.GenerateFromPassword], with its failure answered 500. *)
Definition with_hash (salt password failed : string) (k : string -> M Response) : M Response :=
  match bcrypt_generate salt password with
  | None => mret (error_response 500 failed)
  | Some h => k h
  end.

(** ** users.go *)

Definition handleCreateUser (c : Caller) (body : option Json) (salt : string) : M Response :=
  match into_struct (fun kvs =>
          email ← dec_string "email" kvs;
          password ← dec_string "password" kvs;
          role ← dec_string "role" kvs;
          Some (email, password, role)) body with
  | None => mret (error_response 400 "email and password are required")
  | Some (email, password, role) =>
      if (email =s "") || (password =s "")
      then mret (error_response 400 "email and password are required")
      else
        grantable c role "cannot create a user above your own role"
          (with_hash salt password "failed to create user" (fun hash =>
             x ← attempt (CreateUser (ca_TenantID c) email hash role);
             match x with
             | Err ErrExists => mret (error_response 409 "user already exists")
             | Err _ => mret (error_response 500 "failed to create user")
             | Ok u =>
                 audit c "user.create" "user" (us_ID u)
                   [("email", JStr (us_Email u)); ("role", JStr (us_Role u))];;
                 mret (mkResponse 201 (body_of (render_user u)))
             end))
  end.

Definition handleListUsers (c : Caller) : M Response :=
  or_500 (ListUsers (ca_TenantID c)) "failed to list users"
    (fun us => mret (mkResponse 200 [("users", render_list render_user us)])).

(** [store.GetUser] in front of a handler: any error is answered 404. *)
Definition with_user (tenant id : string) (k : User -> M Response) : M Response :=
  x ← attempt (GetUser tenant id);
  match x with
  | Err _ => mret (error_response 404 "user not found")
  | Ok u => k u
  end.

Definition handleChangePassword (c : Caller) (r : Req) (salt : string) : M Response :=
  let tenant := ca_TenantID c in
  let userID := ca_UserID c in
  if userID =s "" then mret (error_response 401 "user session required")
  else
    match into_struct (fun kvs =>
            current ← dec_string "current_password" kvs;
            new ← dec_string "new_password" kvs;
            Some (current, new)) (rq_Body r) with
    | None => mret (error_response 400 "current_password and new_password are required")
    | Some (current, new) =>
        if (current =s "") || (new =s "")
        then mret (error_response 400 "current_password and new_password are required")
        else
          with_user tenant userID (fun user =>
            if negb (bcrypt_compare (us_PasswordHash user) current)
            then mret (error_response 401 "current password is incorrect")
            else
              with_hash salt new "failed to change password" (fun hash =>
                or_500 (SetUserPassword tenant userID hash) "failed to change password" (fun _ =>
                  x ← attempt (verifySessionToken cfg (bearerTokenFrom r));
                  match x with
                  | Ok claims => ignore (RevokeSession tenant (cl_JTI claims))
                  | Err _ => mret tt
                  end;;
                  ignore (RevokeUserSessions tenant userID);;
                  audit c "user.change_password" "user" userID [];;
                  mret (mkResponse 200 [("status", JStr "password_changed");
                                        ("sessions_revoked", JBool true)]))))
    end.

Definition handleResetPassword (c : Caller) (targetID : string) (body : option Json) (salt : string)
    : M Response :=
  let tenant := ca_TenantID c in
  match into_struct (dec_string "new_password") body with
  | None => mret (error_response 400 "new_password is required")
  | Some new =>
      if new =s "" then mret (error_response 400 "new_password is required")
      else
        with_user tenant targetID (fun _ =>
          with_hash salt new "failed to reset password" (fun hash =>
            or_500 (SetUserPassword tenant targetID hash) "failed to reset password" (fun _ =>
              ignore (RevokeUserSessions tenant targetID);;
              audit c "user.reset_password" "user" targetID [];;
              mret (mkResponse 200 [("status", JStr "password_reset");
                                    ("sessions_revoked", JBool true)]))))
  end.

Definition handleChangeRole (c : Caller) (targetID : string) (body : option Json) : M Response :=
  let tenant := ca_TenantID c in
  match into_struct (dec_string "role") body with
  | None => mret (error_response 400 "role is required")
  | Some role =>
      if role =s "" then mret (error_response 400 "role is required")
      else
        grantable c role "cannot grant a role above your own"
          (with_user tenant targetID (fun target =>
             or_500 (SetUserRole tenant targetID role) "failed to change role" (fun _ =>
               audit c "user.change_role" "user" targetID
                 [("from", JStr (us_Role target)); ("to", JStr role)];;
               mret (mkResponse 200 [("status", JStr "role_changed"); ("id", JStr targetID);
                                     ("role", JStr role)]))))
  end.

(** ** sessions.go: the administrator's view *)

Definition handleListSessions (c : Caller) (limit : string) : M Response :=
  or_500 (ListSessions (ca_TenantID c) (limit_param limit)) "failed to list sessions"
    (fun ss => mret (mkResponse 200 [("sessions", render_list render_session ss);
                                     ("count", JNum (Z.of_nat (length ss)))])).

Definition handleRevokeUserSessions (c : Caller) (targetID : string) : M Response :=
  with_user (ca_TenantID c) targetID (fun _ =>
    or_500 (RevokeUserSessions (ca_TenantID c) targetID) "failed to revoke sessions" (fun _ =>
      audit c "user.revoke_sessions" "user" targetID [];;
      mret (mkResponse 200 [("status", JStr "sessions_revoked"); ("id", JStr targetID)]))).

(** ** keys.go *)

Definition handleCreateAPIKey (c : Caller) (body : option Json) (buf : option (list Z)) : M Response :=
  match into_struct (fun kvs =>
          name ← dec_string "name" kvs;
          role ← dec_string "role" kvs;
          Some (name, role)) body with
  | None => mret (error_response 400 "name is required")
  | Some (name, role) =>
      if name =s "" then mret (error_response 400 "name is required")
      else
        grantable c role "cannot mint a key above your own role"
          (match newRawAPIKey buf with
           | None => mret (error_response 500 "failed to generate api key")
           | Some raw =>
               or_500 (CreateTenantAPIKey (ca_TenantID c) name role (hashAPIKey raw))
                 "failed to create api key" (fun k =>
                 audit c "key.create" "api_key" (ak_ID k)
                   [("name", JStr (ak_Name k)); ("role", JStr (ak_Role k))];;
                 mret (mkResponse 201 (body_of (render_key k) ++ [("api_key", JStr raw)])%list))
           end)
  end.

Definition handleListAPIKeys (c : Caller) : M Response :=
  or_500 (ListAPIKeys (ca_TenantID c)) "failed to list api keys"
    (fun ks => mret (mkResponse 200 [("keys", render_list render_key ks)])).

Definition handleRevokeAPIKey (c : Caller) (id : string) : M Response :=
  if id =s ca_KeyID c
  then mret (error_response 400 "cannot revoke the key used for this request")
  else
    with_row (RevokeAPIKey (ca_TenantID c) id) "api key not found" "failed to revoke api key"
      (fun _ =>
      audit c "key.revoke" "api_key" id [];;
      mret (mkResponse 200 [("status", JStr "revoked"); ("id", JStr id)])).

(** ** mfa.go *)

Definition handleMFAEnroll (c : Caller) (buf : option (list Z)) : M Response :=
  let tenant := ca_TenantID c in
  let userID := ca_UserID c in
  if userID =s "" then mret (error_response 401 "user session required")
  else
    match buf with
    | None => mret (error_response 500 "failed to enroll mfa")
    | Some raw =>
        let secret := NewSecret raw in
        or_500 (SetTOTPSecret tenant userID secret) "failed to enroll mfa" (fun _ =>
          ignore (SetTOTPEnabled tenant userID false);;
          let email := if ca_Actor c =s "" then "user:" +:+ userID else ca_Actor c in
          audit c "mfa.enroll" "user" userID [];;
          mret (mkResponse 200 [("secret", JStr secret);
                                ("otpauth", JStr (URI "SyncForge" email secret));
                                ("enabled", JBool false); ("confirmed", JBool false)]))
    end.

(** The code of a request, checked against the user's secret: what
    [handleMFAConfirm] and [handleMFADisable] start with. *)
Definition with_code (c : Caller) (body : option Json) (failed : string) (wrong : M unit)
    (k : M Response) : M Response :=
  if ca_UserID c =s "" then mret (error_response 401 "user session required")
  else
    match into_struct (dec_string "code") body with
    | None => mret (error_response 400 "code is required")
    | Some code =>
        if code =s "" then mret (error_response 400 "code is required")
        else
          x ← attempt (GetUserTOTPSecret (ca_TenantID c) (ca_UserID c));
          match x with
          | Err _ => mret (error_response 400 "mfa not enrolled")
          | Ok secret =>
              if secret =s "" then mret (error_response 400 "mfa not enrolled")
              else
                t ← now;
                match Validate secret code t with
                | None => mret (error_response 500 failed)
                | Some false => wrong;; mret (error_response 401 "invalid code")
                | Some true => k
                end
          end
    end.

Definition handleMFAConfirm (c : Caller) (body : option Json) : M Response :=
  with_code c body "failed to confirm mfa" (audit c "mfa.confirm_failed" "user" (ca_UserID c) [])
    (or_500 (SetTOTPEnabled (ca_TenantID c) (ca_UserID c) true) "failed to confirm mfa" (fun _ =>
       audit c "mfa.confirm" "user" (ca_UserID c) [];;
       mret (mkResponse 200 [("enabled", JBool true); ("confirmed", JBool true)]))).

Definition handleMFADisable (c : Caller) (body : option Json) : M Response :=
  with_code c body "failed to disable mfa" (mret tt)
    (or_500 (SetTOTPEnabled (ca_TenantID c) (ca_UserID c) false) "failed to disable mfa" (fun _ =>
       audit c "mfa.disable" "user" (ca_UserID c) [];;
       mret (mkResponse 200 [("enabled", JBool false)]))).

Definition handleMFABackupCodes (c : Caller) (bufs : option (list (list Z))) : M Response :=
  if ca_UserID c =s "" then mret (error_response 401 "user session required")
  else
    match newBackupCodes bufs with
    | None => mret (error_response 500 "failed to generate backup codes")
    | Some (raw, hashed) =>
        or_500 (SetBackupCodes (ca_TenantID c) (ca_UserID c) hashed)
          "failed to generate backup codes" (fun _ =>
          audit c "mfa.backup_codes" "user" (ca_UserID c) [("count", JNum (Z.of_nat (length raw)))];;
          mret (mkResponse 200 [("codes", JArr (JStr <$> raw)); ("shown_once", JBool true);
                                ("single_use", JBool true); ("expires_never", JBool true)]))
    end.

(** ** router.go: these routes *)

Inductive AccountCall :=
| CreateUserCall (salt : string) | ListUsersCall
| ResetPasswordCall (id salt : string) | ChangeRoleCall (id : string)
| RevokeUserSessionsCall (id : string) | ListSessionsCall (limit : string)
| CreateKeyCall (buf : option (list Z)) | ListKeysCall | RevokeKeyCall (id : string)
| ChangePasswordCall (salt : string)
| EnrollCall (buf : option (list Z)) | ConfirmCall | DisableCall
| BackupCodesCall (bufs : option (list (list Z))).

(** The self-service routes need a user session, the others an administrator. *)
Definition self_service (q : AccountCall) : bool :=
  match q with
  | ChangePasswordCall _ | EnrollCall _ | ConfirmCall | DisableCall | BackupCodesCall _ => true
  | _ => false
  end.

Definition account_handler (r : Req) (q : AccountCall) (c : Caller) : M Response :=
  match q with
  | CreateUserCall salt => handleCreateUser c (rq_Body r) salt
  | ListUsersCall => handleListUsers c
  | ResetPasswordCall id salt => handleResetPassword c id (rq_Body r) salt
  | ChangeRoleCall id => handleChangeRole c id (rq_Body r)
  | RevokeUserSessionsCall id => handleRevokeUserSessions c id
  | ListSessionsCall limit => handleListSessions c limit
  | CreateKeyCall buf => handleCreateAPIKey c (rq_Body r) buf
  | ListKeysCall => handleListAPIKeys c
  | RevokeKeyCall id => handleRevokeAPIKey c id
  | ChangePasswordCall salt => handleChangePassword c r salt
  | EnrollCall buf => handleMFAEnroll c buf
  | ConfirmCall => handleMFAConfirm c (rq_Body r)
  | DisableCall => handleMFADisable c (rq_Body r)
  | BackupCodesCall bufs => handleMFABackupCodes c bufs
  end.

Definition serve_account (r : Req) (q : AccountCall) : M Response :=
  if self_service q then behind (requireUser cfg r) (account_handler r q)
  else behind (authenticate cfg r) (fun c => requireRole "ADMIN" c (account_handler r q c)).

(** The operator's routes behind the same credentials. *)
Definition serve_operator (scfg : ServerConfig) (jsonb_out : Json -> string) (r : Req) (q : Call)
    : M Response :=
  behind (authenticate cfg r) (fun c => serve scfg jsonb_out c q).
End accounts.
