(* ===== verification/Admin.v ===== *)
(** * [internal/api]: provisioning and inspection

    Tenants, connections, the audit trail, the ledger of applied writes,
    ingested events and dead letters behind their role gates, and the demo
    tenant a development server seeds at its start.  Random bytes are
    arguments ([None]: the source failed). *)

From S2P Require Import Prelude Json GoTime Crypto Encoding Totp JsonText Events Tables Effects.
From S2P Require Import Store AuthStore TenantStore Connectors Ingestion Operator Auth Accounts.
Local Open Scope string_scope.

(** ** Rendering *)

Definition render_tenant (t : Tenant) : Json :=
  JObj [("id", JStr (tn_ID t)); ("name", JStr (tn_Name t)); ("slug", JStr (tn_Slug t));
        ("status", JStr (tn_Status t)); ("created_at", time_json (tn_CreatedAt t))].

Definition render_connection (c : Connection) : Json :=
  JObj [("id", JStr (cn_ID c)); ("tenant_id", JStr (cn_TenantID c)); ("name", JStr (cn_Name c));
        ("provider", JStr (cn_Provider c)); ("base_url", JStr (cn_BaseURL c)); ("status", JStr (cn_Status c));
        ("webhook_secret", JStr (cn_WebhookSecret c)); ("config", of_fields (cn_Config c));
        ("created_at", time_json (cn_CreatedAt c)); ("updated_at", time_json (cn_UpdatedAt c));
        ("last_health_check", opt_json time_json (cn_LastHealthCheck c))].

(** [omitempty] leaves out an absent tenant, an empty resource id and an empty map. *)
Definition render_audit (a : AuditLog) : Json :=
  JObj ([("id", JStr (au_ID a))] ++
        match au_TenantID a with Some t => [("tenant_id", JStr t)] | None => [] end ++
        [("actor", JStr (au_Actor a)); ("action", JStr (au_Action a)); ("resource", JStr (au_Resource a))] ++
        (if au_ResourceID a =s "" then [] else [("resource_id", JStr (au_ResourceID a))]) ++
        (if bool_decide (au_Metadata a = ∅) then [] else [("metadata", of_fields (au_Metadata a))]) ++
        [("created_at", time_json (au_CreatedAt a))])%list.

Definition render_operation (o : SyncOperation) : Json :=
  JObj ([("id", JStr (so_ID o)); ("tenant_id", JStr (so_TenantID o)); ("entity_type", JStr (so_EntityType o));
         ("entity_id", JStr (so_EntityID o)); ("source", JStr (so_Source o));
         ("target_source", JStr (so_TargetSource o))] ++
        (if so_EventID o =s "" then [] else [("event_id", JStr (so_EventID o))]) ++
        [("applied_version", JNum (so_AppliedVersion o)); ("fingerprint", JStr (so_Fingerprint o));
         ("created_at", time_json (so_CreatedAt o))])%list.

(** [SourceEvent] has no tags: its members have the fields' names. *)
Definition render_source_event (e : SourceEvent) : Json :=
  JObj [("ID", JStr (se_ID e)); ("TenantID", JStr (se_TenantID e)); ("Source", JStr (se_Source e));
        ("EventID", JStr (se_EventID e)); ("EntityType", JStr (se_EntityType e));
        ("EntityID", JStr (se_EntityID e)); ("EventType", JStr (se_EventType e));
        ("SourceVersion", JNum (se_SourceVersion e)); ("OccurredAt", opt_json time_json (se_OccurredAt e));
        ("ReceivedAt", time_json (se_ReceivedAt e)); ("CorrelationID", JStr (se_CorrelationID e));
        ("Provenance", of_fields (se_Provenance e)); ("Raw", of_fields (se_Raw e));
        ("Status", JStr (se_Status e))].

(** [base64.StdEncoding], the JSON of a byte slice: the other two characters,
    and padding to a multiple of four. *)
Definition std_char (c : ascii) : ascii :=
  if Ascii.eqb c "-" then "+"%char else if Ascii.eqb c "_" then "/"%char else c.
Definition StdEncoding (l : list Z) : string :=
  let s := str_map std_char (b64_encode l) in s +:+ str_repeat "=" ((4 - String.length s mod 4) mod 4).

(** [DeadLetter]'s JSON: the payload is the bytes PostgreSQL returned. *)
Definition render_dead_letter (jsonb_out : Json -> string) (d : DeadLetter) : Json :=
  JObj [("id", JStr (dl_ID d)); ("tenant_id", JStr (dl_TenantID d)); ("event_id", JStr (dl_EventID d));
        ("reason", JStr (dl_Reason d)); ("error_class", JStr (dl_ErrorClass d));
        ("payload", JStr (StdEncoding (bytes_of_string (jsonb_out (dl_Payload d)))));
        ("status", JStr (dl_Status d)); ("created_at", time_json (dl_CreatedAt d));
        ("resolved_at", opt_json time_json (dl_ResolvedAt d))].

(** The answer to a listing, with its count. *)
Definition items_body {A} (f : A -> Json) (l : list A) : list (string * Json) :=
  [("items", render_list f l); ("count", JNum (Z.of_nat (length l)))].

(** A member that is a JSON object: absent or [null] is the nil map. *)
Definition dec_object (k : string) (kvs : list (string * Json)) : option Fields :=
  match jlookup k kvs with
  | None | Some JNull => Some ∅
  | Some j => as_object j
  end.

(** What the server is configured with for the demo tenant. *)
Record SeedConfig := mkSeedConfig {
  sd_SFBaseURL : string; sd_HubBaseURL : string; sd_SFSecret : string; sd_HubSecret : string;
}.

Definition demoAPIKey : string := "sfk_acme_dev".
Definition demoUserEmail : string := "admin@acme.dev".
Definition demoUserPassword : string := "syncforge-demo".

(** [createTenantRequest], decoded and complete. *)
Definition tenant_request (body : option Json) : option (string * string) :=
  into_struct (fun kvs =>
    name ← dec_string "name" kvs;
    slug ← dec_string "slug" kvs;
    if (name =s "") || (slug =s "") then None else Some (name, slug)) body.

Section admin.
Context `{Outside} `{Bcrypt} (jsonb_out : Json -> string).

(** ** tenants.go *)

Definition handleCreateTenant (body : option Json) (buf : option (list Z)) : M Response :=
  match tenant_request body with
  | None => mret (error_response 400 "name and slug are required")
  | Some (name, slug) =>
      r ← attempt (CreateTenant name slug);
      match r with
      | Err ErrExists => mret (error_response 409 "tenant slug already exists")
      | Err _ => mret (error_response 500 "failed to create tenant")
      | Ok t =>
          match newRawAPIKey buf with
          | None => mret (error_response 500 "failed to provision admin key")
          | Some raw =>
              or_500 (CreateAPIKey (tn_ID t) "initial-admin" "ADMIN" (hashAPIKey raw))
                "failed to provision admin key" (fun _ =>
                mret (mkResponse 201 (body_of (render_tenant t) ++ [("api_key", JStr raw)])%list))
          end
      end
  end.

Definition handleListTenants : M Response :=
  or_500 ListTenants "failed to list tenants"
    (fun ts => mret (mkResponse 200 [("tenants", render_list render_tenant ts)])).

(** ** connections.go *)

Definition handleCreateConnection (c : Caller) (body : option Json) : M Response :=
  match into_struct (fun kvs =>
          name ← dec_string "name" kvs;
          provider ← dec_string "provider" kvs;
          base ← dec_string "base_url" kvs;
          secret ← dec_string "webhook_secret" kvs;
          config ← dec_object "config" kvs;
          if (name =s "") || (provider =s "") || (base =s "") then None
          else Some (name, provider, base, secret, config)) body with
  | None => mret (error_response 400 "name, provider and base_url are required")
  | Some (name, provider, base, secret, config) =>
      or_500 (CreateConnection (mkConnection "" (ca_TenantID c) name provider base "disconnected" secret
                config 0 0 None)) "failed to create connection"
        (fun conn => mret (mkResponse 201 (body_of (render_connection conn))))
  end.

Definition handleListConnections (c : Caller) : M Response :=
  or_500 (ListConnections (ca_TenantID c)) "failed to list connections"
    (fun cs => mret (mkResponse 200 [("connections", render_list render_connection cs)])).

Definition handleGetConnection (c : Caller) (id : string) : M Response :=
  with_row (GetConnection (ca_TenantID c) id) "connection not found" "failed to get connection"
    (fun conn => mret (mkResponse 200 (body_of (render_connection conn)))).

(** ** audit.go *)

Definition handleListAudit (c : Caller) (actor action resource limit : string) : M Response :=
  or_500 (ListAuditLogs (ca_TenantID c) actor action resource (limit_param limit)) "failed to list audit log"
    (fun items => mret (mkResponse 200 (items_body render_audit items))).

Definition handleListOperations (c : Caller) (entityType entityID target limit : string) : M Response :=
  or_500 (ListSyncOperations (ca_TenantID c) entityType entityID target (limit_param limit))
    "failed to list sync operations"
    (fun items => mret (mkResponse 200 (items_body render_operation items))).

(** ** syncevents.go *)

Definition handleListSyncEvents (c : Caller) (limit : string) : M Response :=
  or_500 (ListSourceEvents (ca_TenantID c) (limit_param limit)) "failed to list sync events"
    (fun evs => mret (mkResponse 200 [("events", render_list render_source_event evs)])).

Definition handleGetSyncEvent (c : Caller) (id : string) : M Response :=
  with_row (GetSourceEvent (ca_TenantID c) id) "event not found" "failed to get sync event"
    (fun ev => mret (mkResponse 200 (body_of (render_source_event ev)))).

(** ** dlq.go: inspection *)

Definition handleListDLQ (c : Caller) (status limit : string) : M Response :=
  or_500 (ListDeadLetters (ca_TenantID c) status (limit_param limit)) "failed to list dead letters"
    (fun items => mret (mkResponse 200 (items_body (render_dead_letter jsonb_out) items))).

Definition handleGetDLQ (c : Caller) (id : string) : M Response :=
  with_row (GetDeadLetter (ca_TenantID c) id) "dead letter not found" "failed to get dead letter"
    (fun item => mret (mkResponse 200 (body_of (render_dead_letter jsonb_out item)))).

(** ** router.go: the routes above, with their role gate *)

Inductive AdminCall :=
| CreateTenantCall (body : option Json) (buf : option (list Z)) | ListTenantsCall
| CreateConnectionCall (body : option Json) | ListConnectionsCall | GetConnectionCall (id : string)
| ListAuditCall (actor action resource limit : string)
| ListOperationsCall (entityType entityID target limit : string)
| ListSyncEventsCall (limit : string) | GetSyncEventCall (id : string)
| ListDLQCall (status limit : string) | GetDLQCall (id : string).

Definition admin_role (q : AdminCall) : string :=
  match q with
  | CreateTenantCall _ _ | ListTenantsCall => "ADMIN"
  | CreateConnectionCall _ => "DEVELOPER"
  | _ => "VIEWER"
  end.

Definition admin_handler (c : Caller) (q : AdminCall) : M Response :=
  match q with
  | CreateTenantCall body buf => handleCreateTenant body buf
  | ListTenantsCall => handleListTenants
  | CreateConnectionCall body => handleCreateConnection c body
  | ListConnectionsCall => handleListConnections c
  | GetConnectionCall id => handleGetConnection c id
  | ListAuditCall actor action resource limit => handleListAudit c actor action resource limit
  | ListOperationsCall et eid target limit => handleListOperations c et eid target limit
  | ListSyncEventsCall limit => handleListSyncEvents c limit
  | GetSyncEventCall id => handleGetSyncEvent c id
  | ListDLQCall status limit => handleListDLQ c status limit
  | GetDLQCall id => handleGetDLQ c id
  end.

Definition serve_admin (cfg : AuthConfig) (r : Req) (q : AdminCall) : M Response :=
  behind (authenticate cfg r) (fun c => requireRole (admin_role q) c (admin_handler c q)).

(** ** seed.go *)

(** A row looked up and created when it is not there; another failure of the
    lookup is passed over. *)
Definition ensure {A B} (get : M A) (create : M B) : M unit :=
  r ← attempt get;
  match r with
  | Err ErrNotFound => create;; mret tt
  | _ => mret tt
  end.

(** A policy of the demo tenant. *)
Definition demo_policy (tenant source destination : string) (priority : Z) : SyncPolicy :=
  mkSyncPolicy "" tenant "customer" source destination "bidirectional" "field_merge" "propagate"
    "exponential_backoff" priority true 0 0.

(** The demo tenant: found or created.  A slug taken in between leaves the zero
    tenant. *)
Definition seed_tenant : M Tenant :=
  r ← attempt (GetTenantBySlug "acme");
  match r with
  | Ok t => mret t
  | Err ErrNotFound =>
      r ← attempt (CreateTenant "Acme Corp" "acme");
      match r with
      | Ok t => mret t
      | Err ErrExists => mret (mkTenant "" "" "" "" time_zero)
      | Err e => throw e
      end
  | Err e => throw e
  end.

(** [seed]; [salt] is bcrypt's. *)
Definition seed (cfg : SeedConfig) (salt : string) : M unit :=
  tenant ← seed_tenant;
  ensure (GetConnectionByProvider (tn_ID tenant) "salesforce")
    (CreateConnection (mkConnection "" (tn_ID tenant) "Salesforce (simulated)" "salesforce" (sd_SFBaseURL cfg)
       "disconnected" (sd_SFSecret cfg) ∅ 0 0 None));;
  ensure (GetConnectionByProvider (tn_ID tenant) "hubspot")
    (CreateConnection (mkConnection "" (tn_ID tenant) "HubSpot (simulated)" "hubspot" (sd_HubBaseURL cfg)
       "disconnected" (sd_HubSecret cfg) ∅ 0 0 None));;
  ensure (VerifyAPIKey (hashAPIKey demoAPIKey))
    (CreateAPIKey (tn_ID tenant) "demo-key" "ADMIN" (hashAPIKey demoAPIKey));;
  ensure (GetUserByEmail (tn_ID tenant) demoUserEmail)
    (match bcrypt_generate salt demoUserPassword with
     | None => throw (OtherError "seed user password")
     | Some hash => CreateUser (tn_ID tenant) demoUserEmail hash "ADMIN"
     end);;
  UpsertSyncPolicy (demo_policy (tn_ID tenant) "salesforce" "hubspot" 100);;
  UpsertSyncPolicy (demo_policy (tn_ID tenant) "hubspot" "salesforce" 200);;
  mret tt.
End admin.
