(* ===== verification/Oidc.v ===== *)
(** * [internal/oidc] and [internal/api/oidc.go]: signing in with an ID token

    Discovery, the provider's keys, the verification of an ID token and the
    handler that turns it into a session.  RSA is a library the program calls:
    class [Rsa] stands for it.  HTTP goes through [Outside], with the whole
    URL as the request's base.  Of an error, the texts of quoted values and of
    the libraries' own messages are left out. *)

From S2P Require Import Prelude Json GoTime Crypto Encoding Totp JsonText Events Tables Effects.
From S2P Require Import Store AuthStore Connectors Adapters Ingestion Operator Auth.
Local Open Scope string_scope.

(** [crypto/rsa]: [VerifyPKCS1v15] under a public key (modulus, exponent), of a
    SHA-256 digest and a signature. *)
Class Rsa := { rsa_verify : Z -> Z -> list Z -> list Z -> bool }.

Module Oidc.

Record Config := mkConfig { oc_Issuer : string; oc_ClientID : string }.

(** [Provider], without its HTTP client and [fetchedAt], which nothing reads. *)
Record Provider := mkProvider {
  pv_cfg : Config; pv_issuer : string; pv_jwksURI : string; pv_keys : gmap string (Z * Z);
}.

Record Claims := mkClaims {
  oi_Sub : string; oi_Email : string; oi_EmailVerified : bool; oi_Name : string; oi_Issuer : string;
  oi_Audience : Json; oi_ExpiresAt : Z; oi_IssuedAt : Z;
}.

(** [strings.TrimSuffix(s, "/")]. *)
Fixpoint trim_slash (s : string) : string :=
  match s with
  | "" => ""
  | String "/" "" => ""
  | String c s => String c (trim_slash s)
  end.

(** [big.Int.SetBytes]. *)
Definition SetBytes (l : list Z) : Z := foldl (fun n b => 256 * n + b)%Z 0%Z l.

(** [jwkRSAPublicKey]. *)
Definition jwkRSAPublicKey (nB64 eB64 : string) : Res (Z * Z) :=
  match b64_decode nB64, b64_decode eB64 with
  | Some nRaw, Some eRaw =>
      let e := SetBytes eRaw in
      if (e <? 2 ^ 63)%Z then Ok (SetBytes nRaw, e) else Err (OtherError "oidc: invalid RSA exponent")
  | _, _ => Err (OtherError "illegal base64 data")
  end.

(** The members of the key set. *)
Record Jwk := mkJwk { jk_Kty : string; jk_Kid : string; jk_N : string; jk_E : string }.

Definition dec_jwk (j : Json) : option Jwk :=
  into_struct (fun kvs =>
    kty ← dec_string "kty" kvs;
    kid ← dec_string "kid" kvs;
    n ← dec_string "n" kvs;
    e ← dec_string "e" kvs;
    Some (mkJwk kty kid n e)) (Some j).

Fixpoint dec_jwk_list (l : list Json) : option (list Jwk) :=
  match l with
  | [] => Some []
  | j :: l => k ← dec_jwk j; ks ← dec_jwk_list l; Some (k :: ks)
  end.

Definition dec_jwks (kvs : list (string * Json)) : option (list Jwk) :=
  match jlookup "keys" kvs with
  | None | Some JNull => Some []
  | Some (JArr l) => dec_jwk_list l
  | _ => None
  end.

(** The loop over the key set: keys of another type or without an id are passed
    over, a later key replaces an earlier one with its id. *)
Fixpoint collect_keys (l : list Jwk) (keys : gmap string (Z * Z)) : Res (gmap string (Z * Z)) :=
  match l with
  | [] => Ok keys
  | k :: l =>
      if negb (jk_Kty k =s "RSA") || (jk_Kid k =s "") then collect_keys l keys
      else match jwkRSAPublicKey (jk_N k) (jk_E k) with
           | Err e => Err e
           | Ok pub => collect_keys l (<[jk_Kid k := pub]> keys)
           end
  end.

(** [audienceMatches]; an [any] never holds a [[]string]. *)
Definition audienceMatches (aud : Json) (clientID : string) : bool :=
  match aud with
  | JStr v => v =s clientID
  | JArr l => List.existsb (fun a => match a with JStr s => s =s clientID | _ => false end) l
  | _ => false
  end.

Definition dec_header (kvs : list (string * Json)) : option (string * string) :=
  alg ← dec_string "alg" kvs;
  kid ← dec_string "kid" kvs;
  Some (alg, kid).

Definition dec_claims (kvs : list (string * Json)) : option Claims :=
  sub ← dec_string "sub" kvs;
  email ← dec_string "email" kvs;
  verified ← Rest.dec_bool "email_verified" kvs;
  name ← dec_string "name" kvs;
  iss ← dec_string "iss" kvs;
  exp ← dec_int64 "exp" kvs;
  iat ← dec_int64 "iat" kvs;
  Some (mkClaims sub email verified name iss (default JNull (jlookup "aud" kvs)) exp iat).

(** [json.Unmarshal] of decoded bytes. *)
Definition unmarshal_into {A} (dec : list (string * Json) -> option A) (raw : list Z) : option A :=
  match Unmarshal (string_of_bytes raw) with
  | Some j => into_struct dec (Some j)
  | None => None
  end.

Section client.
Context `{Outside} `{Rsa}.

(** [getJSON]. *)
Definition getJSON {A} (url : string) (dec : list (string * Json) -> option A) : M A :=
  out ← http (mkHttpReq "GET" url "" None);
  match out with
  | HttpBuildErr msg | HttpErr msg => throw (OtherError msg)
  | HttpResp status _ _ body =>
      if negb (status =? 200)%Z then throw (OtherError ("GET " +:+ url +:+ ": status " +:+ pretty status))
      else match into_struct dec body with
           | None => throw (OtherError "invalid json")
           | Some a => mret a
           end
  end.

(** [refreshKeys]. *)
Definition refreshKeys (p : Provider) : M Provider :=
  if pv_jwksURI p =s "" then throw (OtherError "oidc: provider has no jwks_uri")
  else
    jwks ← getJSON (pv_jwksURI p) dec_jwks;
    match collect_keys jwks ∅ with
    | Err e => throw e
    | Ok keys =>
        if bool_decide (keys = ∅) then throw (OtherError "oidc: no RSA keys in JWKS")
        else mret (mkProvider (pv_cfg p) (pv_issuer p) (pv_jwksURI p) keys)
    end.

(** [NewProvider]. *)
Definition NewProvider (cfg : Config) : M Provider :=
  if oc_Issuer cfg =s "" then throw (OtherError "oidc: issuer is required")
  else
    let issuer := trim_slash (oc_Issuer cfg) in
    disc ← getJSON (issuer +:+ "/.well-known/openid-configuration") (fun kvs =>
      iss ← dec_string "issuer" kvs;
      jwks ← dec_string "jwks_uri" kvs;
      tok ← dec_string "token_endpoint" kvs;
      Some (iss, jwks, tok));
    let '(iss, jwks, _) := disc in
    if negb (iss =s issuer) then throw (OtherError "oidc: issuer mismatch")
    else refreshKeys (mkProvider cfg issuer jwks ∅).

(** The key of a token: the keys are fetched again for an unknown id. *)
Definition key_for (p : Provider) (kid : string) : M (Z * Z) :=
  match pv_keys p !! kid with
  | Some pub => mret pub
  | None =>
      p ← refreshKeys p;
      match pv_keys p !! kid with
      | Some pub => mret pub
      | None => throw (OtherError "oidc: unknown key id")
      end
  end.

(** The checks on the claims. *)
Definition check_claims (p : Provider) (c : Claims) (t : Z) : Res Claims :=
  if negb (oi_Issuer c =s pv_issuer p) then Err (OtherError "oidc: issuer mismatch")
  else if negb (audienceMatches (oi_Audience c) (oc_ClientID (pv_cfg p)))
       then Err (OtherError "oidc: audience mismatch")
  else if (0 <? oi_ExpiresAt c)%Z && (oi_ExpiresAt c <? t / 1000000000)%Z
       then Err (OtherError "oidc: id_token expired")
  else if (oi_Sub c =s "") || (oi_Email c =s "") then Err (OtherError "oidc: id_token missing sub/email")
  else Ok c.

(** [VerifyIDToken]. *)
Definition VerifyIDToken (p : Provider) (idToken : string) : M Claims :=
  match split_dots idToken with
  | [header; payload; signature] =>
      match b64_decode header with
      | None => throw (OtherError "oidc: malformed header")
      | Some headerRaw =>
          match unmarshal_into dec_header headerRaw with
          | None => throw (OtherError "invalid json")
          | Some (alg, kid) =>
              if negb (alg =s "RS256") then throw (OtherError "oidc: unsupported alg")
              else
                pub ← key_for p kid;
                match b64_decode signature with
                | None => throw (OtherError "oidc: malformed signature")
                | Some sig =>
                    if negb (rsa_verify pub.1 pub.2
                               (sha256 (bytes_of_string (header +:+ "." +:+ payload))) sig)
                    then throw (OtherError "oidc: invalid id_token signature")
                    else
                      match b64_decode payload with
                      | None => throw (OtherError "oidc: malformed payload")
                      | Some raw =>
                          match unmarshal_into dec_claims raw with
                          | None => throw (OtherError "invalid json")
                          | Some c =>
                              t ← now;
                              match check_claims p c t with Ok c => mret c | Err e => throw e end
                          end
                      end
                end
          end
      end
  | _ => throw (OtherError "oidc: malformed id_token")
  end.
End client.
End Oidc.

(** ** [handleOIDCLogin] *)

(** What the server is configured with for single sign-on. *)
Record SsoConfig := mkSsoConfig { so_OIDCIssuer : string; so_OIDCClientID : string; so_OIDCAutoProvision : bool }.

(** [oidcLoginRequest], decoded and complete. *)
Definition oidc_request (body : option Json) : option (string * string) :=
  into_struct (fun kvs =>
    slug ← dec_string "tenant_slug" kvs;
    token ← dec_string "id_token" kvs;
    if (slug =s "") || (token =s "") then None else Some (slug, token)) body.

Section sso.
Context `{Outside} `{Bcrypt} `{Rsa} (acfg : AuthConfig) (cfg : SsoConfig).

(** The account of a verified email, or the answer that refuses it; [salt] is
    bcrypt's. *)
Definition sso_account (tenant : Tenant) (c : Oidc.Claims) (salt : string) : M (Response + User) :=
  x ← attempt (GetUserByEmail (tn_ID tenant) (Oidc.oi_Email c));
  match x with
  | Ok user => mret (inr user)
  | Err ErrNotFound =>
      if negb (so_OIDCAutoProvision cfg) then
        auditLogin (tn_ID tenant) "auth.login_failed" (Oidc.oi_Email c) [("reason", JStr "no_account")];;
        mret (inl (error_response 401 "no SyncForge account for this identity"))
      else
        u ← new_uuid;
        match bcrypt_generate salt ("oidc:" +:+ u) with
        | None => mret (inl (error_response 500 "failed to provision account"))
        | Some hash =>
            y ← attempt (CreateUser (tn_ID tenant) (Oidc.oi_Email c) hash "VIEWER");
            match y with
            | Err _ => mret (inl (error_response 500 "failed to provision account"))
            | Ok user => mret (inr user)
            end
        end
  | Err _ => mret (inl (error_response 500 "auth backend error"))
  end.

(** The session of a verified identity. *)
Definition sso_session (user : User) (c : Oidc.Claims) : M Response :=
  x ← attempt (new_session acfg (us_ID user) (us_TenantID user) (us_Role user));
  match x with
  | Err _ => mret (error_response 500 "failed to issue session")
  | Ok (_, token) =>
      auditLogin (us_TenantID user) "auth.login" (us_Email user)
        [("role", JStr (us_Role user)); ("via", JStr "oidc"); ("sub", JStr (Oidc.oi_Sub c))];;
      mret (mkResponse 200 (token_body token ++
        [("user", JObj [("id", JStr (us_ID user)); ("email", JStr (us_Email user));
                        ("role", JStr (us_Role user))])])%list)
  end.

Definition handleOIDCLogin (r : Req) (salt : string) : M Response :=
  if (so_OIDCIssuer cfg =s "") || (so_OIDCClientID cfg =s "")
  then mret (error_response 501 "oidc login not configured")
  else
    match oidc_request (rq_Body r) with
    | None => mret (error_response 400 "tenant_slug and id_token are required")
    | Some (slug, token) =>
        x ← attempt (GetTenantBySlug slug);
        match x with
        | Err _ =>
            auditLogin "" "auth.login_failed" ("oidc:" +:+ slug) [("reason", JStr "unknown_tenant")];;
            mret (error_response 401 "invalid credentials")
        | Ok tenant =>
            p ← attempt (Oidc.NewProvider (Oidc.mkConfig (so_OIDCIssuer cfg) (so_OIDCClientID cfg)));
            match p with
            | Err _ => mret (error_response 502 "identity provider unavailable")
            | Ok p =>
                v ← attempt (Oidc.VerifyIDToken p token);
                match v with
                | Err e =>
                    auditLogin (tn_ID tenant) "auth.login_failed" (slug +:+ "/unknown")
                      [("reason", JStr "bad_id_token"); ("error", JStr (Error e))];;
                    mret (error_response 401 "invalid id token")
                | Ok c =>
                    a ← sso_account tenant c salt;
                    match a with
                    | inl resp => mret resp
                    | inr user => sso_session user c
                    end
                end
            end
        end
    end.
End sso.
