(* ===== verification/Idp.v ===== *)
(** * [internal/simulator/oidc.go]: the mock identity provider

    Discovery, the key set and the token endpoint, and the provider as the
    outside world of a server. *)

From S2P Require Import Prelude Json GoTime Crypto Encoding Totp JsonText Events Tables Effects.
From S2P Require Import Connectors Auth Oidc.
Local Open Scope string_scope.

(** The private side of [crypto/rsa]: the modulus of a generated key, and
    [SignPKCS1v15] of a SHA-256 digest. *)
Class RsaKeys := {
  rsa_private : Type;
  rsa_N : rsa_private -> Z;
  rsa_sign : rsa_private -> list Z -> option (list Z);
}.

(** A signature is bytes and verifies; a generated key has the exponent 65537. *)
Class RsaLaws `{Rsa} `{RsaKeys} : Prop := {
  rsa_N_pos k : (0 <= rsa_N k)%Z;
  rsa_sign_bytes k d sig : rsa_sign k d = Some sig -> Forall is_byte sig;
  rsa_verifies k d sig : rsa_sign k d = Some sig -> rsa_verify (rsa_N k) 65537 d sig = true;
}.

Module Idp.

Record OIDCUser := mkUser { iu_Sub : string; iu_Email : string; iu_EmailVerified : bool; iu_Name : string }.

(** [big.Int.Bytes]: the magnitude, big-endian, without leading zeros; [fuel]
    bounds the number of bytes. *)
Fixpoint big_bytes (fuel : nat) (n : Z) (acc : list Z) : list Z :=
  match fuel with
  | O => acc
  | S fuel => if (n =? 0)%Z then acc else big_bytes fuel (n / 256) ((n mod 256)%Z :: acc)
  end.
Definition Bytes (n : Z) : list Z := big_bytes (Z.to_nat (Z.log2 n + 1)) n [].

Definition b64url (b : list Z) : string := b64_encode b.

Section idp.
Context `{RsaKeys}.

Record OIDCProvider := mkOIDCProvider {
  ip_Issuer : string; ip_ClientID : string; ip_key : rsa_private; ip_kid : string;
  ip_users : gmap string OIDCUser;
}.

(** [NewOIDCProvider]; the key is the one drawn. *)
Definition NewOIDCProvider (issuer clientID : string) (key : rsa_private) : OIDCProvider :=
  mkOIDCProvider issuer clientID key "mock-idp-1" ∅.
Definition AddUser (u : OIDCUser) (p : OIDCProvider) : OIDCProvider :=
  mkOIDCProvider (ip_Issuer p) (ip_ClientID p) (ip_key p) (ip_kid p) (<[iu_Sub u := u]> (ip_users p)).
Definition SetIssuer (issuer : string) (p : OIDCProvider) : OIDCProvider :=
  mkOIDCProvider issuer (ip_ClientID p) (ip_key p) (ip_kid p) (ip_users p).

Definition ok_json (j : Json) : HttpOut := HttpResp 200 "" (marshal j) (Some j).
(** [http.Error] with a JSON text. *)
Definition failure (status : Z) (msg : string) : HttpOut :=
  let j := JObj [("error", JStr msg)] in HttpResp status "" (marshal j +:+ String "010" "") (Some j).

Definition handleDiscovery (p : OIDCProvider) : HttpOut :=
  ok_json (JObj [("issuer", JStr (ip_Issuer p)); ("jwks_uri", JStr (ip_Issuer p +:+ "/jwks"));
                 ("token_endpoint", JStr (ip_Issuer p +:+ "/token"));
                 ("authorization_endpoint", JStr (ip_Issuer p +:+ "/authorize"));
                 ("id_token_signing_alg_values_supported", JArr [JStr "RS256"])]).

Definition handleJWKS (p : OIDCProvider) : HttpOut :=
  ok_json (JObj [("keys", JArr [JObj
    [("kty", JStr "RSA"); ("kid", JStr (ip_kid p)); ("use", JStr "sig"); ("alg", JStr "RS256");
     ("n", JStr (b64url (Bytes (rsa_N (ip_key p))))); ("e", JStr (b64url [1; 0; 1]%Z))]])]).

(** The members of the two parts of a token, in the order of their keys. *)
Definition token_header (p : OIDCProvider) : list (string * Json) :=
  [("alg", JStr "RS256"); ("kid", JStr (ip_kid p)); ("typ", JStr "JWT")].
Definition token_payload (p : OIDCProvider) (u : OIDCUser) (aud : string) (now : Z) : list (string * Json) :=
  [("aud", JStr aud); ("email", JStr (iu_Email u)); ("email_verified", JBool (iu_EmailVerified u));
   ("exp", JNum (now + 3600)); ("iat", JNum now); ("iss", JStr (ip_Issuer p)); ("name", JStr (iu_Name u));
   ("sub", JStr (iu_Sub u))].

(** The signed token; [now] is in seconds. *)
Definition mint (p : OIDCProvider) (u : OIDCUser) (aud : string) (now : Z) : option string :=
  let input := b64url (bytes_of_string (object_text (token_header p))) +:+ "." +:+
               b64url (bytes_of_string (object_text (token_payload p u aud now))) in
  match rsa_sign (ip_key p) (sha256 (bytes_of_string input)) with
  | Some sig => Some (input +:+ "." +:+ b64url sig)
  | None => None
  end.

(** [handleToken]; [order] is the order the map of users is gone through. *)
Definition handleToken (p : OIDCProvider) (order : list OIDCUser) (body : option Json) (now : Z) : HttpOut :=
  match into_struct (fun kvs =>
          grant ← dec_string "grant_type" kvs;
          username ← dec_string "username" kvs;
          client ← dec_string "client_id" kvs;
          Some (username, client)) body with
  | None => failure 400 "invalid_request"
  | Some (username, client) =>
      let aud := if client =s "" then ip_ClientID p else client in
      match List.find (fun u => (iu_Sub u =s username) || (iu_Email u =s username)) order with
      | None => failure 400 "invalid_grant"
      | Some u =>
          match mint p u aud now with
          | None => failure 500 "server_error"
          | Some token =>
              ok_json (JObj [("access_token", JStr "mock-access"); ("token_type", JStr "Bearer");
                             ("expires_in", JNum 3600); ("id_token", JStr token)])
          end
      end
  end.

(** The provider at the address [at_]; [order] is the order of the users. *)
Definition serve_idp (at_ : string) (order : gmap string OIDCUser -> list OIDCUser) (p : OIDCProvider)
    (now : Z) (rq : HttpReq) : HttpOut :=
  let url := rq_base rq +:+ rq_path rq in
  if url =s (at_ +:+ "/.well-known/openid-configuration") then handleDiscovery p
  else if url =s (at_ +:+ "/jwks") then handleJWKS p
  else if url =s (at_ +:+ "/token") then handleToken p (order (ip_users p)) (rq_body rq) now
  else HttpResp 404 "" ("404 page not found" +:+ String "010" "") None.

(** As the world of a server: the provider and its clock. *)
#[local] Instance idp_world (at_ : string) (order : gmap string OIDCUser -> list OIDCUser) : Transport :=
  isolated (OIDCProvider * Z)
    (fun w rq => (w, serve_idp at_ order w.1 (w.2 / 1000000000) rq)) (fun w _ _ _ => (w, true)).
End idp.
End Idp.
