(* ===== verification/Api.v ===== *)
(** * [internal/api/router.go]: the whole HTTP surface

    [Router] as the code builds it: the table of patterns, the mux that finds a
    pattern for a method and a path, and the middleware around it.  A wildcard
    matches one segment that is not empty, a [GET] pattern also takes [HEAD], a
    path that only other methods have is answered 405.  Paths are taken clean
    (the mux redirects others), handlers do not panic.  What a handler draws from
    outside is in [Inputs]. *)

From S2P Require Import Prelude Json GoTime Crypto Encoding Totp JsonText Events Tables Effects.
From S2P Require Import Store AuthStore Connectors Ingestion Operator Auth Accounts Admin Oidc Config.
Local Open Scope string_scope.

(** A request; [hr_Query] is [r.URL.Query().Get]. *)
Record HttpRequest := mkHttpRequest {
  hr_Method : string; hr_Path : string; hr_Query : string -> string; hr_Req : Req; hr_Raw : string;
  hr_Signature : string;
}.

(** Random bytes, bcrypt's salt, the answer of Redis, the pings and the scraped metrics. *)
Record Inputs := mkInputs {
  in_salt : string; in_buf : option (list Z); in_bufs : option (list (list Z)); in_incr : option Z;
  in_db : bool; in_redis : bool; in_metrics : Response;
}.

(** ** The mux *)

Fixpoint split_slash (s : string) : string * list string :=
  match s with
  | "" => ("", [])
  | String c s =>
      let (x, l) := split_slash s in
      if Ascii.eqb c "/" then ("", x :: l) else (String c x, l)
  end.
Definition segments (s : string) : list string := let (x, l) := split_slash s in x :: l.

Definition is_wildcard (s : string) : bool := match s with String c _ => Ascii.eqb c "{" | "" => false end.

(** The segments a pattern's wildcards stand for. *)
Fixpoint match_segments (pattern path : list string) : option (list string) :=
  match pattern, path with
  | [], [] => Some []
  | p :: pattern, x :: path =>
      if is_wildcard p then
        if x =s "" then None else ws ← match_segments pattern path; Some (x :: ws)
      else if p =s x then match_segments pattern path else None
  | _, _ => None
  end.

Definition method_matches (pattern method : string) : bool :=
  (pattern =s method) || ((pattern =s "GET") && (method =s "HEAD")).

Inductive Route :=
| Health | Metrics | Login | Logout | Refresh | OidcLogin | Webhook (provider slug : string)
| Account (q : AccountCall) | Administer (q : AdminCall) | Operate (q : Call).

Section router.
Context (rq : HttpRequest) (en : Inputs).

Definition arg (n : nat) (ws : list string) : string := default "" (ws !! n).
Definition body : option Json := rq_Body (hr_Req rq).

(** The table, in the order of the source. *)
Definition table : list (string * string * (list string -> Route)) :=
  let id := arg 0 in let q := hr_Query rq in
  [("GET", "/health", fun _ => Health);
   ("GET", "/api/v1/metrics", fun _ => Metrics);
   ("POST", "/api/v1/auth/login", fun _ => Login);
   ("POST", "/api/v1/auth/logout", fun _ => Logout);
   ("POST", "/api/v1/auth/refresh", fun _ => Refresh);
   ("POST", "/api/v1/auth/oidc/login", fun _ => OidcLogin);
   ("POST", "/api/v1/auth/mfa/enroll", fun _ => Account (EnrollCall (in_buf en)));
   ("POST", "/api/v1/auth/mfa/confirm", fun _ => Account ConfirmCall);
   ("POST", "/api/v1/auth/mfa/disable", fun _ => Account DisableCall);
   ("POST", "/api/v1/auth/mfa/backup-codes", fun _ => Account (BackupCodesCall (in_bufs en)));
   ("POST", "/api/v1/tenants", fun _ => Administer (CreateTenantCall body (in_buf en)));
   ("GET", "/api/v1/tenants", fun _ => Administer ListTenantsCall);
   ("POST", "/api/v1/keys", fun _ => Account (CreateKeyCall (in_buf en)));
   ("GET", "/api/v1/keys", fun _ => Account ListKeysCall);
   ("POST", "/api/v1/keys/{id}/revoke", fun ws => Account (RevokeKeyCall (id ws)));
   ("POST", "/api/v1/users", fun _ => Account (CreateUserCall (in_salt en)));
   ("GET", "/api/v1/users", fun _ => Account ListUsersCall);
   ("POST", "/api/v1/users/{id}/reset-password", fun ws => Account (ResetPasswordCall (id ws) (in_salt en)));
   ("POST", "/api/v1/users/{id}/role", fun ws => Account (ChangeRoleCall (id ws)));
   ("POST", "/api/v1/users/{id}/revoke-sessions", fun ws => Account (RevokeUserSessionsCall (id ws)));
   ("GET", "/api/v1/sessions", fun _ => Account (ListSessionsCall (q "limit")));
   ("POST", "/api/v1/auth/change-password", fun _ => Account (ChangePasswordCall (in_salt en)));
   ("GET", "/api/v1/audit", fun _ =>
      Administer (ListAuditCall (q "actor") (q "action") (q "resource") (q "limit")));
   ("GET", "/api/v1/operations", fun _ =>
      Administer (ListOperationsCall (q "entity_type") (q "entity_id") (q "target_source") (q "limit")));
   ("GET", "/api/v1/connections", fun _ => Administer ListConnectionsCall);
   ("POST", "/api/v1/connections", fun _ => Administer (CreateConnectionCall body));
   ("GET", "/api/v1/connections/{id}", fun ws => Administer (GetConnectionCall (id ws)));
   ("GET", "/api/v1/sync-events", fun _ => Administer (ListSyncEventsCall (q "limit")));
   ("GET", "/api/v1/sync-events/{id}", fun ws => Administer (GetSyncEventCall (id ws)));
   ("POST", "/api/v1/sync-jobs", fun _ => Operate (CreateSyncJobCall body));
   ("GET", "/api/v1/sync-jobs", fun _ => Operate (ListSyncJobsCall (q "limit")));
   ("GET", "/api/v1/sync-jobs/{id}", fun ws => Operate (GetSyncJobCall (id ws)));
   ("POST", "/api/v1/sync-jobs/{id}/run", fun ws => Operate (RerunSyncJobCall (id ws)));
   ("GET", "/api/v1/dlq", fun _ => Administer (ListDLQCall (q "status") (q "limit")));
   ("GET", "/api/v1/dlq/{id}", fun ws => Administer (GetDLQCall (id ws)));
   ("POST", "/api/v1/dlq/{id}/retry", fun ws => Operate (RetryDLQCall (id ws)));
   ("POST", "/api/v1/dlq/{id}/discard", fun ws => Operate (DiscardDLQCall (id ws)));
   ("GET", "/api/v1/conflicts", fun _ => Operate (ListConflictsCall (q "status") (q "limit")));
   ("GET", "/api/v1/conflicts/{id}", fun ws => Operate (GetConflictCall (id ws)));
   ("POST", "/api/v1/conflicts/{id}/resolve", fun ws => Operate (ResolveConflictCall (id ws) body));
   ("POST", "/api/v1/conflicts/{id}/dismiss", fun ws => Operate (DismissConflictCall (id ws)));
   ("POST", "/api/v1/reconciliations", fun _ => Operate (CreateReconciliationCall body));
   ("GET", "/api/v1/reconciliations", fun _ => Operate (ListReconciliationsCall (q "limit")));
   ("GET", "/api/v1/reconciliations/{id}", fun ws => Operate (GetReconciliationCall (id ws)));
   ("GET", "/api/v1/reconciliations/{id}/findings", fun ws =>
      Operate (ListFindingsCall (id ws) (q "status") (q "limit")));
   ("POST", "/api/v1/reconciliations/{id}/findings/{findingId}/apply", fun ws =>
      Operate (ApplyFindingCall (arg 1 ws) body));
   ("POST", "/api/v1/reconciliations/{id}/findings/{findingId}/dismiss", fun ws =>
      Operate (DismissFindingCall (arg 1 ws)));
   ("POST", "/webhooks/{provider}/{tenant_slug}", fun ws => Webhook (id ws) (arg 1 ws))].

(** The patterns the path matches, with their methods. *)
Definition candidates : list (string * Route) :=
  omap (fun e : string * string * (list string -> Route) =>
          ws ← match_segments (segments e.1.2) (segments (hr_Path rq)); Some (e.1.1, e.2 ws)) table.

(** The route of the request; [inl true] is 405, [inl false] 404. *)
Definition route : bool + Route :=
  match List.find (fun c => method_matches c.1 (hr_Method rq)) candidates with
  | Some (_, r) => inr r
  | None => inl (match candidates with [] => false | _ => true end)
  end.
End router.

(** ** Serving *)

Section serve.
Context `{Outside} `{Bcrypt} `{Rsa} (cfg : Config) (jsonb_out : Json -> string).

Definition serve_route (rq : HttpRequest) (en : Inputs) (r : Route) : M Response :=
  let acfg := auth_config cfg in
  match r with
  | Health => t ← now; mret (handleHealth (in_db en) (in_redis en) t)
  | Metrics => mret (in_metrics en)
  | Login => handleLogin acfg (hr_Req rq) (in_incr en)
  | Logout => handleLogout acfg (hr_Req rq)
  | Refresh => handleRefresh acfg (hr_Req rq)
  | OidcLogin => handleOIDCLogin acfg (sso_config cfg) (hr_Req rq) (in_salt en)
  | Webhook provider slug =>
      handleWebhook (mkWebhookReq provider slug (hr_Raw rq) (body rq) (hr_Signature rq))
  | Account q => serve_account acfg (hr_Req rq) q
  | Administer q => serve_admin jsonb_out acfg (hr_Req rq) q
  | Operate q => serve_operator acfg (server_config cfg) jsonb_out (hr_Req rq) q
  end.

(** [Router] behind [middleware]: a preflight request is answered at once. *)
Definition Router (rq : HttpRequest) (en : Inputs) : M Response :=
  if hr_Method rq =s "OPTIONS" then mret (mkResponse 204 [])
  else
    match route rq en with
    | inr r => serve_route rq en r
    | inl true => mret (mkResponse 405 [])
    | inl false => mret (mkResponse 404 [])
    end.
End serve.
