(* ===== verification/OperatorSpec.v ===== *)
(** * What an operator's request can and does do

    Containment of every route (the caller's tenant only, no provider call, the
    role gate), and the effect of the decisions: a resolved conflict, a replayed
    dead letter and an approved repair each become one due row of the retry
    queue that decodes to the event the operator asked for. *)

From S2P Require Import Prelude Json GoTime Events Model Conflict Tables Effects Store Frame.
From S2P Require Import Connectors Run Adapters Worker WorkerFrame WorkerCalls Sample.
From S2P Require Import WorkerSpec WorkerApply Retry Ingestion Operator.
Local Open Scope string_scope.

(** ** Containment *)

Definition operator_tables : Tbl -> bool :=
  among [T_sync_jobs; T_retry_queue; T_dead_letter; T_conflicts; T_reconciliation_runs;
         T_reconciliation_findings; T_audit_log].

#[export] Hint Extern 1 (operator_tables _ = true) => reflexivity : pres.

(** The handlers' bodies. *)
Ltac unfold_handlers :=
  unfold handleListSyncJobs, handleGetSyncJob, handleCreateSyncJob, handleRerunSyncJob,
    handleDLQRetry, handleDLQDiscard, handleListConflicts, handleGetConflict,
    handleResolveConflict, handleDismissConflict, handleCreateReconciliation,
    handleListReconciliations, handleGetReconciliation, handleListReconcileFindings,
    handleApplyFinding, handleDismissFinding, enqueue_repair.

Section frames.
Context `{Outside}.
Implicit Types (ts : Tbl -> bool) (t : string).

Lemma InsertAuditLog_frame ts t e :
  t <> "" -> ts T_audit_log = true -> Pres (OnTx (Frame ts t)) (InsertAuditLog t e).
Proof.
  intros Ht Hts. frame_tx Frame_on_audit_log; apply select_snoc_out; seqb_simpl; [done|].
  unfold foreign_opt, foreign. simpl. by rewrite seqb_refl.
Qed.

Lemma CreateSyncJob_frame ts t j :
  sj_TenantID j = t -> ts T_sync_jobs = true -> Pres (OnTx (Frame ts t)) (CreateSyncJob j).
Proof. intros <- Hts. frame_tx Frame_on_sync_jobs; apply select_snoc_out; own_row. Qed.

Lemma CreateReconciliationRun_frame ts t r :
  rr_TenantID r = t -> ts T_reconciliation_runs = true ->
  Pres (OnTx (Frame ts t)) (CreateReconciliationRun r).
Proof. intros <- Hts. frame_tx Frame_on_reconciliation_runs. apply select_snoc_out. own_row. Qed.

Lemma SetFindingDirection_frame ts t a b :
  ts T_reconciliation_findings = true ->
  Pres (OnTx (Frame ts t)) (SetReconciliationFindingDirection t a b).
Proof.
  intros Hts. frame_tx Frame_on_reconciliation_findings. apply select_update_where_out. own_rows.
Qed.

Lemma reopen_job_frame ts t t' i :
  t' = t -> ts T_sync_jobs = true -> Pres (OnTx (Frame ts t)) (reopen_job t' i).
Proof.
  intros -> Hts. frame_tx Frame_on_sync_jobs. apply select_update_where_out. own_rows.
Qed.

Lemma GetSyncJob_tenant t i j : Returns (GetSyncJob t i) j -> sj_TenantID j = t.
Proof.
  intros Hc. unfold GetSyncJob in Hc. returns. apply found_or_Ok, select_one_Some in Hc as [_ Hc].
  unfold job_key in Hc. by seqb_simpl.
Qed.

Lemma GetDeadLetter_tenant t i l : Returns (GetDeadLetter t i) l -> dl_TenantID l = t.
Proof.
  intros Hc. unfold GetDeadLetter in Hc. returns.
  apply found_or_Ok, select_one_Some in Hc as [_ Hc]. by seqb_simpl.
Qed.

Hint Resolve InsertAuditLog_frame CreateSyncJob_frame CreateReconciliationRun_frame
  SetFindingDirection_frame reopen_job_frame : pres.
Hint Extern 4 (Pres (OnTx (Frame _ _)) _) => apply OnTx_query; typeclasses eauto : pres.
Hint Extern 3 (dl_TenantID _ = _) => eapply GetDeadLetter_tenant, Returns_attempt; eassumption : pres.
Hint Extern 3 (sj_TenantID _ = _) => eapply GetSyncJob_tenant, Returns_attempt; eassumption : pres.

Lemma handler_frame cfg out c q :
  ca_TenantID c <> "" -> Pres (OnTx (Frame operator_tables (ca_TenantID c))) (handler cfg out c q).
Proof.
  intros Hc. destruct q; simpl;
    unfold_handlers; unfold with_row, or_500, audit; pres.
  apply EnqueueRetry_frame; [|done]. simpl. by eapply GetDeadLetter_tenant, Returns_attempt.
Qed.
End frames.

Section contained.
Context `{Outside}.

Lemma SameWorld_preorder : PreOrder SameWorld.
Proof. split; unfold SameWorld; [done|]. intros s1 s2 s3. intuition congruence. Qed.
Local Existing Instance SameWorld_preorder.

Hint Extern 3 (Pres SameWorld _) => apply SameWorld_tx : pres.

Lemma handler_world cfg out c q : Pres SameWorld (handler cfg out c q).
Proof.
  destruct q; simpl;
    unfold_handlers; unfold with_row, or_500, audit; pres.
Qed.

(** A handler that always answers. *)
Definition Answers (m : M Response) : Prop := forall s, exists resp s', m s = (Ok resp, s').

Lemma Answers_ret r : Answers (mret r).
Proof. intros s. by exists r, s. Qed.
Lemma Answers_or_500 {A} (m : M A) e k : (forall a, Answers (k a)) -> Answers (or_500 m e k).
Proof.
  intros Hk s. unfold or_500. rewrite bind_attempt.
  destruct (m s) as [[a|e'] s1]; cbn [fst snd]; [apply Hk|by eexists _, _].
Qed.
Lemma Answers_with_row {A} (m : M A) e f k :
  (forall a, Answers (k a)) -> Answers (with_row m e f k).
Proof.
  intros Hk s. unfold with_row. rewrite bind_attempt.
  destruct (m s) as [[a|e'] s1]; cbn [fst snd]; [apply Hk|]. destruct e'; by eexists _, _.
Qed.
Lemma Answers_audit c a b e f (k : M Response) : Answers k -> Answers (audit c a b e f;; k).
Proof. intros Hk s. unfold audit. rewrite bind_ignore. apply Hk. Qed.
Lemma Answers_now (k : Z -> M Response) : (forall u, Answers (k u)) -> Answers (u ← now; k u).
Proof. intros Hk s. apply Hk. Qed.

Ltac answers := repeat first
  [ apply Answers_ret | apply Answers_or_500; intros ? | apply Answers_with_row; intros ?
  | apply Answers_audit | apply Answers_now; intros ?
  | match goal with |- Answers (match ?x with _ => _ end) => destruct x end ].

Lemma handler_answers cfg out c q : Answers (handler cfg out c q).
Proof.
  destruct q; simpl;
    unfold_handlers; cbv zeta; answers.
Qed.

(** The routes open to viewers only read. *)
Lemma viewer_reads cfg out c q : min_role q = "VIEWER" -> Pres (OnTx Same) (handler cfg out c q).
Proof.
  destruct q; try discriminate; intros _; simpl;
    unfold handleListSyncJobs, handleGetSyncJob, handleListConflicts, handleGetConflict,
    handleListReconciliations, handleGetReconciliation, handleListReconcileFindings, with_row,
    or_500; pres; apply OnTx_query; apply _.
Qed.
End contained.

(** C18: every operator route is contained, whatever statements fail and whatever
    other runs do between its transactions.  It always answers; it calls no
    provider and publishes nothing; each of its transactions changes rows of the
    caller's tenant only, and only in the tables of jobs, retries, dead letters,
    conflicts, reconciliation and audit; a caller below the route's role gets 403
    and no transaction is made, and a caller with the lowest role never changes
    the database. *)
Theorem serve_contained `{Outside} (cfg : ServerConfig) (out : Json -> string) (c : Caller)
    (q : Call) (s : St) :
  ca_TenantID c <> "" ->
  let l := commits (serve cfg out c q) s in
  exists resp s', serve cfg out c q s = (Ok resp, s') /\
    Forall (fun e => Frame operator_tables (ca_TenantID c) e.1 e.2) l /\ SameWorld s s' /\
    ((rank_of (ca_Role c) < rank_of (min_role q))%Z -> rs_code resp = 403%Z /\ l = []) /\
    ((rank_of (ca_Role c) <= 0)%Z -> Forall (fun e => e.2 = e.1) l).
Proof.
  intros Ht. unfold commits, serve, requireRole. case_if.
  { eexists _, s. simpl. rewrite drop_all. split; [done|]. by split_and!. }
  apply Z.ltb_ge in E. destruct (handler_answers cfg out c q s) as (resp & s' & Er).
  exists resp, s'. split; [done|]. pose proof (handler_world cfg out c q s) as W. rewrite Er in W.
  split; [apply (OnTx_commits _ _ s (handler_frame cfg out c q Ht))|].
  split; [exact W|]. split; [lia|]. intros Hr. assert (min_role q = "VIEWER") as Hv.
  { destruct q; try done; exfalso; unfold rank_of at 1 in E; simpl in E; lia. }
  apply (OnTx_commits _ _ s (viewer_reads cfg out c q Hv)).
Qed.

Definition an_admin : Caller := mkCaller "t1" "ADMIN" "user:u1" "" "u1".
Definition a_viewer : Caller := mkCaller "t1" "VIEWER" "user:u2" "" "u2".
Definition sample_cfg : ServerConfig := mkServerConfig 8 500.
Definition no_text (_ : Json) : string := "".

Lemma serve_contained_witness :
  exists resp s', @serve up sample_cfg no_text a_viewer (DiscardDLQCall "d1")
                    (state_up (sample_db "last_write_wins")) = (Ok resp, s') /\ rs_code resp = 403%Z.
Proof.
  destruct (@serve_contained up sample_cfg no_text a_viewer (DiscardDLQCall "d1")
              (state_up (sample_db "last_write_wins"))) as (resp & s' & E & _ & _ & H403 & _);
    [discriminate|].
  exists resp, s'. split; [exact E|]. apply H403. reflexivity.
Defined.

(** ** Decisions become due retries *)

Section decisions.
Context `{Transport}.

(** The retry queue holds, due at [t], a row for [eventID] with document [state]. *)
Definition due_row (tenant eventID : string) (state : Json) (t : Z) (d : DB) : Prop :=
  exists row, select_one (retry_key tenant eventID) (retry_queue d) = Some row /\
    rt_NextAttemptAt row = t /\ rt_State row = state.

Lemma run_or_500 {A} (m : M A) e k s resp s' :
  or_500 m e k s = (Ok resp, s') -> rs_code resp <> 500%Z ->
  exists a s1, m s = (Ok a, s1) /\ k a s1 = (Ok resp, s').
Proof.
  unfold or_500. intros E Hc. run_step E. destruct x as [a|e']; [by exists a, s0|]. by run E.
Qed.

Lemma run_with_row {A} (m : M A) e f k s resp s' :
  with_row m e f k s = (Ok resp, s') -> rs_code resp <> 500%Z -> rs_code resp <> 404%Z ->
  exists a s1, m s = (Ok a, s1) /\ k a s1 = (Ok resp, s').
Proof.
  unfold with_row. intros E H1 H2. run_step E. destruct x as [a|e']; [by exists a, s0|].
  destruct e'; by run E.
Qed.

Lemma audit_queue c a b e f s :
  retry_queue (st_db (audit c a b e f s).2) = retry_queue (st_db s) /\
  conflicts (st_db (audit c a b e f s).2) = conflicts (st_db s) /\
  dead_letter (st_db (audit c a b e f s).2) = dead_letter (st_db s).
Proof.
  unfold audit. destruct (ignore _ s) as [r s'] eqn:E. apply run_ignore in E as (x & E & _).
  apply run_tx in E as [_ [(y & d & [= <- <-] & Hd & _)|[Hd _]]]; simpl; by rewrite Hd.
Qed.

Lemma enqueue_due e s r s' :
  EnqueueRetry e 0 s = (Ok r, s') ->
  due_row (rt_TenantID e) (rt_EventID e) (rt_State e) (st_now s) (st_db s') /\
  conflicts (st_db s') = conflicts (st_db s) /\ dead_letter (st_db s') = dead_letter (st_db s).
Proof.
  intros E. pose proof E as Er. apply EnqueueRetry_row in E as [_ (row & H1 & H2 & _ & _ & H3 & _)].
  split.
  - exists row. split_and!; [done| |done]. rewrite H3. change (pg_interval 0) with 0%Z. lia.
  - pose proof (OnTx_db _ _ s (EnqueueRetry_frame (among [T_retry_queue]) (rt_TenantID e) e 0 eq_refl eq_refl)) as F.
    rewrite Er in F. split; [apply (F T_conflicts)|apply (F T_dead_letter)]; done.
Qed.

(** C19: a resolution that is answered 202 was asked for a pending conflict of
    the caller's tenant with side [a] or [b], and the queue then holds, due at
    once, an event that carries the chosen side: for [a] the source, the version
    and the payload the conflict has as its side A, for [b] those of its side B,
    under the conflict's id.  The event read back from the queue is that event,
    when the version fits 64 bits.  The conflict itself is not touched yet. *)
Theorem resolution_queued (cfg : ServerConfig) (out : Json -> string) (c : Caller) (id : string)
    (body : option Json) (s s' : St) (resp : Response) :
  handleResolveConflict cfg out c id body s = (Ok resp, s') -> rs_code resp = 202%Z ->
  exists x side src version fields payload,
    x ∈ conflicts (st_db s) /\ co_TenantID x = ca_TenantID c /\ co_ID x = id /\
    co_Status x = ConflictPending /\
    into_struct (dec_string "side") body = Some side /\
    (side = "a" /\ src = co_SourceA x /\ version = co_VersionA x /\ fields = co_PayloadA x \/
     side = "b" /\ src = co_SourceB x /\ version = co_VersionB x /\ fields = co_PayloadB x) /\
    let ev := mkEvent ("resolve:" +:+ id) (ca_TenantID c) src (co_EntityType x) (co_EntityID x)
                EventUpdated version (st_now s) (st_now s) "" (mkProvenance "" "" "" id "")
                {[ "fields" := decodedPayload out fields ]} in
    encode_event ev = Some payload /\
    due_row (ca_TenantID c) ("resolve:" +:+ id) payload (st_now s) (st_db s') /\
    (in_int64 version = true -> decode_event payload = Some ev) /\
    conflicts (st_db s') = conflicts (st_db s).
Proof.
  intros E Hc. unfold handleResolveConflict in E. cbv zeta in E.
  apply run_with_row in E as (x & s1 & Ex & E); [|by rewrite Hc..].
  unfold GetConflict in Ex. apply run_query in Ex as [(Qd & _ & _ & _ & Qn) [Ex|]]; [|done].
  symmetry in Ex. apply found_or_Ok, select_one_Some in Ex as [Hin Hk]. seqb_simpl.
  destruct (co_Status x =s ConflictPending) eqn:Est; simpl in E; [|by run E].
  destruct (into_struct _ body) as [side|] eqn:Eb; [|by run E].
  destruct (negb (side =s "a") && negb (side =s "b")) eqn:Eside; [by run E|].
  unfold mbind at 1, M_bind at 1, now in E. cbv zeta in E. rewrite Qn in E.
  destruct (encode_event _) as [payload|] eqn:Ep; [|by run E].
  apply run_or_500 in E as (r & s2 & Er & E); [|by rewrite Hc].
  apply enqueue_due in Er as (Hdue & Hco & _). simpl in Hdue.
  bind_ok E u s3 Ea. run E.
  pose proof (audit_queue c "conflict.resolve" "conflict" (co_ID x)) as Ha.
  match type of Ea with audit _ _ _ _ ?m _ = _ => specialize (Ha m s2) end.
  rewrite Ea in Ha. simpl in Ha. destruct Ha as (Hq & Hco2 & _).
  assert (side = "a" \/ side = "b") as Hside.
  { destruct (side =s "a") eqn:E1; seqb_simpl; [by left|]. right. simpl in Eside. by seqb_simpl. }
  assert (due_row (ca_TenantID c) ("resolve:" +:+ co_ID x) payload (st_now s) (st_db s3)) as Hdue'.
  { simpl in *. unfold due_row in *. by rewrite Hq, <- Qn. }
  assert (conflicts (st_db s3) = conflicts (st_db s)) as Hco' by (simpl in *; congruence).
  seqb_simpl. destruct Hside as [-> | ->].
  - exists x, "a", (co_SourceA x), (co_VersionA x), (co_PayloadA x), payload.
    split; [done|]. do 4 (split; [done|]). split; [by left|]. split; [exact Ep|]. split; [done|]. split; [|done]. by intros Hv; apply decode_encode_event.
  - exists x, "b", (co_SourceB x), (co_VersionB x), (co_PayloadB x), payload.
    split; [done|]. do 4 (split; [done|]). split; [by right|]. split; [exact Ep|]. split; [done|]. split; [|done]. by intros Hv; apply decode_encode_event.
Qed.

(** A replay that is answered 200 re-queues the dead letter's own document:
    the queue holds it under the letter's event id, due at once, and the letter
    is marked [retrying], not reopened and not lost. *)
Theorem replay_queued (cfg : ServerConfig) (c : Caller) (id : string) (s s' : St)
    (resp : Response) :
  handleDLQRetry cfg c id s = (Ok resp, s') -> rs_code resp = 200%Z ->
  exists x, x ∈ dead_letter (st_db s) /\ dl_TenantID x = ca_TenantID c /\ dl_ID x = id /\
    due_row (ca_TenantID c) (dl_EventID x) (dl_Payload x) (st_now s) (st_db s') /\
    dl_close (st_now s) "retrying" x ∈ dead_letter (st_db s').
Proof.
  intros E Hc. unfold handleDLQRetry in E. cbv zeta in E.
  apply run_with_row in E as (x & s1 & Ex & E); [|by rewrite Hc..].
  unfold GetDeadLetter in Ex. apply run_query in Ex as [(Qd & _ & _ & _ & Qn) [Ex|]]; [|done].
  symmetry in Ex. apply found_or_Ok, select_one_Some in Ex as [Hin Hk]. seqb_simpl.
  apply run_or_500 in E as (u & s2 & Es & E); [|by rewrite Hc].
  apply run_tx in Es as [(_ & _ & _ & Hn) [(a & d & [= <- <-] & Hd & _)|[_ [? ?]]]]; [|done].
  apply run_or_500 in E as (r & s3 & Er & E); [|by rewrite Hc].
  apply enqueue_due in Er as (Hdue & _ & Hdl). simpl in Hdue.
  bind_ok E v s4 Ea. unfold mbind at 1, M_bind at 1, now in E. run E.
  match type of Ea with audit _ _ _ _ ?m _ = _ =>
    pose proof (audit_queue c "dlq.retry" "dead_letter" (dl_ID x) m s3) as Ha end.
  rewrite Ea in Ha. simpl in Ha. destruct Ha as (Hq & _ & Hdl2).
  exists x. split_and!; [done..| |].
  - unfold due_row in *. rewrite Hq, <- Qn, <- Hn. by rewrite <- H0.
  - rewrite Hdl2, Hdl, Hd, Qd, <- Qn. simpl. unfold update_where.
    apply list_elem_of_In, in_map_iff. exists x. split; [|by apply list_elem_of_In].
    by rewrite H0, !seqb_refl.
Qed.

(** The listing of reconciliation runs never succeeds: its statement orders by
    a column the table does not have. *)
Lemma list_reconciliations_fails c limit s :
  exists s', handleListReconciliations c limit s =
    (Ok (error_response 500 "failed to list reconciliations"), s').
Proof.
  unfold handleListReconciliations, or_500. rewrite bind_attempt.
  destruct (ListReconciliationRuns (ca_TenantID c) (limit_param limit) s) as [r s'] eqn:E.
  unfold ListReconciliationRuns in E. apply run_query in E as [_ [-> | ->]]; by exists s'.
Qed.

End decisions.

(** ** Witnesses *)

Definition sample_conflict : ConflictRecord :=
  mkConflictRecord "conf-1" "t1" "customer" "sf-000001"
    "salesforce" 5 (of_fields (list_to_map [("email", JStr "ada@acme.dev")]))
    "hubspot" 3 (of_fields (list_to_map [("email", JStr "ada@hub.dev")])) 0 ConflictPending "manual"
    None None.

Definition sample_letter : DeadLetter :=
  mkDeadLetter "dl-1" "t1" "evt-9" "boom" "TRANSIENT" (JObj []) "open" 0 None.

(** A tenant with a parked conflict and a dead letter; policies as given. *)
Definition parked_db (policies : list SyncPolicy) : DB :=
  on_sync_policies (fun _ => policies) (on_dead_letter (fun _ => [sample_letter])
    (on_conflicts (fun _ => [sample_conflict])
       (with_canonical (sample_canonical false) (sample_db StrategyManual)))).

Definition parked_state : @St up :=
  state_up (parked_db [sample_policy "salesforce" "hubspot" StrategyManual 100]).

(** The status code of an answer. *)
Definition code_of (r : Res Response) : option Z :=
  match r with Ok resp => Some (rs_code resp) | Err _ => None end.

Lemma code_of_Some r n : code_of r = Some n -> exists resp, r = Ok resp /\ rs_code resp = n.
Proof. destruct r as [resp|]; [|done]. intros [= <-]. by exists resp. Qed.

Definition choose (side : string) : option Json := Some (JObj [("side", JStr side)]).

Local Abbreviation resolved :=
  (@handleResolveConflict up sample_cfg no_text an_admin "conf-1" (choose "b") parked_state).

Lemma resolved_202 : exists resp, resolved.1 = Ok resp /\ rs_code resp = 202%Z.
Proof.
  assert (code_of resolved.1 = Some 202%Z) as E by (vm_compute; reflexivity).
  by apply code_of_Some.
Qed.

Lemma resolution_queued_witness :
  exists payload, due_row "t1" "resolve:conf-1" payload 1000 (st_db resolved.2).
Proof.
  destruct resolved_202 as (resp & E & Hc).
  destruct (@resolution_queued up sample_cfg no_text an_admin "conf-1" (choose "b") parked_state
              resolved.2 resp) as (x & side & src & v & fields & payload & _ & _ & _ & _ & _ & _ & _ & Hdue & _);
    [|exact Hc|].
  - rewrite <- E. apply surjective_pairing.
  - exists payload. exact Hdue.
Defined.

Local Abbreviation replayed := (@handleDLQRetry up sample_cfg an_admin "dl-1" parked_state).

Lemma replayed_200 : exists resp, replayed.1 = Ok resp /\ rs_code resp = 200%Z.
Proof.
  assert (code_of replayed.1 = Some 200%Z) as E by (vm_compute; reflexivity).
  by apply code_of_Some.
Qed.

Lemma replay_queued_witness : exists x, dl_ID x = "dl-1" /\
  due_row "t1" (dl_EventID x) (dl_Payload x) 1000 (st_db replayed.2).
Proof.
  destruct replayed_200 as (resp & E & Hc).
  destruct (@replay_queued up sample_cfg an_admin "dl-1" parked_state replayed.2 resp)
    as (x & _ & _ & Hid & Hdue & _); [|exact Hc|].
  - rewrite <- E. apply surjective_pairing.
  - exists x. split; [exact Hid|exact Hdue].
Defined.

(** A resolution in favour of a source that has no policy of its own is dropped:
    with the one policy from Salesforce to HubSpot, the operator chooses
    HubSpot's side and is told it is queued; the retry engine runs it, the worker
    finds no policy for the source and reports success.  The row is gone, nobody
    was written to, and the conflict still waits. *)
Lemma resolution_without_policy_dropped :
  let s' := (@drain up New_retry_opts resolved.2).2 in
  retry_queue (st_db s') = [] /\ st_calls s' = [] /\ dead_letter (st_db s') = [sample_letter] /\
  co_Status <$> conflicts (st_db s') = [ConflictPending] /\
  cr_Version <$> canonical_records (st_db s') = [3%Z].
Proof. vm_compute. auto. Qed.
