(* ===== verification/History.v ===== *)
(** * What no operation ever takes back

    [Kept d d']: everything [d] records durably is still recorded in [d']: the
    audit log and the ledger of destination writes only grow; canonical
    identities, ingested events, dead letters and conflicts stay; a conflict that
    is no longer pending never is again, a dismissed one stays exactly as it is,
    and a settled reconciliation finding keeps its status; a session or an API key
    that was revoked stays revoked; the rows go on satisfying the
    constraints of the schema; and every claimed event stays claimed.  Every
    transaction of every component but one preserves it.  The one is the release
    of a claim, which a run makes only of a claim it has taken itself: [Conducted]
    is what a run promises, whatever others do between its transactions. *)

From S2P Require Import Prelude Json GoTime Events Model Conflict Backoff Tables Effects Store.
From S2P Require Import AuthStore TenantStore Schema Frame Interleave Connectors Run Adapters Worker WorkerFrame WorkerSpec Retry.
From S2P Require Import Ingestion Operator.
Local Open Scope string_scope.

(** ** Views of a table *)

Section view.
Context {A K : Type} (q : A -> bool) (p : A -> K).

(** The rows [q] selects, as far as [p] shows them. *)
Definition view (l : list A) : list K := p <$> select_where q l.

Lemma elem_of_view x l : x ∈ view l <-> exists r, r ∈ l /\ q r = true /\ p r = x.
Proof.
  unfold view, select_where. rewrite list_elem_of_fmap. split.
  - intros (r & -> & Hr). apply list_elem_of_In, filter_In in Hr as [Hr Hq].
    apply list_elem_of_In in Hr. by exists r.
  - intros (r & Hr & Hq & <-). exists r. split; [done|].
    by apply list_elem_of_In, filter_In; split; [apply list_elem_of_In|].
Qed.

Lemma view_update c f l :
  (forall r, c r = true -> q r = true -> q (f r) = true /\ p (f r) = p r) ->
  view l ⊆ view (update_where c f l).
Proof.
  intros Hf x. rewrite !elem_of_view. intros (r & Hr & Hq & Hp).
  exists (if c r then f r else r). split.
  - unfold update_where. apply list_elem_of_In, in_map_iff. exists r.
    split; [done|by apply list_elem_of_In].
  - destruct (c r) eqn:Ec; [|done]. destruct (Hf r Ec Hq) as [-> E]. split; congruence.
Qed.

Lemma view_snoc l r : view l ⊆ view (l ++ [r])%list.
Proof.
  intros x. rewrite !elem_of_view. intros (y & Hy & H2). exists y. split; [|done].
  apply elem_of_app. by left.
Qed.

Lemma view_upsert c f r l :
  (forall r, c r = true -> q r = true -> q (f r) = true /\ p (f r) = p r) ->
  view l ⊆ view (upsert c f r l).
Proof. intros Hf. unfold upsert. destruct (existsb c l); [by apply view_update|apply view_snoc]. Qed.

Lemma view_insert_new c r l l' : insert_new c r l = Some l' -> view l ⊆ view l'.
Proof. unfold insert_new. destruct (existsb c l); intros [= <-]. apply view_snoc. Qed.

Lemma view_delete c l :
  (forall r, c r = true -> q r = false) -> view l ⊆ view (delete_where c l).
Proof.
  intros Hc x. rewrite !elem_of_view. intros (r & Hr & Hq & Hp). exists r. split; [|done].
  unfold delete_where. apply list_elem_of_In, filter_In. split; [by apply list_elem_of_In|].
  destruct (c r) eqn:Ec; [|done]. rewrite (Hc r Ec) in Hq. discriminate.
Qed.
End view.

(** ** The relation *)

Definition all_rows {A} (_ : A) : bool := true.

Definition canonical_identity (c : CanonicalRecord) : string * string * string * string :=
  (cr_SyncID c, cr_TenantID c, cr_EntityType c, cr_EntityID c).
Definition letter_identity (l : DeadLetter) : string * string * string :=
  (dl_ID l, dl_TenantID l, dl_EventID l).
(** A conflict without its resolution. *)
Definition conflict_facts (c : ConflictRecord) : ConflictRecord :=
  mkConflictRecord (co_ID c) (co_TenantID c) (co_EntityType c) (co_EntityID c) (co_SourceA c)
    (co_VersionA c) (co_PayloadA c) (co_SourceB c) (co_VersionB c) (co_PayloadB c)
    (co_DetectedAt c) "" "" None None.
Definition dismissed (c : ConflictRecord) : bool := co_Status c =s ConflictDismissed.
(** No longer open: resolved, automatically or by an operator, or dismissed. *)
Definition decided (c : ConflictRecord) : bool := negb (co_Status c =s ConflictPending).
(** Decided for good: applied, skipped or dismissed. *)
Definition settled (f : ReconciliationFinding) : bool :=
  (rf_Status f =s FindingApplied) || (rf_Status f =s FindingSkipped) ||
  (rf_Status f =s FindingDismissed).
Definition claim_key (r : ProcessedEvent) : string * string * string :=
  (pe_TenantID r, pe_Source r, pe_EventID r).
Definition claims (d : DB) : list (string * string * string) :=
  view all_rows claim_key (processed_events d).

(** All of it but the claims. *)
Record Recorded (d d' : DB) : Prop := mkRecorded {
  kept_audit : audit_log d `prefix_of` audit_log d';
  kept_operations : sync_operations d `prefix_of` sync_operations d';
  kept_canonical : view all_rows canonical_identity (canonical_records d)
                     ⊆ view all_rows canonical_identity (canonical_records d');
  kept_events : view all_rows (se_set_Status "") (source_events d)
                  ⊆ view all_rows (se_set_Status "") (source_events d');
  kept_letters : view all_rows letter_identity (dead_letter d)
                   ⊆ view all_rows letter_identity (dead_letter d');
  kept_conflicts : view all_rows conflict_facts (conflicts d)
                     ⊆ view all_rows conflict_facts (conflicts d');
  kept_decided : view decided conflict_facts (conflicts d) ⊆ view decided conflict_facts (conflicts d');
  kept_dismissed : view dismissed id (conflicts d) ⊆ view dismissed id (conflicts d');
  kept_findings : view settled (rf_set_Direction "") (reconciliation_findings d)
                    ⊆ view settled (rf_set_Direction "") (reconciliation_findings d');
  kept_sessions : sessions_le (sessions d) (sessions d');
  kept_keys : keys_le (api_keys d) (api_keys d');
  kept_schema : Schema d -> Schema d';
}.

Record Kept (d d' : DB) : Prop := mkKept {
  kept_recorded : Recorded d d';
  kept_claims : claims d ⊆ claims d';
}.

#[global] Instance Recorded_preorder : PreOrder Recorded.
Proof.
  split.
  - intros d. by constructor.
  - intros d1 d2 d3 [] []. constructor; auto; by etrans.
Qed.

#[global] Instance Kept_preorder : PreOrder Kept.
Proof.
  split.
  - intros d. by constructor.
  - intros d1 d2 d3 [] []. constructor; by etrans.
Qed.

(** ** What a run promises *)

Definition holds (k : string * string * string) (d : DB) : Prop := k ∈ claims d.

#[global] Instance holds_dec k d : Decision (holds k d).
Proof. unfold holds. apply _. Defined.

(** Each transaction keeps what is recorded, and a claim is only released by the
    run that took it. *)
Definition Conducted (l : Log) : Prop :=
  Forall (fun e => Recorded e.1 e.2) l /\ Owned holds nothing l.

#[global] Instance Conducted_composable : Composable Conducted.
Proof.
  split; [by split|]. intros l1 l2 [R1 O1] [R2 O2]. split; [by apply Forall_app|by apply Owned_app].
Qed.

Lemma Kept_Conducted l : Forall (fun e => Kept e.1 e.2) l -> Conducted l.
Proof.
  intros HF. split.
  - eapply Forall_impl; [exact HF|]. by intros e [].
  - apply Owned_free. eapply Forall_impl; [exact HF|]. intros e [_ Hc] k [Hk Hn]. by apply Hn, Hc.
Qed.

(** The transactions of a run that may release its own claims, or, if [strict],
    releases none. *)
Definition promised (strict : bool) (l : Log) : Prop :=
  if strict then Forall (fun e => Kept e.1 e.2) l else Conducted l.

#[global] Instance promised_composable strict : Composable (promised strict).
Proof.
  destruct strict; [|exact Conducted_composable].
  split; [by constructor|]. intros l1 l2 H1 H2. by apply Forall_app.
Qed.

Lemma Kept_promised strict l : Forall (fun e => Kept e.1 e.2) l -> promised strict l.
Proof. destruct strict; [done|apply Kept_Conducted]. Qed.

Section promise.
Context `{Outside} (strict : bool).

Definition Promise : St -> St -> Prop := Logged (promised strict).

#[global] Instance Promise_preorder : PreOrder Promise.
Proof. unfold Promise. apply _. Qed.

Lemma Promise_tx {A} (body : Z -> nat -> DB -> Res A * DB) :
  (forall now seq d a d', body now seq d = (Ok a, d') -> Kept d d') -> Pres Promise (tx body).
Proof.
  intros Hb. apply Logged_tx; intros; apply Kept_promised; [done|..]; (constructor; [simpl|done]);
    [reflexivity|by eapply Hb].
Qed.

Lemma Promise_query {A} (f : DB -> Res A) : Pres Promise (query f).
Proof. apply Promise_tx. by intros ? ? d a d' [= _ <-]. Qed.
Lemma Promise_http rq : Pres Promise (http rq).
Proof. exact (Logged_http _ rq). Qed.
Lemma Promise_publish topic key v : Pres Promise (publish topic key v).
Proof. exact (Logged_publish _ topic key v). Qed.
Lemma Promise_metric n : Pres Promise (metric n).
Proof. exact (Logged_metric _ n). Qed.
Lemma Promise_draw : Pres Promise draw.
Proof. exact (Logged_draw _). Qed.
Lemma Promise_uuid : Pres Promise new_uuid.
Proof. exact (Logged_uuid _). Qed.
End promise.
#[export] Hint Resolve Promise_query Promise_http Promise_publish Promise_metric Promise_draw Promise_uuid : pres.

(** ** Histories *)

(** Whatever the order of their transactions, runs that keep their promise take
    nothing back. *)
Lemma Conducted_history ls d ls' d' : Forall Conducted ls -> Interleaved ls d ls' d' -> Kept d d'.
Proof.
  intros HF HI. split.
  - eapply (interleaved_rel Recorded); [exact HI|]. eapply Forall_impl; [exact HF|]. by intros l [].
  - intros k. apply (interleaved_has holds _ _ _ _ k HI). eapply Forall_impl; [exact HF|]. by intros l [].
Qed.

Lemma Promise_kept `{Transport} strict s s' : Promise strict s s' -> Kept (st_db s) (st_db s').
Proof.
  intros (l & _ & HL & Hl). eapply (Conducted_history [l]); [|by apply (Linked_interleaved [l] 0 l)].
  constructor; [|done]. destruct strict; [by apply Kept_Conducted|done].
Qed.

(** ** The store operations *)

Ltac kept_tx :=
  apply Promise_tx;
  let Hb := fresh "Hb" in
  intros ? ? ? ? ? Hb; cbv zeta in Hb; repeat case_match; simplify_eq; try reflexivity;
  (constructor; [constructor|]; simpl; try reflexivity; try (schema; fail)).

Create HintDb kept discriminated.
#[export] Hint Resolve view_snoc : kept.
#[export] Hint Extern 1 (_ `prefix_of` _) => apply prefix_app_r; reflexivity : kept.

Section kept_ops.
Context `{Outside} (strict : bool).
Let R := Promise strict.

Lemma AddProviderID_kept a b c e f : Pres R (AddProviderID a b c e f).
Proof. kept_tx. by apply view_update. Qed.

Lemma view_upsert_canonical now i c l :
  view all_rows canonical_identity l ⊆ view all_rows canonical_identity (upsert_canonical_row now i c l).
Proof.
  apply view_upsert. intros r Hr _. split; [done|]. unfold canonical_key in Hr. seqb_simpl.
  unfold canonical_identity, canonical_row. simpl. congruence.
Qed.

Lemma UpsertCanonical_kept c : Pres R (UpsertCanonical c).
Proof. kept_tx. apply view_upsert_canonical. Qed.

Lemma Claim_kept a b c e f : Pres R (ClaimProcessedEvent a b c e f).
Proof. kept_tx. by eapply view_insert_new. Qed.

Lemma UpsertOutboundWrite_kept w : Pres R (UpsertOutboundWrite w).
Proof. kept_tx. Qed.

Lemma InsertSyncOperation_kept o : Pres R (InsertSyncOperation o).
Proof. kept_tx. auto with kept. Qed.

Lemma insert_operations_kept now seq i ops d : Kept d (insert_operations now seq i ops d).
Proof.
  revert i d. induction ops as [|o ops IH]; intros i d; simpl; [done|].
  etrans; [|apply IH]. constructor; [constructor|]; simpl; try reflexivity; [auto with kept|schema].
Qed.

Lemma outbound_fold_kept now ws d :
  Kept d (foldl (fun d w => on_outbound_writes (upsert_outbound_row now w) d) d ws).
Proof.
  revert d. induction ws as [|w ws IH]; intros d; simpl; [done|].
  etrans; [|apply IH]. constructor; [constructor|]; try reflexivity. schema.
Qed.

Lemma PersistApplyState_kept c ws ops : Pres R (PersistApplyState c ws ops).
Proof.
  apply Promise_tx. intros now seq d a d' [= _ <-].
  etrans; [apply (outbound_fold_kept now ws)|].
  etrans; [apply (insert_operations_kept now seq 1 ops)|].
  constructor; [constructor|]; simpl; try reflexivity; [apply view_upsert_canonical|schema].
Qed.

Lemma SetSourceEventStatus_kept a b c e : is_event_status e = true -> Pres R (SetSourceEventStatus a b c e).
Proof. intros Hc. kept_tx. by apply view_update. Qed.
Lemma SetSourceEventStatusTo_kept a b c : is_event_status c = true -> Pres R (SetSourceEventStatusTo a b c).
Proof. intros Hc. kept_tx. by apply view_update. Qed.
Lemma InsertSourceEvent_kept ev : Pres R (InsertSourceEvent ev).
Proof. kept_tx. by eapply view_insert_new. Qed.

Lemma EnqueueRetry_kept e delay : Pres R (EnqueueRetry e delay).
Proof. kept_tx. Qed.
Lemma DeleteRetry_kept a b : Pres R (DeleteRetry a b).
Proof. kept_tx. Qed.
Lemma ClaimDueRetries_kept n : Pres R (ClaimDueRetries n).
Proof. kept_tx. Qed.

Lemma InsertDeadLetter_kept e : Pres R (InsertDeadLetter e).
Proof. kept_tx. by apply view_upsert. Qed.
Lemma SetDeadLetterStatus_kept a b c : is_letter_status c = true -> Pres R (SetDeadLetterStatus a b c).
Proof. intros Hc. kept_tx. by apply view_update. Qed.
Lemma ResolveDeadLetterForEvent_kept a b : Pres R (ResolveDeadLetterForEvent a b).
Proof. kept_tx. by apply view_update. Qed.

Lemma InsertConflict_kept c : is_conflict_status (co_Status c) = true -> Pres R (InsertConflict c).
Proof. intros Hc. kept_tx; by eapply view_insert_new. Qed.

(** The guard of the statement is what makes a dismissal final; no caller sets a
    conflict back to pending. *)
Lemma SetConflictStatus_kept a b c e f :
  is_conflict_status c && negb (c =s ConflictPending) = true -> Pres R (SetConflictStatus a b c e f).
Proof.
  intros [Hc Hp]%andb_prop. kept_tx; apply view_update; [done|done|]. intros r Hr Hd. unfold dismissed in Hd.
  apply andb_prop in Hr as [_ Hr]. rewrite Hd in Hr. discriminate.
Qed.

Lemma SetFindingDirection_kept a b c : is_direction c = true -> Pres R (SetReconciliationFindingDirection a b c).
Proof. intros Hc. kept_tx. apply view_update. intros r _ Hr. split; [exact Hr|done]. Qed.

(** So is the guard on the status of a finding. *)
Lemma SetFindingStatus_kept a b c e : is_finding_status c = true -> Pres R (SetReconciliationFindingStatus a b c e).
Proof.
  intros Hc. kept_tx. apply view_update. intros r Hr Hs. unfold may_transition, settled in *.
  apply andb_prop in Hr as [_ Hr]. repeat (apply orb_prop in Hs as [Hs|Hs]);
    apply seqb_true in Hs; rewrite Hs in Hr; discriminate Hr.
Qed.

Definition insertable (f : ReconciliationFinding) : bool :=
  is_finding_kind (rf_Kind f) && ((rf_Direction f =s "") || is_direction (rf_Direction f)) &&
  ((rf_Status f =s "") || is_finding_status (rf_Status f)).

Lemma InsertFinding_kept f : insertable f = true -> Pres R (InsertReconciliationFinding f).
Proof.
  unfold insertable. intros [[Hk Hd]%andb_prop Hs]%andb_prop.
  assert ((rf_Direction f =s "") = false -> is_direction (rf_Direction f) = true) as Hd'
    by (intros E; by rewrite E in Hd).
  assert ((rf_Status f =s "") = false -> is_finding_status (rf_Status f) = true) as Hs'
    by (intros E; by rewrite E in Hs).
  kept_tx; by eapply view_insert_new.
Qed.

Lemma InsertAuditLog_kept a e : Pres R (InsertAuditLog a e).
Proof. kept_tx; auto with kept. Qed.
Lemma CreateSyncJob_kept j : (is_job_type (sj_Type j) || (sj_Type j =s ""))%bool = true -> Pres R (CreateSyncJob j).
Proof.
  intros Hc. assert ((sj_Type j =s "") = false -> is_job_type (sj_Type j) = true) as Hj
    by (intros E; by rewrite E, orb_false_r in Hc).
  kept_tx.
Qed.
Lemma reopen_job_kept a b : Pres R (reopen_job a b).
Proof. kept_tx. Qed.
Lemma UpdateSyncJobProgress_kept a b c e f g : Pres R (UpdateSyncJobProgress a b c e f g).
Proof. kept_tx. Qed.
Lemma FinishSyncJob_kept a b c e : is_job_status c = true -> Pres R (FinishSyncJob a b c e).
Proof. intros Hc. kept_tx. Qed.
Lemma CreateReconciliationRun_kept r :
  is_run_mode (rr_Mode r) = true -> is_run_status (rr_Status r) = true ->
  Pres R (CreateReconciliationRun r).
Proof. intros Hm Hs. kept_tx. Qed.
Lemma UpdateCounters_kept a b c e f : Pres R (UpdateReconciliationCounters a b c e f).
Proof. kept_tx. Qed.
Lemma FinishReconciliationRun_kept a b c : is_run_status b = true -> Pres R (FinishReconciliationRun a b c).
Proof. intros Hc. kept_tx. Qed.
End kept_ops.

#[export] Hint Resolve AddProviderID_kept UpsertCanonical_kept Claim_kept UpsertOutboundWrite_kept
  InsertSyncOperation_kept PersistApplyState_kept SetSourceEventStatus_kept
  SetSourceEventStatusTo_kept InsertSourceEvent_kept EnqueueRetry_kept DeleteRetry_kept
  ClaimDueRetries_kept InsertDeadLetter_kept SetDeadLetterStatus_kept
  ResolveDeadLetterForEvent_kept InsertConflict_kept SetConflictStatus_kept
  SetFindingDirection_kept SetFindingStatus_kept InsertFinding_kept InsertAuditLog_kept
  CreateSyncJob_kept reopen_job_kept UpdateSyncJobProgress_kept FinishSyncJob_kept
  CreateReconciliationRun_kept UpdateCounters_kept FinishReconciliationRun_kept : pres.
(** Statuses and kinds are literals at most calls. *)
#[export] Hint Extern 1 (_ = true) => first [assumption|reflexivity] : pres.

(** ** The components *)

Section kept_worker.
Context `{Outside} (strict : bool).
Let R := Promise strict.

Lemma connect_kept t p : Pres R (connect t p).
Proof. unfold connect, adapterFor. pres. Qed.
Hint Resolve connect_kept : pres.

Lemma recordSyncOperation_kept t a b c e f g h : Pres R (recordSyncOperation t a b c e f g h).
Proof. unfold recordSyncOperation. pres. Qed.
Hint Resolve recordSyncOperation_kept : pres.

Lemma push_kept t cust dst c : Pres R (push t cust dst c).
Proof. unfold push. pres. Qed.
Hint Resolve push_kept : pres.

Lemma push_all_kept t a b c e cust ps r : Pres R (push_all t a b c e cust ps r).
Proof. revert r. induction ps as [|p ps IH]; intros r; simpl; [pres|]. unfold push_recorded. pres. Qed.

Lemma propagate_kept ev et cust ps c outs ops : Pres R (propagate ev et cust ps c outs ops).
Proof. revert c outs ops. induction ps as [|p ps IH]; intros c outs ops; simpl; pres. Qed.

Lemma delete_all_kept ev et ps c : Pres R (delete_all ev et ps c).
Proof. induction ps as [|p ps IH]; simpl; pres. Qed.
Hint Resolve push_all_kept propagate_kept delete_all_kept : pres.

Lemma recordConflict_kept ev et c inc ds st strat :
  is_conflict_status st = true -> Pres R (recordConflict ev et c inc ds st strat).
Proof. intros Hst. unfold recordConflict. pres. Qed.
Hint Resolve recordConflict_kept : pres.

Lemma applyUpsert_kept ev et ps : Pres R (applyUpsert ev et ps).
Proof.
  unfold applyUpsert, applyResolution, resolveCanonical, isEcho, merge_and_propagate. pres.
Qed.

Lemma applyDelete_kept ev et ps : Pres R (applyDelete ev et ps).
Proof. unfold applyDelete. pres. Qed.

Lemma applyReconcileFinding_kept ev et ps : Pres R (applyReconcileFinding ev et ps).
Proof.
  unfold applyReconcileFinding, applyAdoptProvider, adoptCanonical, pushRepair, or_reconcileFail,
    reconcileApplied, reconcileSkip, reconcileFail. pres.
Qed.
End kept_worker.

#[export] Hint Resolve connect_kept applyUpsert_kept applyDelete_kept applyReconcileFinding_kept : pres.

(** ** Claims *)

Lemma Kept_free l : Forall (fun e => Kept e.1 e.2) l -> Forall (fun e => forall k, ~ releases holds k e) l.
Proof. intros HF. eapply Forall_impl; [exact HF|]. intros e [_ Hc] k [Hk Hn]. by apply Hn, Hc. Qed.

Definition event_claim (ev : Event) : string * string * string :=
  (ev_TenantID ev, ev_Source ev, ev_EventID ev).

Lemma claimed_view ev d : claimed ev d = true <-> holds (event_claim ev) d.
Proof.
  unfold claimed, holds, claims. rewrite existsb_exists, elem_of_view. unfold event_claim. split.
  - intros (r & Hr & E). unfold processed_key in E. seqb_simpl. exists r.
    split; [by apply list_elem_of_In|]. split; [done|]. unfold claim_key. congruence.
  - intros (r & Hr & _ & [= E1 E2 E3]). exists r. split; [by apply list_elem_of_In|].
    unfold processed_key. by rewrite E1, E2, E3, !seqb_refl.
Qed.

Section claim.
Context `{Outside} (ev : Event).
Let key := event_claim ev.

(** One transaction may release the claim of [ev]; the others keep everything. *)
Definition ReleasesOnce (l : Log) : Prop :=
  exists a e b, l = (a ++ e ++ b)%list /\ Forall (fun e => Kept e.1 e.2) (a ++ b)%list /\ length e <= 1 /\
    Forall (fun x => Recorded x.1 x.2 /\ forall k, releases holds k x -> k = key) e.

Lemma Kept_once l : Forall (fun e => Kept e.1 e.2) l -> ReleasesOnce l.
Proof. intros Hl. exists l, [], []. rewrite !app_nil_r. split_and!; [done..|simpl; lia|done]. Qed.

Lemma Kept_then_once l1 l2 : Forall (fun e => Kept e.1 e.2) l1 -> ReleasesOnce l2 -> ReleasesOnce (l1 ++ l2)%list.
Proof.
  intros H1 (a & e & b & -> & Hk & He & Hx). exists (l1 ++ a)%list, e, b. rewrite <- !app_assoc.
  split_and!; [done| |done..]. by apply Forall_app.
Qed.

Lemma once_then_Kept l1 l2 : ReleasesOnce l1 -> Forall (fun e => Kept e.1 e.2) l2 -> ReleasesOnce (l1 ++ l2)%list.
Proof.
  intros (a & e & b & -> & [Ha Hb]%Forall_app & He & Hx) H2. exists a, e, (b ++ l2)%list.
  rewrite <- !app_assoc. split_and!; [done| |done..]. rewrite !Forall_app. by split_and!.
Qed.

Lemma once_before {A B} (m : M A) (k : A -> M B) :
  Pres (Promise true) m -> (forall a, Pres (Logged ReleasesOnce) (k a)) ->
  Pres (Logged ReleasesOnce) (m ≫= k).
Proof.
  intros Hm Hk s. unfold mbind, M_bind. specialize (Hm s). destruct (m s) as [[a|e] s1]; simpl in *.
  - eapply Logged_seq; [exact Kept_then_once|exact Hm|apply Hk].
  - eapply Logged_impl; [exact Kept_once|exact Hm].
Qed.

Lemma once_after {A B} (m : M A) (k : A -> M B) :
  Pres (Logged ReleasesOnce) m -> (forall a, Pres (Promise true) (k a)) ->
  Pres (Logged ReleasesOnce) (m ≫= k).
Proof.
  intros Hm Hk s. unfold mbind, M_bind. specialize (Hm s). destruct (m s) as [[a|e] s1]; simpl in *; [|done].
  eapply Logged_seq; [exact once_then_Kept|exact Hm|apply Hk].
Qed.

Lemma once_strict {A} (m : M A) : Pres (Promise true) m -> Pres (Logged ReleasesOnce) m.
Proof. intros Hm s. eapply Logged_impl; [exact Kept_once|apply Hm]. Qed.

Lemma Release_once : Pres (Logged ReleasesOnce)
  (ignore (ReleaseProcessedEvent (ev_TenantID ev) (ev_Source ev) (ev_EventID ev))).
Proof.
  apply Pres_ignore, Logged_tx; [by apply Kept_once| |].
  - intros d. apply Kept_once. constructor; [simpl; reflexivity|done].
  - intros now seq d a d' [= _ <-]. eexists [], [_], []. split_and!; [done..|simpl; lia|].
    constructor; [|done]. simpl. split; [constructor; simpl; try reflexivity; schema|].
    intros k [Hk Hn]. destruct (decide (k = key)) as [|Hne]; [done|]. exfalso. apply Hn.
    unfold holds, claims in *. simpl in *. apply elem_of_view in Hk as (r & Hr & _ & <-). apply elem_of_view.
    exists r. split_and!; [|done..]. unfold delete_where. apply list_elem_of_In, filter_In.
    split; [by apply list_elem_of_In|]. destruct (processed_key _ _ _ r) eqn:E; [|done].
    unfold processed_key in E. seqb_simpl. destruct Hne. unfold key, event_claim, claim_key. congruence.
Qed.

Lemma or_fail_once {A B} (m : M A) (k : A -> M B) :
  Pres (Promise true) m -> (forall a, Pres (Logged ReleasesOnce) (k a)) ->
  Pres (Logged ReleasesOnce) (or_fail ev m k).
Proof.
  intros Hm Hk. unfold or_fail. apply once_before; [by apply Pres_attempt|]. intros [a|e]; [apply Hk|].
  apply once_after; [|intros; pres]. unfold fail. apply once_before; [pres|]. intros _.
  apply once_after; [apply Release_once|]. intros _. pres.
Qed.

Lemma succeed_kept strict : Pres (Promise strict) (succeed ev).
Proof. unfold succeed. pres. Qed.
Lemma canonicalEntityType_kept strict : Pres (Promise strict) (canonicalEntityType ev).
Proof. unfold canonicalEntityType. pres. Qed.
Lemma ListPolicies_kept strict t : Pres (Promise strict) (ListPolicies t).
Proof. unfold ListPolicies. pres. Qed.
Hint Resolve succeed_kept canonicalEntityType_kept ListPolicies_kept : pres.

Lemma process_claimed_once : Pres (Logged ReleasesOnce) (process_claimed ev).
Proof.
  unfold process_claimed. apply or_fail_once; [pres|]. intros ps. apply or_fail_once; [pres|]. intros et.
  case_if; [apply or_fail_once; [pres|]; intros _; apply once_strict; pres|].
  destruct (targets ev et ps).
  - apply once_after; [apply Release_once|]. intros _. pres.
  - apply or_fail_once; [case_if; pres|]. intros _. apply once_strict. pres.
Qed.

(** A claim that is answered [true] was free and is taken. *)
Lemma Claim_run s r s' :
  ClaimProcessedEvent (ev_TenantID ev) (ev_Source ev) (ev_EventID ev) (ev_EntityType ev) (ev_EntityID ev) s
    = (r, s') ->
  Logged (fun l => Forall (fun e => Kept e.1 e.2) l /\
                   (r = Ok true -> exists e, l = [e] /\ takes holds key e)) s s'.
Proof.
  intros E. pose proof (Claim_kept true (ev_TenantID ev) (ev_Source ev) (ev_EventID ev) (ev_EntityType ev)
    (ev_EntityID ev) s) as (l & El & Hl & HK). rewrite E in *. simpl in *. exists l. split_and!; [done..|].
  intros ->. apply tx_committed in E as (d & E & El' & _). rewrite El in El'. apply app_inv_head in El' as ->.
  destruct (insert_new _ _ _) as [t|] eqn:Ht in E; [|done]. apply (f_equal snd) in E. simpl in E. rewrite <- E.
  eexists. split; [done|]. unfold insert_new in Ht. destruct (existsb _ _) eqn:Ex; [done|]. simplify_eq. split.
  - intros Hh%claimed_view. unfold claimed in Hh. simpl in Hh. congruence.
  - unfold holds, claims. simpl. apply elem_of_view. eexists. split_and!; [apply elem_of_app; right; by left|done|done].
Qed.

Lemma claim_conducted e l : takes holds key e -> Kept e.1 e.2 -> ReleasesOnce l -> Conducted (e :: l).
Proof.
  intros Ht Hke (a & x & b & -> & [Ha Hb]%Forall_app & Hlen & Hx). split.
  - constructor; [apply Hke|]. rewrite !Forall_app. split_and!.
    + eapply Forall_impl; [exact Ha|]. by intros ? [].
    + eapply Forall_impl; [exact Hx|]. by intros ? [].
    + eapply Forall_impl; [exact Hb|]. by intros ? [].
  - split; [intros k [Hk Hn]; exfalso; by apply Hn, Hke|]. apply Owned_skip; [by apply Kept_free|].
    destruct x as [|x [|? ?]]; simpl in *; [by apply Owned_free, Kept_free| |lia].
    apply Forall_cons in Hx as [[_ Hx] _]. split; [|by apply Owned_free, Kept_free].
    intros k Hk%Hx. subst k. by right.
Qed.

Lemma Process_kept : Pres (Promise false) (Process ev).
Proof.
  intros s. destruct (Process ev s) as [r s'] eqn:E. simpl. unfold Process in E. rewrite bind_metric in E.
  etrans; [apply (Promise_metric false "EventsTotal" s)|]. simpl. fold (add_metric "EventsTotal" s).
  rewrite bind_attempt in E. destruct (ClaimProcessedEvent _ _ _ _ _ _) as [x s1] eqn:Ec.
  apply Claim_run in Ec. simpl in E.
  assert (Hrest : Promise false (add_metric "EventsTotal" s) s1).
  { eapply Logged_impl; [|exact Ec]. intros l [Hl _]. by apply (Kept_promised false). }
  destruct x as [[]|e].
  - pose proof (process_claimed_once s1) as Hp. rewrite E in Hp. simpl in Hp.
    eapply Logged_seq; [|exact Ec|exact Hp]. simpl. intros l1 l2 [Hl1 H1] Hl2.
    destruct (H1 eq_refl) as (e & -> & Ht). apply Forall_cons in Hl1 as [He _]. by apply claim_conducted.
  - etrans; [exact Hrest|]. pose proof (Promise_metric false "Duplicates" s1) as Hm. by rewrite E in Hm.
  - etrans; [exact Hrest|]. apply run_bind in E as [(? & E & _)|(? & s2 & E2 & E)]; [done|].
    injection E as <- <-. pose proof (Promise_metric false "EventsFailed" s1) as Hm. by rewrite E2 in Hm.
Qed.

(** ** Claims that stay *)

Lemma silent {A} (m : M A) s r s' :
  Pres (CallsIn (fun _ => False)) m -> m s = (r, s') -> st_calls s' = st_calls s.
Proof.
  intros Hm E. destruct (Hm s) as ([|rq l] & Hc & Hl); rewrite E in Hc; simpl in Hc.
  - by rewrite Hc, app_nil_r.
  - by apply Forall_cons in Hl as [[] _].
Qed.

Lemma or_fail_succeed (m : M unit) s s' :
  Pres (Promise true) m -> or_fail ev m (fun _ => succeed ev) s = (Ok tt, s') -> Promise true s s'.
Proof.
  intros Hm E. apply or_fail_Ok in E as (a & s1 & E1 & E2). specialize (Hm s). rewrite E1 in Hm.
  etrans; [exact Hm|]. pose proof (succeed_kept true s1) as Hs. by rewrite E2 in Hs.
Qed.

Lemma process_claimed_strict s s' :
  process_claimed ev s = (Ok tt, s') -> st_calls s' <> st_calls s -> Promise true s s'.
Proof.
  intros E Hc. unfold process_claimed in E.
  apply or_fail_Ok in E as (ps & s1 & E1 & E). frame E1 (Promise true).
  assert (st_calls s1 = st_calls s) as C1 by (eapply silent; [|exact E1]; unfold ListPolicies, query; pres).
  apply or_fail_Ok in E as (et & s2 & E2 & E). frame E2 (Promise true).
  assert (st_calls s2 = st_calls s1) as C2
    by (eapply silent; [|exact E2]; unfold canonicalEntityType, connect, adapterFor,
          GetConnectionByProvider, query; pres).
  rewrite <- C1, <- C2 in Hc.
  etrans; [exact P|]. etrans; [exact P0|]. clear P P0 E1 E2.
  destruct (negb _); [by eapply or_fail_succeed; [|exact E]; pres|].
  destruct (targets ev et ps) as [|p ts].
  - exfalso. apply Hc. eapply silent; [|exact E].
    unfold ReleaseProcessedEvent, SetSourceEventStatus. pres.
  - eapply or_fail_succeed; [|exact E]. case_if; pres.
Qed.

(** Processing that succeeded after talking to a provider took the claim and
    keeps it. *)
Lemma Process_keeps s :
  (Process ev s).1 = Ok tt -> st_calls (Process ev s).2 <> st_calls s -> Keeps holds key (commits (Process ev) s).
Proof.
  unfold commits. destruct (Process ev s) as [r s'] eqn:E. simpl. intros -> Hc. unfold Process in E.
  rewrite bind_metric, bind_attempt in E. destruct (ClaimProcessedEvent _ _ _ _ _ _) as [x s1] eqn:Ec.
  assert (Hc1 : st_calls s1 = st_calls s)
    by (eapply (silent _ (add_metric "EventsTotal" s)); [|exact Ec]; unfold ClaimProcessedEvent; pres).
  apply Claim_run in Ec as (l & El & _ & _ & Ht). simpl in E. destruct x as [[]|e].
  - destruct (Ht eq_refl) as (e & -> & He). simpl in El.
    apply process_claimed_strict in E as (l & El' & _ & Hl); [|by rewrite Hc1].
    rewrite El', El, <- app_assoc, drop_app_length. simpl. exists e, l. split_and!; [done..|].
    eapply Forall_impl; [apply (Kept_free _ Hl)|]. simpl. auto.
  - exfalso. apply Hc. injection E as <-. simpl. by rewrite Hc1.
  - apply run_bind in E as [(? & E & _)|(? & s2 & E2 & E)]; [done|]. discriminate E.
Qed.
End claim.

Lemma new_uuid_pres `{Transport} (R : DB -> DB -> Prop) `{!PreOrder R} : Pres (OnDb R) new_uuid.
Proof. intros s. unfold OnDb. simpl. reflexivity. Qed.

Section kept_system.
Context `{Outside}.
Hint Resolve Process_kept new_uuid_pres : pres.

Lemma deadLetter_kept strict ev a b : Pres (Promise strict) (deadLetter ev a b).
Proof. unfold deadLetter. pres. Qed.
Hint Resolve deadLetter_kept : pres.

Lemma Handle_kept opts v : Pres (Promise false) (Handle opts v).
Proof. unfold Handle, handle_event, dispatchFailure. pres. Qed.

Lemma processRetry_kept o r : Pres (Promise false) (processRetry o r).
Proof. unfold processRetry, retry_failed, engine_deadLetter, engine_discard. pres. Qed.
Hint Resolve processRetry_kept : pres.

Lemma process_all_kept o rs : Pres (Promise false) (process_all o rs).
Proof. induction rs as [|r rs IH]; simpl; pres. Qed.
Hint Resolve process_all_kept : pres.

Lemma drain_kept o : Pres (Promise false) (drain o).
Proof. unfold drain. pres. Qed.

Lemma handleWebhook_kept rq : Pres (Promise false) (handleWebhook rq).
Proof. unfold handleWebhook, accept_webhook. pres. Qed.

Lemma publish_all_pres ses : Pres (Promise false) (publish_all ses).
Proof. induction ses as [|se ses IH]; simpl; [pres|]. unfold publish_one. pres. Qed.
Hint Resolve publish_all_pres : pres.

Lemma ingest_drain_kept : Pres (Promise false) ingest_drain.
Proof. unfold ingest_drain. pres. Qed.

Lemma asked_direction_ok body a :
  asked_direction body = Some a -> (a =s "") = false -> is_direction a = true.
Proof.
  unfold asked_direction. case_match; [|by intros [= <-]]. case_match eqn:E; intros [= <-] Ha.
  by rewrite Ha in E.
Qed.

Lemma handleApplyFinding_kept cfg c id body : Pres (Promise false) (handleApplyFinding cfg c id body).
Proof.
  unfold handleApplyFinding, enqueue_repair, with_row, or_500, audit.
  destruct (asked_direction body) as [a|] eqn:Ea; [|pres].
  destruct (a =s "") eqn:E; [pres|]. pose proof (asked_direction_ok _ _ Ea E). pres.
Qed.

Lemma handleCreateReconciliation_kept cfg c body :
  Pres (Promise false) (handleCreateReconciliation cfg c body).
Proof.
  unfold handleCreateReconciliation, or_500. destruct (into_struct _ body) as [[[e src] m]|]; [|pres].
  cbv zeta. case_if; [pres|].
  assert (is_run_mode (if negb (m =s "auto") && negb (m =s "manual") then "auto" else m) = true) as Hm.
  { unfold is_run_mode. destruct (m =s "auto") eqn:E1, (m =s "manual") eqn:E2; simpl; by rewrite ?E1, ?E2. }
  revert Hm. generalize (if negb (m =s "auto") && negb (m =s "manual") then "auto" else m).
  intros mode Hm. pres.
Qed.
Hint Resolve handleApplyFinding_kept handleCreateReconciliation_kept : pres.

Lemma serve_kept cfg out c q : Pres (Promise false) (serve cfg out c q).
Proof.
  unfold serve, requireRole. case_if; [pres|]. destruct q; simpl;
    unfold handleListSyncJobs, handleGetSyncJob, handleCreateSyncJob, handleRerunSyncJob,
    handleDLQRetry, handleDLQDiscard, handleListConflicts, handleGetConflict,
    handleResolveConflict, handleDismissConflict, handleListReconciliations,
    handleGetReconciliation, handleListReconcileFindings, handleDismissFinding, with_row, or_500, audit;
    pres.
Qed.
End kept_system.

#[export] Hint Resolve Process_kept new_uuid_pres Handle_kept drain_kept handleWebhook_kept
  ingest_drain_kept serve_kept : pres.
