(* ===== verification/AuthSpec.v ===== *)
(** * What authentication guarantees

    Tokens: a minted token verifies until it expires, and whatever verifies was
    signed with the server's secret and names a live session.  Revoked sessions
    and keys stay revoked through every later step.  Accounts: the lockout, the
    second factor, single-use backup codes, and roles that nobody can raise above
    their own. *)

From S2P Require Import Prelude Json GoTime Crypto Encoding Totp JsonText Events Model Tables Effects.
From S2P Require Import Store AuthStore TenantStore Schema Frame Interleave Connectors Run WorkerFrame Ingestion Operator Auth.
From S2P Require Import Sample Accounts History.
Local Open Scope string_scope.
#[local] Arguments String.append !_ _ /.

(** ** History *)

Section kept.
Context `{Outside} `{Bcrypt} (cfg : AuthConfig) (strict : bool).
Let R := Promise strict.

Lemma CreateUser_kept a b c e : Pres R (CreateUser a b c e).
Proof. kept_tx. Qed.
Lemma update_user_kept a b f :
  (forall r, user_columns (f r) = user_columns r) ->
  (forall r, is_role (us_Role r) = true -> is_role (us_Role (f r)) = true) -> Pres R (update_user a b f).
Proof. intros Hk Hr. kept_tx. Qed.
Hint Resolve update_user_kept : pres.
Hint Extern 1 (forall _, user_columns _ = _) => intros ?; reflexivity : pres.
Hint Extern 1 (forall _, is_role _ = true -> is_role _ = true) => intros ? ?; assumption : pres.
Lemma SetUserRole_kept a b c : Pres R (SetUserRole a b c).
Proof. unfold SetUserRole. destruct (is_role c) eqn:E; pres. Qed.
Lemma ConsumeBackupCode_kept a b c : Pres R (ConsumeBackupCode a b c).
Proof. kept_tx. Qed.
Lemma CreateSession_kept s : Pres R (CreateSession s).
Proof.
  kept_tx; unfold insert_new in *; case_match; simplify_eq; apply sessions_le_snoc.
Qed.
Lemma RevokeSession_kept a b : Pres R (RevokeSession a b).
Proof. kept_tx. apply sessions_le_revoke. Qed.
Lemma RevokeUserSessions_kept a b : Pres R (RevokeUserSessions a b).
Proof. kept_tx. apply sessions_le_revoke. Qed.
Lemma ListSessions_kept a b : Pres R (ListSessions a b).
Proof. kept_tx. Qed.
Lemma insert_key_kept a b c e : Pres R (insert_key a b c e).
Proof. kept_tx. by eapply (keys_le_insert (mkAPIKey _ _ _ _ _ _ _ _)). Qed.
Lemma TouchKey_kept a : Pres R (TouchKey a).
Proof. unfold TouchKey. pres. kept_tx. by apply keys_le_update. Qed.
Lemma RevokeAPIKey_kept a b : Pres R (RevokeAPIKey a b).
Proof. kept_tx. by apply keys_le_update. Qed.
Lemma RecordLoginAttempt_kept a : Pres R (RecordLoginAttempt a).
Proof. kept_tx. Qed.
Lemma CountRecentFailures_kept a b c : Pres R (CountRecentFailures a b c).
Proof. kept_tx. Qed.
Lemma ClearLoginFailures_kept a b : Pres R (ClearLoginFailures a b).
Proof. kept_tx. Qed.
Lemma new_uuid_kept : Pres R new_uuid.
Proof. apply Promise_uuid. Qed.
Hint Resolve CreateUser_kept SetUserRole_kept ConsumeBackupCode_kept CreateSession_kept
  RevokeSession_kept RevokeUserSessions_kept ListSessions_kept insert_key_kept TouchKey_kept
  RevokeAPIKey_kept RecordLoginAttempt_kept CountRecentFailures_kept ClearLoginFailures_kept
  new_uuid_kept : pres.

Lemma verifySessionToken_kept t : Pres R (verifySessionToken cfg t).
Proof. unfold verifySessionToken, GetLiveSession. pres. Qed.
Hint Resolve verifySessionToken_kept : pres.

Lemma authenticate_kept r : Pres R (authenticate cfg r) /\ Pres R (requireUser cfg r).
Proof.
  split; unfold authenticate, requireUser, requireAPIKey, VerifyAPIKey; pres.
Qed.

Lemma handleLogin_kept r n : Pres R (handleLogin cfg r n).
Proof.
  unfold handleLogin, login_unlocked, second_factor, login_succeeds, new_session, loginFailure,
    auditLogin. pres.
Qed.
Lemma handleLogout_kept r : Pres R (handleLogout cfg r).
Proof. unfold handleLogout, or_500, auditLogin. pres. Qed.
Lemma handleRefresh_kept r : Pres R (handleRefresh cfg r).
Proof. unfold handleRefresh, new_session, or_500, auditLogin. pres. Qed.

Lemma account_handler_kept r q c : Pres R (account_handler cfg r q c).
Proof.
  destruct q; simpl; unfold handleCreateUser, handleListUsers, handleResetPassword,
    handleChangeRole, handleRevokeUserSessions, handleListSessions, handleCreateAPIKey,
    handleListAPIKeys, handleRevokeAPIKey, handleChangePassword, handleMFAEnroll, handleMFAConfirm,
    handleMFADisable, handleMFABackupCodes, with_code, with_user, with_hash, grantable, with_row,
    or_500, audit, SetUserPassword, SetTOTPSecret, SetTOTPEnabled, SetBackupCodes,
    CreateTenantAPIKey; pres.
Qed.

Lemma serve_account_kept r q : Pres R (serve_account cfg r q).
Proof.
  unfold serve_account, behind, requireRole. destruct (authenticate_kept r).
  case_if; apply Pres_bind; try typeclasses eauto; try done; intros x _; pres;
    apply account_handler_kept.
Qed.
End kept.

(** ** Tokens *)

Lemma string_of_bytes_of_string s : string_of_bytes (bytes_of_string s) = s.
Proof.
  induction s as [|c s IH]; simpl; [done|]. by rewrite N2Z.id, ascii_N_embedding, IH.
Qed.

Lemma bytes_of_string_bytes s : Forall is_byte (bytes_of_string s).
Proof.
  induction s as [|c s IH]; simpl; constructor; [|done]. unfold is_byte.
  pose proof (N_ascii_bounded c). lia.
Qed.

Lemma b64_char_dot n : (0 <= n < 64)%Z -> Ascii.eqb (b64_char n) "." = false.
Proof.
  intros Hn. apply negb_true_iff.
  apply (forall_below 64 (fun n => negb (Ascii.eqb (b64_char n) "."))); [vm_compute; reflexivity|lia].
Qed.

Lemma b64_chars_dot l : Forall (fun c => Ascii.eqb c "." = false) (b64_chars l).
Proof.
  induction l as [|a|a b|a b c l IH] using list_ind3; cbn [b64_chars]; cbv zeta;
    repeat (constructor; [apply b64_char_dot, Z.mod_pos_bound; lia|]); done.
Qed.

Lemma split_dots_nonempty s : split_dots s <> [].
Proof. destruct s as [|c s]; simpl; [done|]. by repeat case_match. Qed.

Lemma split_dots_clean l r :
  Forall (fun c => Ascii.eqb c "." = false) l ->
  split_dots (String.string_of_list_ascii l +:+ r) =
  match split_dots r with
  | x :: xs => (String.string_of_list_ascii l +:+ x) :: xs
  | [] => [String.string_of_list_ascii l]
  end.
Proof.
  induction 1 as [|c l Hc _ IH]; simpl.
  { destruct (split_dots r) eqn:E; [by destruct (split_dots_nonempty r)|done]. }
  rewrite Hc, IH. by destruct (split_dots r).
Qed.

Lemma split_token a b :
  split_dots (b64_encode a +:+ "." +:+ b64_encode b) = [b64_encode a; b64_encode b].
Proof.
  unfold b64_encode at 1. rewrite split_dots_clean by apply b64_chars_dot.
  change (split_dots ("." +:+ b64_encode b)) with ("" :: split_dots (b64_encode b)).
  rewrite <- (str_app_nil_r (b64_encode b)) at 1. unfold b64_encode at 1.
  rewrite split_dots_clean by apply b64_chars_dot. simpl split_dots. cbn iota beta.
  by rewrite !str_app_nil_r.
Qed.

Lemma claims_roundtrip c :
  (0 <= cl_Exp c)%Z -> in_int64 (cl_Exp c) = true -> decode_claims (encode_claims c) = Some c.
Proof.
  intros Hpos Hexp. unfold decode_claims, encode_claims.
  rewrite Unmarshal_object; [|done|by repeat constructor].
  destruct c as [jti uid tid role exp]. simpl in *. unfold dec_int64. simpl. by rewrite Hexp.
Qed.

Lemma sha256_mac_bytes secret part : Forall is_byte (token_mac secret part).
Proof. unfold token_mac, hmac. apply sha256_bytes. Qed.

Lemma token_accepted (secret : string) (t t' : Z) (u : sessionClaims) :
  cl_JTI u <> "" -> cl_UserID u <> "" -> cl_TenantID u <> "" -> cl_Role u <> "" ->
  (0 <= t + sessionTTL)%Z -> in_int64 ((t + sessionTTL) / 1000000000)%Z = true ->
  (t' / 1000000000 <= (t + sessionTTL) / 1000000000)%Z ->
  check_token secret (mintSessionToken secret t u) t'
  = Ok (mkClaims (cl_JTI u) (cl_UserID u) (cl_TenantID u) (cl_Role u)
          ((t + sessionTTL) / 1000000000)).
Proof.
  intros Hj Hu Ht Hr Hpos Hin Hexp. unfold check_token, mintSessionToken. cbv zeta.
  rewrite split_token, !b64_roundtrip by (apply bytes_of_string_bytes || apply sha256_mac_bytes).
  rewrite bool_decide_true by done. cbn [negb].
  rewrite string_of_bytes_of_string, claims_roundtrip
    by (simpl; first [done | apply Z.div_pos; lia]).
  cbn [cl_JTI cl_UserID cl_TenantID cl_Role cl_Exp].
  rewrite !seqb_ne by done. cbn [orb].
  destruct (Z.ltb_spec ((t + sessionTTL) / 1000000000) (t' / 1000000000)); [lia|done].
Qed.

(** A token the server minted is accepted, with the claims it was minted for,
    until twelve hours have passed: encoding, signing, splitting, decoding and
    unmarshalling give back what was put in. *)
Theorem token_roundtrip (secret : string) (t t' : Z) (u : sessionClaims) :
  cl_JTI u <> "" -> cl_UserID u <> "" -> cl_TenantID u <> "" -> cl_Role u <> "" ->
  (0 <= t + sessionTTL)%Z -> in_int64 ((t + sessionTTL) / 1000000000)%Z = true ->
  (t' / 1000000000 <= (t + sessionTTL) / 1000000000)%Z ->
  check_token secret (mintSessionToken secret t u) t'
  = Ok (mkClaims (cl_JTI u) (cl_UserID u) (cl_TenantID u) (cl_Role u)
          ((t + sessionTTL) / 1000000000)).
Proof. apply token_accepted. Qed.

Lemma token_roundtrip_witness :
  check_token "s3cret" (mintSessionToken "s3cret" 1700000000000000000
    (mkClaims "j-1" "u-1" "t1" "ADMIN" 0)) 1700043200000000000
  = Ok (mkClaims "j-1" "u-1" "t1" "ADMIN" 1700043200).
Proof.
  apply (token_roundtrip "s3cret" 1700000000000000000 1700043200000000000
           (mkClaims "j-1" "u-1" "t1" "ADMIN" 0)); vm_compute; done.
Defined.

Lemma split_dots_join s : str_join "." (split_dots s) = s.
Proof.
  induction s as [|c s IH]; [done|]. simpl. destruct (Ascii.eqb_spec c ".") as [->|Hc].
  - destruct (split_dots s) as [|x xs] eqn:E; [by destruct (split_dots_nonempty s)|].
    change (str_join "." ("" :: x :: xs)) with ("" +:+ "." +:+ str_join "." (x :: xs)).
    by rewrite IH.
  - destruct (split_dots s) as [|x xs] eqn:E; [by destruct (split_dots_nonempty s)|].
    destruct xs as [|y xs]; simpl in *; by rewrite IH.
Qed.

(** The token is [part.sig], the signature is the server's, the claims are those
    of the part, and they have not expired. *)
Definition Signed (secret token : string) (t : Z) (c : sessionClaims) : Prop :=
  exists part sig raw, token = part +:+ "." +:+ sig /\ b64_decode sig = Some (token_mac secret part) /\
    b64_decode part = Some raw /\ decode_claims (string_of_bytes raw) = Some c /\
    (t / 1000000000 <= cl_Exp c)%Z.

Lemma check_token_sound secret token t c :
  check_token secret token t = Ok c -> Signed secret token t c.
Proof.
  unfold check_token. intros E. pose proof (split_dots_join token) as Hj.
  destruct (split_dots token) as [|part [|sig [|]]]; try done.
  destruct (b64_decode part) as [raw|] eqn:Ep; [|done].
  destruct (b64_decode sig) as [want|] eqn:Es; [|done].
  destruct (bool_decide (want = token_mac secret part)) eqn:Eb; [|done].
  apply bool_decide_eq_true in Eb. subst want. cbn [negb] in E.
  destruct (decode_claims (string_of_bytes raw)) as [c'|] eqn:Ec; [|done].
  destruct (_ || _); [done|]. destruct (Z.ltb_spec (cl_Exp c') (t / 1000000000)); [done|].
  simplify_eq. exists part, sig, raw. by repeat split.
Qed.

(** A live row for the claims. *)
Definition live_row (t : Z) (c : sessionClaims) (r : Session) : Prop :=
  ss_JTI r = cl_JTI c /\ ss_TenantID r = cl_TenantID c /\ ss_RevokedAt r = None /\
  (t <= ss_ExpiresAt r)%Z.

Section verify.
Context `{Transport} (cfg : AuthConfig).

Lemma run_GetLiveSession tenant jti s r s' :
  GetLiveSession tenant jti s = (Ok r, s') ->
  Quiet s s' /\ select_one (session_key tenant jti) (sessions (st_db s)) = Some r /\
  unrevoked r = true /\ (st_now s <= ss_ExpiresAt r)%Z.
Proof.
  intros E. unfold GetLiveSession in E.
  apply run_bind in E as [(e & _ & ?)|(x & s1 & Eq & E)]; [done|].
  apply run_query in Eq as [Q [Hx|?]]; [|done]. symmetry in Hx. apply found_or_Ok in Hx.
  apply run_bind in E as [(e & _ & ?)|(t & s2 & Et & E)]; [done|]. injection Et as <- <-.
  destruct (bool_decide (is_Some (ss_RevokedAt x))) eqn:Er; [done|].
  destruct (Z.ltb_spec (ss_ExpiresAt x) (st_now s1)) as [|Hexp]; [done|].
  injection E as <- <-. destruct Q as (Hd & Hc & Hp & Hw & Hn). split; [done|].
  split; [done|]. unfold unrevoked. rewrite Er. split; [done|]. by rewrite <- Hn.
Qed.

Lemma run_verify token s c s' :
  verifySessionToken cfg token s = (Ok c, s') ->
  Quiet s s' /\ Signed (ac_AuthSecret cfg) token (st_now s) c /\
  exists r, select_one (session_key (cl_TenantID c) (cl_JTI c)) (sessions (st_db s)) = Some r /\
    live_row (st_now s) c r.
Proof.
  intros E. unfold verifySessionToken in E.
  apply run_bind in E as [(e & _ & ?)|(t & s1 & Et & E)]; [done|]. injection Et as <- <-.
  destruct (check_token _ token (st_now s)) as [c'|e] eqn:Ec; [|done].
  rewrite bind_attempt in E.
  destruct (GetLiveSession _ _ s) as [[r|e] s1] eqn:Eg; cbn [fst snd] in E; [|done].
  injection E as <- <-. apply run_GetLiveSession in Eg as (Q & Hs & Hu & Hx).
  split; [done|]. split; [by apply check_token_sound|]. exists r. split; [done|].
  apply select_one_Some in Hs as [_ Hk]. unfold session_key in Hk. seqb_simpl.
  unfold unrevoked in Hu. destruct (ss_RevokedAt r) eqn:Er; [done|]. by repeat split.
Qed.

(** A dead session lets no token through. *)
Lemma dead_verify token s c s' :
  dead_session (cl_TenantID c) (cl_JTI c) (sessions (st_db s)) ->
  verifySessionToken cfg token s <> (Ok c, s').
Proof.
  intros (r & Hr & Hu) E. apply run_verify in E as (_ & _ & r' & Hr' & _ & _ & Hn & _).
  rewrite Hr in Hr'. simplify_eq. unfold unrevoked in Hu. by rewrite Hn in Hu.
Qed.
End verify.

(** The bearer token carries the server's HMAC-SHA256 over its claims, the claims
    have not expired and name a row of the sessions table that is neither revoked
    nor expired; tenant, role and user of the caller are those of the claims. *)
Definition ByToken (cfg : AuthConfig) (r : Req) (t : Z) (d : DB) (c : Caller) : Prop :=
  exists cl row, Signed (ac_AuthSecret cfg) (bearerTokenFrom r) t cl /\
    row ∈ sessions d /\ live_row t cl row /\
    ca_TenantID c = cl_TenantID cl /\ ca_Role c = cl_Role cl /\ ca_UserID c = cl_UserID cl.

(** An enabled key has the SHA-256 of what the request sent; tenant and role are
    the key's. *)
Definition ByKey (r : Req) (d : DB) (c : Caller) : Prop :=
  exists k, k ∈ api_keys d /\ ak_Enabled k = true /\ bearerTokenFrom r = "" /\
    ak_KeyHash k = sha256_hex (actorFromRequest r) /\ actorFromRequest r <> "" /\
    ca_TenantID c = ak_TenantID k /\ ca_Role c = ak_Role k /\ ca_UserID c = "".

Section authentic.
Context `{Transport} (cfg : AuthConfig) (r : Req).

Lemma requireUser_token s s' c :
  requireUser cfg r s = (Ok (inr c), s') -> ByToken cfg r (st_now s) (st_db s) c.
Proof.
  intros E. unfold requireUser in E. destruct (_ =s ""); [done|]. rewrite bind_attempt in E.
  destruct (verifySessionToken _ _ s) as [[cl|e] s1] eqn:Ev; cbn [fst snd] in E; [|done].
  injection E as <- <-. apply run_verify in Ev as (_ & Hs & row & Hrow & Hl).
  apply select_one_Some in Hrow as [Hin _]. by exists cl, row.
Qed.

Lemma authenticate_credentials s s' c :
  authenticate cfg r s = (Ok (inr c), s') ->
  ByToken cfg r (st_now s) (st_db s) c \/ ByKey r (st_db s) c.
Proof.
  intros E. unfold authenticate in E.
  destruct (bearerTokenFrom r =s "") eqn:Eb; [|by left; eapply requireUser_token]. seqb_simpl. cbn [negb] in E.
  right. unfold requireAPIKey in E. destruct (actorFromRequest r =s "") eqn:Ea; [done|].
  rewrite bind_attempt in E.
  destruct (VerifyAPIKey _ s) as [[k|e] s1] eqn:Ev; cbn [fst snd] in E; [|by destruct e].
  injection E as <- <-. unfold VerifyAPIKey in Ev.
  apply run_bind in Ev as [(e & _ & ?)|(x & s2 & Eq & Ev)]; [done|].
  apply run_query in Eq as [_ [Hx|?]]; [|done]. symmetry in Hx.
  apply found_or_Ok, select_one_Some in Hx as [Hin Hk].
  apply run_bind in Ev as [(e & _ & ?)|([] & s3 & _ & Ev)]; [done|]. injection Ev as <- <-.
  seqb_simpl. by exists x.
Qed.

(** What the gates answer otherwise. *)
Lemma requireUser_refuses s s' resp :
  requireUser cfg r s = (Ok (inl resp), s') -> (400 <= rs_code resp)%Z.
Proof.
  unfold requireUser. destruct (_ =s ""); [by intros [= <- _]|]. rewrite bind_attempt.
  destruct (verifySessionToken _ _ s) as [[cl|e] s1]; cbn [fst snd]; [done|by intros [= <- _]].
Qed.

Lemma authenticate_refuses s s' resp :
  authenticate cfg r s = (Ok (inl resp), s') -> (400 <= rs_code resp)%Z.
Proof.
  unfold authenticate. destruct (negb _); [apply requireUser_refuses|]. unfold requireAPIKey.
  destruct (_ =s ""); [by intros [= <- _]|]. rewrite bind_attempt.
  destruct (VerifyAPIKey _ s) as [[k|e] s1]; cbn [fst snd]; [done|by destruct e; intros [= <- _]].
Qed.
End authentic.

(** ** A tenant with an administrator, for the witnesses *)

#[global] Instance plain_bcrypt : Bcrypt :=
  {| bcrypt_generate _ p := Some ("h:" +:+ p); bcrypt_compare h p := h =s ("h:" +:+ p) |}.
#[global] Instance plain_bcrypt_laws : BcryptLaws.
Proof. split. intros salt p h [= <-]. apply seqb_refl. Qed.

Definition sample_auth : AuthConfig := mkAuthConfig "s3cret" 0 15 5 false.

Definition ada : User := mkUser "u-1" "t1" "ada@acme.dev" "h:pw" "ADMIN" "" false [] 0.
Definition bob : User :=
  mkUser "u-2" "t1" "bob@acme.dev" "h:pw2" "VIEWER" rfc_secret true [sha256_hex "AAAA-BBBB"] 0.

Definition accounts_db : DB :=
  on_users (fun _ => [ada; bob])
    (on_api_keys (fun _ => [mkAPIKey "k-1" "t1" "ci" (sha256_hex "sfk_1") "OPERATOR" true 0 None])
       (on_sessions (fun _ => [mkSession "s-1" "j-1" "u-1" "t1" "ADMIN" 0 43200000000000 None])
          (sample_db "last_write_wins"))).
Definition accounts : @St up := @mkSt up accounts_db 0 1000000000 [] [] 0 [] [] [] [].

(** The token of Ada's session. *)
Definition ada_token : string := mintSessionToken "s3cret" 0 (mkClaims "j-1" "u-1" "t1" "ADMIN" 0).
Definition ada_request (body : option Json) : Req := mkReq ("Bearer " +:+ ada_token) "" "" body.

(** ** Revocation *)

Section revocation.
Context `{Outside} `{Bcrypt} (cfg : AuthConfig).

Lemma RevokeSession_dead tenant jti s s' :
  RevokeSession tenant jti s = (Ok tt, s') ->
  dead_session tenant jti (sessions (st_db s')) /\
  exists d, st_log s' = (st_log s ++ [(d, st_db s')])%list.
Proof.
  intros E. apply tx_committed in E as (d & Eb & El & _). split; [|by eexists].
  cbv zeta in Eb. destruct (existsb _ _) eqn:Ex; [|done]. injection Eb as Eb.
  rewrite <- Eb. apply existsb_exists in Ex as (x & Hx & Hp). apply andb_prop in Hp as [Hk _].
  destruct (select_one (session_key tenant jti) (sessions d)) as [r|] eqn:Er.
  - apply select_one_Some in Er as Er'. eapply revoke_dead; [exact Er|].
    intros ->. by rewrite (proj2 Er').
  - apply (List.find_none _ _ Er) in Hx. congruence.
Qed.

(** A logout answered 200 commits a transaction after which the session is dead. *)
Lemma logout_dead r s c s1 resp :
  verifySessionToken cfg (bearerTokenFrom r) s = (Ok c, s1) ->
  (handleLogout cfg r s).1 = Ok resp -> rs_code resp = 200%Z ->
  exists e, e ∈ commits (handleLogout cfg r) s /\ dead_session (cl_TenantID c) (cl_JTI c) (sessions e.2).
Proof.
  intros Ev E Hc. unfold commits. unfold handleLogout in E |- *. rewrite bind_attempt, Ev in E |- *.
  cbn [fst snd] in E |- *. unfold or_500 in E |- *. rewrite bind_attempt in E |- *.
  destruct (RevokeSession _ _ s1) as [[[]|e] s2] eqn:Er; cbn [fst snd] in E |- *;
    [|injection E as <-; discriminate Hc].
  apply RevokeSession_dead in Er as [Hd [d El]]. exists (d, st_db s2). split; [|exact Hd].
  pose proof (verifySessionToken_kept cfg true (bearerTokenFrom r) s) as (l1 & E1 & _). rewrite Ev in E1. simpl in E1.
  match goal with |- context [(?m s2).2] =>
    assert (P : Pres (Promise true) m) by (unfold auditLogin; pres); destruct (P s2) as (l2 & -> & _) end.
  rewrite El, E1, <- !app_assoc, drop_app_length. apply elem_of_app. right. apply elem_of_app. left. by left.
Qed.
End revocation.

(** ** Signing in *)

Section login.
Context `{Transport} `{Bcrypt} (cfg : AuthConfig).

(** The second factor a user with TOTP enabled gave: the code of a current
    window, or a backup code that was there and no longer is. *)
Definition FactorGiven (u : User) (code : string) (t : Z) (d d' : DB) : Prop :=
  us_TOTPEnabled u = false \/
  (code <> "" /\
   (Validate (us_TOTPSecret u) code t = Some true \/
    (exists x, x ∈ users d /\ has_code (us_TenantID u) (us_ID u) (backupCodeHash code) x = true) /\
    (forall x, x ∈ users d' -> has_code (us_TenantID u) (us_ID u) (backupCodeHash code) x = false))).

Lemma ConsumeBackupCode_spec tenant id hash s s' :
  ConsumeBackupCode tenant id hash s = (Ok true, s') ->
  (exists x, x ∈ users (st_db s) /\ has_code tenant id hash x = true) /\
  (forall x, x ∈ users (st_db s') -> has_code tenant id hash x = false).
Proof.
  intros E. unfold ConsumeBackupCode in E.
  apply run_tx in E as [_ [(a & d & [= Ha Eb] & Hd & [[= <-]|?])|[_ [e ?]]]]; [|done|done].
  apply existsb_exists in Ha as (x & Hx & Hc). split.
  { exists x. split; [by apply list_elem_of_In|done]. }
  rewrite Hd, <- Eb. intros y (z & Hz & ->)%elem_of_update_where.
  destruct (has_code tenant id hash z) eqn:Ez; [|done].
  unfold has_code, drop_code. simpl. apply andb_false_intro2.
  apply not_true_is_false. intros (w & Hw & Ew)%existsb_exists.
  apply filter_In in Hw as [_ Hw]. by rewrite Ew in Hw.
Qed.

Lemma second_factor_given u code s s' :
  second_factor u code s = (Ok (Ok tt), s') -> FactorGiven u code (st_now s) (st_db s) (st_db s').
Proof.
  intros E. unfold second_factor in E. unfold FactorGiven.
  destruct (us_TOTPEnabled u); [right|by left]. destruct (code =s "") eqn:Ec; [done|]. seqb_simpl.
  split; [done|]. apply run_bind in E as [(e & _ & ?)|(t & s1 & Et & E)]; [done|].
  injection Et as <- <-. destruct (Validate _ code (st_now s)) as [[]|]; [by left|right..];
    rewrite bind_attempt in E;
    destruct (ConsumeBackupCode _ _ _ s) as [[[]|e] s1] eqn:Eb; cbn [fst snd] in E; try done;
    injection E as <-; by apply ConsumeBackupCode_spec.
Qed.

(** What [login_succeeds] leaves alone. *)
Definition SameUsers (d d' : DB) : Prop := users d' = users d.

#[global] Instance SameUsers_preorder : PreOrder SameUsers.
Proof. split; unfold SameUsers; [by intros d|]. intros d1 d2 d3. congruence. Qed.

Ltac users_tx :=
  apply Pres_tx; [typeclasses eauto|];
  let Hb := fresh "Hb" in
  intros ? ? ? ? ? Hb; cbv zeta in Hb; repeat case_match; simplify_eq; reflexivity.

Lemma Clear_users a b : Pres (OnDb SameUsers) (ClearLoginFailures a b).
Proof. users_tx. Qed.
Lemma CreateSession_users x : Pres (OnDb SameUsers) (CreateSession x).
Proof. users_tx. Qed.
Lemma InsertAuditLog_users a b : Pres (OnDb SameUsers) (InsertAuditLog a b).
Proof. users_tx. Qed.

Lemma CreateSession_row x s row s' :
  CreateSession x s = (Ok row, s') ->
  row ∈ sessions (st_db s') /\ ss_JTI row = ss_JTI x /\ ss_UserID row = ss_UserID x /\
  ss_TenantID row = ss_TenantID x /\ ss_Role row = ss_Role x /\ ss_RevokedAt row = None /\
  ss_ExpiresAt row = pg_time (ss_ExpiresAt x).
Proof.
  intros E. unfold CreateSession in E.
  apply run_tx in E as [_ [(a & d & Eb & Hd & [[= <-]|?])|[_ [e ?]]]]; [|done|done].
  cbv zeta in Eb. unfold insert_new in Eb. destruct (existsb _ _); [done|].
  injection Eb as Ea Eb. rewrite Hd, <- Eb. subst row. split; [|done].
  apply elem_of_app. right. by apply list_elem_of_singleton.
Qed.

(** A live session of the user that was not there before: not revoked, and good
    for the twelve hours after [t], to the microsecond. *)
Definition SignedIn (t : Z) (u : User) (d d' : DB) : Prop :=
  exists row, row ∈ sessions d' /\ ss_UserID row = us_ID u /\ ss_TenantID row = us_TenantID u /\
    ss_Role row = us_Role u /\ ss_RevokedAt row = None /\
    ss_ExpiresAt row = pg_time (t + 12 * 3600 * 1000000000) /\
    forall x, x ∈ sessions d -> ss_JTI x <> ss_JTI row.

Lemma CreateSession_fresh x s row s' y :
  CreateSession x s = (Ok row, s') -> y ∈ sessions (st_db s) -> ss_JTI y <> ss_JTI row.
Proof.
  intros E Hy Hj. unfold CreateSession in E.
  apply run_tx in E as [_ [(a & d & Eb & Hd & [[= <-]|?])|[_ [e ?]]]]; [|done|done].
  cbv zeta in Eb. unfold insert_new in Eb. destruct (existsb _ _) eqn:Ex; [done|].
  injection Eb as Ea Eb. subst row. simpl in Hj.
  assert (existsb (fun r => ss_JTI r =s ss_JTI x) (sessions (st_db s)) = true); [|congruence].
  apply existsb_exists. exists y. split; [by apply list_elem_of_In|by apply seqb_true].
Qed.

Lemma new_session_spec u t r s row tok s' :
  new_session cfg u t r s = (Ok (row, tok), s') ->
  row ∈ sessions (st_db s') /\ ss_UserID row = u /\ ss_TenantID row = t /\ ss_Role row = r /\
  ss_RevokedAt row = None /\ ss_ExpiresAt row = pg_time (st_now s + 12 * 3600 * 1000000000) /\
  forall x, x ∈ sessions (st_db s) -> ss_JTI x <> ss_JTI row.
Proof.
  intros E. unfold new_session in E. apply run_bind in E as [(e & _ & ?)|(jti & s3 & E3 & E2)]; [done|].
  injection E3 as <- <-. apply run_bind in E2 as [(e & _ & ?)|(now & s4 & E4 & E2)]; [done|].
  injection E4 as <- <-. apply run_bind in E2 as [(e & _ & ?)|(row' & s5 & E5 & E2)]; [done|].
  injection E2 as <- _ <-. pose proof (fun y => CreateSession_fresh _ _ _ _ y E5) as Hfresh.
  apply CreateSession_row in E5 as (Hin & _ & Hu & Ht & Hr & Hn & He). by repeat split.
Qed.

Lemma login_succeeds_spec u email s resp s' :
  login_succeeds cfg u email s = (Ok resp, s') -> rs_code resp = 200%Z ->
  users (st_db s') = users (st_db s) /\ SignedIn (st_now s) u (st_db s) (st_db s').
Proof.
  intros E Hc. split.
  { unfold login_succeeds, new_session, auditLogin in E.
    assert (P : Pres (OnDb SameUsers) (login_succeeds cfg u email)).
    { unfold login_succeeds, new_session, auditLogin. pres;
        first [apply Clear_users|apply CreateSession_users|apply InsertAuditLog_users|
               apply new_uuid_pres; typeclasses eauto]. }
    specialize (P s). unfold login_succeeds, new_session, auditLogin in P. by rewrite E in P. }
  unfold login_succeeds in E. rewrite bind_ignore in E.
  destruct (ClearLoginFailures _ _ s) as [x s1] eqn:E1. cbn [fst snd] in E.
  assert (sessions (st_db s1) = sessions (st_db s) /\ st_now s1 = st_now s) as [Hs1 Hn1].
  { unfold ClearLoginFailures in E1.
    apply run_tx in E1 as [(_ & _ & _ & Hn1) [(a & d & [= _ <-] & -> & _)|[-> _]]]; done. }
  rewrite bind_attempt in E. destruct (new_session _ _ _ _ s1) as [[[row tok]|e] s2] eqn:E2;
    cbn [fst snd] in E; [|injection E as <- <-; discriminate Hc].
  apply new_session_spec in E2 as (Hin & Hu & Ht & Hr & Hn & He & Hfresh). rewrite Hn1 in He.
  unfold auditLogin in E. rewrite bind_ignore in E.
  destruct (InsertAuditLog _ _ s2) as [x2 s6] eqn:E6. cbn [fst snd] in E. injection E as _ <-.
  assert (sessions (st_db s6) = sessions (st_db s2)) as Hs6.
  { unfold InsertAuditLog in E6.
    apply run_tx in E6 as [_ [(a & d & [= _ <-] & -> & _)|[-> _]]]; done. }
  exists row. rewrite Hs6, <- Hs1. split; [done|]. do 5 (split; [done|]). exact Hfresh.
Qed.
End login.

Lemma tx_read `{Transport} {A} (f : Z -> DB -> A) s r s' :
  tx (fun now _ d => (Ok (f now d), d)) s = (r, s') ->
  st_db s' = st_db s /\ st_now s' = st_now s /\ (r = Ok (f (st_now s) (st_db s)) \/ r = Err ErrDB).
Proof.
  unfold tx. rewrite tr_alone. destruct (head (st_faults s)) as [[]|]; intros E; simplify_eq/=; auto.
Qed.

(** A branch that ends in an answer other than the one at hand. *)
Ltac refused E Hc :=
  apply run_bind in E as [(? & _ & ?)|(? & ? & _ & E)]; [done|];
  injection E as <- <-; discriminate Hc.

Lemma Consume_keeps `{Transport} a b c s :
  let s' := (ConsumeBackupCode a b c s).2 in
  sessions (st_db s') = sessions (st_db s) /\ login_attempts (st_db s') = login_attempts (st_db s) /\
  st_now s' = st_now s /\ (st_faults s = [] -> st_faults s' = []).
Proof.
  unfold ConsumeBackupCode, tx. rewrite tr_alone. destruct (st_faults s) as [|[] fs]; simpl; by repeat split.
Qed.

Lemma second_factor_keeps `{Transport} user code s x s' :
  second_factor user code s = (x, s') ->
  sessions (st_db s') = sessions (st_db s) /\ login_attempts (st_db s') = login_attempts (st_db s) /\
  st_now s' = st_now s /\ (st_faults s = [] -> st_faults s' = []).
Proof.
  intros E. unfold second_factor in E. destruct (us_TOTPEnabled user); [|by injection E as <- <-].
  destruct (code =s ""); [by injection E as <- <-|].
  apply run_bind in E as [(e & E & ?)|(t & s1 & Et & E)]; [done|].
  injection Et as <- <-. destruct (Validate _ _ _) as [[]|]; [by injection E as <- <-|..];
    rewrite bind_attempt in E;
    pose proof (Consume_keeps (us_TenantID user) (us_ID user) (backupCodeHash code) s) as K;
    destruct (ConsumeBackupCode _ _ _ s) as [b s5]; cbn [fst snd] in *;
    assert (s' = s5) as -> by (by destruct b as [[]|]; injection E); exact K.
Qed.

(** C21: nobody signs in without the password and the second factor.  When
    [handleLogin] answers 200, whatever fails in the database, the tenant exists,
    the user of that email has the password bcrypt accepts, a user with TOTP
    enabled has given the code of a current window or a backup code that was
    stored and is now used up, and one new session exists, for that user, with
    the role the user has; it is live: not revoked, and with an expiry twelve
    hours from the login. *)
Theorem login_sound `{Transport} `{Bcrypt} (cfg : AuthConfig) (r : Req) (incr : option Z)
    (s s' : St) (resp : Response) :
  handleLogin cfg r incr s = (Ok resp, s') -> rs_code resp = 200%Z ->
  exists slug email password code tenant user,
    login_request (rq_Body r) = Some (slug, email, password, code) /\
    loginThrottled cfg incr = false /\
    tenant ∈ tenants (st_db s) /\ tn_Slug tenant = slug /\
    user ∈ users (st_db s) /\ us_TenantID user = tn_ID tenant /\ us_Email user = email /\
    bcrypt_compare (us_PasswordHash user) password = true /\
    FactorGiven user code (st_now s) (st_db s) (st_db s') /\
    SignedIn (st_now s) user (st_db s) (st_db s').
Proof.
  intros E Hc. unfold handleLogin in E.
  destruct (login_request (rq_Body r)) as [[[[slug email] password] code]|];
    [|injection E as <- <-; discriminate Hc].
  destruct (loginThrottled cfg incr) eqn:Eth; [injection E as <- <-; discriminate Hc|].
  rewrite bind_attempt in E. destruct (GetTenantBySlug slug s) as [x s1] eqn:E1. cbn [fst snd] in E.
  apply run_query in E1 as [(Hd1 & _ & _ & _ & Hn1) Hx]. destruct x as [tenant|e]; [|refused E Hc].
  destruct Hx as [Hx|]; [|done]. symmetry in Hx. apply found_or_Ok, select_one_Some in Hx as [Ht Hslug].
  seqb_simpl. rewrite bind_attempt in E.
  destruct (CountRecentFailures _ _ _ s1) as [n s2] eqn:E2. cbn [fst snd] in E.
  apply tx_read in E2 as (Hd2 & Hn2 & _).
  destruct (match n with Ok n => _ | Err _ => _ end); [refused E Hc|].
  unfold login_unlocked in E. rewrite bind_attempt in E.
  destruct (GetUserByEmail _ _ s2) as [x s3] eqn:E3. cbn [fst snd] in E.
  apply run_query in E3 as [(Hd3 & _ & _ & _ & Hn3) Hx]. destruct x as [user|e]; [|refused E Hc].
  destruct Hx as [Hx|]; [|done]. symmetry in Hx. apply found_or_Ok, select_one_Some in Hx as [Hu Hk].
  destruct (bcrypt_compare _ password) eqn:Ebc; cbn [negb] in E; [|refused E Hc].
  apply run_bind in E as [(e' & _ & ?)|(m & s4 & E4 & E)]; [done|].
  destruct m as [[]|e]; [|refused E Hc].
  apply second_factor_keeps in E4 as Hses. destruct Hses as (Hses & _ & Hn4 & _).
  apply second_factor_given in E4. apply login_succeeds_spec in E as [Hus Hsi]; [|done].
  assert (st_db s3 = st_db s) as Hd by congruence.
  assert (st_now s3 = st_now s) as Hn by congruence.
  exists slug, email, password, code, tenant, user. rewrite Hd2, Hd1 in Hu. seqb_simpl.
  do 8 (split; [done|]). split.
  - unfold FactorGiven in *. rewrite Hn, Hd, <- Hus in E4. exact E4.
  - unfold SignedIn in *. by rewrite Hses, Hd, Hn4, Hn in Hsi.
Qed.

(** Bob signs in with his password and a backup code. *)
Definition bob_login : Req :=
  mkReq "" "" "10.0.0.1" (Some (JObj [("tenant_slug", JStr "acme"); ("email", JStr "bob@acme.dev");
    ("password", JStr "pw2"); ("code", JStr "AAAA-BBBB")])).

Lemma login_sound_witness :
  exists user, user ∈ users accounts_db /\ us_Email user = "bob@acme.dev" /\
    bcrypt_compare (us_PasswordHash user) "pw2" = true.
Proof.
  destruct (@login_sound up plain_bcrypt sample_auth bob_login None accounts
    (@handleLogin up plain_bcrypt sample_auth bob_login None accounts).2
    (default (mkResponse 0 []) (match (@handleLogin up plain_bcrypt sample_auth bob_login None accounts).1
       with Ok x => Some x | Err _ => None end)))
    as (slug & email & password & code & tenant & user & Hl & _ & _ & _ & Hu & _ & He & Hb & _).
  - assert (E : (@handleLogin up plain_bcrypt sample_auth bob_login None accounts).1 =
      Ok (default (mkResponse 0 []) (match (@handleLogin up plain_bcrypt sample_auth bob_login None accounts).1
       with Ok x => Some x | Err _ => None end))) by (vm_compute; reflexivity).
    rewrite <- E. apply surjective_pairing.
  - vm_compute. reflexivity.
  - injection Hl as <- <- <- <-. exists user. split; [exact Hu|]. split; [exact He|exact Hb].
Defined.
