(* ===== verification/AccountsSpec.v ===== *)
(** * What account management guarantees

    Failed logins are counted and lock the account; no handler gives anybody a
    role above the caller's; a password reset ends every session of the user; and
    a run that shows how a demoted user keeps the old role for ever. *)

From S2P Require Import Prelude Json GoTime Crypto Encoding Totp JsonText Events Model Tables Effects.
From S2P Require Import Store AuthStore Frame Connectors Run WorkerFrame Retry Ingestion Operator.
From S2P Require Import Auth Sample Accounts History AuthSpec.
Local Open Scope string_scope.

(** ** The lockout *)

Section lockout.
Context `{Transport} `{Bcrypt} (cfg : AuthConfig).

(** The recent failures of an account. *)
Definition failures (t : Z) (tenant email : string) (d : DB) : Z :=
  Z.of_nat (length (select_where (recent_failure t (lockout_window cfg) tenant email) (login_attempts d))).

Lemma loginFailure_counts r tenant slug email reason s :
  st_faults s = [] -> tenant <> "" -> (0 < lockout_window cfg)%Z ->
  exists s', loginFailure r tenant slug email reason s = (Ok tt, s') /\
    failures (st_now s) tenant email (st_db s') = (failures (st_now s) tenant email (st_db s) + 1)%Z.
Proof.
  intros Hf Ht Hw. unfold loginFailure. rewrite (seqb_ne _ _ Ht). cbn [negb].
  rewrite bind_ignore. unfold RecordLoginAttempt.
  edestruct (calm_tx (A:=unit)) as (s1 & -> & _ & Hf1 & Hd1); [exact Hf|]. cbn [fst snd].
  unfold auditLogin, ignore, InsertAuditLog.
  edestruct (calm_tx (A:=AuditLog)) as (s2 & -> & _ & _ & Hd2); [exact Hf1|].
  exists s2. split; [done|]. unfold failures. rewrite Hd2. simpl. rewrite Hd1. simpl.
  unfold select_where. rewrite List.filter_app, length_app. cbn [List.filter].
  unfold recent_failure at 2. simpl. rewrite !seqb_refl. simpl.
  destruct (Z.ltb_spec (st_now s - lockout_window cfg) (st_now s)); [|lia]. simpl. lia.
Qed.

Lemma loginFailure_refuses r tenant slug email reason msg s resp s' :
  (loginFailure r tenant slug email reason;; mret (error_response 401 msg)) s = (Ok resp, s') ->
  st_faults s = [] -> tenant <> "" -> (0 < lockout_window cfg)%Z ->
  failures (st_now s) tenant email (st_db s') = (failures (st_now s) tenant email (st_db s) + 1)%Z.
Proof.
  intros E Hf Ht Hw. destruct (loginFailure_counts r tenant slug email reason s Hf Ht Hw) as (s1 & E1 & H1).
  unfold mbind, M_bind in E. rewrite E1 in E. by injection E as _ <-.
Qed.

Lemma login_unlocked_counts r tenant slug email password code s resp s' :
  login_unlocked cfg r tenant slug email password code s = (Ok resp, s') -> rs_code resp = 401%Z ->
  st_faults s = [] -> tenant <> "" -> (0 < lockout_window cfg)%Z ->
  failures (st_now s) tenant email (st_db s') = (failures (st_now s) tenant email (st_db s) + 1)%Z.
Proof.
  intros E Hc Hf Ht Hw. unfold login_unlocked in E. rewrite bind_attempt in E.
  unfold GetUserByEmail in E.
  edestruct (calm_query (A:=User)) as (s1 & E1 & Hd1 & (_ & _ & _ & Hn1) & Hf1); [exact Hf|].
  rewrite E1 in E. cbn [fst snd] in E. rewrite <- Hd1, <- Hn1.
  destruct (found_or _) as [user|e]; [|by eapply loginFailure_refuses].
  destruct (bcrypt_compare _ password); cbn [negb] in E; [|by eapply loginFailure_refuses].
  apply run_bind in E as [(e & _ & ?)|(m & s2 & E2 & E)]; [done|].
  apply second_factor_keeps in E2 as (_ & Hl & Hn2 & Hf2). specialize (Hf2 Hf1).
  assert (failures (st_now s1) tenant email (st_db s1) = failures (st_now s2) tenant email (st_db s2)) as ->
    by (unfold failures; by rewrite Hn2, Hl).
  rewrite <- Hn2. destruct m as [[]|e]; [|by eapply loginFailure_refuses].
  unfold login_succeeds in E. rewrite bind_ignore, bind_attempt in E.
  destruct (new_session _ _ _ _ _) as [[[row tok]|e] s3]; cbn [fst snd] in E;
    [|injection E as <- <-; discriminate Hc].
  unfold auditLogin in E. rewrite bind_ignore in E. injection E as <- <-. discriminate Hc.
Qed.
End lockout.

(** C25: guessing is bounded.  On a database without faults (when the count of
    failures cannot be read, the login goes on), for a well-formed login of a known
    tenant that the per-address throttle lets through, and with a lockout window
    that is not empty: once the account has the allowed number of failures within
    the window, every further login is answered 429 and neither users nor sessions
    change, whatever the password, even one just reset by an administrator; and
    below that number every login that is answered 401, for whichever reason, adds
    exactly one failure to the count. *)
Theorem lockout `{Transport} `{Bcrypt} (cfg : AuthConfig) (r : Req) (incr : option Z) (s s' : St)
    (resp : Response) (slug email password code : string) (tenant : Tenant) :
  handleLogin cfg r incr s = (Ok resp, s') -> st_faults s = [] ->
  login_request (rq_Body r) = Some (slug, email, password, code) ->
  loginThrottled cfg incr = false -> (0 < lockout_window cfg)%Z ->
  select_one (fun x => tn_Slug x =s slug) (tenants (st_db s)) = Some tenant -> tn_ID tenant <> "" ->
  let n := failures cfg (st_now s) (tn_ID tenant) email (st_db s) in
  ((ac_LoginMaxFailures cfg <= n)%Z ->
     rs_code resp = 429%Z /\ users (st_db s') = users (st_db s) /\ sessions (st_db s') = sessions (st_db s)) /\
  ((n < ac_LoginMaxFailures cfg)%Z -> rs_code resp = 401%Z ->
     failures cfg (st_now s) (tn_ID tenant) email (st_db s') = (n + 1)%Z).
Proof.
  intros E Hf Hl Hth Hw Hten Hid n. unfold handleLogin in E. rewrite Hl, Hth in E.
  rewrite bind_attempt in E. unfold GetTenantBySlug in E.
  edestruct (calm_query (A:=Tenant)) as (s1 & E1 & Hd1 & (_ & _ & _ & Hn1) & Hf1); [exact Hf|].
  rewrite E1, Hten in E. cbn [fst snd found_or] in E. rewrite bind_attempt in E.
  unfold CountRecentFailures in E.
  edestruct (calm_tx (A:=Z)) as (s2 & E2 & (_ & _ & _ & Hn2) & Hf2 & Hd2); [exact Hf1|].
  rewrite E2 in E. cbn [fst snd] in E, Hd2. rewrite Hd1, Hn1 in E.
  fold (failures cfg (st_now s) (tn_ID tenant) email (st_db s)) in E. fold n in E.
  destruct (Z.leb_spec (ac_LoginMaxFailures cfg) n) as [Hle|Hlt].
  - split; [intros _|lia]. unfold auditLogin in E. rewrite bind_ignore in E.
    destruct (InsertAuditLog _ _ s2) as [x s3] eqn:E3. cbn [fst snd] in E. injection E as <- <-.
    unfold InsertAuditLog in E3.
    apply run_tx in E3 as [_ [(a & d & [= _ <-] & -> & _)|[-> _]]]; simpl; by rewrite Hd2, Hd1.
  - split; [lia|]. intros _ Hc. pose proof (login_unlocked_counts cfg _ _ _ _ _ _ _ _ _ E Hc Hf2 Hid Hw) as Hcount.
    rewrite Hn2, Hn1, Hd2, Hd1 in Hcount. exact Hcount.
Qed.

Definition wrong_login : Req :=
  mkReq "" "" "10.0.0.1" (Some (JObj [("tenant_slug", JStr "acme"); ("email", JStr "bob@acme.dev");
    ("password", JStr "guess")])).

Local Abbreviation guess := (@handleLogin up plain_bcrypt sample_auth wrong_login None accounts).

Lemma lockout_witness :
  failures sample_auth 1000000000 "t1" "bob@acme.dev" (st_db guess.2) = 1%Z.
Proof.
  refine (proj2 (@lockout up plain_bcrypt sample_auth wrong_login None accounts guess.2
    (error_response 401 "invalid credentials") "acme" "bob@acme.dev" "guess" ""
    (mkTenant "t1" "Acme" "acme" "active" 0) _ _ _ _ _ _ _) _ _).
  - assert (E : guess.1 = Ok (error_response 401 "invalid credentials")) by (vm_compute; reflexivity).
    rewrite <- E. apply surjective_pairing.
  - reflexivity.
  - reflexivity.
  - reflexivity.
  - vm_compute. reflexivity.
  - reflexivity.
  - discriminate.
  - vm_compute. reflexivity.
  - reflexivity.
Defined.

(** ** Roles *)

Section roles.
Context `{Transport} `{Bcrypt} (cfg : AuthConfig) (c : Caller).

(** A row of the caller's tenant with a role the caller may give. *)
Definition within (tenant role : string) : Prop :=
  tenant = ca_TenantID c /\ (rank_of role <= rank_of (ca_Role c))%Z.

(** Whoever has a role had it before, or has it within the caller's rank; a key is
    either one that was there, with its tenant and role and enabled only if it was,
    or a new one; no key is dropped, and other tenants are left alone. *)
Record NoRise (d d' : DB) : Prop := mkNoRise {
  rise_users : forall u', u' ∈ users d' -> within (us_TenantID u') (us_Role u') \/
    exists u, u ∈ users d /\ us_ID u = us_ID u' /\ us_TenantID u = us_TenantID u' /\ us_Role u = us_Role u';
  rise_keys : forall k', k' ∈ api_keys d' ->
    (within (ak_TenantID k') (ak_Role k') /\ forall k, k ∈ api_keys d -> ak_KeyHash k <> ak_KeyHash k') \/
    exists k, k ∈ api_keys d /\ ak_KeyHash k = ak_KeyHash k' /\ ak_TenantID k = ak_TenantID k' /\
      ak_Role k = ak_Role k' /\ (ak_Enabled k' = true -> ak_Enabled k = true);
  rise_hashes : forall k, k ∈ api_keys d -> exists k', k' ∈ api_keys d' /\ ak_KeyHash k' = ak_KeyHash k;
  rise_foreign : (forall u', u' ∈ users d' -> us_TenantID u' <> ca_TenantID c -> u' ∈ users d) /\
    forall k', k' ∈ api_keys d' -> ak_TenantID k' <> ca_TenantID c -> k' ∈ api_keys d;
}.

(** A statement that changes only keys, or only users. *)
Lemma NoRise_keys d d' :
  users d' = users d ->
  (forall k', k' ∈ api_keys d' ->
    (within (ak_TenantID k') (ak_Role k') /\ forall k, k ∈ api_keys d -> ak_KeyHash k <> ak_KeyHash k') \/
    exists k, k ∈ api_keys d /\ ak_KeyHash k = ak_KeyHash k' /\ ak_TenantID k = ak_TenantID k' /\
      ak_Role k = ak_Role k' /\ (ak_Enabled k' = true -> ak_Enabled k = true)) ->
  (forall k, k ∈ api_keys d -> exists k', k' ∈ api_keys d' /\ ak_KeyHash k' = ak_KeyHash k) ->
  (forall k', k' ∈ api_keys d' -> ak_TenantID k' <> ca_TenantID c -> k' ∈ api_keys d) ->
  NoRise d d'.
Proof.
  intros Hu Hk Hh Hf. split; [|done|done|by rewrite Hu]. rewrite Hu. intros u' H'. right. by exists u'.
Qed.

Lemma NoRise_only_users d d' :
  api_keys d' = api_keys d ->
  (forall u', u' ∈ users d' -> within (us_TenantID u') (us_Role u') \/
    exists u, u ∈ users d /\ us_ID u = us_ID u' /\ us_TenantID u = us_TenantID u' /\ us_Role u = us_Role u') ->
  (forall u', u' ∈ users d' -> us_TenantID u' <> ca_TenantID c -> u' ∈ users d) -> NoRise d d'.
Proof.
  intros Hk Hu Hf. split; rewrite ?Hk; [done| | |done].
  - intros k' H'. right. by exists k'.
  - intros k' H'. by exists k'.
Qed.

(** A statement that touches neither table. *)
Lemma NoRise_same d d' : users d' = users d -> api_keys d' = api_keys d -> NoRise d d'.
Proof.
  intros Hu Hk. apply NoRise_only_users; [done|rewrite Hu..]; [|done].
  intros u' H'. right. by exists u'.
Qed.

#[local] Instance NoRise_preorder : PreOrder NoRise.
Proof.
  split; [intros d; by apply NoRise_same|].
  intros d1 d2 d3 [U1 K1 H1 [F1 G1]] [U2 K2 H2 [F2 G2]]. split; [| | |auto].
  - intros u' [Hw|(u & Hu & Hi & Ht & Hr)]%U2; [by left|]. rewrite <- Ht, <- Hr, <- Hi.
    destruct (U1 u Hu) as [Hw|Hx]; [by left|by right].
  - intros k' [[Hw Hn]|(k & Hk & Hh & Ht & Hr & He)]%K2.
    + left. split; [done|]. intros k Hk Hh. destruct (H1 k Hk) as (k2 & Hk2 & E). destruct (Hn k2 Hk2). congruence.
    + rewrite <- Ht, <- Hr, <- Hh.
      destruct (K1 k Hk) as [Hw|(k1 & E1 & E2 & E3 & E4 & E5)]; [by left|right].
      exists k1. split_and!; auto.
  - intros k (k2 & Hk2 & E2)%H1. destruct (H2 k2 Hk2) as (k3 & Hk3 & E3). exists k3. split; [done|congruence].
Qed.

Lemma NoRise_users d f tenant id :
  tenant = ca_TenantID c ->
  (forall u, us_ID (f u) = us_ID u /\ us_TenantID (f u) = us_TenantID u /\
     (us_Role (f u) = us_Role u \/ rank_of (us_Role (f u)) <= rank_of (ca_Role c))%Z) ->
  NoRise d (on_users (update_where (user_key tenant id) f) d).
Proof.
  intros Ht Hf. apply NoRise_only_users; simpl; [done|..].
  - intros u' (u & Hu & ->)%elem_of_update_where. destruct (user_key tenant id u) eqn:Ek.
    + destruct (Hf u) as (Hi & Htn & [Hr|Hr]); [right; by exists u|left].
      unfold user_key in Ek. seqb_simpl. split; [congruence|done].
    + right. by exists u.
  - intros u' (u & Hu & ->)%elem_of_update_where Hne. destruct (user_key tenant id u) eqn:Ek; [|done].
    unfold user_key in Ek. seqb_simpl. destruct (Hf u) as (_ & Htn & _). congruence.
Qed.

(** What [grantable] checks. *)
Definition allowed (role : string) : Prop :=
  exists rank, roleRank role = Some rank /\ (rank <= rank_of (ca_Role c))%Z.

Lemma allowed_rank role : allowed role -> (rank_of role <= rank_of (ca_Role c))%Z.
Proof. intros (rank & Hr & Hle). unfold rank_of at 1. by rewrite Hr. Qed.

Let R := OnDb NoRise.

Ltac norise_tx :=
  apply Pres_tx; [typeclasses eauto|];
  let Hb := fresh "Hb" in
  intros ? ? ? ? ? Hb; cbv zeta in Hb; repeat case_match; simplify_eq;
  try reflexivity; try (by apply NoRise_same).

Lemma update_user_norise id f :
  (forall u, us_ID (f u) = us_ID u /\ us_TenantID (f u) = us_TenantID u /\
     (us_Role (f u) = us_Role u \/ rank_of (us_Role (f u)) <= rank_of (ca_Role c))%Z) ->
  Pres R (update_user (ca_TenantID c) id f).
Proof. intros Hf. norise_tx. by apply NoRise_users. Qed.

Lemma SetUserRole_norise id role : allowed role -> Pres R (SetUserRole (ca_TenantID c) id role).
Proof.
  intros Ha. unfold SetUserRole. case_if; [|norise_tx].
  apply update_user_norise. intros u. split_and!; [done..|right]. by apply allowed_rank.
Qed.

Lemma CreateUser_norise email h role : allowed role -> Pres R (CreateUser (ca_TenantID c) email h role).
Proof.
  intros Ha. norise_tx. unfold insert_new in *. case_match; simplify_eq.
  apply NoRise_only_users; simpl; [done|..].
  - intros u' [Hu|Hu]%elem_of_app; [right; by exists u'|left].
    apply list_elem_of_singleton in Hu as ->. split; [done|by apply allowed_rank].
  - intros u' [Hu|Hu]%elem_of_app Hne; [done|]. by apply list_elem_of_singleton in Hu as ->.
Qed.

Lemma insert_key_norise name role h : allowed role -> Pres R (insert_key (ca_TenantID c) name role h).
Proof.
  intros Ha. norise_tx. unfold insert_new in *.
  match goal with H : context [existsb ?p ?l] |- _ => destruct (existsb p l) eqn:Ep end; simplify_eq.
  apply NoRise_keys; simpl; [done|..].
  - intros k' [Hk|Hk]%elem_of_app; [right; by exists k'|left].
    apply list_elem_of_singleton in Hk as ->. split; [split; [done|by apply allowed_rank]|].
    intros k Hk Hh. simpl in Hh. apply not_true_iff_false in Ep. apply Ep, existsb_exists.
    exists k. split; [by apply list_elem_of_In|by apply seqb_true].
  - intros k Hk. exists k. split; [by apply elem_of_app; left|done].
  - intros k' [Hk|Hk]%elem_of_app Hne; [done|]. by apply list_elem_of_singleton in Hk as ->.
Qed.

Lemma RevokeAPIKey_norise id : Pres R (RevokeAPIKey (ca_TenantID c) id).
Proof.
  norise_tx. apply NoRise_keys; simpl; [done|..].
  - intros k' (k & Hk & ->)%elem_of_update_where. right. exists k. by destruct (_ && _).
  - intros k Hk. eexists. split; [apply elem_of_update_where; by exists k|]. by destruct (_ && _).
  - intros k' (k & Hk & ->)%elem_of_update_where Hne.
    destruct ((ak_ID k =s id) && (ak_TenantID k =s ca_TenantID c)) eqn:Ek; [|done]. simpl in Hne. by seqb_simpl.
Qed.

Lemma grantable_norise role denied k :
  (allowed role -> Pres R k) -> Pres R (grantable c role denied k).
Proof.
  intros Hk. unfold grantable. destruct (roleRank role) as [rank|] eqn:Er; [|pres].
  destruct (Z.ltb_spec (rank_of (ca_Role c)) rank) as [Hlt|Hge]; [pres|].
  apply Hk. by exists rank.
Qed.

Lemma update_same_role id f :
  (forall u, us_ID (f u) = us_ID u /\ us_TenantID (f u) = us_TenantID u /\ us_Role (f u) = us_Role u) ->
  Pres R (update_user (ca_TenantID c) id f).
Proof.
  intros Hf. apply update_user_norise. intros u. destruct (Hf u) as (? & ? & ?). split_and!; auto.
Qed.

Lemma SetUserPassword_norise id h : Pres R (SetUserPassword (ca_TenantID c) id h).
Proof. by apply update_same_role. Qed.
Lemma SetTOTPSecret_norise id x : Pres R (SetTOTPSecret (ca_TenantID c) id x).
Proof. by apply update_same_role. Qed.
Lemma SetTOTPEnabled_norise id x : Pres R (SetTOTPEnabled (ca_TenantID c) id x).
Proof. by apply update_same_role. Qed.
Lemma SetBackupCodes_norise id x : Pres R (SetBackupCodes (ca_TenantID c) id x).
Proof. by apply update_same_role. Qed.
Lemma RevokeSession_norise a b : Pres R (RevokeSession a b).
Proof. norise_tx. Qed.
Lemma RevokeUserSessions_norise a b : Pres R (RevokeUserSessions a b).
Proof. norise_tx. Qed.
Lemma ListSessions_norise a b : Pres R (ListSessions a b).
Proof. norise_tx. Qed.
Lemma audit_norise act kind id meta : Pres R (audit c act kind id meta).
Proof. unfold audit. pres. norise_tx. Qed.
Lemma verify_norise t : Pres R (verifySessionToken cfg t).
Proof. unfold verifySessionToken, GetLiveSession. pres. Qed.
Hint Resolve SetUserPassword_norise SetTOTPSecret_norise SetTOTPEnabled_norise SetBackupCodes_norise
  RevokeSession_norise RevokeUserSessions_norise ListSessions_norise RevokeAPIKey_norise audit_norise
  verify_norise CreateUser_norise insert_key_norise SetUserRole_norise : pres.

Lemma account_norise r q : Pres R (account_handler cfg r q c).
Proof.
  destruct q; simpl; unfold handleCreateUser, handleListUsers, handleResetPassword,
    handleChangeRole, handleRevokeUserSessions, handleListSessions, handleCreateAPIKey,
    handleListAPIKeys, handleRevokeAPIKey, handleChangePassword, handleMFAEnroll, handleMFAConfirm,
    handleMFADisable, handleMFABackupCodes, with_code, with_user, with_hash, with_row,
    or_500, CreateTenantAPIKey; pres;
    apply grantable_norise; intros Ha; pres.
Qed.
End roles.

(** C27: nobody can hand out more than they have.  Whatever a caller asks of the
    account routes, and whatever statements fail on the way: every user whose role
    was not theirs before is of the caller's own tenant and ranks no higher than
    the caller; every key was there before, with the same tenant and role and
    enabled only if it was enabled then, or is a new one (no key had its hash) of
    the caller's own tenant and ranks no higher than the caller; no key is dropped;
    and the users and keys of other tenants are untouched. *)
Theorem no_escalation `{Transport} `{Bcrypt} (cfg : AuthConfig) (c : Caller) (r : Req)
    (q : AccountCall) (s : St) :
  NoRise c (st_db s) (st_db (account_handler cfg r q c s).2).
Proof. apply account_norise. Qed.

(** ** New passwords *)

(** No session of the user is left. *)
Definition signed_out (tenant id : string) (l : list Session) : Prop :=
  forall row, row ∈ l -> ss_UserID row = id -> ss_TenantID row = tenant -> unrevoked row = false.

(** The user's password is now this one, and the other users are as they were. *)
Definition password_set `{Bcrypt} (tenant id new : string) (l l' : list User) : Prop :=
  (exists u, u ∈ l' /\ user_key tenant id u = true) /\
  (forall u, u ∈ l' -> user_key tenant id u = true -> bcrypt_compare (us_PasswordHash u) new = true) /\
  (forall u, user_key tenant id u = false -> u ∈ l' <-> u ∈ l).

Section passwords.
Context `{Transport} `{Bcrypt} `{!BcryptLaws} (cfg : AuthConfig).

Lemma sign_out_all c tenant id act kind rid meta (resp resp' : Response) s s' :
  (ignore (RevokeUserSessions tenant id);; audit c act kind rid meta;; mret resp) s = (Ok resp', s') ->
  st_faults s = [] ->
  users (st_db s') = users (st_db s) /\ signed_out tenant id (sessions (st_db s')).
Proof.
  intros E Hf. rewrite bind_ignore in E. unfold RevokeUserSessions in E.
  edestruct (calm_tx (A:=unit)) as (s1 & E1 & _ & Hf1 & Hd1); [exact Hf|]. rewrite E1 in E.
  cbn [fst snd] in E. unfold audit in E. rewrite bind_ignore in E. unfold InsertAuditLog in E.
  edestruct (calm_tx (A:=AuditLog)) as (s2 & E2 & _ & _ & Hd2); [exact Hf1|]. rewrite E2 in E.
  injection E as _ <-. rewrite Hd2. simpl. rewrite Hd1. simpl. split; [done|].
  intros row (x & Hx & ->)%elem_of_update_where Hu Ht.
  destruct (unrevoked x) eqn:Ex; [|rewrite andb_false_r; exact Ex].
  destruct ((ss_UserID x =s id) && (ss_TenantID x =s tenant)) eqn:Ek; simpl in *; [done|].
  apply andb_false_iff in Ek as [Ek|Ek]; seqb_simpl; congruence.
Qed.

Lemma SetUserPassword_set tenant id salt new h s s' :
  bcrypt_generate salt new = Some h ->
  SetUserPassword tenant id h s = (Ok tt, s') ->
  password_set tenant id new (users (st_db s)) (users (st_db s')).
Proof.
  intros Hh E. unfold SetUserPassword, update_user in E.
  apply run_tx in E as [_ [(a & d & Eb & Hd & _)|[_ [e ?]]]]; [|done].
  cbv beta in Eb. destruct (existsb _ _) eqn:Ex; [|done]. injection Eb as _ Eb. rewrite Hd, <- Eb. simpl.
  apply existsb_exists in Ex as (x & Hx & Hk). apply list_elem_of_In in Hx.
  split; [|split].
  - exists (us_set_PasswordHash h x). split; [|done]. apply elem_of_update_where. exists x. by rewrite Hk.
  - intros u (y & Hy & ->)%elem_of_update_where Hu.
    destruct (user_key tenant id y) eqn:Ey; [|congruence]. by eapply bcrypt_accepts.
  - intros u Hu. rewrite elem_of_update_where. split.
    + intros (y & Hy & ->). destruct (user_key tenant id y) eqn:Ey; [|done]. exfalso.
      assert (user_key tenant id (us_set_PasswordHash h y) = user_key tenant id y) by done. congruence.
    + intros Hin. exists u. by rewrite Hu.
Qed.

(** A branch that ends in another answer. *)
Ltac other E Hc := injection E as <- <-; discriminate Hc.

Lemma RevokeSession_users tenant jti : Pres (OnDb SameUsers) (RevokeSession tenant jti).
Proof.
  apply Pres_tx; [typeclasses eauto|]. intros now seq s a d Hb. cbv zeta in Hb.
  case_match; by simplify_eq.
Qed.
Hint Resolve RevokeSession_users : pres.

Lemma verify_tail_keeps tenant token s :
  let v := verifySessionToken cfg token s in
  let s' := (match v.1 with
             | Ok claims => ignore (RevokeSession tenant (cl_JTI claims))
             | Err _ => mret tt
             end v.2).2 in
  st_faults s = [] -> users (st_db s') = users (st_db s) /\ st_faults s' = [].
Proof.
  intros v s' Hf. assert (Hc : Pres Calm (verifySessionToken cfg token))
    by (unfold verifySessionToken, GetLiveSession; pres).
  assert (Hu : Pres (OnDb SameUsers) (verifySessionToken cfg token))
    by (unfold verifySessionToken, GetLiveSession; pres).
  specialize (Hc s Hf) as [Hc _]. specialize (Hu s). fold v in Hc, Hu. subst s'.
  destruct v as [[claims|e] s1]; simpl in *; [|done].
  pose proof (RevokeSession_users tenant (cl_JTI claims) s1) as Hr. unfold ignore, attempt.
  assert (Hk : Pres Calm (RevokeSession tenant (cl_JTI claims))) by (unfold RevokeSession; pres).
  specialize (Hk s1 Hc) as [Hk _]. destruct (RevokeSession _ _ s1) as [x s2].
  unfold OnDb, SameUsers in *. simpl in *. split; [congruence|done].
Qed.

Lemma reset_sets c id body salt s resp s' :
  handleResetPassword c id body salt s = (Ok resp, s') -> rs_code resp = 200%Z -> st_faults s = [] ->
  exists new, into_struct (dec_string "new_password") body = Some new /\
    password_set (ca_TenantID c) id new (users (st_db s)) (users (st_db s')) /\
    signed_out (ca_TenantID c) id (sessions (st_db s')).
Proof.
  intros E Hc Hf. unfold handleResetPassword in E.
  destruct (into_struct _ body) as [new|]; [|other E Hc]. exists new. split; [done|].
  destruct (new =s ""); [other E Hc|]. unfold with_user in E. rewrite bind_attempt in E.
  unfold GetUser in E.
  edestruct (calm_query (A:=User)) as (s1 & E1 & Hd1 & _ & Hf1); [exact Hf|]. rewrite E1 in E.
  cbn [fst snd] in E. destruct (found_or _); [|other E Hc]. unfold with_hash in E.
  destruct (bcrypt_generate salt new) as [h|] eqn:Eh; [|other E Hc]. unfold or_500 in E.
  rewrite bind_attempt in E.
  destruct (SetUserPassword _ id h s1) as [[[]|e] s2] eqn:Ep; cbn [fst snd] in E; [|other E Hc].
  apply sign_out_all in E as [Hu Ho].
  - rewrite Hu, <- Hd1. split; [by eapply SetUserPassword_set|done].
  - unfold SetUserPassword, update_user in Ep. frame Ep Calm. by apply P.
Qed.

Lemma change_sets c r salt s resp s' :
  handleChangePassword cfg c r salt s = (Ok resp, s') -> rs_code resp = 200%Z -> st_faults s = [] ->
  exists new, password_set (ca_TenantID c) (ca_UserID c) new (users (st_db s)) (users (st_db s')) /\
    signed_out (ca_TenantID c) (ca_UserID c) (sessions (st_db s')) /\
    exists u current, u ∈ users (st_db s) /\ user_key (ca_TenantID c) (ca_UserID c) u = true /\
      bcrypt_compare (us_PasswordHash u) current = true /\
      into_struct (fun kvs => current ← dec_string "current_password" kvs;
                              new ← dec_string "new_password" kvs;
                              Some (current, new)) (rq_Body r) = Some (current, new).
Proof.
  intros E Hc Hf. unfold handleChangePassword in E. cbv zeta in E.
  destruct (ca_UserID c =s ""); [other E Hc|].
  destruct (into_struct _ (rq_Body r)) as [[current new]|]; [|other E Hc]. exists new.
  destruct (_ || _); [other E Hc|]. unfold with_user in E. rewrite bind_attempt in E.
  unfold GetUser in E.
  edestruct (calm_query (A:=User)) as (s1 & E1 & Hd1 & _ & Hf1); [exact Hf|]. rewrite E1 in E.
  cbn [fst snd] in E. destruct (select_one _ _) as [u|] eqn:Eu; simpl in E; [|other E Hc].
  destruct (bcrypt_compare _ current) eqn:Ecmp; simpl in E; [|other E Hc]. unfold with_hash in E.
  destruct (bcrypt_generate salt new) as [h|] eqn:Eh; [|other E Hc]. unfold or_500 in E.
  rewrite bind_attempt in E.
  destruct (SetUserPassword _ _ h s1) as [[[]|e] s2] eqn:Ep; cbn [fst snd] in E; [|other E Hc].
  assert (Hf2 : st_faults s2 = [])
    by (unfold SetUserPassword, update_user in Ep; frame Ep Calm; by apply P).
  apply SetUserPassword_set with (new := new) (salt := salt) in Ep; [|done]. rewrite Hd1 in Ep.
  apply select_one_Some in Eu as [Hin Hk].
  assert (Hlast : exists u0 c0, u0 ∈ users (st_db s) /\ user_key (ca_TenantID c) (ca_UserID c) u0 = true /\
      bcrypt_compare (us_PasswordHash u0) c0 = true /\ Some (current, new) = Some (c0, new))
    by (by exists u, current).
  rewrite bind_attempt in E. pose proof (verify_tail_keeps (ca_TenantID c) (bearerTokenFrom r) s2 Hf2) as Hv.
  cbv zeta in Hv. apply run_bind in E as [(e & _ & ?)|([] & s3 & E3 & E)]; [done|].
  rewrite E3 in Hv. destruct Hv as [Hu3 Hf3]. simpl in Hu3, Hf3. apply sign_out_all in E as [Hu Ho]; [|done].
  rewrite Hu, Hu3. done.
Qed.
End passwords.

(** C30: a new password ends every session.  When a password reset or change is
    answered 200 on a working database, bcrypt accepts the new password for the
    user, no other user changed, and no session of the user is left unrevoked in
    the tenant; a change was only made because bcrypt accepted the current
    password. *)
Theorem new_password_signs_out `{Transport} `{Bcrypt} `{!BcryptLaws} (cfg : AuthConfig) (c : Caller)
    (r : Req) (id salt : string) (s s' : St) (resp : Response) :
  rs_code resp = 200%Z -> st_faults s = [] ->
  (handleResetPassword c id (rq_Body r) salt s = (Ok resp, s') ->
     exists new, into_struct (dec_string "new_password") (rq_Body r) = Some new /\
       password_set (ca_TenantID c) id new (users (st_db s)) (users (st_db s')) /\
       signed_out (ca_TenantID c) id (sessions (st_db s'))) /\
  (handleChangePassword cfg c r salt s = (Ok resp, s') ->
     exists new, password_set (ca_TenantID c) (ca_UserID c) new (users (st_db s)) (users (st_db s')) /\
       signed_out (ca_TenantID c) (ca_UserID c) (sessions (st_db s')) /\
       exists u current, u ∈ users (st_db s) /\ user_key (ca_TenantID c) (ca_UserID c) u = true /\
         bcrypt_compare (us_PasswordHash u) current = true /\
         into_struct (fun kvs => current ← dec_string "current_password" kvs;
                                 new ← dec_string "new_password" kvs;
                                 Some (current, new)) (rq_Body r) = Some (current, new)).
Proof. intros Hc Hf. split; intros E; [by eapply reset_sets|by eapply change_sets]. Qed.

Definition ada_caller : Caller := mkCaller "t1" "ADMIN" "user:u-1" "" "u-1".

Local Abbreviation reset := (@handleResetPassword up plain_bcrypt ada_caller "u-1"
  (Some (JObj [("new_password", JStr "pw9")])) "" accounts).

Lemma new_password_signs_out_witness : signed_out "t1" "u-1" (sessions (st_db reset.2)).
Proof.
  destruct (@new_password_signs_out up plain_bcrypt _ sample_auth ada_caller
    (mkReq "" "" "" (Some (JObj [("new_password", JStr "pw9")]))) "u-1" "" accounts reset.2
    (mkResponse 200 [("status", JStr "password_reset"); ("sessions_revoked", JBool true)])
    eq_refl eq_refl) as [H _].
  destruct H as (new & _ & _ & Hs).
  - assert (E : reset.1 = Ok (mkResponse 200 [("status", JStr "password_reset");
      ("sessions_revoked", JBool true)])) by (vm_compute; reflexivity).
    rewrite <- E. apply surjective_pairing.
  - exact Hs.
Defined.

(** The database refuses the statement that revokes the sessions: the reset is
    answered 200 all the same, says that the sessions were revoked, and they are
    not. *)
Lemma reset_unrevoked :
  let s := @mkSt up accounts_db 0 1000000000 [Fok; Fok; Ffail] [] 0 [] [] [] [] in
  let r := @handleResetPassword up plain_bcrypt ada_caller "u-1" (Some (JObj [("new_password", JStr "pw9")])) "" s in
  r.1 = Ok (mkResponse 200 [("status", JStr "password_reset"); ("sessions_revoked", JBool true)]) /\
  ss_RevokedAt <$> sessions (st_db r.2) = [None].
Proof. vm_compute. split; reflexivity. Qed.

(** ** Resetting a locked account *)

(** Ada's account is locked by five failures, and reset by an administrator. *)
Definition locked : @St up :=
  @mkSt up (on_login_attempts (fun _ =>
      replicate 5 (mkLoginAttempt "a" "t1" "ada@acme.dev" "10.0.0.1" false 900000000)) accounts_db)
    0 1000000000 [] [] 0 [] [] [] [].
Local Abbreviation reset_locked := (@handleResetPassword up plain_bcrypt ada_caller "u-1"
  (Some (JObj [("new_password", JStr "pw9")])) "" locked).

(** The reset clears no failure: the new password is answered 429. *)
Lemma reset_keeps_lockout :
  (match reset_locked.1 with Ok r => rs_code r | Err _ => 0%Z end) = 200%Z /\
  login_attempts (st_db reset_locked.2) = login_attempts (st_db locked) /\
  let rq := mkReq "" "" "10.0.0.1" (Some (JObj [("tenant_slug", JStr "acme"); ("email", JStr "ada@acme.dev");
              ("password", JStr "pw9")])) in
  (match (@handleLogin up plain_bcrypt sample_auth rq None reset_locked.2).1 with
   | Ok r => rs_code r | Err _ => 0%Z
   end) = 429%Z.
Proof. vm_compute. split_and!; reflexivity. Qed.

(** ** Changed roles *)

Section changed_roles.
Context `{Transport} (cfg : AuthConfig).

(** A table that is left alone. *)
Definition SameSessions (d d' : DB) : Prop := sessions d' = sessions d.
#[global] Instance SameSessions_preorder : PreOrder SameSessions.
Proof. split; unfold SameSessions; [by intros d|]. intros d1 d2 d3. congruence. Qed.

Ltac sessions_tx :=
  apply Pres_tx; [typeclasses eauto|];
  let Hb := fresh "Hb" in
  intros ? ? ? ? ? Hb; cbv zeta in Hb; repeat case_match; simplify_eq; reflexivity.

Lemma SetUserRole_sessions a b c : Pres (OnDb SameSessions) (SetUserRole a b c).
Proof. unfold SetUserRole, update_user. case_if; sessions_tx. Qed.
Lemma InsertAuditLog_sessions a b : Pres (OnDb SameSessions) (InsertAuditLog a b).
Proof. sessions_tx. Qed.
Hint Resolve SetUserRole_sessions InsertAuditLog_sessions : pres.

Lemma role_change_sessions c id body s :
  let s' := (handleChangeRole c id body s).2 in
  sessions (st_db s') = sessions (st_db s) /\ (st_faults s = [] -> st_faults s' = [] /\ st_now s' = st_now s).
Proof.
  split.
  - assert (P : Pres (OnDb SameSessions) (handleChangeRole c id body))
      by (unfold handleChangeRole, grantable, with_user, GetUser, or_500, audit; pres).
    apply P.
  - assert (P : Pres Calm (handleChangeRole c id body))
      by (unfold handleChangeRole, grantable, with_user, GetUser, or_500, audit, InsertAuditLog,
            SetUserRole, update_user; pres).
    apply P.
Qed.

(** What verifying reads: the clock and the sessions. *)
Lemma verify_reads token s1 s2 :
  st_faults s1 = [] -> st_faults s2 = [] -> st_now s1 = st_now s2 ->
  sessions (st_db s1) = sessions (st_db s2) ->
  (verifySessionToken cfg token s1).1 = (verifySessionToken cfg token s2).1.
Proof.
  intros F1 F2 Hn Hs. unfold verifySessionToken, mbind at 1 3, M_bind at 1 3, now at 1 2. rewrite Hn.
  destruct (check_token _ _ _) as [cl|e]; [|done]. rewrite !bind_attempt.
  enough ((GetLiveSession (cl_TenantID cl) (cl_JTI cl) s1).1
          = (GetLiveSession (cl_TenantID cl) (cl_JTI cl) s2).1) as ->
    by by destruct (GetLiveSession _ _ s2) as [[]].
  unfold GetLiveSession, query, tx, mbind, M_bind, now. rewrite F1, F2, !tr_alone, Hs. simpl.
  destruct (found_or _) as [row|e]; simpl; [|done]. rewrite Hn. by destruct (_ || _).
Qed.
End changed_roles.

(** A changed role does not reach the sessions.  Changing a user's role
    leaves every session as it is, so on a working database each token verifies
    exactly when it did before and with the role it was minted with: a demoted
    administrator goes on as one, and refreshing the token keeps the old role. *)
Theorem role_change_keeps_sessions `{Transport} (cfg : AuthConfig) (c : Caller) (id : string)
    (body : option Json) (s : St) (token : string) :
  st_faults s = [] ->
  let s' := (handleChangeRole c id body s).2 in
  sessions (st_db s') = sessions (st_db s) /\
  (verifySessionToken cfg token s').1 = (verifySessionToken cfg token s).1.
Proof.
  intros Hf. destruct (role_change_sessions c id body s) as [Hs Hk]. destruct (Hk Hf) as [Hf' Hn].
  split; [done|]. by apply verify_reads.
Qed.

Local Abbreviation demoted :=
  (@handleChangeRole up ada_caller "u-1" (Some (JObj [("role", JStr "VIEWER")])) accounts).

Lemma role_change_keeps_sessions_witness :
  (us_Role <$> users (st_db demoted.2)) = ["VIEWER"; "VIEWER"] /\
  (@verifySessionToken up sample_auth ada_token demoted.2).1
  = Ok (mkClaims "j-1" "u-1" "t1" "ADMIN" 43200).
Proof.
  split; [vm_compute; reflexivity|].
  etransitivity; [apply (@role_change_keeps_sessions up sample_auth ada_caller "u-1"
    (Some (JObj [("role", JStr "VIEWER")])) accounts ada_token); reflexivity|].
  vm_compute. reflexivity.
Defined.
