(* ===== verification/AdminSpec.v ===== *)
(** * What provisioning and inspection guarantee

    Nothing recorded is taken back; a new tenant's key works; the inspection
    routes show a caller its own tenant and nothing else; the seed can be run
    again and leaves a tenant one can sign in to. *)

From S2P Require Import Prelude Json GoTime Crypto Encoding Totp JsonText Events Model Tables Effects.
From S2P Require Import Store AuthStore TenantStore Schema Frame Connectors Run WorkerFrame Ingestion.
From S2P Require Import Operator Auth Accounts Admin Sample History AuthSpec.
Local Open Scope string_scope.

(** ** History *)

Section kept.
Context `{Outside} `{Bcrypt} (strict : bool).
Let R := Promise strict.

Lemma CreateTenant_kept a b : Pres R (CreateTenant a b).
Proof. kept_tx. Qed.
Lemma CreateConnection_kept c : Pres R (CreateConnection c).
Proof. kept_tx. Qed.
Lemma SetConnectionStatus_kept a b c : Pres R (SetConnectionStatus a b c).
Proof.
  kept_tx. intros [sc_connections]. constructor; simpl; try assumption.
  destruct (is_connection_status c) eqn:Ec; [auto with schema|].
  apply Forall_forall. intros x (r & Hr & ->)%elem_of_update_where.
  destruct (connection_key a b r) eqn:Ek; [|by eapply Forall_forall in sc_connections].
  assert (existsb (connection_key a b) (connections d) = true) as E
    by (apply existsb_exists; exists r; by split; [apply list_elem_of_In|]).
  match goal with H : (_ && _)%bool = false |- _ => by rewrite E in H end.
Qed.
Lemma UpsertSyncPolicy_kept p : Pres R (UpsertSyncPolicy p).
Proof. kept_tx. Qed.
Hint Resolve CreateTenant_kept CreateConnection_kept UpsertSyncPolicy_kept insert_key_kept
  TouchKey_kept CreateUser_kept : pres.

Lemma admin_handler_kept jsonb_out c q : Pres R (admin_handler jsonb_out c q).
Proof.
  destruct q; simpl; unfold handleCreateTenant, handleListTenants, handleCreateConnection,
    handleListConnections, handleGetConnection, handleListAudit, handleListOperations,
    handleListSyncEvents, handleGetSyncEvent, handleListDLQ, handleGetDLQ, with_row, or_500,
    ListTenants, ListConnections, GetConnection, ListAuditLogs, ListSyncOperations, ListSourceEvents,
    GetSourceEvent, CreateAPIKey; pres.
Qed.

Lemma serve_admin_kept cfg jsonb_out r q : Pres R (serve_admin jsonb_out cfg r q).
Proof.
  unfold serve_admin, behind, requireRole. destruct (authenticate_kept cfg strict r).
  apply Pres_bind; try typeclasses eauto; try done; intros x _. pres. apply admin_handler_kept.
Qed.

Lemma seed_kept cfg salt : Pres R (seed cfg salt).
Proof. unfold seed, seed_tenant, ensure, VerifyAPIKey, CreateAPIKey. pres. Qed.
End kept.

(** ** New tenants *)

Lemma or_500_ok `{Transport} {A} (m : M A) failed (k : A -> M Response) s a s1 :
  m s = (Ok a, s1) -> or_500 m failed k s = k a s1.
Proof. intros E. unfold or_500. by rewrite bind_attempt, E. Qed.

Lemma existsb_imp {A} (p q : A -> bool) l :
  (forall x, q x = true -> p x = true) -> List.existsb p l = false -> List.existsb q l = false.
Proof.
  intros Hqp. induction l as [|x l IH]; [done|]. simpl. intros [Hp H]%orb_false_elim.
  destruct (q x) eqn:Eq; [by rewrite (Hqp x Eq) in Hp|by apply IH].
Qed.
Lemma existsb_weaken {A} (p q : A -> bool) l :
  List.existsb p l = false -> List.existsb (fun x => p x && q x) l = false.
Proof. apply existsb_imp. intros x Hx. by apply andb_prop in Hx as []. Qed.

(** Without faults a key that is stored and enabled authenticates. *)
Lemma key_authenticates `{Transport} (cfg : AuthConfig) (r : Req) (key : string) (k : APIKey) (s : St) :
  st_faults s = [] -> bearerTokenFrom r = "" -> actorFromRequest r = key -> key <> "" ->
  select_one (fun x => (ak_KeyHash x =s hashAPIKey key) && ak_Enabled x) (api_keys (st_db s)) = Some k ->
  exists s', authenticate cfg r s
    = (Ok (inr (mkCaller (ak_TenantID k) (ak_Role k) ("key:" +:+ ak_Name k) (ak_ID k) "")), s').
Proof.
  intros Hf Hb <- Hne Hk. unfold authenticate. rewrite Hb. change (negb ("" =s "")) with false.
  unfold requireAPIKey. rewrite seqb_ne by done. rewrite bind_attempt. unfold VerifyAPIKey.
  unfold mbind at 1 2, M_bind at 1 2.
  edestruct (calm_query (A:=APIKey)) as (s1 & E1 & Hd1 & _ & Hf1); [exact Hf|]. rewrite E1, Hk. simpl.
  unfold mbind, M_bind, TouchKey, ignore. destruct (tx _ s1) as [x s2]. simpl. by eexists.
Qed.

(** Creating a tenant.  Without faults a complete request for a free slug is
    answered 201 with a key; the database gains that tenant and one enabled key
    of its role ADMIN, and nothing else; and a request that presents the key is
    authenticated as an administrator of the new tenant.  A taken slug is
    answered 409 and changes nothing. *)
Theorem tenant_provisioned `{Transport} `{Bcrypt} (cfg : AuthConfig) (body : option Json) (bytes : list Z)
    (name slug : string) (s : St) :
  st_faults s = [] -> tenant_request body = Some (name, slug) ->
  let raw := "sfk_" +:+ hex_encode bytes in
  let taken := List.existsb (fun t => tn_Slug t =s slug) (tenants (st_db s)) in
  (taken = true -> exists s', handleCreateTenant body (Some bytes) s
     = (Ok (error_response 409 "tenant slug already exists"), s') /\ st_db s' = st_db s) /\
  (taken = false -> List.existsb (fun k => ak_KeyHash k =s hashAPIKey raw) (api_keys (st_db s)) = false ->
   exists t k s', handleCreateTenant body (Some bytes) s
       = (Ok (mkResponse 201 (body_of (render_tenant t) ++ [("api_key", JStr raw)])%list), s') /\
     tn_Name t = name /\ tn_Slug t = slug /\ tn_Status t = "active" /\ ak_TenantID k = tn_ID t /\
     st_db s' = on_api_keys (fun l => l ++ [k])%list (on_tenants (fun l => l ++ [t])%list (st_db s)) /\
     forall r, bearerTokenFrom r = "" -> actorFromRequest r = raw ->
       exists s'', authenticate cfg r s'
         = (Ok (inr (mkCaller (tn_ID t) "ADMIN" "key:initial-admin" (ak_ID k) "")), s'')).
Proof.
  intros Hf Hq raw taken. unfold handleCreateTenant. rewrite Hq. rewrite bind_attempt. unfold CreateTenant.
  edestruct (calm_tx (A:=Tenant)) as (s1 & -> & _ & Hf1 & Hd1); [exact Hf|]. cbn [fst snd].
  unfold insert_new in *. fold taken in Hd1 |- *. split; intros Ht; rewrite Ht in Hd1 |- *; cbn [fst] in *.
  { by exists s1. }
  intros Hk. cbn [newRawAPIKey]. fold raw.
  match goal with |- context [tn_ID ?x] => set (t := x) in * end.
  set (d := on_tenants _ _) in Hd1.
  set (k := mkAPIKey (gen_id (st_seq s1) 0) (tn_ID t) "initial-admin" (hashAPIKey raw) "ADMIN" true (st_now s1) None).
  assert (Hins : exists s2, CreateAPIKey (tn_ID t) "initial-admin" "ADMIN" (hashAPIKey raw) s1 = (Ok k, s2) /\
    st_faults s2 = [] /\ st_db s2 = on_api_keys (fun l => l ++ [k])%list d).
  { unfold CreateAPIKey, insert_key.
    edestruct (calm_tx (A:=APIKey)) as (s2 & -> & _ & Hf2 & Hd2); [exact Hf1|]. exists s2.
    revert Hd2. cbn [is_role negb]. rewrite Hd1. unfold insert_new. change (api_keys d) with (api_keys (st_db s)).
    rewrite Hk. done. }
  destruct Hins as (s2 & E2 & Hf2 & Hd2). erewrite or_500_ok by exact E2. exists t, k, s2.
  do 5 (split; [done|]). split; [exact Hd2|]. intros r Hb Ha.
  apply (key_authenticates cfg r raw k); [done..|].
  rewrite Hd2. apply select_one_snoc; [|by unfold k; simpl; rewrite seqb_refl].
  by apply existsb_weaken with (1 := Hk).
Qed.

Local Abbreviation beta_body := (Some (JObj [("name", JStr "Beta"); ("slug", JStr "beta")])).
Definition beta_request : Req := mkReq "" "sfk_0102" "" None.

Lemma tenant_provisioned_witness :
  exists t k s' s'', @handleCreateTenant up beta_body (Some [1; 2]%Z) accounts
      = (Ok (mkResponse 201 (body_of (render_tenant t) ++ [("api_key", JStr "sfk_0102")])%list), s') /\
    tenants (st_db s') = (tenants accounts_db ++ [t])%list /\
    @authenticate up sample_auth beta_request s'
    = (Ok (inr (mkCaller (tn_ID t) "ADMIN" "key:initial-admin" k "")), s'').
Proof.
  destruct (@tenant_provisioned up plain_bcrypt sample_auth beta_body [1; 2]%Z "Beta" "beta" accounts
    eq_refl eq_refl) as [_ Hnew].
  destruct Hnew as (t & k & s' & E & _ & _ & _ & _ & Hd & Ha); [reflexivity|vm_compute; reflexivity|].
  destruct (Ha beta_request eq_refl eq_refl) as (s'' & Es).
  exists t, (ak_ID k), s', s''. split; [exact E|]. split; [by rewrite Hd|exact Es].
Defined.

(** ** Whose rows are shown *)

Section isolation.
Context (t : string).

(** The rows of the tenant, table by table. *)
Record SameRows (d d' : DB) : Prop := mkSameRows {
  same_connections : select_where (fun r => cn_TenantID r =s t) (connections d)
                     = select_where (fun r => cn_TenantID r =s t) (connections d');
  same_events : select_where (fun r => se_TenantID r =s t) (source_events d)
                = select_where (fun r => se_TenantID r =s t) (source_events d');
  same_letters : select_where (fun r => dl_TenantID r =s t) (dead_letter d)
                 = select_where (fun r => dl_TenantID r =s t) (dead_letter d');
  same_conflicts : select_where (fun r => co_TenantID r =s t) (conflicts d)
                   = select_where (fun r => co_TenantID r =s t) (conflicts d');
  same_jobs : select_where (fun r => sj_TenantID r =s t) (sync_jobs d)
              = select_where (fun r => sj_TenantID r =s t) (sync_jobs d');
  same_runs : select_where (fun r => rr_TenantID r =s t) (reconciliation_runs d)
              = select_where (fun r => rr_TenantID r =s t) (reconciliation_runs d');
  same_findings : select_where (fun r => rf_TenantID r =s t) (reconciliation_findings d)
                  = select_where (fun r => rf_TenantID r =s t) (reconciliation_findings d');
  same_operations : select_where (fun r => so_TenantID r =s t) (sync_operations d)
                    = select_where (fun r => so_TenantID r =s t) (sync_operations d');
  same_audit : select_where (fun r => sql_eq (au_TenantID r) t) (audit_log d)
               = select_where (fun r => sql_eq (au_TenantID r) t) (audit_log d');
  same_users : select_where (fun r => us_TenantID r =s t) (users d)
               = select_where (fun r => us_TenantID r =s t) (users d');
  same_keys : select_where (fun r => ak_TenantID r =s t) (api_keys d)
              = select_where (fun r => ak_TenantID r =s t) (api_keys d');
  same_sessions : select_where (fun r => ss_TenantID r =s t) (sessions d)
                  = select_where (fun r => ss_TenantID r =s t) (sessions d');
}.

#[global] Instance SameRows_equiv : Equivalence SameRows.
Proof.
  split.
  - by intros d.
  - intros d d' []. by constructor.
  - intros d1 d2 d3 [] []. constructor; by etrans.
Qed.

(** What a query says is settled by the tenant's rows. *)
Class Confined {A} (f : DB -> A) : Prop := confined : Proper (SameRows ==> eq) f.

Lemma select_within {A} (p q : A -> bool) l :
  (forall r, p r = true -> q r = true) -> select_where p l = select_where p (select_where q l).
Proof.
  intros Hpq. unfold select_where. induction l as [|x l IH]; [done|]. simpl.
  destruct (q x) eqn:Eq; simpl; [by rewrite IH|].
  destruct (p x) eqn:Ep; [|done]. rewrite (Hpq x Ep) in Eq. discriminate.
Qed.

Lemma find_within {A} (p q : A -> bool) l :
  (forall r, p r = true -> q r = true) -> select_one p l = select_one p (select_where q l).
Proof.
  intros Hpq. unfold select_one, select_where. induction l as [|x l IH]; [done|]. simpl.
  destruct (q x) eqn:Eq; simpl; [by rewrite IH|].
  destruct (p x) eqn:Ep; [|done]. rewrite (Hpq x Ep) in Eq. discriminate.
Qed.

Lemma within_where {A} (q p : A -> bool) l l' :
  (forall r, p r = true -> q r = true) -> select_where q l = select_where q l' ->
  select_where p l = select_where p l'.
Proof. intros Hpq E. by rewrite (select_within p q l), (select_within p q l'), E. Qed.

Lemma within_one {A} (q p : A -> bool) l l' :
  (forall r, p r = true -> q r = true) -> select_where q l = select_where q l' ->
  select_one p l = select_one p l'.
Proof. intros Hpq E. by rewrite (find_within p q l), (find_within p q l'), E. Qed.
End isolation.

(** A condition that begins with the tenant's. *)
Ltac own_rows := intros r Hr; repeat (apply andb_prop in Hr as [Hr _]); exact Hr.
Ltac confined_query :=
  let d := fresh "d" in let d' := fresh "d'" in let Hs := fresh "Hs" in let E := fresh "E" in
  intros d d' Hs; destruct Hs; unfold connection_key, job_key; cbv beta;
  lazymatch goal with
  | |- context [select_where ?p (?f d)] =>
      assert (E : select_where p (f d) = select_where p (f d'))
        by (eapply within_where; [|eassumption]; own_rows)
  | |- context [select_one ?p (?f d)] =>
      assert (E : select_one p (f d) = select_one p (f d'))
        by (eapply within_one; [|eassumption]; own_rows)
  | |- _ => assert (E : d = d) by reflexivity
  end; rewrite ?E; reflexivity.

Section shown.
Context `{Transport} `{Bcrypt} (scfg : ServerConfig) (jsonb_out : Json -> string) (c : Caller).
Local Abbreviation t := (ca_TenantID c).

(** Two runs show the same: same answer, and the database as it was. *)
Definition Shows (s1 s2 : St) (m : M Response) : Prop :=
  (m s1).1 = (m s2).1 /\ st_db (m s1).2 = st_db s1.

Lemma query_shows {A} (f : DB -> Res A) s1 s2 :
  Confined t f -> SameRows t (st_db s1) (st_db s2) -> st_faults s1 = st_faults s2 ->
  (query f s1).1 = (query f s2).1 /\ st_db (query f s1).2 = st_db s1.
Proof.
  intros Hc Hs Hf. pose proof (Hc _ _ Hs) as E. unfold query, tx. rewrite !tr_alone, <- Hf, E.
  destruct (head (st_faults s1)) as [[]|]; simpl; destruct (f (st_db s2)); done.
Qed.

Lemma or_500_same {A} (m : M A) failed (g : A -> Response) s1 s2 :
  (m s1).1 = (m s2).1 /\ st_db (m s1).2 = st_db s1 ->
  Shows s1 s2 (or_500 m failed (fun a => mret (g a))).
Proof. intros [E Hd]. unfold Shows, or_500. rewrite !bind_attempt, E. by destruct (m s2).1. Qed.

Lemma or_500_shows {A} (f : DB -> Res A) failed (g : A -> Response) s1 s2 :
  Confined t f -> SameRows t (st_db s1) (st_db s2) -> st_faults s1 = st_faults s2 ->
  Shows s1 s2 (or_500 (query f) failed (fun a => mret (g a))).
Proof. intros Hc Hs Hf. by apply or_500_same, query_shows. Qed.

Lemma with_row_shows {A} (f : DB -> Res A) missing failed (g : A -> Response) s1 s2 :
  Confined t f -> SameRows t (st_db s1) (st_db s2) -> st_faults s1 = st_faults s2 ->
  Shows s1 s2 (with_row (query f) missing failed (fun a => mret (g a))).
Proof.
  intros Hc Hs Hf. destruct (query_shows f s1 s2 Hc Hs Hf) as [E Hd]. unfold Shows, with_row.
  rewrite !bind_attempt, E. destruct (query f s2).1 as [|[]]; done.
Qed.

(** The inspection routes. *)
Definition inspects (q : AdminCall) : bool :=
  match q with CreateTenantCall _ _ | ListTenantsCall | CreateConnectionCall _ => false | _ => true end.
Definition lists (q : Call) : bool :=
  match q with
  | ListSyncJobsCall _ | GetSyncJobCall _ | ListConflictsCall _ _ | GetConflictCall _
  | ListReconciliationsCall _ | GetReconciliationCall _ | ListFindingsCall _ _ _ => true
  | _ => false
  end.

Lemma admin_shows q s1 s2 :
  inspects q = true -> SameRows t (st_db s1) (st_db s2) -> st_faults s1 = st_faults s2 ->
  Shows s1 s2 (admin_handler jsonb_out c q).
Proof.
  intros Hq Hs Hf. destruct q; try discriminate; cbn [admin_handler];
    first [apply or_500_shows; [|done|done] | apply with_row_shows; [|done|done]]; confined_query.
Qed.

(** The lists of users, keys and sessions; the last depends on the time. *)
Definition account_lists (q : AccountCall) : bool :=
  match q with ListUsersCall | ListKeysCall | ListSessionsCall _ => true | _ => false end.

Lemma sessions_shows limit s1 s2 :
  SameRows t (st_db s1) (st_db s2) -> st_faults s1 = st_faults s2 -> st_now s1 = st_now s2 ->
  (ListSessions t limit s1).1 = (ListSessions t limit s2).1 /\ st_db (ListSessions t limit s1).2 = st_db s1.
Proof.
  intros Hs Hf Hn. unfold ListSessions, tx. rewrite !tr_alone, <- Hf, <- Hn.
  rewrite (within_where (fun r => ss_TenantID r =s t) _ (sessions (st_db s1)) (sessions (st_db s2)));
    [|own_rows|by destruct Hs].
  by destruct (head (st_faults s1)) as [[]|].
Qed.

Lemma account_shows acfg rq q s1 s2 :
  account_lists q = true -> SameRows t (st_db s1) (st_db s2) -> st_faults s1 = st_faults s2 ->
  st_now s1 = st_now s2 -> Shows s1 s2 (account_handler acfg rq q c).
Proof.
  intros Hq Hs Hf Hn. destruct q; try discriminate; cbn [account_handler];
    [apply or_500_shows; [|done|done]; confined_query| |apply or_500_shows; [|done|done]; confined_query].
  by apply or_500_same, sessions_shows.
Qed.

Lemma operator_shows q s1 s2 :
  lists q = true -> SameRows t (st_db s1) (st_db s2) -> st_faults s1 = st_faults s2 ->
  Shows s1 s2 (handler scfg jsonb_out c q).
Proof.
  intros Hq Hs Hf. destruct q; try discriminate; cbn [handler];
    first [apply or_500_shows; [|done|done] | apply with_row_shows; [|done|done]]; confined_query.
Qed.
End shown.

(** C28: inspection never crosses tenants.  On two databases that hold the same
    rows of the caller's tenant, whatever other tenants' rows they hold, at the
    same time and with the same faults, every list and get route of the tenant's
    data (connections, audit trail, applied writes, ingested events, dead letters,
    jobs, conflicts, reconciliation runs and findings, users, API keys and
    sessions) answers the same, and changes nothing. *)
Theorem reads_isolated `{Transport} `{Bcrypt} (acfg : AuthConfig) (scfg : ServerConfig)
    (jsonb_out : Json -> string) (c : Caller) (s1 s2 : St) :
  SameRows (ca_TenantID c) (st_db s1) (st_db s2) -> st_faults s1 = st_faults s2 -> st_now s1 = st_now s2 ->
  (forall q, inspects q = true -> Shows s1 s2 (requireRole (admin_role q) c (admin_handler jsonb_out c q))) /\
  (forall q, lists q = true -> Shows s1 s2 (serve scfg jsonb_out c q)) /\
  (forall r q, account_lists q = true -> Shows s1 s2 (requireRole "ADMIN" c (account_handler acfg r q c))).
Proof.
  intros Hs Hf Hn. split; [|split]; [intros q Hq|intros q Hq|intros r q Hq];
    unfold serve, requireRole; case_match; try done.
  - by apply admin_shows.
  - by apply operator_shows.
  - by apply account_shows.
Qed.

(** The same database with another tenant's user, key and session in it. *)
Definition shared_db : DB :=
  on_users (cons (mkUser "u-9" "t2" "eve@other.dev" "h:x" "ADMIN" "" false [] 0))
    (on_api_keys (cons (mkAPIKey "k-9" "t2" "ci" "h9" "ADMIN" true 0 None))
       (on_sessions (cons (mkSession "s-9" "j-9" "u-9" "t2" "ADMIN" 0 43200000000000 None)) accounts_db)).

Lemma reads_isolated_witness :
  let s2 := @mkSt up shared_db 0 1000000000 [] [] 0 [] [] [] [] in
  let c := mkCaller "t1" "ADMIN" "ada" "" "u-1" in
  let m := requireRole "ADMIN" c (@account_handler up plain_bcrypt sample_auth (ada_request None) ListUsersCall c) in
  (m accounts).1 = (m s2).1.
Proof.
  refine (proj1 (proj2 (proj2 (@reads_isolated up plain_bcrypt sample_auth (mkServerConfig 8 50) marshal
    (mkCaller "t1" "ADMIN" "ada" "" "u-1") accounts (@mkSt up shared_db 0 1000000000 [] [] 0 [] [] [] []) _ _ _))
    (ada_request None) ListUsersCall eq_refl)).
  - constructor; reflexivity.
  - reflexivity.
  - reflexivity.
Defined.

(** Tenants are not rows of a tenant: an administrator of any of them is shown all. *)
Lemma tenants_shown_to_all `{Transport} (s : St) :
  st_faults s = [] -> exists s', handleListTenants s
    = (Ok (mkResponse 200 [("tenants", render_list render_tenant (order_by tn_CreatedAt (tenants (st_db s))))]), s').
Proof.
  intros Hf. unfold handleListTenants, or_500. rewrite bind_attempt. unfold ListTenants.
  edestruct (calm_query (A:=list Tenant)) as (s1 & -> & _); [exact Hf|]. by exists s1.
Qed.

(** A viewer is shown the secrets that webhooks are signed with. *)
Lemma secrets_shown_to_viewers `{Transport} (tenant actor : string) (conn : Connection) (s : St) :
  st_faults s = [] -> conn ∈ connections (st_db s) -> cn_TenantID conn = tenant ->
  exists cs s', handleListConnections (mkCaller tenant "VIEWER" actor "" "") s
    = (Ok (mkResponse 200 [("connections", JArr cs)]), s') /\
    exists j, j ∈ cs /\ jlookup "webhook_secret" (body_of j) = Some (JStr (cn_WebhookSecret conn)).
Proof.
  intros Hf Hin Ht. unfold handleListConnections, or_500. rewrite bind_attempt. unfold ListConnections.
  edestruct (calm_query (A:=list Connection)) as (s1 & -> & _); [exact Hf|]. cbn [fst snd ca_TenantID].
  set (l := scanned_connection <$> _). assert (Hl : scanned_connection conn ∈ l).
  { apply list_elem_of_fmap_2. unfold order_by. rewrite isort_perm. apply list_elem_of_In, filter_In.
    split; [by apply list_elem_of_In|]. by rewrite Ht, seqb_refl. }
  destruct l as [|x l]; [by apply elem_of_nil in Hl|]. eexists _, s1. split; [reflexivity|].
  exists (render_connection (scanned_connection conn)). split; [|reflexivity].
  by apply list_elem_of_fmap_2.
Qed.
