(* ===== verification/SeedSpec.v ===== *)
(** * The demo tenant

    The seed can be run at every start: a second run changes no more than two
    timestamps and the key's last use.  A correct login is answered with a token
    that authenticates; in particular the demo user can sign in after the
    seed. *)

From S2P Require Import Prelude Json GoTime Crypto Encoding Totp JsonText Events Model Tables Effects.
From S2P Require Import Store AuthStore TenantStore Frame Connectors Run WorkerFrame Ingestion.
From S2P Require Import Operator Auth Accounts Admin Sample History AuthSpec AdminSpec.
Local Open Scope string_scope.

(** ** What the seed leaves *)

Definition demo_key (k : APIKey) : bool := (ak_KeyHash k =s hashAPIKey demoAPIKey) && ak_Enabled k.
Definition connection_of (tenant provider : string) (c : Connection) : bool :=
  (cn_TenantID c =s tenant) && (cn_Provider c =s provider).
Definition user_of (tenant email : string) (u : User) : bool := (us_TenantID u =s tenant) && (us_Email u =s email).
Definition key_of (p : SyncPolicy) : SyncPolicy -> bool :=
  policy_key (po_TenantID p) (po_Entity p) (po_Source p) (po_Destination p).

(** A policy row and a key without the time they were last touched. *)
Definition policy_facts (r : SyncPolicy) : SyncPolicy := policy_row 0 (po_ID r) (po_CreatedAt r) r.
Definition key_facts (k : APIKey) : APIKey :=
  mkAPIKey (ak_ID k) (ak_TenantID k) (ak_Name k) (ak_KeyHash k) (ak_Role k) (ak_Enabled k) (ak_CreatedAt k) None.

(** The policy [p] is there, and every row under its key says what [p] says. *)
Definition policy_set (p : SyncPolicy) (l : list SyncPolicy) : Prop :=
  List.existsb (key_of p) l = true /\
  forall r, r ∈ l -> key_of p r = true -> policy_facts r = policy_row 0 (po_ID r) (po_CreatedAt r) p.

Record Seeded (t : Tenant) (d : DB) : Prop := mkSeeded {
  seeded_tenant : select_one (fun r => tn_Slug r =s "acme") (tenants d) = Some t;
  seeded_salesforce : is_Some (select_one (connection_of (tn_ID t) "salesforce") (connections d));
  seeded_hubspot : is_Some (select_one (connection_of (tn_ID t) "hubspot") (connections d));
  seeded_key : is_Some (select_one demo_key (api_keys d));
  seeded_user : is_Some (select_one (user_of (tn_ID t) demoUserEmail) (users d));
  seeded_out : policy_set (demo_policy (tn_ID t) "salesforce" "hubspot" 100) (sync_policies d);
  seeded_in : policy_set (demo_policy (tn_ID t) "hubspot" "salesforce" 200) (sync_policies d);
}.

(** Nothing changed but when policies were updated and keys used. *)
Definition Retouched (d d' : DB) : Prop :=
  policy_facts <$> sync_policies d' = policy_facts <$> sync_policies d /\
  key_facts <$> api_keys d' = key_facts <$> api_keys d /\
  d' = on_api_keys (fun _ => api_keys d') (on_sync_policies (fun _ => sync_policies d') d).

#[global] Instance Retouched_preorder : PreOrder Retouched.
Proof.
  split.
  - intros d. split; [done|]. split; [done|]. by destruct d.
  - intros d1 d2 d3 (A1 & B1 & C1) (A2 & B2 & C2). split; [congruence|]. split; [congruence|].
    rewrite C2, C1. done.
Qed.

(** ** Steps without faults *)

Section seed.
Context `{Transport} `{Bcrypt}.

Lemma ensure_query {A B} (f : DB -> Res A) (create : M B) s s1 :
  st_faults s = [] -> ensure (query f) create s = (Ok tt, s1) -> f (st_db s) <> Err ErrNotFound ->
  st_faults s1 = [] /\ st_db s1 = st_db s.
Proof.
  intros Hf E Hn. unfold ensure in E. rewrite bind_attempt in E.
  destruct (calm_query f s Hf) as (s' & Eq & Hd & _ & Hf'). rewrite Eq in E. cbn [fst snd] in E.
  destruct (f (st_db s)) as [a|e]; [|destruct e]; try done; injection E as <-; done.
Qed.

Lemma ensure_query_found {A B} (f : DB -> Res A) (create : M B) s a :
  st_faults s = [] -> f (st_db s) = Ok a ->
  exists s1, ensure (query f) create s = (Ok tt, s1) /\ st_faults s1 = [] /\ st_db s1 = st_db s.
Proof.
  intros Hf Ha. unfold ensure. destruct (calm_query f s Hf) as (s' & Eq & Hd & _ & Hf').
  rewrite bind_attempt, Eq, Ha. by exists s'.
Qed.

(** A row that is made, or was there, is there. *)
Lemma ensure_row {A B} (get : DB -> option A) (create : M B) s s1 :
  st_faults s = [] -> ensure (query (fun d => found_or (get d))) create s = (Ok tt, s1) ->
  (st_faults s1 = [] /\ st_db s1 = st_db s /\ is_Some (get (st_db s))) \/
  (get (st_db s) = None /\ exists b s', st_faults s' = [] /\ st_db s' = st_db s /\ create s' = (Ok b, s1)).
Proof.
  intros Hf E. destruct (get (st_db s)) as [a|] eqn:Eg.
  - left. destruct (ensure_query _ _ _ _ Hf E) as [Hf1 Hd1]; [by rewrite Eg|]. by repeat split.
  - right. split; [done|]. unfold ensure in E. rewrite bind_attempt in E.
    destruct (calm_query (fun d => found_or (get d)) s Hf) as (s' & Eq & Hd & _ & Hf').
    rewrite Eq, Eg in E. cbn [fst snd found_or] in E.
    apply run_bind in E as [(e & _ & ?)|(b & s2 & Ec & Er)]; [done|]. apply run_ret in Er as [_ ->].
    by exists b, s'.
Qed.

Lemma CreateConnection_calm c s b s1 :
  st_faults s = [] -> CreateConnection c s = (Ok b, s1) ->
  st_faults s1 = [] /\ cn_TenantID b = cn_TenantID c /\ cn_Provider b = cn_Provider c /\
  st_db s1 = on_connections (fun l => l ++ [b])%list (st_db s).
Proof.
  intros Hf E. unfold CreateConnection in E.
  edestruct (calm_tx (A:=Connection)) as (s' & Et & _ & Hf1 & Hd); [exact Hf|]. rewrite Et in E.
  destruct (is_provider _ && _); simplify_eq/=. done.
Qed.

Lemma insert_key_calm tenant name role hash s b s1 :
  st_faults s = [] -> insert_key tenant name role hash s = (Ok b, s1) ->
  st_faults s1 = [] /\ ak_KeyHash b = hash /\ ak_Enabled b = true /\ ak_TenantID b = tenant /\ ak_Role b = role /\
  List.existsb (fun k => ak_KeyHash k =s hash) (api_keys (st_db s)) = false /\
  st_db s1 = on_api_keys (fun l => l ++ [b])%list (st_db s).
Proof.
  intros Hf E. unfold insert_key in E.
  edestruct (calm_tx (A:=APIKey)) as (s' & Et & _ & Hf1 & Hd); [exact Hf|]. rewrite Et in E.
  destruct (is_role role); [|simplify_eq/=]. unfold insert_new in *. cbn [negb fst snd] in *.
  destruct (List.existsb _ _); simplify_eq/=. done.
Qed.

Lemma CreateUser_calm tenant email hash role s b s1 :
  st_faults s = [] -> CreateUser tenant email hash role s = (Ok b, s1) ->
  st_faults s1 = [] /\ us_TenantID b = tenant /\ us_Email b = email /\ us_PasswordHash b = hash /\
  us_Role b = role /\ us_TOTPEnabled b = false /\ st_db s1 = on_users (fun l => l ++ [b])%list (st_db s).
Proof.
  intros Hf E. unfold CreateUser in E.
  edestruct (calm_tx (A:=User)) as (s' & Et & _ & Hf1 & Hd); [exact Hf|]. rewrite Et in E.
  destruct (is_role role); [|simplify_eq/=]. unfold insert_new in *. cbn [negb fst snd] in *.
  destruct (List.existsb _ _); simplify_eq/=. done.
Qed.

(** [VerifyAPIKey] without faults: the key found, its last use noted. *)
Lemma VerifyAPIKey_calm hash s :
  st_faults s = [] ->
  match select_one (fun r => (ak_KeyHash r =s hash) && ak_Enabled r) (api_keys (st_db s)) with
  | None => exists s1, VerifyAPIKey hash s = (Err ErrNotFound, s1) /\ st_faults s1 = [] /\ st_db s1 = st_db s
  | Some k => exists s1, VerifyAPIKey hash s = (Ok k, s1) /\ st_faults s1 = [] /\
      Retouched (st_db s) (st_db s1)
  end.
Proof.
  intros Hf. unfold VerifyAPIKey, mbind, M_bind.
  edestruct (calm_query (A:=APIKey)) as (s1 & -> & Hd & _ & Hf1); [exact Hf|].
  destruct (select_one _ _) as [k|]; [|by exists s1]. cbn [found_or]. unfold TouchKey, ignore.
  edestruct (calm_tx (A:=unit)) as (s2 & -> & _ & Hf2 & Hd2); [exact Hf1|]. exists s2. split; [done|].
  split; [done|]. rewrite Hd2, Hd. cbn. split; [done|]. split; [|done]. cbn. unfold update_where.
  induction (api_keys (st_db s)) as [|x l IH]; [done|]. cbn. rewrite IH. f_equal. by case_match.
Qed.

(** ** Policies *)

Definition policy_update (now : Z) (p r : SyncPolicy) : SyncPolicy := policy_row now (po_ID r) (po_CreatedAt r) p.

Lemma UpsertSyncPolicy_calm p s :
  st_faults s = [] -> policy_valid p = true ->
  exists r s1, UpsertSyncPolicy p s = (Ok r, s1) /\ st_faults s1 = [] /\
    st_db s1 = on_sync_policies (upsert (key_of p) (policy_update (st_now s) p)
                 (policy_row (st_now s) (gen_id (st_seq s) 0) (st_now s) p)) (st_db s).
Proof.
  intros Hf Hv. unfold UpsertSyncPolicy.
  edestruct (calm_tx (A:=SyncPolicy)) as (s1 & -> & _ & Hf1 & Hd); [exact Hf|].
  revert Hd. cbv zeta. rewrite Hv. fold (key_of p). cbn [fst snd sync_policies on_sync_policies].
  rewrite select_one_upsert; [|intros; unfold key_of, policy_key; simpl; by rewrite !seqb_refl..].
  cbn [found_or fst snd]. intros Hd. by eexists _, s1.
Qed.
End seed.

Lemma key_of_row now id created p : key_of p (policy_row now id created p) = true.
Proof. unfold key_of, policy_key. simpl. by rewrite !seqb_refl. Qed.

Lemma policy_set_upsert now new created p l :
  policy_set p (upsert (key_of p) (policy_update now p) (policy_row now new created p) l).
Proof.
  split.
  - rewrite existsb_select_one, select_one_upsert; [done|intros; apply key_of_row|apply key_of_row].
  - intros r. unfold upsert. destruct (List.existsb (key_of p) l) eqn:Ex.
    + intros (x & Hx & ->)%elem_of_update_where. destruct (key_of p x) eqn:Ek; [done|]. congruence.
    + intros [Hr| ->%list_elem_of_singleton]%elem_of_app Hk; [|done]. exfalso.
      assert (Hf : List.existsb (key_of p) l = true); [|congruence].
      apply existsb_exists. exists r. split; [by apply list_elem_of_In|done].
Qed.

Lemma policy_set_other now new created p q l :
  (forall r, key_of p r = true -> key_of q r = false) -> policy_set q l ->
  policy_set q (upsert (key_of p) (policy_update now p) (policy_row now new created p) l).
Proof.
  intros Hpq [Hex Hall]. unfold upsert. destruct (List.existsb (key_of p) l) eqn:Ex.
  - split.
    + apply existsb_exists in Hex as (r & Hr & Hk). apply existsb_exists. exists r. split; [|done].
      apply list_elem_of_In, elem_of_update_where. exists r. split; [by apply list_elem_of_In|].
      destruct (key_of p r) eqn:Ep; [|done]. rewrite (Hpq r Ep) in Hk. discriminate.
    + intros r (x & Hx & ->)%elem_of_update_where. destruct (key_of p x) eqn:Ek; [|by apply Hall].
      intros Hk. unfold policy_update in Hk. rewrite (Hpq _ (key_of_row _ _ _ _)) in Hk. discriminate.
  - split; [by rewrite existsb_app, Hex|]. intros r [Hr| ->%list_elem_of_singleton]%elem_of_app; [by apply Hall|].
    intros Hk. rewrite (Hpq _ (key_of_row _ _ _ _)) in Hk. discriminate.
Qed.

(** Setting a policy that is set already touches its time only. *)
Lemma policy_set_again now new created p l :
  policy_set p l ->
  policy_facts <$> upsert (key_of p) (policy_update now p) (policy_row now new created p) l
  = policy_facts <$> l.
Proof.
  intros [Hex Hall]. unfold upsert. rewrite Hex. clear Hex. unfold update_where.
  induction l as [|x l IH]; [done|]. cbn. f_equal.
  - destruct (key_of p x) eqn:Ek; [|done]. symmetry. apply Hall; [by left|done].
  - apply IH. intros r Hr. apply Hall. by right.
Qed.

(** ** The seed *)

Section seeded.
Context `{Transport} `{Bcrypt}.

Lemma select_one_app {A} (p : A -> bool) l l' : is_Some (select_one p l) -> select_one p (l ++ l')%list = select_one p l.
Proof.
  unfold select_one. induction l as [|x l IH]; simpl; [by intros []|]. case_match; [done|apply IH].
Qed.

Lemma keys_retouched d d' : Retouched d d' ->
  is_Some (select_one demo_key (api_keys d)) -> is_Some (select_one demo_key (api_keys d')).
Proof.
  intros (_ & Hk & _). revert Hk. generalize (api_keys d) (api_keys d'). unfold select_one.
  induction l as [|x l IH]; intros [|y l'] Hk; try done; simpl.
  cbn in Hk. injection Hk as E _ Hl. assert (demo_key y = demo_key x) as -> by (unfold demo_key; congruence).
  case_match; [done|by apply IH].
Qed.

(** What is found is found later. *)
Record Later (d d' : DB) : Prop := mkLater {
  later_tenants : tenants d' = tenants d;
  later_connections : forall p, is_Some (select_one p (connections d)) -> is_Some (select_one p (connections d'));
  later_users : forall p, is_Some (select_one p (users d)) -> is_Some (select_one p (users d'));
  later_keys : is_Some (select_one demo_key (api_keys d)) -> is_Some (select_one demo_key (api_keys d'));
}.
#[local] Instance Later_preorder : PreOrder Later.
Proof. split; [by intros d|]. intros d1 d2 d3 [] []. constructor; [congruence|auto..]. Qed.

Lemma later_snoc {A} (p : A -> bool) l b : is_Some (select_one p l) -> is_Some (select_one p (l ++ [b])%list).
Proof. intros Hp. by rewrite select_one_app. Qed.

Lemma later_retouched d d' : Retouched d d' -> Later d d'.
Proof.
  intros Hr. pose proof (keys_retouched _ _ Hr). destruct Hr as (_ & _ & E). rewrite E. by constructor.
Qed.

(** A step that leaves calm and takes nothing away. *)
Definition Onward (s s' : St) : Prop := st_faults s' = [] /\ Later (st_db s) (st_db s').

Lemma ensure_connection tenant provider name base secret s s1 :
  st_faults s = [] ->
  ensure (GetConnectionByProvider tenant provider)
    (CreateConnection (mkConnection "" tenant name provider base "disconnected" secret ∅ 0 0 None)) s = (Ok tt, s1) ->
  Onward s s1 /\ is_Some (select_one (connection_of tenant provider) (connections (st_db s1))).
Proof.
  intros Hf E. destruct (ensure_row (fun d => select_one (connection_of tenant provider) (connections d)) _ _ _ Hf E)
    as [(Hf1 & Hd & Hs)|(Hn & b & s' & Hf' & Hd' & Ec)].
  - unfold Onward. by rewrite Hd.
  - destruct (CreateConnection_calm _ _ _ _ Hf' Ec) as (Hf1 & Ht & Hp & Hd). unfold Onward. rewrite Hd, Hd'.
    split; [split; [done|]; constructor; try done; intros p; apply later_snoc|].
    cbn. rewrite select_one_snoc; [done|by rewrite existsb_select_one, Hn|].
    unfold connection_of. rewrite Ht, Hp. simpl. by rewrite !seqb_refl.
Qed.

Lemma ensure_demo_key tenant s s1 :
  st_faults s = [] ->
  ensure (VerifyAPIKey (hashAPIKey demoAPIKey))
    (CreateAPIKey tenant "demo-key" "ADMIN" (hashAPIKey demoAPIKey)) s = (Ok tt, s1) ->
  Onward s s1 /\ is_Some (select_one demo_key (api_keys (st_db s1))).
Proof.
  intros Hf E. unfold ensure in E. rewrite bind_attempt in E. pose proof (VerifyAPIKey_calm (hashAPIKey demoAPIKey) s Hf) as V.
  fold demo_key in V. destruct (select_one demo_key (api_keys (st_db s))) as [k|] eqn:Ek; destruct V as (s' & Ev & Hf' & Hd').
  - rewrite Ev in E. injection E as <-. split; [split; [done|by apply later_retouched]|].
    apply (keys_retouched (st_db s)); [done|by rewrite Ek].
  - rewrite Ev in E. cbn [fst snd] in E. apply run_bind in E as [(e & _ & ?)|(b & s2 & Ec & Er)]; [done|].
    apply run_ret in Er as [_ ->]. destruct (insert_key_calm _ _ _ _ _ _ _ Hf' Ec) as (Hf1 & Hh & He & _ & _ & Hx & Hd).
    unfold Onward. rewrite Hd, Hd'. split.
    { split; [exact Hf1|]. constructor; [reflexivity|intros p Hp; exact Hp..|exact (later_snoc demo_key _ b)]. }
    change (is_Some (select_one demo_key (api_keys (st_db s) ++ [b])%list)).
    rewrite select_one_snoc; [by exists b| |unfold demo_key; rewrite Hh, He; apply andb_true_intro; split;
      [apply seqb_refl|reflexivity]]. rewrite Hd' in Hx. exact (existsb_weaken _ ak_Enabled _ Hx).
Qed.

Lemma ensure_demo_user tenant salt s s1 :
  st_faults s = [] ->
  ensure (GetUserByEmail tenant demoUserEmail)
    (match bcrypt_generate salt demoUserPassword with
     | None => throw (OtherError "seed user password")
     | Some hash => CreateUser tenant demoUserEmail hash "ADMIN"
     end) s = (Ok tt, s1) ->
  Onward s s1 /\ is_Some (select_one (user_of tenant demoUserEmail) (users (st_db s1))).
Proof.
  intros Hf E. destruct (ensure_row (fun d => select_one (user_of tenant demoUserEmail) (users d)) _ _ _ Hf E)
    as [(Hf1 & Hd & Hs)|(Hn & b & s' & Hf' & Hd' & Ec)].
  - unfold Onward. by rewrite Hd.
  - destruct (bcrypt_generate salt demoUserPassword) as [h|]; [|by apply run_throw in Ec as []].
    destruct (CreateUser_calm _ _ _ _ _ _ _ Hf' Ec) as (Hf1 & Ht & Hp & _ & _ & _ & Hd). unfold Onward. rewrite Hd, Hd'.
    split; [split; [done|]; constructor; try done; intros p; apply later_snoc|].
    cbn. rewrite select_one_snoc; [done|by rewrite existsb_select_one, Hn|].
    unfold user_of. by rewrite Ht, Hp, !seqb_refl.
Qed.

Lemma seed_tenant_calm s t s1 :
  st_faults s = [] -> seed_tenant s = (Ok t, s1) ->
  st_faults s1 = [] /\ select_one (fun r => tn_Slug r =s "acme") (tenants (st_db s1)) = Some t.
Proof.
  intros Hf E. unfold seed_tenant in E. rewrite bind_attempt in E. unfold GetTenantBySlug in E.
  edestruct (calm_query (A:=Tenant)) as (s2 & Eq & Hd & _ & Hf2); [exact Hf|]. rewrite Eq in E. cbn [fst snd] in E.
  destruct (select_one _ _) as [t'|] eqn:Es.
  - cbn in E. injection E as -> ->. by rewrite Hd.
  - cbn [found_or] in E. rewrite bind_attempt in E. unfold CreateTenant in E.
    edestruct (calm_tx (A:=Tenant)) as (s3 & Et & _ & Hf3 & Hd3); [exact Hf2|]. rewrite Et in E. cbn [fst snd] in E.
    rewrite Hd in Hd3, E. unfold insert_new in *. rewrite existsb_select_one, Es in Hd3, E. cbn in Hd3, E.
    injection E as <- <-. split; [done|]. rewrite Hd3. cbn. apply select_one_snoc; [|done].
    by rewrite existsb_select_one, Es.
Qed.

Lemma keys_disjoint t r :
  key_of (demo_policy t "salesforce" "hubspot" 100) r = true ->
  key_of (demo_policy t "hubspot" "salesforce" 200) r = false.
Proof.
  unfold key_of, policy_key. simpl. intros Hr. repeat (apply andb_prop in Hr as [Hr ?]). seqb_simpl.
  destruct r as [? ? ? src dst]; simpl in *. subst. by rewrite andb_false_r.
Qed.

(** The next step of a run that succeeds. *)
Ltac next_step E :=
  let x := fresh "x" in let s' := fresh "s" in let E1 := fresh "E" in
  apply run_bind in E as [(? & _ & ?)|(x & s' & E1 & E)]; [discriminate|].

Lemma seed_leaves cfg salt s s1 :
  st_faults s = [] -> seed cfg salt s = (Ok tt, s1) -> exists t, Seeded t (st_db s1) /\ st_faults s1 = [].
Proof.
  intros Hf E. unfold seed in E. next_step E. destruct (seed_tenant_calm _ _ _ Hf E0) as [Hf0 Ht].
  next_step E. destruct x0, (ensure_connection _ _ _ _ _ _ _ Hf0 E1) as [[Hf1 L1] C1].
  next_step E. destruct x0, (ensure_connection _ _ _ _ _ _ _ Hf1 E2) as [[Hf2 L2] C2].
  next_step E. destruct x0, (ensure_demo_key _ _ _ Hf2 E3) as [[Hf3 L3] K3].
  next_step E. destruct x0, (ensure_demo_user _ _ _ _ Hf3 E4) as [[Hf4 L4] U4].
  next_step E. destruct (UpsertSyncPolicy_calm (demo_policy (tn_ID x) "salesforce" "hubspot" 100) _ Hf4 eq_refl)
    as (r5 & s5' & E5' & Hf5 & D5). rewrite E5 in E5'. injection E5' as <- <-.
  next_step E. destruct (UpsertSyncPolicy_calm (demo_policy (tn_ID x) "hubspot" "salesforce" 200) _ Hf5 eq_refl)
    as (r6 & s6' & E6' & Hf6 & D6). rewrite E6 in E6'. injection E6' as <- <-.
  apply run_ret in E as [_ ->]. exists x. split; [|done]. rewrite D6, D5.
  constructor; cbn.
  - rewrite (later_tenants _ _ L4), (later_tenants _ _ L3), (later_tenants _ _ L2), (later_tenants _ _ L1). exact Ht.
  - apply L4, L3, L2, C1.
  - apply L4, L3, C2.
  - apply (later_keys _ _ L4), K3.
  - exact U4.
  - apply policy_set_other; [|apply policy_set_upsert]. intros r Hr.
    destruct (key_of (demo_policy (tn_ID x) "salesforce" "hubspot" 100) r) eqn:Ek; [|done].
    rewrite (keys_disjoint _ _ Ek) in Hr. discriminate.
  - apply policy_set_upsert.
Qed.

(** A program that succeeds without faults, by what it needs and leaves. *)
Definition Calm {A} (P : DB -> Prop) (m : M A) (Q : A -> DB -> Prop) : Prop :=
  forall s, st_faults s = [] -> P (st_db s) ->
    exists a s1, m s = (Ok a, s1) /\ st_faults s1 = [] /\ Q a (st_db s1).

Lemma Calm_bind {A B} P (m : M A) Q (k : A -> M B) R :
  Calm P m Q -> (forall a, Calm (Q a) (k a) R) -> Calm P (m ≫= k) R.
Proof.
  intros Hm Hk s Hf Hp. destruct (Hm s Hf Hp) as (a & s1 & E & Hf1 & Hq). unfold mbind, M_bind. rewrite E.
  by apply Hk.
Qed.

Lemma Calm_then {A B} P (m : M A) Q (k : M B) R :
  Calm P m (fun _ => Q) -> Calm Q k R -> Calm P (m;; k) R.
Proof. intros Hm Hk. by eapply Calm_bind. Qed.

Lemma Calm_found {A B} (P : DB -> Prop) (f : DB -> Res A) (create : M B) :
  (forall d, P d -> exists a, f d = Ok a) -> Calm P (ensure (query f) create) (fun _ => P).
Proof.
  intros Hp s Hf Hs. destruct (Hp _ Hs) as [a Ha].
  destruct (ensure_query_found f create s a Hf Ha) as (s1 & E & Hf1 & Hd). exists tt, s1. by rewrite Hd.
Qed.

(** Being seeded survives new timestamps. *)
Lemma policy_set_alt p l : policy_set p l <->
  List.existsb (key_of p) (policy_facts <$> l) = true /\
  forall f, f ∈ policy_facts <$> l -> key_of p f = true -> f = policy_row 0 (po_ID f) (po_CreatedAt f) p.
Proof.
  unfold policy_set. assert (List.existsb (key_of p) (policy_facts <$> l) = List.existsb (key_of p) l) as ->.
  { induction l as [|x l IH]; [done|]. cbn [List.existsb fmap list_fmap]. by rewrite IH. }
  split; intros [Hex Hall]; split; try done.
  - intros f (r & -> & Hr)%list_elem_of_fmap Hk. exact (Hall r Hr Hk).
  - intros r Hr Hk. apply (Hall (policy_facts r)); [by apply list_elem_of_fmap_2|done].
Qed.

Lemma Seeded_retouched t d d' : Retouched d d' -> Seeded t d -> Seeded t d'.
Proof.
  intros Hr [Ht H1 H2 Hk Hu Ho Hi]. pose proof (keys_retouched _ _ Hr Hk). destruct Hr as (Hp & _ & E).
  assert (Hset : forall p, policy_set p (sync_policies d) -> policy_set p (sync_policies d')).
  { intros p. rewrite !policy_set_alt. by rewrite Hp. }
  constructor; [by rewrite E..|done|by rewrite E|auto|auto].
Qed.

Lemma on_policies_retouched p now new d :
  policy_set p (sync_policies d) ->
  Retouched d (on_sync_policies (upsert (key_of p) (policy_update now p) (policy_row now new now p)) d).
Proof. intros Hp. split; [by apply policy_set_again|]. split; [done|]. by destruct d. Qed.

Section again.
Context (t : Tenant) (d0 : DB).
Definition StillSeeded (d : DB) : Prop := Seeded t d /\ Retouched d0 d.

Lemma still_seeded d d' : StillSeeded d -> Retouched d d' -> StillSeeded d'.
Proof. intros [Hs Hr] Hr'. split; [by eapply Seeded_retouched|by etrans]. Qed.

Lemma found_some {A} (o : option A) : is_Some o -> exists a, found_or o = Ok a.
Proof. intros [a ->]. by exists a. Qed.

Lemma policy_again p :
  policy_valid p = true -> (forall d, StillSeeded d -> policy_set p (sync_policies d)) ->
  Calm StillSeeded (UpsertSyncPolicy p) (fun _ => StillSeeded).
Proof.
  intros Hv Hp s Hf Hs. destruct (UpsertSyncPolicy_calm p s Hf Hv) as (r & s1 & E & Hf1 & Hd).
  exists r, s1. do 2 (split; [done|]). rewrite Hd. eapply still_seeded; [exact Hs|].
  apply on_policies_retouched. by apply Hp.
Qed.

Lemma seed_again cfg salt : Calm StillSeeded (seed cfg salt) (fun _ => StillSeeded).
Proof.
  unfold seed. eapply (Calm_bind _ _ (fun x d => x = t /\ StillSeeded d)).
  { intros s Hf Hs. unfold seed_tenant, GetTenantBySlug. rewrite bind_attempt.
    edestruct (calm_query (A:=Tenant)) as (s1 & -> & Hd & _ & Hf1); [exact Hf|].
    rewrite (seeded_tenant _ _ (proj1 Hs)). exists t, s1. by rewrite Hd. }
  intros x s Hf [-> Hs]. revert s Hf Hs. change (Calm StillSeeded (
    ensure (GetConnectionByProvider (tn_ID t) "salesforce") (CreateConnection (mkConnection "" (tn_ID t)
      "Salesforce (simulated)" "salesforce" (sd_SFBaseURL cfg) "disconnected" (sd_SFSecret cfg) ∅ 0 0 None));;
    ensure (GetConnectionByProvider (tn_ID t) "hubspot") (CreateConnection (mkConnection "" (tn_ID t)
      "HubSpot (simulated)" "hubspot" (sd_HubBaseURL cfg) "disconnected" (sd_HubSecret cfg) ∅ 0 0 None));;
    ensure (VerifyAPIKey (hashAPIKey demoAPIKey)) (CreateAPIKey (tn_ID t) "demo-key" "ADMIN" (hashAPIKey demoAPIKey));;
    ensure (GetUserByEmail (tn_ID t) demoUserEmail) (match bcrypt_generate salt demoUserPassword with
      | None => throw (OtherError "seed user password")
      | Some hash => CreateUser (tn_ID t) demoUserEmail hash "ADMIN" end);;
    UpsertSyncPolicy (demo_policy (tn_ID t) "salesforce" "hubspot" 100);;
    UpsertSyncPolicy (demo_policy (tn_ID t) "hubspot" "salesforce" 200);; mret tt) (fun _ => StillSeeded)).
  apply (Calm_then _ _ StillSeeded); [apply Calm_found; intros d [Hs _]; apply found_some, Hs|].
  apply (Calm_then _ _ StillSeeded); [apply Calm_found; intros d [Hs _]; apply found_some, Hs|].
  apply (Calm_then _ _ StillSeeded).
  { intros s Hf Hs. unfold ensure. pose proof (VerifyAPIKey_calm (hashAPIKey demoAPIKey) s Hf) as V. fold demo_key in V.
    destruct (seeded_key _ _ (proj1 Hs)) as [k Hk]. rewrite Hk in V. destruct V as (s1 & E & Hf1 & Hr).
    rewrite bind_attempt, E. exists tt, s1. do 2 (split; [done|]). by eapply still_seeded. }
  apply (Calm_then _ _ StillSeeded); [apply Calm_found; intros d [Hs _]; apply found_some, Hs|].
  apply (Calm_then _ _ StillSeeded); [apply policy_again; [done|]; intros d [Hs _]; apply Hs|].
  apply (Calm_then _ _ StillSeeded); [apply policy_again; [done|]; intros d [Hs _]; apply Hs|].
  intros s Hf Hs. by exists tt, s.
Qed.
End again.
End seeded.

(** C29: the seed is idempotent.  After a seed that succeeded on a database
    without faults, another one on the database it left, again without faults, at
    any time and with any configuration and salt, succeeds too, and changes nothing
    but the times at which policies were updated and API keys last used (a key's
    use is noted when the seed looks the demo key up). *)
Theorem seed_idempotent `{Transport} `{Bcrypt} (cfg cfg' : SeedConfig) (salt salt' : string) (s s1 s2 : St) :
  st_faults s = [] -> seed cfg salt s = (Ok tt, s1) -> st_db s2 = st_db s1 -> st_faults s2 = [] ->
  exists s3, seed cfg' salt' s2 = (Ok tt, s3) /\ Retouched (st_db s1) (st_db s3).
Proof.
  intros Hf E Hd Hf2. destruct (seed_leaves cfg salt s s1 Hf E) as (t & Hs & _).
  destruct (seed_again t (st_db s1) cfg' salt' s2 Hf2) as ([] & s3 & E3 & _ & _ & Hr).
  - rewrite Hd. by split.
  - by exists s3.
Qed.

Definition seed_config : SeedConfig := mkSeedConfig "http://sf" "http://hs" "sfs" "sfh".
Definition unseeded : @St up := @mkSt up empty_db 0 1000000000 [] [] 0 [] [] [] [].
Local Abbreviation seeded_once := (@seed up plain_bcrypt seed_config "salt" unseeded).

Lemma seed_idempotent_witness :
  exists s3, @seed up plain_bcrypt seed_config "pepper" seeded_once.2 = (Ok tt, s3) /\
    Retouched (st_db seeded_once.2) (st_db s3).
Proof.
  apply (@seed_idempotent up plain_bcrypt seed_config seed_config "salt" "pepper" unseeded seeded_once.2 seeded_once.2).
  - reflexivity.
  - assert (E : seeded_once.1 = Ok tt) by (vm_compute; reflexivity). rewrite <- E. exact (surjective_pairing seeded_once).
  - reflexivity.
  - vm_compute. reflexivity.
Defined.

(** But a demo key that was revoked is neither found nor free, and the seed
    fails at every later start. *)
Lemma revoked_demo_key_stops_seed :
  let k := default "" (ak_ID <$> head (api_keys (st_db seeded_once.2))) in
  let t := default "" (tn_ID <$> head (tenants (st_db seeded_once.2))) in
  let revoked := @RevokeAPIKey up t k seeded_once.2 in
  revoked.1 = Ok tt /\ (@seed up plain_bcrypt seed_config "pepper" revoked.2).1 = Err ErrDB.
Proof. vm_compute. split; reflexivity. Qed.
