(* ===== verification/LoginSpec.v ===== *)
(** * A correct login works

    The positive side of signing in: the right credentials are answered with a
    token, and the token authenticates its user until it expires. *)

From S2P Require Import Prelude Json GoTime Crypto Encoding Totp JsonText Events Model Tables Effects.
From S2P Require Import Store AuthStore TenantStore Frame Connectors Run WorkerFrame Ingestion.
From S2P Require Import Operator Auth Accounts Admin Sample History AuthSpec AdminSpec SeedSpec.
Local Open Scope string_scope.

Section exact.
Context `{Transport}.

(** One transaction later, without a fault. *)
Definition committed (d : DB) (s : St) : St :=
  mkSt d (st_world s) (st_now s) [] (st_draws s) (S (st_seq s)) (st_calls s) (st_published s)
    (st_metrics s) (st_log s ++ [(st_db s, d)]).
Definition tick (s : St) : St := committed (st_db s) s.

Lemma run_calm_tx {A} (body : Z -> nat -> DB -> Res A * DB) s :
  st_faults s = [] ->
  tx body s = match body (st_now s) (st_seq s) (st_db s) with
              | (Ok a, d) => (Ok a, committed d s)
              | (Err e, _) => (Err e, tick s)
              end.
Proof.
  intros Hf. unfold tx, tick. rewrite Hf. simpl. rewrite tr_alone. by destruct (body _ _ _) as [[]].
Qed.

Lemma query_calm {A} (f : DB -> Res A) s : st_faults s = [] -> query f s = (f (st_db s), tick s).
Proof. intros Hf. unfold query. rewrite run_calm_tx by done. destruct (f (st_db s)); by destruct s. Qed.

(** An id that no session has. *)
Definition fresh_jtis (s : St) : Prop :=
  forall x n, x ∈ sessions (st_db s) -> st_seq s <= n -> ss_JTI x <> gen_id n 0.

Lemma new_session_calm cfg user tenant role s :
  st_faults s = [] -> fresh_jtis s ->
  let jti := gen_id (st_seq s) 0 in
  exists sess s', new_session cfg user tenant role s
    = (Ok (sess, mintSessionToken (ac_AuthSecret cfg) (st_now s) (mkClaims jti user tenant role 0)), s') /\
    ss_JTI sess = jti /\ ss_UserID sess = user /\ ss_TenantID sess = tenant /\ ss_Role sess = role /\
    ss_ExpiresAt sess = pg_time (st_now s + sessionTTL) /\ ss_RevokedAt sess = None /\
    st_faults s' = [] /\ st_now s' = st_now s /\
    List.existsb (fun r => ss_JTI r =s jti) (sessions (st_db s)) = false /\
    st_db s' = on_sessions (fun l => l ++ [sess])%list (st_db s).
Proof.
  intros Hf Hfresh jti.
  assert (Hx : List.existsb (fun r => ss_JTI r =s jti) (sessions (st_db s)) = false).
  { destruct (List.existsb _ _) eqn:Ex; [|done]. apply existsb_exists in Ex as (x & Hin & Hj). seqb_simpl.
    destruct (Hfresh x (st_seq s)); [by apply list_elem_of_In|done|done]. }
  unfold new_session, new_uuid, now, CreateSession, mbind, M_bind. rewrite run_calm_tx by done.
  cbn [st_db st_now st_seq ss_JTI ss_UserID ss_TenantID ss_Role ss_ExpiresAt]. fold jti. unfold insert_new. rewrite Hx.
  by eexists _, _.
Qed.

(** The token of a live session authenticates. *)
Lemma session_authenticates cfg r t0 sess s :
  st_faults s = [] -> bearerTokenFrom r = mintSessionToken (ac_AuthSecret cfg) t0
    (mkClaims (ss_JTI sess) (ss_UserID sess) (ss_TenantID sess) (ss_Role sess) 0) ->
  ss_JTI sess <> "" -> ss_UserID sess <> "" -> ss_TenantID sess <> "" -> ss_Role sess <> "" ->
  (0 <= t0 + sessionTTL)%Z -> in_int64 ((t0 + sessionTTL) / 1000000000)%Z = true ->
  (st_now s <= t0 + sessionTTL)%Z -> (st_now s <= ss_ExpiresAt sess)%Z -> ss_RevokedAt sess = None ->
  select_one (session_key (ss_TenantID sess) (ss_JTI sess)) (sessions (st_db s)) = Some sess ->
  exists s', authenticate cfg r s = (Ok (inr (mkCaller (ss_TenantID sess) (ss_Role sess)
    ("user:" +:+ ss_UserID sess) "" (ss_UserID sess))), s').
Proof.
  intros Hf Hb Hj Hu Ht Hr Hpos Hint Hnow Hexp Hrev Hsel.
  pose proof (token_accepted (ac_AuthSecret cfg) t0 (st_now s) (mkClaims (ss_JTI sess) (ss_UserID sess)
    (ss_TenantID sess) (ss_Role sess) 0) Hj Hu Ht Hr Hpos Hint) as Hc.
  rewrite <- Hb in Hc. specialize (Hc ltac:(apply Z.div_le_mono; lia)). cbn [cl_JTI cl_UserID cl_TenantID cl_Role] in Hc.
  assert (Hne : bearerTokenFrom r <> "") by (intros E; rewrite E in Hc; discriminate).
  assert (Hl : GetLiveSession (ss_TenantID sess) (ss_JTI sess) s = (Ok sess, tick s)).
  { unfold GetLiveSession, mbind, M_bind. rewrite query_calm by done. rewrite Hsel. cbn [found_or now tick committed st_now].
    rewrite Hrev. destruct (Z.ltb_spec (ss_ExpiresAt sess) (st_now s)); [lia|].
    rewrite bool_decide_false by by intros []. done. }
  assert (Hv : (verifySessionToken cfg (bearerTokenFrom r) s).1 = Ok (mkClaims (ss_JTI sess) (ss_UserID sess)
    (ss_TenantID sess) (ss_Role sess) ((t0 + sessionTTL) / 1000000000))).
  { unfold verifySessionToken, mbind, M_bind. cbn [now]. rewrite Hc. cbn [cl_TenantID cl_JTI].
    unfold attempt. by rewrite Hl. }
  unfold authenticate, requireUser. rewrite seqb_ne by done. cbn [negb]. rewrite bind_attempt, Hv. by eexists.
Qed.
End exact.

(** ** Signing in *)

Section login.
Context `{Transport} `{Bcrypt} (cfg : AuthConfig).

(** Everything a login is checked for. *)
Record Admissible (r : Req) (incr : option Z) (slug email password code : string) (tenant : Tenant)
    (user : User) (s : St) : Prop := mkAdmissible {
  adm_request : login_request (rq_Body r) = Some (slug, email, password, code);
  adm_throttle : loginThrottled cfg incr = false;
  adm_tenant : select_one (fun t => tn_Slug t =s slug) (tenants (st_db s)) = Some tenant;
  adm_unlocked : (Z.of_nat (length (select_where (recent_failure (st_now s) (lockout_window cfg) (tn_ID tenant) email)
                    (login_attempts (st_db s)))) < ac_LoginMaxFailures cfg)%Z;
  adm_user : select_one (user_of (tn_ID tenant) email) (users (st_db s)) = Some user;
  adm_password : bcrypt_compare (us_PasswordHash user) password = true;
  adm_factor : us_TOTPEnabled user = false \/
    code <> "" /\ Validate (us_TOTPSecret user) code (st_now s) = Some true;
}.

Lemma login_succeeds_calm user email s :
  st_faults s = [] -> fresh_jtis s ->
  exists sess token s', login_succeeds cfg user email s = (Ok (mkResponse 200 (token_body token ++
      [("user", JObj [("id", JStr (us_ID user)); ("email", JStr (us_Email user)); ("role", JStr (us_Role user))])])%list), s') /\
    token = mintSessionToken (ac_AuthSecret cfg) (st_now s)
              (mkClaims (ss_JTI sess) (us_ID user) (us_TenantID user) (us_Role user) 0) /\
    (exists n, ss_JTI sess = gen_id n 0) /\
    ss_UserID sess = us_ID user /\ ss_TenantID sess = us_TenantID user /\ ss_Role sess = us_Role user /\
    ss_ExpiresAt sess = pg_time (st_now s + sessionTTL) /\ ss_RevokedAt sess = None /\
    select_one (session_key (ss_TenantID sess) (ss_JTI sess)) (sessions (st_db s')) = Some sess.
Proof.
  intros Hf Hfresh. unfold login_succeeds. rewrite bind_ignore. unfold ClearLoginFailures. rewrite run_calm_tx by done.
  cbn [snd].
  match goal with |- exists _ _ _, (attempt _ ≫= _) ?x = _ /\ _ => set (s1 := x) end.
  assert (Hf1 : st_faults s1 = []) by done.
  assert (Hfresh1 : fresh_jtis s1) by (intros x n Hx Hn; apply Hfresh; [exact Hx|simpl in Hn; lia]).
  destruct (new_session_calm cfg (us_ID user) (us_TenantID user) (us_Role user) s1 Hf1 Hfresh1)
    as (sess & s2 & E & Hj & Hu & Ht & Hr & He & Hrev & Hf2 & Hn2 & Hx & Hd).
  rewrite bind_attempt, E. cbn [fst snd]. unfold auditLogin. rewrite bind_ignore.
  match goal with |- context [InsertAuditLog ?a ?b s2] => set (s3 := (InsertAuditLog a b s2).2) end.
  assert (Hs3 : sessions (st_db s3) = sessions (st_db s2)) by (unfold s3, InsertAuditLog; by rewrite run_calm_tx).
  exists sess. eexists _, s3. split; [reflexivity|]. rewrite Hj. split; [done|]. split; [by eexists|].
  do 5 (split; [done|]). rewrite Hs3, Hd, Ht. cbn. apply select_one_snoc.
  - eapply existsb_imp; [|exact Hx]. intros x Hk. unfold session_key in Hk. by apply andb_prop in Hk as [Hk _].
  - unfold session_key. by rewrite Hj, Ht, !seqb_refl.
Qed.

Lemma handleLogin_admissible r incr slug email password code tenant user s :
  st_faults s = [] -> Admissible r incr slug email password code tenant user s ->
  exists s1, handleLogin cfg r incr s = login_succeeds cfg user email s1 /\ st_faults s1 = [] /\
    st_db s1 = st_db s /\ st_now s1 = st_now s /\ st_seq s <= st_seq s1.
Proof.
  intros Hf [Hq Hth Ht Hun Hu Hp Hmf]. unfold handleLogin. rewrite Hq, Hth.
  rewrite bind_attempt. unfold GetTenantBySlug. rewrite query_calm, Ht by done. cbn [fst snd found_or].
  rewrite bind_attempt. unfold CountRecentFailures. rewrite run_calm_tx by done. cbn [fst snd committed tick st_now st_db].
  destruct (Z.leb_spec (ac_LoginMaxFailures cfg) (Z.of_nat (length (select_where (recent_failure (st_now s)
    (lockout_window cfg) (tn_ID tenant) email) (login_attempts (st_db s)))))); [lia|].
  unfold login_unlocked. rewrite bind_attempt. unfold GetUserByEmail. rewrite query_calm by done. cbn [fst snd committed tick st_db].
  fold (user_of (tn_ID tenant) email). rewrite Hu. cbn [found_or]. rewrite Hp. cbn [negb].
  unfold second_factor. eexists. split.
  - destruct Hmf as [->|[Hc Hv]]; [reflexivity|]. destruct (us_TOTPEnabled user); [|reflexivity].
    rewrite seqb_ne by done. unfold now, mbind, M_bind. cbn. rewrite Hv. reflexivity.
  - cbn. split; [done|]. split; [done|]. split; [done|lia].
Qed.
End login.

(** C24: the right credentials get in.  Without faults, a login that passes every
    check (throttle, lockout, tenant, user, password, and the one-time code if
    one is needed) is answered 200 with a token, and any later request that
    bears it, at a time within the twelve hours and with the session row still
    as it was left, is authenticated as that user with the user's role. *)
Theorem login_works `{Transport} `{Bcrypt} (cfg : AuthConfig) (r : Req) (incr : option Z)
    (slug email password code : string) (tenant : Tenant) (user : User) (s : St) :
  st_faults s = [] -> fresh_jtis s -> Admissible cfg r incr slug email password code tenant user s ->
  us_ID user <> "" -> us_TenantID user <> "" -> us_Role user <> "" ->
  (0 <= st_now s + sessionTTL)%Z -> in_int64 ((st_now s + sessionTTL) / 1000000000)%Z = true ->
  exists token body s', handleLogin cfg r incr s = (Ok (mkResponse 200 body), s') /\
    jlookup "token" body = Some (JStr token) /\
    forall r2 s2, bearerTokenFrom r2 = token -> st_faults s2 = [] -> sessions (st_db s2) = sessions (st_db s') ->
      (st_now s2 <= pg_time (st_now s + sessionTTL))%Z ->
      exists s3, authenticate cfg r2 s2
        = (Ok (inr (mkCaller (us_TenantID user) (us_Role user) ("user:" +:+ us_ID user) "" (us_ID user))), s3).
Proof.
  intros Hf Hfresh Ha Hid Htn Hrl Hpos Hint.
  destruct (handleLogin_admissible cfg r incr _ _ _ _ _ _ s Hf Ha) as (s1 & E1 & Hf1 & Hd1 & Hn1 & Hq1).
  assert (Hfresh1 : fresh_jtis s1) by (intros x n; rewrite Hd1; intros Hx Hn; apply Hfresh; [done|lia]).
  destruct (login_succeeds_calm cfg user email s1 Hf1 Hfresh1)
    as (sess & token & s' & E & Htok & (n & Hj) & Hu & Ht & Hr & He & Hrev & Hsel).
  exists token. eexists _, s'. split; [by rewrite E1, E|]. split; [done|].
  intros r2 s2 Hb Hf2 Hss Hnow. rewrite <- Hu, <- Ht, <- Hr in *. rewrite Hn1 in Htok, He.
  assert (Hpg : (pg_time (st_now s + sessionTTL) <= st_now s + sessionTTL)%Z).
  { unfold pg_time. pose proof (Z.mul_div_le (st_now s + sessionTTL) 1000). lia. }
  apply (session_authenticates cfg r2 (st_now s)); try done; [by rewrite Hb, Htok|by rewrite Hj|lia|lia|].
  by rewrite Hss.
Qed.

(** The demo user signs in to the tenant the seed left. *)
Local Abbreviation seeded_state := (@seed up plain_bcrypt seed_config "salt" unseeded).2.
Definition demo_login : Req :=
  mkReq "" "" "10.0.0.1" (Some (JObj [("tenant_slug", JStr "acme"); ("email", JStr demoUserEmail);
                                      ("password", JStr demoUserPassword)])).
Definition demo_user : User := default ada (head (users (st_db seeded_state))).
Definition acme : Tenant := default (mkTenant "" "" "" "" 0) (head (tenants (st_db seeded_state))).

Lemma login_works_witness :
  exists token body s', @handleLogin up plain_bcrypt sample_auth demo_login None seeded_state
      = (Ok (mkResponse 200 body), s') /\ jlookup "token" body = Some (JStr token) /\
    (forall auth, bearerTokenFrom (mkReq auth "" "" None) = token -> st_faults s' = [] ->
       (st_now s' <= pg_time (st_now seeded_state + sessionTTL))%Z ->
       exists s3, @authenticate up sample_auth (mkReq auth "" "" None) s'
         = (Ok (inr (mkCaller (tn_ID acme) "ADMIN" ("user:" +:+ us_ID demo_user) "" (us_ID demo_user))), s3)).
Proof.
  destruct (@login_works up plain_bcrypt sample_auth demo_login None "acme" demoUserEmail demoUserPassword ""
    acme demo_user seeded_state) as (token & body & s' & E & Ht & Hauth).
  - vm_compute. reflexivity.
  - intros x n Hx. vm_compute in Hx. by apply elem_of_nil in Hx.
  - constructor; [vm_compute; reflexivity..|left; vm_compute; reflexivity].
  - vm_compute. discriminate.
  - vm_compute. discriminate.
  - vm_compute. discriminate.
  - vm_compute. discriminate.
  - vm_compute. reflexivity.
  - exists token, body, s'. split; [exact E|]. split; [exact Ht|]. intros auth Hb Hf Hn.
    assert (Eu : us_TenantID demo_user = tn_ID acme) by (vm_compute; reflexivity).
    assert (Er : us_Role demo_user = "ADMIN") by (vm_compute; reflexivity).
    rewrite <- Eu, <- Er. exact (Hauth (mkReq auth "" "" None) s' Hb Hf eq_refl Hn).
Defined.
