(* ===== verification/OidcSpec.v ===== *)
(** * What single sign-on guarantees

    A session is given only for a token that a key of the configured issuer
    signed; a token of the mock provider is accepted and signs its user in. *)

From S2P Require Import Prelude Json GoTime Crypto Encoding Totp JsonText Events Model Tables Effects.
From S2P Require Import Store AuthStore TenantStore Frame Connectors Run Adapters WorkerFrame Ingestion.
From S2P Require Import Operator Auth Accounts Oidc Idp Sample History AuthSpec AdminSpec SeedSpec LoginSpec.
Local Open Scope string_scope.

(** ** History *)

Section kept.
Context `{Outside} `{Bcrypt} `{Rsa} (acfg : AuthConfig) (cfg : SsoConfig) (strict : bool).
Let R := Promise strict.

Lemma getJSON_kept {A} url (dec : list (string * Json) -> option A) : Pres R (Oidc.getJSON url dec).
Proof. unfold Oidc.getJSON. pres. Qed.
Hint Resolve getJSON_kept : pres.
Lemma refreshKeys_kept p : Pres R (Oidc.refreshKeys p).
Proof. unfold Oidc.refreshKeys. pres. Qed.
Hint Resolve refreshKeys_kept : pres.
Lemma NewProvider_kept c : Pres R (Oidc.NewProvider c).
Proof. unfold Oidc.NewProvider. pres. Qed.
Lemma VerifyIDToken_kept p t : Pres R (Oidc.VerifyIDToken p t).
Proof. unfold Oidc.VerifyIDToken, Oidc.key_for. pres. Qed.
Hint Resolve NewProvider_kept VerifyIDToken_kept CreateUser_kept CreateSession_kept new_uuid_kept : pres.

Lemma handleOIDCLogin_kept r salt : Pres R (handleOIDCLogin acfg cfg r salt).
Proof. unfold handleOIDCLogin, sso_account, sso_session, new_session, auditLogin. pres. Qed.
End kept.

(** ** Trust *)

Section trust.
Context `{Transport} `{Rsa}.
Import Oidc.

(** The outside world answered a request for [url] with [a]. *)
Definition says {A} (url : string) (dec : list (string * Json) -> option A) (a : A) : Prop :=
  exists w w' ra text body, http_step w (mkHttpReq "GET" url "" None) = (w', HttpResp 200 ra text body) /\
    into_struct dec body = Some a.

Definition dec_discovery (kvs : list (string * Json)) : option (string * string * string) :=
  iss ← dec_string "issuer" kvs; jwks ← dec_string "jwks_uri" kvs; tok ← dec_string "token_endpoint" kvs;
  Some (iss, jwks, tok).

(** The key set at an address, as far as it can be used. *)
Definition keys_at (url : string) (keys : gmap string (Z * Z)) : Prop :=
  exists ks, says url dec_jwks ks /\ collect_keys ks ∅ = Ok keys.

(** [pub] is a key with the id [kid] that the issuer published: it is in the key
    set the issuer's own discovery document points to. *)
Definition Published (issuer kid : string) (pub : Z * Z) : Prop :=
  exists jwks tok keys, says (issuer +:+ "/.well-known/openid-configuration") dec_discovery (issuer, jwks, tok) /\
    keys_at jwks keys /\ keys !! kid = Some pub.

(** The run had no effect on the database. *)
Definition Untouched (s s' : St) : Prop := st_db s' = st_db s /\ st_now s' = st_now s /\ st_seq s' = st_seq s.

Lemma getJSON_says {A} url (dec : list (string * Json) -> option A) s a s' :
  getJSON url dec s = (Ok a, s') -> says url dec a /\ Untouched s s'.
Proof.
  intros E. unfold getJSON in E. apply run_bind in E as [(e & _ & ?)|(out & s1 & Eh & E)]; [done|].
  unfold http in Eh. destruct (http_step _ _) as [w o] eqn:Es. injection Eh as <- <-.
  destruct o as [m|m|status ra text body]; [done..|]. destruct (Z.eqb_spec status 200) as [->|]; [|done]. cbn [negb] in E.
  destruct (into_struct dec body) as [x|] eqn:Ed; [|done]. injection E as -> <-. split; [|done].
  by exists (st_world s), w, ra, text, body.
Qed.

Lemma getJSON_keeps {A} url (dec : list (string * Json) -> option A) s : Untouched s (getJSON url dec s).2.
Proof.
  unfold getJSON, http, mbind, M_bind. destruct (http_step _ _) as [w o].
  destruct o; [done..|]. case_match; [done|]. by case_match.
Qed.

Lemma refreshKeys_spec p s :
  Untouched s (refreshKeys p s).2 /\
  forall p' s', refreshKeys p s = (Ok p', s') ->
    keys_at (pv_jwksURI p) (pv_keys p') /\ pv_cfg p' = pv_cfg p /\ pv_issuer p' = pv_issuer p /\
    pv_jwksURI p' = pv_jwksURI p.
Proof.
  unfold refreshKeys. destruct (pv_jwksURI p =s ""); [done|]. split.
  - unfold mbind, M_bind. pose proof (getJSON_keeps (pv_jwksURI p) dec_jwks s) as K.
    destruct (getJSON _ _ s) as [[ks|e] s1]; [|done]. destruct (collect_keys ks ∅); [|done]. by case_match.
  - intros p' s' E. apply run_bind in E as [(e & _ & ?)|(ks & s1 & Eg & E)]; [done|].
    apply getJSON_says in Eg as [Hs _]. destruct (collect_keys ks ∅) as [keys|] eqn:Ec; [|done].
    case_bool_decide; [done|]. injection E as <- _. split; [by exists ks|done].
Qed.

(** A provider that discovery gave. *)
Record Trusted (cfg : Config) (p : Provider) : Prop := mkTrusted {
  tr_cfg : pv_cfg p = cfg;
  tr_issuer : pv_issuer p = trim_slash (oc_Issuer cfg);
  tr_keys : keys_at (pv_jwksURI p) (pv_keys p);
  tr_discovery : exists tok, says (pv_issuer p +:+ "/.well-known/openid-configuration") dec_discovery
                   (pv_issuer p, pv_jwksURI p, tok);
}.

Lemma NewProvider_spec cfg s :
  Untouched s (NewProvider cfg s).2 /\ forall p s', NewProvider cfg s = (Ok p, s') -> Trusted cfg p.
Proof.
  unfold NewProvider. destruct (oc_Issuer cfg =s ""); [done|].
  set (issuer := trim_slash (oc_Issuer cfg)). fold dec_discovery. set (url := issuer +:+ _).
  split.
  - unfold mbind, M_bind. pose proof (getJSON_keeps url dec_discovery s) as K.
    destruct (getJSON _ _ s) as [[[[iss jwks] tok]|e] s1]; [|done]. cbn [snd] in K. case_match; [done|].
    destruct (refreshKeys_spec (mkProvider cfg issuer jwks ∅) s1) as [(A1 & A2 & A3) _].
    destruct K as (B1 & B2 & B3). split; [congruence|]. split; congruence.
  - intros p s' E. apply run_bind in E as [(e & _ & ?)|([[iss jwks] tok] & s1 & Eg & E)]; [done|].
    apply getJSON_says in Eg as [Hs _]. destruct (iss =s issuer) eqn:Ei; [|done]. seqb_simpl. subst iss.
    apply refreshKeys_spec in E as (Hk & Hc & Hi & Hj). cbn in Hk, Hc, Hi, Hj.
    constructor; [done|done|by rewrite Hj|]. exists tok. by rewrite Hi, Hj.
Qed.

Lemma key_for_spec cfg p kid s :
  Trusted cfg p -> Untouched s (key_for p kid s).2 /\
  forall pub s', key_for p kid s = (Ok pub, s') -> Published (pv_issuer p) kid pub.
Proof.
  intros [Hc Hi Hk (tok & Hd)]. unfold key_for. destruct (pv_keys p !! kid) as [pub|] eqn:Ek.
  - split; [done|]. intros pub' s' [= <- _]. by exists (pv_jwksURI p), tok, (pv_keys p).
  - split.
    + unfold mbind, M_bind. pose proof (proj1 (refreshKeys_spec p s)) as K.
      destruct (refreshKeys p s) as [[p'|e] s1]; [|done]. by destruct (pv_keys p' !! kid).
    + intros pub s' E. apply run_bind in E as [(e & _ & ?)|(p' & s1 & Er & E)]; [done|].
      apply refreshKeys_spec in Er as (Hk' & _). destruct (pv_keys p' !! kid) as [pub'|] eqn:Ek'; [|done].
      injection E as -> _. by exists (pv_jwksURI p), tok, (pv_keys p').
Qed.

(** What a verified token is. *)
Record Verified (cfg : Config) (token : string) (t : Z) (c : Claims) : Prop := mkVerified {
  ver_token : exists header payload signature headerRaw raw sig kid pub,
    split_dots token = [header; payload; signature] /\
    b64_decode header = Some headerRaw /\ unmarshal_into dec_header headerRaw = Some ("RS256", kid) /\
    b64_decode signature = Some sig /\ Published (trim_slash (oc_Issuer cfg)) kid pub /\
    rsa_verify pub.1 pub.2 (sha256 (bytes_of_string (header +:+ "." +:+ payload))) sig = true /\
    b64_decode payload = Some raw /\ unmarshal_into dec_claims raw = Some c;
  ver_issuer : oi_Issuer c = trim_slash (oc_Issuer cfg);
  ver_audience : audienceMatches (oi_Audience c) (oc_ClientID cfg) = true;
  ver_live : (oi_ExpiresAt c <= 0 \/ t / 1000000000 <= oi_ExpiresAt c)%Z;
  ver_sub : oi_Sub c <> "";
  ver_email : oi_Email c <> "";
}.

Lemma VerifyIDToken_spec cfg p token s :
  Trusted cfg p -> Untouched s (VerifyIDToken p token s).2 /\
  forall c s', VerifyIDToken p token s = (Ok c, s') -> Verified cfg token (st_now s) c.
Proof.
  intros Ht. unfold VerifyIDToken.
  destruct (split_dots token) as [|header [|payload [|signature [|x l]]]] eqn:Es; try done.
  destruct (b64_decode header) as [headerRaw|] eqn:Eh; [|done].
  destruct (unmarshal_into dec_header headerRaw) as [[alg kid]|] eqn:Eu; [|done].
  destruct (alg =s "RS256") eqn:Ea; [|done]. seqb_simpl. subst alg. cbn [negb].
  destruct (key_for_spec cfg p kid s Ht) as [K Hpub].
  unfold mbind at 1 3, M_bind at 1 3. destruct (key_for p kid s) as [[pub|e] s1] eqn:Ek; [|split; [exact K|done]].
  cbn [snd] in K. destruct (b64_decode signature) as [sig|] eqn:Esig; [|split; [exact K|done]].
  destruct (rsa_verify _ _ _ sig) eqn:Er; cbn [negb]; [|split; [exact K|done]].
  destruct (b64_decode payload) as [raw|] eqn:Ep; [|split; [exact K|done]].
  destruct (unmarshal_into dec_claims raw) as [c|] eqn:Ec; [|split; [exact K|done]].
  unfold now, mbind, M_bind. split; [by destruct (check_claims p c (st_now s1))|].
  intros c' s' E. destruct (check_claims p c (st_now s1)) as [c1|] eqn:Ek1; [|done]. injection E as -> <-.
  destruct K as (_ & Hn & _). rewrite Hn in Ek1. unfold check_claims in Ek1.
  destruct (oi_Issuer c =s pv_issuer p) eqn:Ei; [|done]. destruct (audienceMatches _ _) eqn:Eau; [|done].
  cbn [negb] in Ek1. destruct ((0 <? oi_ExpiresAt c)%Z && _) eqn:Eex; [done|].
  destruct ((oi_Sub c =s "") || _) eqn:Ene; [done|]. injection Ek1 as <-. apply orb_false_elim in Ene as [E1 E2]. seqb_simpl.
  destruct Ht as [Hc Hi _ _]. constructor; [|congruence|by rewrite <- Hc| |done|done].
  - exists header, payload, signature, headerRaw, raw, sig, kid, pub. rewrite <- Hi. repeat (split; [done|]).
    split; [by eapply Hpub|done].
  - apply andb_false_iff in Eex as [Eex|Eex]; apply Z.ltb_ge in Eex; lia.
Qed.
End trust.

(** ** The sessions single sign-on gives *)

Section sso.
Context `{Transport} `{Bcrypt} `{Rsa} (acfg : AuthConfig) (cfg : SsoConfig).

(** The account of an identity: there before, or provisioned as a viewer where
    that is configured and nobody had the email. *)
Definition Account (tenant : Tenant) (email : string) (d : DB) (u : User) : Prop :=
  us_TenantID u = tn_ID tenant /\ us_Email u = email /\
  (u ∈ users d \/
   so_OIDCAutoProvision cfg = true /\ us_Role u = "VIEWER" /\
   forall x, x ∈ users d -> us_TenantID x = tn_ID tenant -> us_Email x <> email).

Lemma CreateUser_sessions tenant email hash role s x s' :
  CreateUser tenant email hash role s = (x, s') ->
  (sessions (st_db s') = sessions (st_db s) /\ st_now s' = st_now s) /\
  forall u, x = Ok u -> us_TenantID u = tenant /\ us_Email u = email /\ us_Role u = role.
Proof.
  intros E. unfold CreateUser in E.
  apply run_tx in E as [(_ & _ & _ & Hn) [(a & d & Eb & Hd & Hx)|[Hd [e ->]]]]; [|by rewrite Hd].
  cbv zeta in Eb. destruct (negb _); [done|]. unfold insert_new in Eb. destruct (List.existsb _ _); [done|].
  injection Eb as <- <-. rewrite Hd. split; [done|]. intros u ->. by destruct Hx as [[= ->]|?].
Qed.

Lemma auditLogin_sessions tenant action email meta s :
  sessions (st_db (auditLogin tenant action email meta s).2) = sessions (st_db s).
Proof.
  unfold auditLogin, ignore. destruct (InsertAuditLog _ _ s) as [x s1] eqn:E. unfold InsertAuditLog in E.
  apply run_tx in E as [_ [(a & d & [= _ <-] & Hd & _)|[Hd _]]]; cbn; by rewrite Hd.
Qed.

Lemma sso_account_spec tenant c salt s u s' :
  sso_account cfg tenant c salt s = (Ok (inr u), s') ->
  (sessions (st_db s') = sessions (st_db s) /\ st_now s' = st_now s) /\
  Account tenant (Oidc.oi_Email c) (st_db s) u.
Proof.
  intros E. unfold sso_account in E. rewrite bind_attempt in E.
  destruct (GetUserByEmail _ _ s) as [x s1] eqn:E1. cbn [fst snd] in E.
  apply run_query in E1 as [(Hd1 & _ & _ & _ & Hn1) Hx]. destruct x as [user|e].
  { injection E as -> <-. destruct Hx as [Hx|]; [|done]. symmetry in Hx.
    apply found_or_Ok, select_one_Some in Hx as [Hu Hk]. apply andb_prop in Hk as [Ht He]. seqb_simpl.
    split; [by rewrite Hd1|]. split; [done|]. split; [done|by left]. }
  destruct e; try done. destruct Hx as [Hx|]; [|done].
  destruct (so_OIDCAutoProvision cfg) eqn:Ea; cbn [negb] in E;
    [|by apply run_bind in E as [(? & _ & ?)|(? & ? & _ & E)]].
  apply run_bind in E as [(? & _ & ?)|(uid & s2 & E2 & E)]; [done|]. injection E2 as <- <-.
  destruct (bcrypt_generate _ _) as [hash|]; [|done]. rewrite bind_attempt in E.
  destruct (CreateUser _ _ _ _ _) as [y s3] eqn:E3. apply CreateUser_sessions in E3 as [[Hs Hn] Hu]. cbn [fst snd] in E.
  destruct y as [u'|e]; [|done]. injection E as -> <-. destruct (Hu u eq_refl) as (Ht & He & Hr).
  split; [rewrite Hs, Hn; cbn; by rewrite Hd1|]. split; [done|]. split; [done|]. right. do 2 (split; [done|]).
  intros x Hin Htx Hex. destruct (select_one _ _) eqn:Es; [done|].
  pose proof (existsb_select_one (fun r => (us_TenantID r =s tn_ID tenant) && (us_Email r =s Oidc.oi_Email c))
    (users (st_db s))) as Hb. rewrite Es in Hb. apply not_true_iff_false in Hb. apply Hb, existsb_exists.
  exists x. split; [by apply list_elem_of_In|]. by rewrite Htx, Hex, !seqb_refl.
Qed.

Lemma sso_session_spec u c s resp s' :
  sso_session acfg u c s = (Ok resp, s') -> rs_code resp = 200%Z -> SignedIn (st_now s) u (st_db s) (st_db s').
Proof.
  intros E Hc. unfold sso_session in E. rewrite bind_attempt in E.
  destruct (new_session _ _ _ _ s) as [[[row tok]|e] s1] eqn:E1; cbn [fst snd] in E;
    [|injection E as <- <-; discriminate Hc].
  apply new_session_spec in E1 as (Hin & Hu & Ht & Hr & Hn & He & Hfresh).
  apply run_bind in E as [(? & _ & ?)|(x & s2 & E2 & E)]; [done|]. injection E as _ <-.
  exists row. pose proof (auditLogin_sessions (us_TenantID u) "auth.login" (us_Email u)
    [("role", JStr (us_Role u)); ("via", JStr "oidc"); ("sub", JStr (Oidc.oi_Sub c))] s1) as Hs.
  rewrite E2 in Hs. cbn [snd] in Hs. rewrite Hs. by repeat split.
Qed.
End sso.

(** C22: single sign-on trusts nothing but the issuer.  When [handleOIDCLogin]
    answers 200, whatever the database and the network did, the token is an
    RS256 token whose signature verifies under a key with its key id that the
    configured issuer published (the key set its own discovery document, which
    names that issuer, leads to); it was issued by that issuer for this client,
    has a subject and an email, and, if it carries a positive expiry, has not
    expired (one without an expiry is accepted: [unexpiring_token_signs_in]); and a
    new live session (not revoked, expiring twelve hours from the login) is that of
    the tenant's user with that email, who was there before or, if so configured,
    has just been made a viewer. *)
Theorem sso_sound `{Transport} `{Bcrypt} `{Rsa} (acfg : AuthConfig) (cfg : SsoConfig) (r : Req) (salt : string)
    (s s' : St) (resp : Response) :
  handleOIDCLogin acfg cfg r salt s = (Ok resp, s') -> rs_code resp = 200%Z ->
  exists slug token tenant c user,
    oidc_request (rq_Body r) = Some (slug, token) /\
    tenant ∈ tenants (st_db s) /\ tn_Slug tenant = slug /\
    Verified (Oidc.mkConfig (so_OIDCIssuer cfg) (so_OIDCClientID cfg)) token (st_now s) c /\
    Account cfg tenant (Oidc.oi_Email c) (st_db s) user /\
    SignedIn (st_now s) user (st_db s) (st_db s').
Proof.
  intros E Hc. unfold handleOIDCLogin in E. destruct (_ || _); [injection E as <- <-; discriminate Hc|].
  destruct (oidc_request (rq_Body r)) as [[slug token]|]; [|injection E as <- <-; discriminate Hc].
  rewrite bind_attempt in E. destruct (GetTenantBySlug slug s) as [x s1] eqn:E1. cbn [fst snd] in E.
  apply run_query in E1 as [(Hd1 & _ & _ & _ & Hn1) Hx]. destruct x as [tenant|e]; [|refused E Hc].
  destruct Hx as [Hx|]; [|done]. symmetry in Hx. apply found_or_Ok, select_one_Some in Hx as [Ht Hslug]. seqb_simpl.
  rewrite bind_attempt in E. set (oc := Oidc.mkConfig _ _) in *.
  destruct (NewProvider_spec oc s1) as [(Hd2 & Hn2 & _) Htr].
  destruct (Oidc.NewProvider oc s1) as [[p|e] s2]; cbn [fst snd] in *; [|injection E as <- <-; discriminate Hc].
  specialize (Htr p s2 eq_refl). rewrite bind_attempt in E.
  destruct (VerifyIDToken_spec oc p token s2 Htr) as [(Hd3 & Hn3 & _) Hv].
  destruct (Oidc.VerifyIDToken p token s2) as [[c|e] s3]; cbn [fst snd] in *; [|refused E Hc].
  specialize (Hv c s3 eq_refl). apply run_bind in E as [(e & _ & ?)|(a & s4 & E4 & E)]; [done|].
  destruct a as [resp'|user].
  { exfalso. injection E as <- <-. unfold sso_account in E4. clear -E4 Hc.
    repeat (first [rewrite bind_attempt in E4 | case_match]; try done;
      try (apply run_bind in E4 as [(? & _ & ?)|(? & ? & _ & E4)]; [done|]); try (injection E4 as <- _; done)). }
  apply sso_account_spec in E4 as [[Hs4 Hn4] Hacc]. apply sso_session_spec in E as Hsi; [|done].
  assert (Hd : st_db s3 = st_db s) by congruence. rewrite Hd in Hs4, Hacc. rewrite Hn2, Hn1 in Hv.
  exists slug, token, tenant, c, user. do 5 (split; [done|]). unfold SignedIn in *.
  assert (Hn : st_now s4 = st_now s) by congruence. by rewrite Hs4, Hn in Hsi.
Qed.
