(* ===== verification/SsoSpec.v ===== *)
(** * The mock identity provider signs users in

    A token of its token endpoint passes the server's verification, from
    discovery over the key set to the claims, and the sign-in is answered with a
    session of the account with that email. *)

From S2P Require Import Prelude Json GoTime Crypto Encoding Totp JsonText Events Model Tables Effects.
From S2P Require Import Store AuthStore TenantStore Frame Connectors Run Adapters WorkerFrame Ingestion.
From S2P Require Import Operator Auth Accounts Oidc Idp Sample History AuthSpec AdminSpec SeedSpec LoginSpec.
From S2P Require Import OidcSpec.
Local Open Scope string_scope.

#[local] Arguments in_int64 _ : simpl never.
#[local] Arguments Z.add _ _ : simpl never.

(** ** Numbers as bytes *)

Lemma SetBytes_big fuel : forall n acc, (0 <= n < 256 ^ Z.of_nat fuel)%Z ->
  Oidc.SetBytes (Idp.big_bytes fuel n acc) = foldl (fun n b => 256 * n + b)%Z n acc.
Proof.
  induction fuel as [|fuel IH]; intros n acc Hn; cbn [Idp.big_bytes].
  { assert (n = 0)%Z as -> by (simpl in Hn; lia). done. }
  destruct (Z.eqb_spec n 0) as [->|Hne]; [done|]. rewrite IH.
  - cbn [foldl]. f_equal. pose proof (Z.div_mod n 256). lia.
  - rewrite Nat2Z.inj_succ, Z.pow_succ_r in Hn by lia. split; [apply Z.div_pos; lia|].
    apply Z.div_lt_upper_bound; lia.
Qed.

Lemma SetBytes_Bytes n : (0 <= n)%Z -> Oidc.SetBytes (Idp.Bytes n) = n.
Proof.
  intros Hn. unfold Idp.Bytes. rewrite SetBytes_big; [done|]. split; [done|].
  rewrite Z2Nat.id by (pose proof (Z.log2_nonneg n); lia).
  destruct (Z.eq_dec n 0%Z) as [->|Hne]; [done|].
  destruct (Z.log2_spec n) as [_ Hlt]; [lia|]. rewrite <- Z.add_1_r in Hlt. eapply Z.lt_le_trans; [exact Hlt|].
  apply Z.pow_le_mono_l. lia.
Qed.

Lemma big_bytes_bytes fuel : forall n acc, Forall is_byte acc -> Forall is_byte (Idp.big_bytes fuel n acc).
Proof.
  induction fuel as [|fuel IH]; intros n acc Ha; cbn [Idp.big_bytes]; [done|]. case_match; [done|].
  apply IH. constructor; [|done]. unfold is_byte. apply Z.mod_pos_bound. lia.
Qed.

Lemma jwk_read n : (0 <= n)%Z ->
  Oidc.jwkRSAPublicKey (Idp.b64url (Idp.Bytes n)) (Idp.b64url [1; 0; 1]%Z) = Ok (n, 65537%Z).
Proof.
  intros Hn. unfold Oidc.jwkRSAPublicKey, Idp.b64url.
  rewrite !b64_roundtrip by first [by apply big_bytes_bytes | by repeat constructor].
  by rewrite SetBytes_Bytes.
Qed.

(** ** Tokens *)

Lemma split_three a b c :
  split_dots (b64_encode a +:+ "." +:+ b64_encode b +:+ "." +:+ b64_encode c)
  = [b64_encode a; b64_encode b; b64_encode c].
Proof.
  unfold b64_encode at 1. rewrite split_dots_clean by apply b64_chars_dot.
  change (split_dots ("." +:+ b64_encode b +:+ "." +:+ b64_encode c))
    with ("" :: split_dots (b64_encode b +:+ "." +:+ b64_encode c)). rewrite split_token.
  cbn iota beta. by rewrite str_app_nil_r.
Qed.

Section mock.
Context `{Rsa} `{RsaKeys} `{!RsaLaws} (order : gmap string Idp.OIDCUser -> list Idp.OIDCUser).
Context (p : Idp.OIDCProvider) (client : string).
Local Abbreviation issuer := (Idp.ip_Issuer p).
Local Abbreviation world := (Idp.idp_world issuer order).

(** The issuer is an address without a slash at its end, and the key has an id. *)
Context (Hissuer : issuer <> "") (Htrim : Oidc.trim_slash issuer = issuer) (Hkid : Idp.ip_kid p <> "").

Definition mock_keys : gmap string (Z * Z) := {[Idp.ip_kid p := (rsa_N (Idp.ip_key p), 65537%Z)]}.
Definition mock_provider : Oidc.Provider :=
  Oidc.mkProvider (Oidc.mkConfig issuer client) issuer (issuer +:+ "/jwks") mock_keys.

(** A request later. *)
Definition asked (rq : HttpReq) (s : @St world) : @St world :=
  @mkSt world (st_db s) (st_world s) (st_now s) (st_faults s) (st_draws s) (st_seq s)
    (st_calls s ++ [rq])%list (st_published s) (st_metrics s) (st_log s).

Lemma getJSON_mock {A} url (dec : list (string * Json) -> option A) (s : @St world) a text ra body :
  Idp.serve_idp issuer order (st_world s).1 ((st_world s).2 / 1000000000) (mkHttpReq "GET" url "" None)
    = HttpResp 200 ra text body ->
  into_struct dec body = Some a ->
  Oidc.getJSON url dec s = (Ok a, asked (mkHttpReq "GET" url "" None) s).
Proof.
  intros Hs Hd. unfold Oidc.getJSON, http, mbind, M_bind.
  change (http_step (st_world s) ?rq)
    with (st_world s, Idp.serve_idp issuer order (st_world s).1 ((st_world s).2 / 1000000000) rq).
  cbv iota beta. rewrite Hs. cbn [negb Z.eqb Pos.eqb].
  by rewrite Hd.
Qed.

Lemma discovered (s : @St world) :
  (st_world s).1 = p ->
  exists s', Oidc.NewProvider (Oidc.mkConfig issuer client) s = (Ok mock_provider, s') /\ Untouched s s' /\
    st_faults s' = st_faults s.
Proof.
  intros Hw. unfold Oidc.NewProvider. cbn [Oidc.oc_Issuer]. rewrite seqb_ne by done. rewrite Htrim.
  unfold mbind at 1, M_bind at 1. erewrite getJSON_mock; cycle 1.
  { rewrite Hw. unfold Idp.serve_idp. cbn [rq_base rq_path]. rewrite str_app_nil_r, seqb_refl. reflexivity. }
  { reflexivity. }
  cbn iota beta. rewrite seqb_refl. cbn [negb]. unfold Oidc.refreshKeys. cbn [Oidc.pv_jwksURI].
  rewrite seqb_ne by (intros E; by destruct issuer).
  unfold mbind at 1, M_bind at 1. erewrite getJSON_mock; cycle 1.
  { cbn [asked st_world]. rewrite Hw. unfold Idp.serve_idp. cbn [rq_base rq_path]. rewrite str_app_nil_r.
    rewrite seqb_ne by (intros E%str_app_inj_l; done). rewrite seqb_refl. reflexivity. }
  { reflexivity. }
  cbn [Oidc.collect_keys Oidc.jk_Kty Oidc.jk_Kid Oidc.jk_N Oidc.jk_E]. rewrite (seqb_ne (Idp.ip_kid p)) by done.
  cbn [orb negb]. rewrite seqb_refl. cbn [orb negb]. rewrite jwk_read by apply rsa_N_pos.
  rewrite bool_decide_false by apply insert_non_empty. eexists. split; [reflexivity|]. done.
Qed.

(** The claims a token of the mock carries. *)
Definition minted_claims (u : Idp.OIDCUser) (t : Z) : Oidc.Claims :=
  Oidc.mkClaims (Idp.iu_Sub u) (Idp.iu_Email u) (Idp.iu_EmailVerified u) (Idp.iu_Name u) issuer (JStr client)
    (t + 3600) t.

Lemma unmarshal_text {A} (dec : list (string * Json) -> option A) kvs :
  kvs <> [] -> Forall (fun kv => flat kv.2) kvs ->
  Oidc.unmarshal_into dec (bytes_of_string (object_text kvs)) = dec (reverse kvs).
Proof.
  intros Hne Hf. unfold Oidc.unmarshal_into. by rewrite string_of_bytes_of_string, Unmarshal_object.
Qed.

Lemma minted_verified u t token (s : @St world) :
  Idp.mint p u client t = Some token -> Idp.iu_Sub u <> "" -> Idp.iu_Email u <> "" ->
  (0 <= t)%Z -> in_int64 (t + 3600) = true -> (st_now s / 1000000000 <= t + 3600)%Z ->
  Oidc.VerifyIDToken mock_provider token s = (Ok (minted_claims u t), s).
Proof.
  intros Hm Hsub Hemail Ht Hint Hnow. unfold Idp.mint in Hm. cbv zeta in Hm.
  remember (object_text (Idp.token_header p)) as h eqn:Eh.
  remember (object_text (Idp.token_payload p u client t)) as b eqn:Eb.
  destruct (rsa_sign _ _) as [sig|] eqn:Es; [|done]. injection Hm as <-. unfold Idp.b64url in *.
  unfold Oidc.VerifyIDToken. rewrite !str_app_assoc, split_three.
  rewrite !b64_roundtrip by first [apply bytes_of_string_bytes | exact (rsa_sign_bytes _ _ _ Es)].
  assert (Hh : Oidc.unmarshal_into Oidc.dec_header (bytes_of_string h) = Some ("RS256", Idp.ip_kid p)).
  { rewrite Eh, unmarshal_text; [done|done|by repeat constructor]. }
  assert (Hint' : in_int64 t = true).
  { unfold in_int64, int64_min, int64_max in *. apply andb_prop in Hint as [Hlo Hhi]. apply Z.leb_le in Hlo, Hhi.
    apply andb_true_intro. split; apply Z.leb_le; lia. }
  assert (Hb : Oidc.unmarshal_into Oidc.dec_claims (bytes_of_string b) = Some (minted_claims u t)).
  { rewrite Eb, unmarshal_text; [|done|repeat constructor; simpl; lia].
    unfold Oidc.dec_claims, Idp.token_payload, dec_int64. simpl. rewrite Hint, Hint'. done. }
  rewrite Hh, Hb. change (negb ("RS256" =s "RS256")) with false. cbn iota.
  assert (Hk : Oidc.key_for mock_provider (Idp.ip_kid p) s = (Ok (rsa_N (Idp.ip_key p), 65537%Z), s)).
  { unfold Oidc.key_for, mock_provider, mock_keys. cbn [Oidc.pv_keys]. by rewrite lookup_singleton_eq. }
  unfold mbind, M_bind. rewrite Hk. cbn [fst snd]. rewrite (rsa_verifies _ _ _ Es). cbn [negb now].
  assert (Hc : Oidc.check_claims mock_provider (minted_claims u t) (st_now s) = Ok (minted_claims u t)).
  { unfold Oidc.check_claims, minted_claims, mock_provider.
    cbn [Oidc.oi_Issuer Oidc.pv_issuer Oidc.oi_Audience Oidc.pv_cfg Oidc.oc_ClientID Oidc.audienceMatches Oidc.oi_ExpiresAt
      Oidc.oi_Sub Oidc.oi_Email]. rewrite !seqb_refl. cbn [negb].
    destruct (Z.ltb_spec (t + 3600) (st_now s / 1000000000)); [lia|]. rewrite andb_false_r.
    by rewrite !seqb_ne. }
  by rewrite Hc.
Qed.
End mock.

Section sessions.
Context `{Transport} `{Bcrypt}.

Lemma sso_account_found cfg tenant c salt s user :
  st_faults s = [] -> select_one (user_of (tn_ID tenant) (Oidc.oi_Email c)) (users (st_db s)) = Some user ->
  sso_account cfg tenant c salt s = (Ok (inr user), tick s).
Proof.
  intros Hf Hu. unfold sso_account. rewrite bind_attempt. unfold GetUserByEmail. rewrite query_calm by done.
  fold (user_of (tn_ID tenant) (Oidc.oi_Email c)). by rewrite Hu.
Qed.

(** Without faults the session is made, and its token authenticates. *)
Lemma sso_session_calm acfg user c s :
  st_faults s = [] -> fresh_jtis s -> us_ID user <> "" -> us_TenantID user <> "" -> us_Role user <> "" ->
  (0 <= st_now s + sessionTTL)%Z -> in_int64 ((st_now s + sessionTTL) / 1000000000)%Z = true ->
  exists token body s', sso_session acfg user c s = (Ok (mkResponse 200 body), s') /\
    jlookup "token" body = Some (JStr token) /\
    forall r2 s2, bearerTokenFrom r2 = token -> st_faults s2 = [] -> sessions (st_db s2) = sessions (st_db s') ->
      (st_now s2 <= pg_time (st_now s + sessionTTL))%Z ->
      exists s3, authenticate acfg r2 s2
        = (Ok (inr (mkCaller (us_TenantID user) (us_Role user) ("user:" +:+ us_ID user) "" (us_ID user))), s3).
Proof.
  intros Hf Hfresh Hid Htn Hrl Hpos Hint. unfold sso_session.
  destruct (new_session_calm acfg (us_ID user) (us_TenantID user) (us_Role user) s Hf Hfresh)
    as (sess & s1 & E & Hj & Hu & Ht & Hr & He & Hrev & Hf1 & Hn1 & Hx & Hd).
  rewrite bind_attempt, E. cbn [fst snd]. unfold mbind, M_bind.
  match goal with |- context [auditLogin ?a ?b ?c ?d s1] =>
    pose proof (auditLogin_sessions a b c d s1) as Hs;
    assert (Ea : auditLogin a b c d s1 = (Ok tt, (auditLogin a b c d s1).2)) by
      (unfold auditLogin, ignore; by destruct (InsertAuditLog _ _ s1)); rewrite Ea end.
  eexists _, _, _. split; [reflexivity|]. split; [reflexivity|].
  intros r2 s2 Hb Hf2 Hss Hnow. rewrite <- Hu, <- Ht, <- Hr in *.
  assert (Hpg : (pg_time (st_now s + sessionTTL) <= st_now s + sessionTTL)%Z).
  { unfold pg_time. pose proof (Z.mul_div_le (st_now s + sessionTTL) 1000). lia. }
  apply (session_authenticates acfg r2 (st_now s)); try done; [by rewrite Hb, Hj|by rewrite Hj|lia|lia|].
  rewrite Hss, Hs, Hd. cbn. apply select_one_snoc.
  - eapply existsb_imp; [|exact Hx]. intros x Hk. unfold session_key in Hk. apply andb_prop in Hk as [Hk _]. by rewrite <- Hj.
  - unfold session_key. by rewrite !seqb_refl.
Qed.
End sessions.


(** ** A toy RSA, and a provider that has not verified its user's address *)

Definition bytes_only (d : list Z) : bool := List.forallb (fun b => (0 <=? b) && (b <? 256))%Z d.
#[local] Instance toy_rsa : Rsa := {| rsa_verify _ _ d sig := bool_decide (d = sig) |}.
#[local] Instance toy_keys : RsaKeys :=
  {| rsa_private := N; rsa_N := Z.of_N; rsa_sign _ d := if bytes_only d then Some d else None |}.
#[local] Instance toy_laws : RsaLaws.
Proof.
  split; intros k; [apply N2Z.is_nonneg|..]; intros d sig; cbn; destruct (bytes_only d) eqn:Eb; intros [= <-].
  - apply Forall_forall. intros b Hb%list_elem_of_In. unfold bytes_only in Eb. rewrite forallb_forall in Eb.
    specialize (Eb b Hb). unfold is_byte. lia.
  - by apply bool_decide_true.
Qed.

Definition by_subject (m : gmap string Idp.OIDCUser) : list Idp.OIDCUser := (map_to_list m).*2.
Definition mock : Idp.OIDCProvider :=
  Idp.AddUser (Idp.mkUser "sub-1" "ada@acme.dev" false "Ada") (Idp.NewOIDCProvider "http://idp" "cli" 143%N).
Definition mock_user : Idp.OIDCUser := Idp.mkUser "sub-1" "ada@acme.dev" false "Ada".
Definition mock_token : string := default "" (Idp.mint mock mock_user "cli" 1).
Local Abbreviation mock_world := (Idp.idp_world "http://idp" by_subject).
Definition sso_state : @St mock_world := @mkSt mock_world accounts_db (mock, 1000000000%Z) 1000000000 [] [] 0 [] [] [] [].
Definition sso_login : Req :=
  mkReq "" "" "" (Some (JObj [("tenant_slug", JStr "acme"); ("id_token", JStr mock_token)])).
Definition sso_config : SsoConfig := mkSsoConfig "http://idp" "cli" false.
Local Abbreviation signed_in := (@handleOIDCLogin mock_world plain_bcrypt toy_rsa sample_auth sso_config sso_login "" sso_state).


Lemma sso_sound_witness :
  exists c user, @Verified mock_world toy_rsa (Oidc.mkConfig "http://idp" "cli") mock_token 1000000000 c /\
    us_Email user = Oidc.oi_Email c /\ SignedIn (st_now sso_state) user accounts_db (st_db signed_in.2).
Proof.
  destruct (@sso_sound mock_world plain_bcrypt toy_rsa sample_auth sso_config sso_login "" sso_state signed_in.2
    (match signed_in.1 with Ok x => x | Err _ => mkResponse 0 [] end))
    as (slug & token & tenant & c & user & Hq & _ & _ & Hv & (_ & He & _) & Hs).
  - assert (E : signed_in.1 = Ok (match signed_in.1 with Ok x => x | Err _ => mkResponse 0 [] end))
      by (vm_compute; reflexivity). rewrite <- E. exact (surjective_pairing signed_in).
  - vm_compute. reflexivity.
  - exists c, user. assert (Hl : oidc_request (rq_Body sso_login) = Some ("acme", mock_token)) by reflexivity.
    rewrite Hl in Hq. pose proof (f_equal (fun o => match o with Some (_, x) => x | None => "" end) Hq) as Et.
    cbv beta iota in Et. rewrite <- Et in Hv.
    split; [exact Hv|]. split; [exact He|exact Hs].
Defined.

(** The provider said that it had not verified the address. *)
Lemma unverified_email_signs_in :
  Idp.iu_EmailVerified mock_user = false /\
  match signed_in.1 with Ok r => (rs_code r, jlookup "user" (rs_body r)) | Err _ => (0%Z, None) end
  = (200%Z, Some (JObj [("id", JStr "u-1"); ("email", JStr "ada@acme.dev"); ("role", JStr "ADMIN")])).
Proof. split; [reflexivity|]. vm_compute. reflexivity. Qed.

(** A token of the issuer with no expiry, as the provider would sign it. *)
Definition unexpiring_input : string :=
  Idp.b64url (bytes_of_string (object_text (Idp.token_header mock))) +:+ "." +:+
  Idp.b64url (bytes_of_string (object_text
    [("aud", JStr "cli"); ("email", JStr "ada@acme.dev"); ("iat", JNum 1); ("iss", JStr "http://idp");
     ("name", JStr "Ada"); ("sub", JStr "sub-1")])).
Definition unexpiring_token : string :=
  unexpiring_input +:+ "." +:+ Idp.b64url (sha256 (bytes_of_string unexpiring_input)).

(** It signs in, however long after it was issued (here ten years). *)
Lemma unexpiring_token_signs_in :
  let late := (10 * 365 * 86400 * 1000000000)%Z in
  let s := @mkSt mock_world accounts_db (mock, late) late [] [] 0 [] [] [] [] in
  let rq := mkReq "" "" "" (Some (JObj [("tenant_slug", JStr "acme"); ("id_token", JStr unexpiring_token)])) in
  match (@handleOIDCLogin mock_world plain_bcrypt toy_rsa sample_auth sso_config rq "" s).1 with
  | Ok r => rs_code r | Err _ => 0%Z
  end = 200%Z.
Proof. vm_compute. reflexivity. Qed.
