(* ===== verification/ApiSpec.v ===== *)
(** * What the HTTP surface guarantees

    Every request is answered, and every route but the open ones stands behind
    credentials of the role the table asks for. *)

From S2P Require Import Prelude Json GoTime Crypto Encoding Totp JsonText Events Model Tables Effects.
From S2P Require Import Store AuthStore TenantStore Frame Connectors Run Adapters WorkerFrame Ingestion.
From S2P Require Import Operator Auth Accounts Admin Oidc Config Sample OperatorSpec History AuthSpec.
From S2P Require Import AdminSpec OidcSpec Api.
Local Open Scope string_scope.

Section answers.
Context `{Transport} `{Bcrypt} `{Rsa} (cfg : Config) (out : Json -> string).

Lemma Total_uuid : Total new_uuid.
Proof. intros s. by eexists. Qed.
Lemma Total_audit c a b e f : Total (audit c a b e f).
Proof. unfold audit. total. Qed.
Lemma Total_auditLogin a b e f : Total (auditLogin a b e f).
Proof. unfold auditLogin. total. Qed.
Hint Resolve Total_uuid Total_audit Total_auditLogin : total.

Lemma authenticate_total acfg r : Total (authenticate acfg r) /\ Total (requireUser acfg r).
Proof. split; unfold authenticate, requireUser, requireAPIKey; total. Qed.

Lemma account_handler_total acfg r q c : Total (account_handler acfg r q c).
Proof.
  destruct q; simpl; unfold handleCreateUser, handleListUsers, handleResetPassword, handleChangeRole,
    handleRevokeUserSessions, handleListSessions, handleCreateAPIKey, handleListAPIKeys,
    handleRevokeAPIKey, handleChangePassword, handleMFAEnroll, handleMFAConfirm, handleMFADisable,
    handleMFABackupCodes, with_code, with_user, with_hash, grantable, with_row, or_500; total.
Qed.

Lemma admin_handler_total c q : Total (admin_handler out c q).
Proof.
  destruct q; simpl; unfold handleCreateTenant, handleListTenants, handleCreateConnection,
    handleListConnections, handleGetConnection, handleListAudit, handleListOperations,
    handleListSyncEvents, handleGetSyncEvent, handleListDLQ, handleGetDLQ, with_row, or_500; total.
Qed.

Lemma handler_total scfg c q : Total (handler scfg out c q).
Proof. intros s. destruct (handler_answers scfg out c q s) as (r & s' & E). exists r. by rewrite E. Qed.
Hint Resolve account_handler_total admin_handler_total handler_total : total.

Lemma serve_route_total rq en r : Total (serve_route cfg out rq en r).
Proof.
  destruct r; simpl; unfold handleLogin, login_unlocked, second_factor, login_succeeds, loginFailure,
    handleLogout, handleRefresh, handleOIDCLogin, sso_account, sso_session, handleWebhook,
    accept_webhook, serve_account, serve_admin, serve_operator, serve, behind, requireRole, or_500;
    try (destruct (authenticate_total (auth_config cfg) (hr_Req rq))); total.
Qed.
End answers.

(** ** History *)

Section kept.
Context `{Outside} `{Bcrypt} `{Rsa} (cfg : Config) (out : Json -> string).

Lemma serve_operator_kept acfg scfg r q : Pres (Promise false) (serve_operator acfg scfg out r q).
Proof.
  unfold serve_operator, behind. destruct (authenticate_kept acfg false r).
  apply Pres_bind; [typeclasses eauto|done|]. intros x _. destruct x; [pres|apply serve_kept].
Qed.

Lemma Router_kept rq en : Pres (Promise false) (Router cfg out rq en).
Proof.
  unfold Router. case_if; [pres|]. destruct (route rq en) as [[]|[]]; simpl; try (pres; fail).
  - apply handleLogin_kept.
  - apply handleLogout_kept.
  - apply handleRefresh_kept.
  - apply handleOIDCLogin_kept.
  - apply serve_account_kept.
  - apply serve_admin_kept.
  - apply serve_operator_kept.
Qed.
End kept.

(** ** The gates *)

Definition open_route (r : Route) : bool :=
  match r with Account _ | Administer _ | Operate _ => false | _ => true end.

(** The role the table asks for; self-service asks for a user of any role. *)
Definition route_role (r : Route) : string :=
  match r with
  | Account q => if self_service q then "VIEWER" else "ADMIN"
  | Administer q => admin_role q
  | Operate q => min_role q
  | _ => "VIEWER"
  end.

Definition needs_user (r : Route) : bool :=
  match r with Account q => self_service q | _ => false end.

(** The database is as it was, but for the time at which a key was last used. *)
Definition Untouched (d d' : DB) : Prop :=
  d' = d \/ exists id t, d' = on_api_keys (update_where (fun k => ak_ID k =s id)
    (fun k => mkAPIKey (ak_ID k) (ak_TenantID k) (ak_Name k) (ak_KeyHash k) (ak_Role k) (ak_Enabled k)
                (ak_CreatedAt k) (Some t))) d.

Section gates.
Context `{Transport} `{Bcrypt} `{Rsa} (cfg : AuthConfig) (r : Req).

Lemma verifySessionToken_reads token s : st_db (verifySessionToken cfg token s).2 = st_db s.
Proof.
  assert (P : Pres (OnDb eq) (verifySessionToken cfg token)); [|symmetry; apply P].
  unfold verifySessionToken, GetLiveSession. pres.
Qed.

Lemma requireUser_reads s : st_db (requireUser cfg r s).2 = st_db s.
Proof.
  assert (P : Pres (OnDb eq) (requireUser cfg r)); [|symmetry; apply P].
  unfold requireUser, verifySessionToken, GetLiveSession. pres.
Qed.

Lemma VerifyAPIKey_touches h s : Untouched (st_db s) (st_db (VerifyAPIKey h s).2).
Proof.
  destruct (VerifyAPIKey h s) as [x s'] eqn:E. simpl. unfold VerifyAPIKey in E.
  apply run_bind in E as [(e & E & _)|(k & s1 & Eq & E)].
  - apply run_query in E as [(-> & _) _]. by left.
  - apply run_query in Eq as [(Hd & _) _]. rewrite <- Hd.
    unfold TouchKey in E. rewrite bind_ignore in E. injection E as _ <-.
    destruct (tx _ s1) as [y s2] eqn:Et. cbn [snd]. apply run_tx in Et as [_ [(a & d & [= _ <-] & -> & _)|[-> _]]].
    + right. by eexists _, _.
    + by left.
Qed.

Lemma authenticate_touches s : Untouched (st_db s) (st_db (authenticate cfg r s).2).
Proof.
  unfold authenticate. destruct (negb _); [left; apply requireUser_reads|].
  unfold requireAPIKey. destruct (_ =s ""); [by left|]. rewrite bind_attempt.
  pose proof (VerifyAPIKey_touches (hashAPIKey (actorFromRequest r)) s) as Hv.
  destruct (VerifyAPIKey _ s) as [[k|e] s1]; [exact Hv|]. destruct e; exact Hv.
Qed.

(** A gate lets a caller with credentials of the role through, or the answer is
    an error and nothing has changed. *)
Definition Gated (user : bool) (role : string) (s : St) (resp : Response) (s' : St) : Prop :=
  (exists c, (ByToken cfg r (st_now s) (st_db s) c \/ (user = false /\ ByKey r (st_db s) c)) /\
     (rank_of role <= rank_of (ca_Role c))%Z) \/
  ((400 <= rs_code resp)%Z /\ Untouched (st_db s) (st_db s')).

Lemma behind_role role next s resp s' :
  behind (authenticate cfg r) (fun c => requireRole role c (next c)) s = (Ok resp, s') ->
  Gated false role s resp s'.
Proof.
  intros E. unfold behind in E. apply run_bind in E as [(e & _ & ?)|(x & s1 & Ea & E)]; [done|].
  pose proof (authenticate_touches s) as Ht. rewrite Ea in Ht. simpl in Ht.
  destruct x as [resp'|c].
  - injection E as <- <-. right. split; [by eapply authenticate_refuses|done].
  - unfold requireRole in E. destruct (Z.ltb_spec (rank_of (ca_Role c)) (rank_of role)) as [Hlt|Hle].
    + injection E as <- <-. right. split; [done|exact Ht].
    + left. exists c. split; [|done]. apply authenticate_credentials in Ea as [Hc|Hc]; auto.
Qed.

Lemma behind_user next s resp s' :
  behind (requireUser cfg r) next s = (Ok resp, s') -> Gated true "VIEWER" s resp s'.
Proof.
  intros E. unfold behind in E. apply run_bind in E as [(e & _ & ?)|(x & s1 & Ea & E)]; [done|].
  pose proof (requireUser_reads s) as Ht. rewrite Ea in Ht. simpl in Ht.
  destruct x as [resp'|c].
  - injection E as <- <-. right. split; [by eapply requireUser_refuses|by left].
  - left. exists c. split; [left; by eapply requireUser_token|].
    unfold rank_of. simpl. unfold roleRank. repeat case_match; simpl; lia.
Qed.
End gates.

(** C20: the HTTP surface is complete and guarded.  Every request is answered.  If
    its method and path lead to any route but health, metrics, sign-in, sign-out,
    refresh, single sign-on and the signed webhooks, then it carries a live
    session's token or (self-service apart) an enabled key's secret, for a caller
    whose role is at least the one the table asks for; otherwise the answer is an
    error and the database is as it was, but for the time a key was last used. *)
Theorem router_guarded `{Transport} `{Bcrypt} `{Rsa} (cfg : Config) (out : Json -> string)
    (rq : HttpRequest) (en : Inputs) (s : St) :
  exists resp s', Router cfg out rq en s = (Ok resp, s') /\
    forall rt, hr_Method rq <> "OPTIONS" -> route rq en = inr rt -> open_route rt = false ->
      Gated (auth_config cfg) (hr_Req rq) (needs_user rt) (route_role rt) s resp s'.
Proof.
  assert (Total (Router cfg out rq en)) as HT.
  { unfold Router. case_if; [total|]. destruct (route rq en) as [[]|rt]; [total|total|].
    apply serve_route_total. }
  destruct (HT s) as [resp Hr]. destruct (Router cfg out rq en s) as [x s'] eqn:E. simpl in Hr. subst x.
  exists resp, s'. split; [done|]. intros rt Hm Hrt Ho. unfold Router in E.
  rewrite (proj2 (seqb_false _ _) Hm), Hrt in E.
  destruct rt as [| | | | | | |q|q|q]; try discriminate Ho; simpl in E |- *.
  - unfold serve_account in E. destruct (self_service q).
    + by eapply behind_user.
    + by eapply (behind_role _ _ "ADMIN").
  - unfold serve_admin in E. exact (behind_role _ _ _ (fun c => admin_handler out c q) _ _ _ E).
  - unfold serve_operator, serve in E. exact (behind_role _ _ _ (fun c => handler _ out c q) _ _ _ E).
Qed.

(** A request for the users without credentials. *)
Definition bare_request : HttpRequest :=
  mkHttpRequest "GET" "/api/v1/users" (fun _ => "") (mkReq "" "" "" None) "" "".
Definition no_inputs : Inputs := mkInputs "" None None None true true (mkResponse 200 []).
Definition no_env : Env := fun _ => None.

(** No signature verifies. *)
Definition no_rsa : Rsa := {| rsa_verify _ _ _ _ := false |}.

Lemma router_guarded_witness :
  route bare_request no_inputs = inr (Account ListUsersCall) /\
  exists resp s', @Router up plain_bcrypt no_rsa (Load no_env) no_text bare_request no_inputs accounts
                    = (Ok resp, s') /\
    Gated (auth_config (Load no_env)) (hr_Req bare_request) false "ADMIN" accounts resp s'.
Proof.
  assert (E : route bare_request no_inputs = inr (Account ListUsersCall)) by (vm_compute; reflexivity).
  split; [exact E|].
  destruct (@router_guarded up plain_bcrypt no_rsa (Load no_env) no_text bare_request no_inputs accounts)
    as (resp & s' & Er & Hg).
  exists resp, s'. split; [exact Er|].
  apply (Hg (Account ListUsersCall)); [discriminate|exact E|reflexivity].
Defined.
