(* ===== verification/Middleware.v ===== *)
(** * [Server.middleware] and [statusRecorder] of [internal/api/router.go]

    A handler acts on the [http.ResponseWriter] it is given: it sets headers, sends
    a status, writes to the body, and may panic.  The middleware gives it a
    [statusRecorder] around the connection's own writer, recovers a panic, and
    records the request in the service's metrics. *)

From S2P Require Import Prelude Json JsonText Effects Ingestion Api.
Local Open Scope string_scope.

(** ** Response writers *)

Inductive Act := SetHeader (k v : string) | WriteHeader (code : Z) | Write (text : string) | Panic.

(** [http.ResponseWriter] of [net/http]: the status and headers go out with the
    first [WriteHeader], or with the first [Write] as 200. *)
Record Writer := mkWriter {
  wr_Header : gmap string string; wr_sent : option (Z * gmap string string); wr_body : string;
}.
Definition new_writer : Writer := mkWriter ∅ None "".

Definition write_header (code : Z) (w : Writer) : Writer :=
  match wr_sent w with
  | None => mkWriter (wr_Header w) (Some (code, wr_Header w)) (wr_body w)
  | Some _ => w
  end.
Definition body_allowed (code : Z) : bool := negb ((code =? 204)%Z || (code =? 304)%Z || (code <? 200)%Z).
Definition write (text : string) (w : Writer) : Writer :=
  let w := write_header 200 w in
  match wr_sent w with
  | Some (c, _) => if body_allowed c then mkWriter (wr_Header w) (wr_sent w) (wr_body w +:+ text) else w
  | None => w
  end.
Definition set_header (k v : string) (w : Writer) : Writer :=
  mkWriter (<[k := v]> (wr_Header w)) (wr_sent w) (wr_body w).

(** What the client gets when the handler has returned. *)
Definition answer (w : Writer) : Z * gmap string string * string :=
  (default (200%Z, wr_Header w) (wr_sent w), wr_body w).

(** [statusRecorder]. *)
Record statusRecorder := mkRecorder { sr_writer : Writer; sr_status : Z }.

(** One action on it; only [WriteHeader] is its own. *)
Definition act (a : Act) (sw : statusRecorder) : statusRecorder :=
  match a with
  | SetHeader k v => mkRecorder (set_header k v (sr_writer sw)) (sr_status sw)
  | WriteHeader code => mkRecorder (write_header code (sr_writer sw)) code
  | Write t => mkRecorder (write t (sr_writer sw)) (sr_status sw)
  | Panic => sw
  end.

(** A handler's actions up to its end or its panic. *)
Fixpoint perform (acts : list Act) (sw : statusRecorder) : bool * statusRecorder :=
  match acts with
  | [] => (false, sw)
  | Panic :: _ => (true, sw)
  | a :: acts => perform acts (act a sw)
  end.

(** [writeJSON] ([Encode] ends its text with a newline), [writeError]. *)
Definition writeJSON (status : Z) (v : Json) : list Act :=
  [SetHeader "Content-Type" "application/json"; WriteHeader status; Write (marshal v +:+ String "010" "")].
Definition writeError (status : Z) (msg : string) : list Act := writeJSON status (JObj [("error", JStr msg)]).

(** ** The middleware *)

(** What is recorded: the gauge of requests under way, and one request with its
    method, path and status. *)
Inductive Measurement := Inflight (delta : Z) | Requested (method path : string) (status : Z).

Definition cors (w : Writer) : Writer :=
  set_header "Access-Control-Allow-Methods" "GET, POST, PATCH, DELETE, OPTIONS"
    (set_header "Access-Control-Allow-Headers" "Authorization, Content-Type, X-API-Key"
       (set_header "Access-Control-Allow-Origin" "*" w)).

Definition middleware (next : list Act) (method path : string) : Writer * list Measurement :=
  let w := cors new_writer in
  let sw :=
    if method =s "OPTIONS" then mkRecorder (write_header 204 w) 200
    else
      let (panicked, sw) := perform next (mkRecorder w 200) in
      if panicked then (perform (writeError 500 "internal error") sw).2 else sw in
  (sr_writer sw, [Inflight 1; Requested method path (sr_status sw); Inflight (-1)]).

(** ** What it guarantees *)

(** The status a handler's actions send. *)
Fixpoint first_status (acts : list Act) : option Z :=
  match acts with
  | [] | Panic :: _ => None
  | WriteHeader c :: _ => Some c
  | Write _ :: _ => Some 200%Z
  | SetHeader _ _ :: acts => first_status acts
  end.
Fixpoint panics (acts : list Act) : bool :=
  match acts with [] => false | Panic :: _ => true | _ :: acts => panics acts end.

(** A handler that sends its status at most once, before it writes, and does not
    panic afterwards. *)
Fixpoint orderly (acts : list Act) : bool :=
  match acts with
  | [] | Panic :: _ => true
  | SetHeader _ _ :: acts => orderly acts
  | WriteHeader _ :: acts | Write _ :: acts =>
      forallb (fun a => match a with WriteHeader _ | Panic => false | _ => true end) acts
  end.

Lemma sent_kept acts sw x :
  wr_sent (sr_writer sw) = Some x -> wr_sent (sr_writer (perform acts sw).2) = Some x.
Proof.
  revert sw. induction acts as [|a acts IH]; intros sw E; [done|].
  destruct a as [k v|c|t|]; simpl; [apply IH..|exact E]; simpl; [done|..].
  - unfold write_header. by rewrite E.
  - destruct x as [c h]. unfold write, write_header. rewrite E. simpl. rewrite E.
    by destruct (body_allowed c); simpl; rewrite ?E.
Qed.

Lemma perform_status acts : forall sw,
  wr_sent (sr_writer sw) = None ->
  (perform acts sw).1 = panics acts /\ fst <$> wr_sent (sr_writer (perform acts sw).2) = first_status acts.
Proof.
  induction acts as [|a acts IH]; intros sw E; [by simpl; rewrite E|].
  assert (Hp : forall sw, (perform acts sw).1 = panics acts).
  { clear. induction acts as [|b acts IH]; intros sw; [done|]. destruct b; simpl; [apply IH..|done]. }
  destruct a as [k v|c|t|]; simpl; [by apply IH|..|by rewrite E].
  - split; [apply Hp|]. rewrite (sent_kept _ _ (c, wr_Header (sr_writer sw))); [done|].
    simpl. unfold write_header. by rewrite E.
  - split; [apply Hp|]. rewrite (sent_kept _ _ (200%Z, wr_Header (sr_writer sw))); [done|].
    simpl. unfold write, write_header. by rewrite E.
Qed.

Lemma quiet_status acts : forall sw,
  forallb (fun a => match a with WriteHeader _ | Panic => false | _ => true end) acts = true ->
  sr_status (perform acts sw).2 = sr_status sw.
Proof.
  induction acts as [|a acts IH]; intros sw E; [done|]. simpl in E. apply andb_true_iff in E as [Ea E].
  destruct a; try done; simpl; by rewrite IH.
Qed.

Lemma orderly_recorded acts : forall sw,
  orderly acts = true -> sr_status sw = 200%Z ->
  sr_status (perform acts sw).2 = default 200%Z (first_status acts) /\
  (panics acts = true -> first_status acts = None).
Proof.
  assert (Hnp : forall acts, forallb (fun a => match a with WriteHeader _ | Panic => false | _ => true end) acts = true ->
            panics acts = false).
  { clear. induction acts as [|a acts IH]; [done|]. simpl. intros [Ha E]%andb_true_iff. destruct a; try done; by apply IH. }
  induction acts as [|a acts IH]; intros sw E Hs; [by split|]. destruct a as [k v|c|t|]; simpl in *; [by apply IH|..|by split].
  - split; [by rewrite quiet_status|]. by rewrite Hnp.
  - split; [by rewrite quiet_status|]. by rewrite Hnp.
Qed.

(** A header none of the handler's actions sets goes out as the middleware set it. *)
Definition leaves (k : string) (acts : list Act) : Prop := Forall (fun a => forall v, a <> SetHeader k v) acts.

Lemma write_sends t w :
  wr_Header (write t w) = wr_Header w /\ wr_sent (write t w) = wr_sent (write_header 200 w).
Proof.
  unfold write. assert (Eh : wr_Header (write_header 200 w) = wr_Header w) by (unfold write_header; by destruct (wr_sent w)).
  cbv zeta. destruct (wr_sent (write_header 200 w)) as [[c h]|] eqn:Es; [|by split].
  destruct (body_allowed c); by split.
Qed.

Lemma write_header_sends (P : gmap string string -> Prop) code w :
  P (wr_Header w) -> (forall c h, wr_sent w = Some (c, h) -> P h) ->
  P (wr_Header (write_header code w)) /\ (forall c h, wr_sent (write_header code w) = Some (c, h) -> P h).
Proof.
  intros Hh Hs. unfold write_header. destruct (wr_sent w) eqn:Es; [by rewrite Es|].
  split; [done|]. by intros c h [= <- <-].
Qed.

Lemma leaves_header k v acts : forall sw,
  leaves k acts -> wr_Header (sr_writer sw) !! k = Some v ->
  (forall c h, wr_sent (sr_writer sw) = Some (c, h) -> h !! k = Some v) ->
  let sw' := (perform acts sw).2 in
  wr_Header (sr_writer sw') !! k = Some v /\ (forall c h, wr_sent (sr_writer sw') = Some (c, h) -> h !! k = Some v).
Proof.
  induction acts as [|a acts IH]; intros sw HL Hh Hs; [done|]. apply Forall_cons in HL as [Ha HL].
  destruct a as [k' v'|c|t|]; cbn [perform]; [| | |done]; (apply IH; [done|..]); cbn [act sr_writer].
  - simpl. rewrite lookup_insert_ne; [done|]. intros ->. by eapply Ha.
  - done.
  - by apply (write_header_sends (fun h => h !! k = Some v)).
  - by apply (write_header_sends (fun h => h !! k = Some v)).
  - by rewrite (proj1 (write_sends _ _)).
  - rewrite (proj2 (write_sends _ _)). by apply (write_header_sends (fun h => h !! k = Some v)).
Qed.

Lemma recovered_status sw :
  wr_sent (sr_writer sw) = None ->
  (answer (sr_writer (perform (writeError 500 "internal error") sw).2)).1.1 = 500%Z.
Proof.
  intros Es. destruct (perform_status (writeError 500 "internal error") sw Es) as [_ H]. unfold answer.
  destruct (wr_sent (sr_writer (perform _ sw).2)) as [[c h]|]; by simplify_eq/=.
Qed.

(** The samples of a request: under way once, recorded once. *)
Definition recorded (l : list Measurement) : option Z :=
  match l with [Inflight 1; Requested _ _ c; Inflight (-1)] => Some c | _ => None end.

(** Whatever a handler does, the request is answered and recorded once, the gauge
    of requests under way returns to what it was, and the answer carries the CORS
    headers unless the handler replaces them.  A preflight is answered 204 without
    the handler; otherwise the status is the first one the handler sends, 200 when
    it sends none, and 500 when it panics before sending one.  The status recorded
    is the one sent, for every handler that sends at most one, before it writes,
    and does not panic afterwards. *)
Theorem middleware_sound (next : list Act) (method path : string) :
  let (w, samples) := middleware next method path in
  let status := (answer w).1.1 in
  (forall k v, wr_Header (cors new_writer) !! k = Some v -> leaves k next -> k <> "Content-Type" ->
     (answer w).1.2 !! k = Some v) /\
  if method =s "OPTIONS" then answer w = (204%Z, wr_Header (cors new_writer), "") /\ recorded samples = Some 200%Z
  else status = match first_status next with Some c => c | None => if panics next then 500 else 200 end%Z /\
       exists c, recorded samples = Some c /\ (orderly next = true -> c = status).
Proof.
  unfold middleware. destruct (method =s "OPTIONS") eqn:Em.
  { split; [|done]. intros k v Hk _ _. exact Hk. }
  destruct (perform next (mkRecorder (cors new_writer) 200)) as [p sw] eqn:Ep. cbv zeta.
  destruct (perform_status next (mkRecorder (cors new_writer) 200) eq_refl) as [H1 H2]. rewrite Ep in H1, H2.
  cbn [fst snd] in H1, H2. subst p. split; [|split].
  - intros k v Hk HL Hct. pose proof (leaves_header k v next (mkRecorder (cors new_writer) 200) HL Hk) as HH.
    rewrite Ep in HH. destruct HH as [HH1 HH2]; [done|]. cbn [snd] in HH1, HH2.
    assert (Hans : forall sw, wr_Header (sr_writer sw) !! k = Some v ->
      (forall c h, wr_sent (sr_writer sw) = Some (c, h) -> h !! k = Some v) -> (answer (sr_writer sw)).1.2 !! k = Some v).
    { intros sw' E1 E2. unfold answer. simpl. destruct (wr_sent (sr_writer sw')) as [[c h]|]; [by eapply E2|exact E1]. }
    destruct (panics next); [|by apply Hans].
    destruct (leaves_header k v (writeError 500 "internal error") sw) as [E1 E2]; [|done|done|by apply Hans].
    repeat constructor; try discriminate. intros v' [= <- _]. done.
  - destruct (panics next) eqn:Epn.
    + destruct (first_status next) as [c|] eqn:Ef.
      * destruct (wr_sent (sr_writer sw)) as [[c' h]|] eqn:Es; simpl in H2; [|done]. simplify_eq.
        unfold answer. by rewrite (sent_kept _ _ (c, h)).
      * destruct (wr_sent (sr_writer sw)) eqn:Es; [done|]. by apply recovered_status.
    + unfold answer. destruct (wr_sent (sr_writer sw)) as [[c h]|]; simpl in H2; by rewrite <- H2.
  - eexists. split; [reflexivity|]. intros Ho.
    destruct (orderly_recorded next (mkRecorder (cors new_writer) 200) Ho eq_refl) as [HO1 HO2]. rewrite Ep in HO1.
    cbn [snd] in HO1. destruct (panics next) eqn:Epn.
    + specialize (HO2 eq_refl). rewrite HO2 in H2. destruct (wr_sent (sr_writer sw)) eqn:Es; [done|].
      by rewrite recovered_status.
    + unfold answer. destruct (wr_sent (sr_writer sw)) as [[c h]|]; simpl in H2; by rewrite HO1, <- H2.
Qed.

(** What [writeJSON] is asked to send is what the client gets and the metrics show. *)
Lemma response_delivered status v method path :
  (method =s "OPTIONS") = false -> body_allowed status = true ->
  let (w, samples) := middleware (writeJSON status v) method path in
  answer w = (status, <["Content-Type" := "application/json"]> (wr_Header (cors new_writer)),
              marshal v +:+ String "010" "") /\ recorded samples = Some status.
Proof. intros Hm Hb. unfold middleware. rewrite Hm. simpl. unfold write, write_header. simpl. by rewrite Hb. Qed.

(** A preflight answered with 204 is recorded with 200. *)
Lemma preflight_recorded_200 next path :
  let (w, samples) := middleware next "OPTIONS" path in
  (answer w).1.1 = 204%Z /\ recorded samples = Some 200%Z.
Proof. done. Qed.

(** A handler that panics after its answer is recorded with 500, and the error is
    appended to the body it sent. *)
Lemma late_panic_recorded_500 path :
  let (w, samples) := middleware (writeJSON 200 (JObj []) ++ [Panic])%list "GET" path in
  (answer w).1.1 = 200%Z /\ recorded samples = Some 500%Z /\
  (answer w).2 = marshal (JObj []) +:+ String "010" (marshal (JObj [("error", JStr "internal error")]) +:+ String "010" "").
Proof. split_and!; vm_compute; reflexivity. Qed.

(** A browser may use every route: the preflight's answer names its method. *)
Definition allowed_methods : list string := ["GET"; "POST"; "PATCH"; "DELETE"; "OPTIONS"].

Lemma preflight_covers_routes rq en :
  wr_Header (cors new_writer) !! "Access-Control-Allow-Methods" = Some (str_join ", " allowed_methods) /\
  Forall (fun e => e.1.1 ∈ allowed_methods) (table rq en).
Proof. split; [done|]. repeat (constructor; [apply (bool_decide_unpack _); vm_compute; exact I|]). constructor. Qed.
