(* ===== verification/Reconcile.v ===== *)
(** * [internal/reconcile]: sweeping a provider

    A sweep walks the provider's pages, compares every live record with the
    canonical model, records each divergence once per run, and in auto mode
    sends the repair through the worker.  The page walk is bounded by fuel, for
    nothing in the program bounds the number of pages a provider may serve:
    [None] means that the fuel ran out with the walk still going on. *)

From S2P Require Import Prelude Json GoTime Events Model Conflict Backoff Tables Effects Store.
From S2P Require Import Frame Connectors Run Adapters Worker WorkerFrame WorkerSpec Retry.
From S2P Require Import Ingestion Operator History.
Local Open Scope string_scope.

(** ** classify.go *)

Definition reconciled_fields : list string := ["first_name"; "last_name"; "email"; "phone"; "company"].

(** [sameFields]. *)
Definition sameFields (a b : Fields) : bool :=
  forallb (fun k => sprint (mget a k) =s sprint (mget b k)) reconciled_fields.

(** [classify]; the empty string when the record is in sync. *)
Definition classify (canonical : option CanonicalRecord) (providerFields : Fields) : string :=
  match canonical with
  | None => FindingMissed
  | Some c =>
      if cr_Tombstone c then FindingDeleted
      else if negb (sameFields (cr_Fields c) providerFields) then FindingDrift
      else ""
  end.

(** [shouldRecreateMissing]. *)
Definition shouldRecreateMissing (deletePolicy : string) : bool :=
  (deletePolicy =s "tombstone_only") || (deletePolicy =s "ignore").

(** ** engine.go *)

(** [repairable]. *)
Definition repairable (f : ReconciliationFinding) (deletePolicy : string) : bool :=
  if rf_Kind f =s FindingDeleted then deletePolicy =s "propagate"
  else if rf_Kind f =s FindingMissing then shouldRecreateMissing deletePolicy
  else true.

(** [policyGateReason]. *)
Definition policyGateReason (kind deletePolicy : string) : string :=
  if kind =s FindingDeleted then "delete_policy=" +:+ deletePolicy +:+ ": deletes do not propagate"
  else "delete_policy=" +:+ deletePolicy +:+ ": external deletions are respected".

(** [deletePolicyFor]. *)
Definition deletePolicyFor (policies : list SyncPolicy) (source : string) : string :=
  match List.find (fun p => po_Source p =s source) policies with
  | Some p => po_DeletePolicy p
  | None =>
      match List.find (fun p => po_Destination p =s source) policies with
      | Some p => po_DeletePolicy p
      | None => "propagate"
      end
  end.

(** [nullablePtr]. *)
Definition nullablePtr (v : string) : option string := if v =s "" then None else Some v.

Section reconcile.
Context `{Outside}.

(** [abort] of the engine: run and job are marked failed, the cause returned. *)
Definition reconcile_abort {A} (job : SyncJob) (cause : error) : M A :=
  r ← attempt (GetReconciliationRunByJobID (sj_ID job));
  match r with
  | Ok run => ignore (FinishReconciliationRun (rr_ID run) ReconcileFailed (Some (Error cause)))
  | Err _ => skip
  end;;
  ignore (FinishSyncJob (sj_ID job) (sj_TenantID job) "failed" (Some (Error cause)));;
  throw cause.

(** [if err != nil { return e.abort(ctx, job, err) }]. *)
Definition or_abort {A B} (job : SyncJob) (m : M A) (k : A -> M B) : M B :=
  r ← attempt m;
  match r with
  | Err e => reconcile_abort job e
  | Ok a => k a
  end.

(** [repair]. *)
Definition repair (run : ReconciliationRun) (job : SyncJob) (entityType : string)
    (f : ReconciliationFinding) : M unit :=
  t ← now;
  Process (mkEvent ("reconcile:" +:+ rf_ID f) (sj_TenantID job) (rr_Source run) entityType
             (rf_ProviderID f) EventUpdated (rf_ProviderVersion f) t t ""
             (mkProvenance "" "" "" "" (rf_ID f)) ∅).

(** [record]. *)
Definition record (run : ReconciliationRun) (job : SyncJob) (entityType kind : string)
    (rec : ProviderRecord) (canonical : option CanonicalRecord) (providerFields : Fields)
    (deletePolicy : string) : M ReconciliationFinding :=
  stored ← InsertReconciliationFinding
    (mkReconciliationFinding "" (rr_ID run) (sj_TenantID job) kind (rec_ID rec)
       (match canonical with Some c => cr_EntityID c | None => "" end)
       (match canonical with Some c => cr_Fields c | None => ∅ end)
       providerFields (rec_SourceVersion rec) "" "" None 0 None);
  metric "ReconcileFindings";;
  (if (rr_Mode run =s "auto") && (rf_Status stored =s FindingPending) then
     if repairable stored deletePolicy
     then ignore (repair run job entityType stored)
     else ignore (SetReconciliationFindingStatus (sj_TenantID job) (rf_ID stored) FindingSkipped
                    (Some (policyGateReason (rf_Kind stored) deletePolicy)))
   else skip);;
  mret stored.

(** The counters of a sweep and the provider ids it has seen. *)
Record Sweep := mkSweep {
  sw_processed : Z; sw_failed : Z; sw_total : Z; sw_seen : gset string;
}.

Definition count_processed (w : Sweep) : Sweep :=
  mkSweep (wrap64 (sw_processed w + 1)) (sw_failed w) (sw_total w) (sw_seen w).
Definition count_failed (w : Sweep) : Sweep :=
  mkSweep (sw_processed w) (wrap64 (sw_failed w + 1)) (sw_total w) (sw_seen w).
Definition count_seen (id : string) (w : Sweep) : Sweep :=
  mkSweep (sw_processed w) (sw_failed w) (wrap64 (sw_total w + 1)) ({[id]} ∪ sw_seen w).

Section sweep.
Context (job : SyncJob) (run : ReconciliationRun) (adapter : Adapter)
  (entityType deletePolicy : string).

(** The body of the loop over a page's records. *)
Definition sweep_record (rec : ProviderRecord) (w : Sweep) : M Sweep :=
  if rec_Deleted rec then mret w
  else
    let w := count_seen (rec_ID rec) w in
    match ad_Validate adapter rec with
    | Some _ => mret (count_failed w)
    | None =>
        let cust := set_TenantID (sj_TenantID job) (ad_Normalize adapter rec) in
        let providerFields := cust_Fields cust in
        r ← attempt (GetCanonicalByProvider (sj_TenantID job) entityType (rr_Source run) (rec_ID rec));
        match (match r with
               | Ok c => Ok (Some c)
               | Err ErrNotFound => Ok None
               | Err e => Err e
               end) with
        | Err e => reconcile_abort job e
        | Ok canonical =>
            let kind := classify canonical providerFields in
            if kind =s "" then mret (count_processed w)
            else
              f ← attempt (record run job entityType kind rec canonical providerFields deletePolicy);
              match f with
              | Err _ => mret (count_failed w)
              | Ok _ => mret (count_processed w)
              end
        end
    end.

Fixpoint sweep_records (recs : list ProviderRecord) (w : Sweep) : M Sweep :=
  match recs with
  | [] => mret w
  | rec :: recs => w ← sweep_record rec w; sweep_records recs w
  end.

(** The loop over the pages. *)
Fixpoint sweep_pages (fuel : nat) (cursor : string) (w : Sweep) : M (option Sweep) :=
  match fuel with
  | O => mret None
  | S fuel =>
      or_abort job (ad_List adapter (mkListOptions cursor (sj_BatchSize job) time_zero)) (fun page =>
        w ← sweep_records (pg_Records page) w;
        let nextCursor := if pg_HasMore page then pg_NextCursor page else "" in
        or_abort job (UpdateSyncJobProgress (sj_ID job) (sj_TenantID job) (nullablePtr nextCursor)
                        (sw_processed w) (sw_failed w) (sw_total w)) (fun _ =>
          if negb (pg_HasMore page) || (nextCursor =s "") then mret (Some w)
          else sweep_pages fuel nextCursor w))
  end.

(** The loop over the canonical records the provider should have. *)
Fixpoint sweep_missing (seen : gset string) (cs : list CanonicalRecord) : M unit :=
  match cs with
  | [] => skip
  | c :: cs =>
      let providerID := default "" (cr_ProviderIDs c !! rr_Source run) in
      (if cr_Tombstone c || (providerID =s "") || bool_decide (providerID ∈ seen) then skip
       else
         ignore (record run job entityType FindingMissing
                   (mkProviderRecord providerID (default 0%Z (cr_SourceVersions c !! rr_Source run))
                      false ∅) (Some c) (cr_Fields c) deletePolicy));;
      sweep_missing seen cs
  end.

(** From the end of the walk to the end of the run. *)
Definition sweep_finish (w : Sweep) : M unit :=
  or_abort job (ListCanonicalByProvider (sj_TenantID job) entityType (rr_Source run)) (fun cs =>
  sweep_missing (sw_seen w) cs;;
  or_abort job (CountReconciliationFindings (sj_TenantID job) (rr_ID run)) (fun counts =>
  or_abort job (UpdateReconciliationCounters (rr_ID run) (sw_total w) counts.1.1 counts.1.2 counts.2)
    (fun _ =>
  or_abort job (FinishReconciliationRun (rr_ID run) ReconcileComplete None) (fun _ =>
  metric "ReconcileRuns";;
  FinishSyncJob (sj_ID job) (sj_TenantID job) "completed" None)))).
End sweep.

(** [Run] once an unfinished run is found. *)
Definition run_sweep (fuel : nat) (job : SyncJob) (run : ReconciliationRun) : M (option unit) :=
  or_abort job (connect (sj_TenantID job) (rr_Source run)) (fun adapter =>
  let entityType := ad_CanonicalEntityType adapter in
  or_abort job (ListPolicies (sj_TenantID job)) (fun policies =>
  let deletePolicy := deletePolicyFor policies (rr_Source run) in
  w ← sweep_pages job run adapter entityType deletePolicy fuel (default "" (sj_Cursor job))
        (mkSweep (sj_Processed job) (sj_Failed job) (sj_Total job) ∅);
  match w with
  | None => mret None
  | Some w => sweep_finish job run entityType deletePolicy w;; mret (Some tt)
  end)).

(** [Engine.Run]. *)
Definition reconcile_Run (fuel : nat) (job : SyncJob) : M (option unit) :=
  r ← attempt (GetReconciliationRunByJobID (sj_ID job));
  match r with
  | Err ErrNotFound => reconcile_abort job (OtherError "reconciliation run not found")
  | Err e => throw e
  | Ok run =>
      if (rr_Status run =s ReconcileComplete) || (rr_Status run =s ReconcileFailed)
      then mret (Some tt)
      else run_sweep fuel job run
  end.
End reconcile.
