(* ===== verification/SyncJob.v ===== *)
(** * [internal/syncjob]: resumable full synchronization

    A job streams a provider's records page by page through the worker and
    checkpoints after every page.  The page loop is bounded by fuel, as in
    [Reconcile]; [job_ends] in [JobSpec] says when the fuel is enough. *)

From S2P Require Import Prelude Json GoTime Events Model Conflict Backoff Tables Effects Store.
From S2P Require Import AuthStore TenantStore Schema Frame Connectors Run Adapters Worker WorkerFrame WorkerSpec Retry.
From S2P Require Import Ingestion Operator History Reconcile.
Local Open Scope string_scope.

(** [jobEventID]. *)
Definition jobEventID (jobID recordID : string) : string :=
  "jobsync:" +:+ jobID +:+ ":" +:+ recordID.

Section syncjob.
Context `{Outside}.

(** [abort]: the job is marked failed and the cause returned. *)
Definition job_abort {A} (job : SyncJob) (cause : error) : M A :=
  ignore (FinishSyncJob (sj_ID job) (sj_TenantID job) "failed" (Some (Error cause)));;
  throw cause.

Definition or_job_abort {A B} (job : SyncJob) (m : M A) (k : A -> M B) : M B :=
  r ← attempt m;
  match r with
  | Err e => job_abort job e
  | Ok a => k a
  end.

(** [deadLetterProviderRecord]: best effort. *)
Definition deadLetterProviderRecord (job : SyncJob) (rec : ProviderRecord) (cause : error) : M unit :=
  t ← now;
  let ev := mkEvent (jobEventID (sj_ID job) (rec_ID rec)) (sj_TenantID job) (sj_Source job)
              "customer" (rec_ID rec) EventCreated (rec_SourceVersion rec) time_zero t ""
              no_provenance {[ "fields" := of_fields (rec_Data rec) ]} in
  match encode_event ev with
  | None => skip
  | Some state =>
      ignore (InsertDeadLetter (mkDeadLetter "" (sj_TenantID job) (ev_EventID ev) (Error cause)
                                  (kind_String ErrSchema) state "" 0 None))
  end.

(** The event a record of the page becomes. *)
Definition record_event (t : Z) (job : SyncJob) (entityType : string) (rec : ProviderRecord) : Event :=
  mkEvent (jobEventID (sj_ID job) (rec_ID rec)) (sj_TenantID job) (sj_Source job) entityType
    (rec_ID rec) EventCreated (rec_SourceVersion rec) t t ""
    (mkProvenance (sj_Source job) "" (sj_ID job) "" "")
    {[ "fields" := of_fields (rec_Data rec) ]}.

Section pages.
Context (job : SyncJob) (adapter : Adapter).

(** The body of the loop over a page's records: processed and failed counts. *)
Definition sync_record (rec : ProviderRecord) (c : Z * Z) : M (Z * Z) :=
  let (processed, failed) := c in
  if rec_Deleted rec then mret c
  else
    match ad_Validate adapter rec with
    | Some e =>
        deadLetterProviderRecord job rec e;;
        mret (processed, wrap64 (failed + 1))
    | None =>
        t ← now;
        r ← attempt (Process (record_event t job (ad_CanonicalEntityType adapter) rec));
        match r with
        | Err _ => mret (processed, wrap64 (failed + 1))
        | Ok _ => mret (wrap64 (processed + 1), failed)
        end
    end.

Fixpoint sync_records (recs : list ProviderRecord) (c : Z * Z) : M (Z * Z) :=
  match recs with
  | [] => mret c
  | rec :: recs => c ← sync_record rec c; sync_records recs c
  end.

(** The loop over the pages, up to the end of the job. *)
Fixpoint sync_pages (fuel : nat) (total : Z) (cursor : string) (c : Z * Z) : M (option unit) :=
  match fuel with
  | O => mret None
  | S fuel =>
      or_job_abort job (ad_List adapter (mkListOptions cursor (sj_BatchSize job) time_zero))
        (fun page =>
        c ← sync_records (pg_Records page) c;
        let nextCursor := if pg_HasMore page then pg_NextCursor page else "" in
        or_job_abort job (UpdateSyncJobProgress (sj_ID job) (sj_TenantID job)
                            (nullablePtr nextCursor) c.1 c.2 total) (fun _ =>
          if negb (pg_HasMore page) || (nextCursor =s "") then
            FinishSyncJob (sj_ID job) (sj_TenantID job) "completed" None;;
            mret (Some tt)
          else sync_pages fuel total nextCursor c))
  end.
End pages.

(** [Runner.execute]; the runner is built with the reconciliation engine. *)
Definition execute (fuel : nat) (job : SyncJob) : M (option unit) :=
  if sj_Type job =s "reconcile" then reconcile_Run fuel job
  else
    or_job_abort job (connect (sj_TenantID job) (sj_Source job)) (fun adapter =>
    or_job_abort job (connect (sj_TenantID job) (sj_Destination job)) (fun _ =>
    h ← attempt (ad_HealthCheck adapter);
    let total := match h with
                 | Ok h => if (0 <? he_Records h)%Z then he_Records h else sj_Total job
                 | Err _ => sj_Total job
                 end in
    sync_pages job adapter fuel total (default "" (sj_Cursor job)) (sj_Processed job, sj_Failed job))).

(** One tick of [Runner.Run]: claim a job and execute it; errors are logged. *)
Definition runner_tick (fuel : nat) : M unit :=
  r ← attempt ClaimNextSyncJob;
  match r with
  | Err _ => skip
  | Ok job => ignore (execute fuel job)
  end.
End syncjob.

(** ** History *)

Section kept.
Context `{Outside}.
Let R := Promise false.

Lemma connected_list (Q : St -> St -> Prop) `{!PreOrder Q} t p a o :
  (forall rq, rq_method rq = "GET" -> Pres Q (http rq)) -> Returns (connect t p) a ->
  Pres Q (ad_List a o) /\ Pres Q (ad_HealthCheck a).
Proof.
  intros HQ Ha. destruct (connect_lawful _ _ _ Ha) as [b L].
  destruct (law_reads Q) as (H1 & H2 & _); [by intros; apply HQ|]. by split.
Qed.

Lemma list_kept t p a o : Returns (attempt (connect t p)) (Ok a) ->
  Pres R (ad_List a o) /\ Pres R (ad_HealthCheck a).
Proof.
  intros Ha%Returns_attempt. eapply connected_list; [typeclasses eauto| |exact Ha].
  intros. apply Promise_http.
Qed.

Lemma ClaimNextSyncJob_kept : Pres R ClaimNextSyncJob.
Proof.
  unfold ClaimNextSyncJob, start_job. pres; kept_tx.
Qed.
Hint Resolve ClaimNextSyncJob_kept : pres.

Lemma reconcile_abort_kept {A} j e : Pres R (reconcile_abort (A:=A) j e).
Proof. unfold reconcile_abort. pres. Qed.
Hint Resolve reconcile_abort_kept : pres.

Lemma record_kept a b c e f g h i : is_finding_kind e = true -> Pres R (record a b c e f g h i).
Proof.
  intros He. unfold record, repair. pres. apply InsertFinding_kept. unfold insertable. simpl.
  by rewrite He.
Qed.
Hint Resolve record_kept : pres.

Lemma classify_kind c f : (classify c f =s "") = false -> is_finding_kind (classify c f) = true.
Proof. unfold classify. by repeat case_match. Qed.

Lemma sweep_record_kept a b c e f rec w : Pres R (sweep_record a b c e f rec w).
Proof.
  unfold sweep_record. case_match; [pres|]. case_match; [pres|].
  apply Pres_bind; [typeclasses eauto|pres|]. intros r _.
  match goal with |- Pres _ (match ?x with _ => _ end) => destruct x as [canonical|] end; [|pres]. cbv zeta.
  case_match eqn:E; [pres|]. apply classify_kind in E. pres.
Qed.
Hint Resolve sweep_record_kept : pres.

Lemma sweep_records_kept a b c e f recs w : Pres R (sweep_records a b c e f recs w).
Proof. revert w. induction recs as [|rec recs IH]; intros w; simpl; pres. Qed.

Lemma sweep_missing_kept a b c e f cs : Pres R (sweep_missing a b c e f cs).
Proof. induction cs as [|x cs IH]; simpl; pres. Qed.
Hint Resolve sweep_records_kept sweep_missing_kept : pres.

Lemma sweep_pages_kept job run a et dp fuel cur w :
  (forall o, Pres R (ad_List a o)) -> Pres R (sweep_pages job run a et dp fuel cur w).
Proof.
  intros Ha. revert cur w. induction fuel as [|n IH]; intros cur w; simpl; unfold or_abort; pres.
Qed.

Lemma reconcile_Run_kept fuel job : Pres R (reconcile_Run fuel job).
Proof.
  unfold reconcile_Run, run_sweep, or_abort. pres.
  - apply sweep_pages_kept. intros o. by eapply list_kept.
  - unfold sweep_finish, or_abort. pres.
Qed.
Hint Resolve reconcile_Run_kept : pres.

Lemma sync_records_kept job a recs c : Pres R (sync_records job a recs c).
Proof.
  revert c. induction recs as [|rec recs IH]; intros c; simpl; [pres|].
  unfold sync_record, deadLetterProviderRecord. pres.
Qed.
Hint Resolve sync_records_kept : pres.

Lemma sync_pages_kept job a fuel total cur c :
  (forall o, Pres R (ad_List a o)) -> Pres R (sync_pages job a fuel total cur c).
Proof.
  intros Ha. revert cur c. induction fuel as [|n IH]; intros cur c; simpl;
    unfold or_job_abort, job_abort; pres.
Qed.

Lemma runner_tick_kept fuel : Pres R (runner_tick fuel).
Proof.
  unfold runner_tick, execute, or_job_abort, job_abort. pres.
  - by eapply (list_kept _ _ _ (mkListOptions "" 0 0)).
  - apply sync_pages_kept. intros o. by eapply list_kept.
Qed.
End kept.
