(* ===== verification/ReconcileSpec.v ===== *)
(** * What a reconciliation sweep finds and does

    A manual run only reads the provider, and writes only its own bookkeeping. *)

From S2P Require Import Prelude Json GoTime Events Model Conflict Backoff Tables Effects Store.
From S2P Require Import Frame Connectors Run Adapters Worker WorkerFrame WorkerCalls Sample.
From S2P Require Import WorkerSpec Retry Ingestion Operator History Reconcile SyncJob.
Local Open Scope string_scope.

(** ** Reading only *)

(** Only the tables [ts] change. *)
Definition Only (ts : Tbl -> bool) (d d' : DB) : Prop := forall tb, ts tb = false -> same tb d d'.

#[global] Instance Only_preorder ts : PreOrder (Only ts).
Proof.
  split; [by intros d []|]. intros d1 d2 d3 H1 H2 tb Htb.
  specialize (H1 tb Htb). specialize (H2 tb Htb). destruct tb; simpl in *; congruence.
Qed.

Ltac only_tx :=
  apply Pres_tx; [typeclasses eauto|];
  let Hb := fresh "Hb" in
  intros ? ? ? ? ? Hb; cbv zeta in Hb; repeat case_match; simplify_eq; try reflexivity;
  intros [] Htb; try discriminate Htb; reflexivity.

Section reading.
Context `{Transport}.

Definition is_get (rq : HttpReq) : Prop := rq_method rq = "GET".

(** Only [ts] changes, and every request is a [GET]. *)
Definition Reading (ts : Tbl -> bool) (s s' : St) : Prop :=
  Only ts (st_db s) (st_db s') /\ CallsIn is_get s s'.

#[global] Instance Reading_preorder ts : PreOrder (Reading ts).
Proof.
  split; [by intros s; split|]. intros s1 s2 s3 [A1 B1] [A2 B2]. split; by etrans.
Qed.

Lemma Reading_tx ts {A} (body : Z -> nat -> DB -> Res A * DB) :
  Pres (OnDb (Only ts)) (tx body) -> Pres (Reading ts) (tx body).
Proof. intros Hb s. split; [apply Hb|apply CallsIn_tx]. Qed.

Lemma Reading_query ts {A} (f : DB -> Res A) : Pres (Reading ts) (query f).
Proof. apply Reading_tx, (Pres_query (Only ts) f). Qed.

Lemma Reading_get ts rq : rq_method rq = "GET" -> Pres (Reading ts) (http rq).
Proof. intros Hrq s. split; [apply Pres_http|by apply CallsIn_http]. typeclasses eauto. Qed.

Lemma Reading_metric ts n : Pres (Reading ts) (metric n).
Proof. intros s. split; [done|apply CallsIn_metric]. Qed.

Definition sweep_tables : Tbl -> bool :=
  among [T_sync_jobs; T_reconciliation_runs; T_reconciliation_findings].
Let R := Reading sweep_tables.

Lemma InsertFinding_reading f : Pres R (InsertReconciliationFinding f).
Proof. apply Reading_tx. only_tx. Qed.
Lemma UpdateProgress_reading a b c e f g : Pres R (UpdateSyncJobProgress a b c e f g).
Proof. apply Reading_tx. only_tx. Qed.
Lemma FinishSyncJob_reading a b c e : Pres R (FinishSyncJob a b c e).
Proof. apply Reading_tx. only_tx. Qed.
Lemma UpdateCounters_reading a b c e f : Pres R (UpdateReconciliationCounters a b c e f).
Proof. apply Reading_tx. only_tx. Qed.
Lemma FinishRun_reading a b c : Pres R (FinishReconciliationRun a b c).
Proof. apply Reading_tx. only_tx. Qed.
Hint Resolve InsertFinding_reading UpdateProgress_reading FinishSyncJob_reading
  UpdateCounters_reading FinishRun_reading Reading_metric : pres.
Hint Extern 4 (Pres _ _) => apply Reading_query : pres.

Lemma reconcile_abort_reading {A} j e : Pres R (reconcile_abort (A:=A) j e).
Proof. unfold reconcile_abort. pres. Qed.
Hint Resolve reconcile_abort_reading : pres.

Lemma connect_reading t p : Pres R (connect t p).
Proof. unfold connect, adapterFor. pres. Qed.
Hint Resolve connect_reading : pres.

Section manual.
Context (job : SyncJob) (run : ReconciliationRun) (Hmode : rr_Mode run <> "auto").

Lemma record_manual et kind rec c pf dp : Pres R (record run job et kind rec c pf dp).
Proof using Hmode. unfold record. rewrite (seqb_ne _ _ Hmode). simpl. pres. Qed.
Hint Resolve record_manual : pres.

Lemma sweep_records_manual a et dp recs w : Pres R (sweep_records job run a et dp recs w).
Proof using Hmode.
  revert w. induction recs as [|rec recs IH]; intros w; simpl; [pres|]. unfold sweep_record. pres.
Qed.

Lemma sweep_missing_manual et dp seen cs : Pres R (sweep_missing job run et dp seen cs).
Proof using Hmode. induction cs as [|x cs IH]; simpl; pres. Qed.
Hint Resolve sweep_records_manual sweep_missing_manual : pres.

Lemma sweep_pages_manual a et dp fuel cur w :
  (forall o, Pres R (ad_List a o)) -> Pres R (sweep_pages job run a et dp fuel cur w).
Proof using Hmode.
  intros Ha. revert cur w. induction fuel as [|n IH]; intros cur w; simpl; unfold or_abort; pres.
Qed.

Lemma sweep_finish_manual et dp w : Pres R (sweep_finish job run et dp w).
Proof using Hmode. unfold sweep_finish, or_abort. pres. Qed.
Hint Resolve sweep_finish_manual : pres.

Lemma run_sweep_manual fuel : Pres R (run_sweep fuel job run).
Proof using Hmode.
  unfold run_sweep, or_abort. pres. apply sweep_pages_manual. intros o.
  match goal with Ha : Returns (attempt (connect _ _)) _ |- _ =>
    apply Returns_attempt in Ha; apply (connected_list R _ _ _ o) in Ha as [Ha _]; [done|] end.
  apply Reading_get.
Qed.
End manual.
End reading.

(** A manual run only looks.  When the run of the job is not in auto mode,
    executing it sends [GET] requests only and changes no table but those of
    jobs, runs and findings: no canonical record, no provider record, no ledger
    is written, whatever the provider answers and whatever fails. *)
Theorem manual_run_reads `{Transport} (fuel : nat) (job : SyncJob) (s : St) :
  (forall run, run ∈ reconciliation_runs (st_db s) -> rr_JobID run = Some (sj_ID job) ->
     rr_Mode run <> "auto") ->
  Reading sweep_tables s (reconcile_Run fuel job s).2.
Proof.
  intros Hm. unfold reconcile_Run. rewrite bind_attempt.
  destruct (GetReconciliationRunByJobID (sj_ID job) s) as [r s1] eqn:E.
  assert (Reading sweep_tables s s1) as H1.
  { pose proof (Reading_query sweep_tables (fun d => found_or (select_one
      (fun r => sql_eq (rr_JobID r) (sj_ID job)) (reconciliation_runs d))) s) as P.
    unfold GetReconciliationRunByJobID in E. by rewrite E in P. }
  apply run_query in E as [_ Hr]. cbn [fst snd]. etrans; [exact H1|].
  destruct r as [run|e]; [|destruct e; apply reconcile_abort_reading || done].
  destruct Hr as [Hr|]; [|done]. symmetry in Hr. apply found_or_Ok, select_one_Some in Hr as [Hin Hj].
  assert (rr_Mode run <> "auto") as Hmode.
  { apply Hm; [done|]. unfold sql_eq in Hj. destruct (rr_JobID run); [|done]. by seqb_simpl; subst. }
  case_if; [done|]. by apply run_sweep_manual.
Qed.
