(* ===== verification/SweepSpec.v ===== *)
(** * What a sweep finds

    The reports a manual run owes the operator, as a function of the provider's
    records and the canonical table, and the theorem that a run with no fault
    terminates, records exactly these and marks itself completed. *)

From S2P Require Import Prelude Json GoTime Events Model Conflict Backoff Tables Effects Store.
From S2P Require Import Frame Connectors Run Adapters Worker WorkerFrame WorkerCalls Sample.
From S2P Require Import WorkerSpec Retry Ingestion Operator Schema History Reconcile SyncJob.
From S2P Require Import ReconcileSpec.
Local Open Scope string_scope.

(** One divergence: its kind, the provider id, the canonical record if there is
    one, and the provider's fields. *)
Record Report := mkReport {
  rp_Kind : string; rp_ProviderID : string; rp_Canonical : option CanonicalRecord;
  rp_Fields : Fields;
}.

Section spec.
Context `{Transport} (job : SyncJob) (run : ReconciliationRun) (a : Adapter).

(** What the record [rec] diverges in, against the canonical table [cs]. *)
Definition record_report (cs : list CanonicalRecord) (rec : ProviderRecord) : option Report :=
  if rec_Deleted rec then None
  else match ad_Validate a rec with
       | Some _ => None
       | None =>
           let c := select_one (provider_key (sj_TenantID job) (ad_CanonicalEntityType a)
                                  (rr_Source run) (rec_ID rec)) cs in
           let pf := cust_Fields (set_TenantID (sj_TenantID job) (ad_Normalize a rec)) in
           let k := classify c pf in
           if k =s "" then None else Some (mkReport k (rec_ID rec) c pf)
       end.

(** The records that are there, and their provider ids. *)
Definition live (recs : list ProviderRecord) : list ProviderRecord :=
  filter (fun r => rec_Deleted r = false) recs.
Definition seen_ids (recs : list ProviderRecord) : gset string := list_to_set (rec_ID <$> live recs).

(** Whether the canonical record [c] is absent from the provider. *)
Definition missing_report (seen : gset string) (c : CanonicalRecord) : option Report :=
  let pid := default "" (cr_ProviderIDs c !! rr_Source run) in
  if cr_Tombstone c || (pid =s "") || bool_decide (pid ∈ seen) then None
  else Some (mkReport FindingMissing pid (Some c) (cr_Fields c)).

Definition of_source (c : CanonicalRecord) : bool :=
  (cr_TenantID c =s sj_TenantID job) && (cr_EntityType c =s ad_CanonicalEntityType a) &&
  bool_decide (is_Some (cr_ProviderIDs c !! rr_Source run)).

(** Everything a sweep over [recs] has to report. *)
Definition due_reports (cs : list CanonicalRecord) (recs : list ProviderRecord) : list Report :=
  omap (record_report cs) recs ++
  omap (missing_report (seen_ids recs)) (select_where of_source cs).

(** [f] is the pending finding for [x], with the fields both sides had. *)
Definition reports (x : Report) (f : ReconciliationFinding) : Prop :=
  rf_RunID f = rr_ID run /\ rf_TenantID f = sj_TenantID job /\ rf_Kind f = rp_Kind x /\
  rf_ProviderID f = rp_ProviderID x /\ rf_ProviderFields f = rp_Fields x /\
  rf_CanonicalID f = match rp_Canonical x with Some c => cr_EntityID c | None => "" end /\
  rf_CanonicalFields f = match rp_Canonical x with Some c => cr_Fields c | None => ∅ end /\
  rf_Direction f = reconcileDirection (rp_Kind x) /\ rf_Status f = FindingPending.

(** The findings of the run have one for [x]. *)
Definition found (x : Report) (fs : list ReconciliationFinding) : Prop :=
  exists f, f ∈ fs /\ rf_RunID f = rr_ID run /\ rf_Kind f = rp_Kind x /\
    rf_ProviderID f = rp_ProviderID x.

(** From [d] to [d'] exactly the reports [xs] were recorded. *)
Record Reported (xs : list Report) (d d' : DB) : Prop := mkReported {
  rep_canonical : canonical_records d' = canonical_records d;
  rep_kept : reconciliation_findings d `prefix_of` reconciliation_findings d';
  rep_once : Unique finding_columns (reconciliation_findings d) ->
    Unique finding_columns (reconciliation_findings d');
  rep_complete : forall x, x ∈ xs -> found x (reconciliation_findings d');
  rep_sound : forall f, f ∈ reconciliation_findings d' ->
    f ∈ reconciliation_findings d \/ exists x, x ∈ xs /\ reports x f;
}.

Lemma Reported_nil d d' :
  canonical_records d' = canonical_records d ->
  reconciliation_findings d' = reconciliation_findings d -> Reported [] d d'.
Proof.
  intros Hc Hf. split; rewrite ?Hf; [done|done|done|by intros x ?%elem_of_nil|]. by left.
Qed.

Lemma Reported_app xs ys d1 d2 d3 :
  Reported xs d1 d2 -> Reported ys d2 d3 -> Reported (xs ++ ys) d1 d3.
Proof.
  intros [C1 K1 O1 P1 S1] [C2 K2 O2 P2 S2]. split; [congruence|by etrans|auto| |].
  - intros x [Hx|Hx]%elem_of_app; [|auto]. destruct (P1 x Hx) as (f & Hin & Hf).
    exists f. split; [by eapply elem_of_prefix|done].
  - intros f [[Hf|(x & Hx & Hf)]%S1|(x & Hx & Hf)]%S2; [by left| |];
      right; exists x; (split; [apply elem_of_app; auto|done]).
Qed.

(** The findings of the run are of the run's tenant. *)
Definition OwnFindings (d : DB) : Prop :=
  forall f, f ∈ reconciliation_findings d -> rf_RunID f = rr_ID run -> rf_TenantID f = sj_TenantID job.

Lemma Reported_own xs d d' : Reported xs d d' -> OwnFindings d -> OwnFindings d'.
Proof. intros [_ _ _ _ S] Ho f [Hf|(x & _ & Hx)]%S Hr; [by apply Ho|]. by destruct Hx as (_ & -> & _). Qed.

(** What a table with its unique columns holds for a key it has. *)
Lemma Reported_unique x fs :
  Unique finding_columns fs -> found x fs ->
  exists f, select_where (finding_key (rr_ID run) (rp_Kind x) (rp_ProviderID x)) fs = [f].
Proof.
  intros Hu (f & Hin & Hr & Hk & Hp). exists f. unfold Unique, select_where in *.
  induction fs as [|g fs IH]; [by apply elem_of_nil in Hin|]. simpl in *.
  apply NoDup_cons in Hu as [Hg Hu]. apply elem_of_cons in Hin as [<-|Hin].
  - unfold finding_key at 1. rewrite Hr, Hk, Hp, !seqb_refl. simpl. f_equal.
    apply elem_of_nil_inv. intros h [Hh Hkey]%list_elem_of_In%filter_In. apply list_elem_of_In in Hh.
    apply Hg. apply list_elem_of_fmap. exists h. split; [|done]. unfold finding_key in Hkey. seqb_simpl.
    unfold finding_columns. congruence.
  - destruct (finding_key _ _ _ g) eqn:Ek; [|by apply IH]. destruct Hg. apply list_elem_of_fmap.
    exists f. split; [|done]. unfold finding_key in Ek. seqb_simpl. unfold finding_columns. congruence.
Qed.

(** What is between two transactions of the sweep. *)
Lemma Reported_then xs d1 d2 d3 :
  Reported xs d1 d2 -> canonical_records d3 = canonical_records d2 ->
  reconciliation_findings d3 = reconciliation_findings d2 -> Reported xs d1 d3.
Proof. intros H1 Hc Hf. rewrite <- (app_nil_r xs). by eapply Reported_app, Reported_nil. Qed.

(** Those of the live records the adapter refuses. *)
Definition invalid (recs : list ProviderRecord) : list ProviderRecord :=
  filter (fun r => is_Some (ad_Validate a r)) (live recs).

(** What the walk counts over one record, and over several. *)
Definition tally_record (w : Sweep) (rec : ProviderRecord) : Sweep :=
  if rec_Deleted rec then w
  else match ad_Validate a rec with
       | Some _ => count_failed (count_seen (rec_ID rec) w)
       | None => count_processed (count_seen (rec_ID rec) w)
       end.
Definition tallied (recs : list ProviderRecord) (w : Sweep) : Sweep := foldl tally_record w recs.

Lemma wrap64_succ x n : wrap64 (wrap64 (x + 1) + Z.of_nat n) = wrap64 (x + Z.of_nat (S n)).
Proof.
  unfold wrap64. rewrite Nat2Z.inj_succ. f_equal.
  replace ((x + 1 + 2 ^ 63) `mod` 2 ^ 64 - 2 ^ 63 + Z.of_nat n + 2 ^ 63)%Z
    with ((x + 1 + 2 ^ 63) `mod` 2 ^ 64 + Z.of_nat n)%Z by lia.
  rewrite Zplus_mod_idemp_l. f_equal. lia.
Qed.

Lemma tallied_counts recs w :
  in_int64 (sw_processed w) = true -> in_int64 (sw_failed w) = true -> in_int64 (sw_total w) = true ->
  let w' := tallied recs w in
  sw_total w' = wrap64 (sw_total w + Z.of_nat (length (live recs))) /\
  sw_failed w' = wrap64 (sw_failed w + Z.of_nat (length (invalid recs))) /\
  sw_processed w' = wrap64 (sw_processed w + Z.of_nat (length (live recs) - length (invalid recs))) /\
  sw_seen w' = list_to_set (rec_ID <$> live recs) ∪ sw_seen w.
Proof.
  revert w. induction recs as [|rec recs IH]; intros w Hp Hf Ht; cbv zeta.
  { simpl. rewrite !Z.add_0_r, !wrap64_id by done. by rewrite (left_id_L ∅ (∪)). }
  change (tallied (rec :: recs) w) with (tallied recs (tally_record w rec)).
  unfold invalid, live, tally_record in *. rewrite filter_cons.
  destruct (rec_Deleted rec); simpl; [by apply IH|].
  rewrite (filter_cons (fun r => is_Some (ad_Validate a r))).
  pose proof (length_filter (fun r => is_Some (ad_Validate a r))
    (filter (fun r => rec_Deleted r = false) recs)) as Hle.
  destruct (ad_Validate a rec) eqn:Ev; [rewrite decide_True by done|rewrite decide_False by (by intros [])];
    (edestruct IH as (-> & -> & -> & ->); [simpl; auto using wrap64_in..|]); simpl.
  - rewrite !wrap64_succ. split_and!; [done|done|do 2 f_equal; lia|].
    by rewrite (assoc_L (∪)), (comm_L (∪) _ {[_]}).
  - rewrite !wrap64_succ. split_and!; [done|done|do 2 f_equal; lia|].
    by rewrite (assoc_L (∪)), (comm_L (∪) _ {[_]}).
Qed.
End spec.

(** ** The walk *)

Section walk.
Context `{Transport} (job : SyncJob) (run : ReconciliationRun) (a : Adapter) (dp : string).
Context (Hmode : rr_Mode run <> "auto").
Let et := ad_CanonicalEntityType a.
Let Rep := Reported job run.

(** With no fault a report is recorded, or is on record already; and the jobs are
    left alone. *)
Lemma record_reported k rec c pf s :
  st_faults s = [] -> OwnFindings job run (st_db s) ->
  exists f s', record run job et k rec c pf dp s = (Ok f, s') /\ st_faults s' = [] /\
    sync_jobs (st_db s') = sync_jobs (st_db s) /\
    Rep [mkReport k (rec_ID rec) c pf] (st_db s) (st_db s').
Proof using Hmode.
  intros Hf Ho. unfold record. rewrite (seqb_ne _ _ Hmode). cbn [andb].
  unfold InsertReconciliationFinding.
  match goal with |- context [tx ?b] => destruct (calm_tx b s Hf) as (s1 & E & _ & Hf1 & Hd) end.
  unfold mbind at 1, M_bind at 1. rewrite E. cbv zeta in Hd |- *. unfold insert_new in *.
  destruct (existsb _ _) eqn:Ex; cbn [fst snd] in *.
  - pose proof Ex as (f & Hin & Hk)%existsb_exists. apply list_elem_of_In in Hin.
    assert (found run (mkReport k (rec_ID rec) c pf) (reconciliation_findings (st_db s))) as Hfound.
    { exists f. unfold finding_key in Hk. simpl in Hk. by seqb_simpl. }
    match goal with |- context [found_or ?o] => destruct o as [g|] eqn:Eg end.
    + cbn in Hd |- *. eexists g, _. split; [reflexivity|]. unfold add_metric. simpl. rewrite Hd.
      do 2 (split; [done|]). split; [done..| |by left]. by intros x ->%list_elem_of_singleton.
    + exfalso. apply (select_one_None _ _ f) in Eg; [|done]. simpl in Eg, Hk. rewrite Hk in Eg.
      unfold finding_key in Hk. seqb_simpl. by rewrite (Ho f Hin), seqb_refl in Eg.
  - eexists _, _. split; [reflexivity|]. split; [done|]. unfold add_metric. simpl. rewrite Hd. simpl.
    split; [done|]. split; [done|by apply prefix_app_r| | |].
    + intros Hu. eapply Unique_snoc; [|exact Ex|done]. intros x [= E1 E2 E3]. unfold finding_key. simpl in *.
      by rewrite E1, E2, E3, !seqb_refl.
    + intros x ->%list_elem_of_singleton.
      eexists. split; [apply elem_of_app; right; by apply list_elem_of_singleton|]. done.
    + intros f [Hin|Hin]%elem_of_app; [by left|right]. apply list_elem_of_singleton in Hin as ->.
      eexists. split; [by apply list_elem_of_singleton|]. by repeat split.
Qed.

Lemma sweep_record_reports rec w s :
  st_faults s = [] -> OwnFindings job run (st_db s) ->
  exists s', sweep_record job run a et dp rec w s = (Ok (tally_record a w rec), s') /\ st_faults s' = [] /\
    Rep (option_list (record_report job run a (canonical_records (st_db s)) rec)) (st_db s) (st_db s').
Proof using Hmode.
  intros Hf Ho. unfold sweep_record, tally_record, record_report.
  destruct (rec_Deleted rec); [exists s; do 2 (split; [done|]); by apply Reported_nil|].
  destruct (ad_Validate a rec); [exists s; do 2 (split; [done|]); by apply Reported_nil|].
  cbv zeta. rewrite bind_attempt. unfold GetCanonicalByProvider.
  edestruct (calm_query (A:=CanonicalRecord)) as (s1 & -> & Hd1 & _ & Hf1); [exact Hf|]. cbn [fst snd].
  fold et. set (c := select_one _ (canonical_records (st_db s))).
  assert (Hm : (match found_or c with
                | Ok c => Ok (Some c) | Err ErrNotFound => Ok None | Err e => Err e end)
               = Ok c) by (by destruct c). rewrite Hm. clear Hm.
  set (pf := cust_Fields _). destruct (classify c pf =s "").
  { exists s1. rewrite Hd1. do 2 (split; [done|]). by apply Reported_nil. }
  rewrite bind_attempt.
  destruct (record_reported (classify c pf) rec c pf s1 Hf1) as (f & s2 & -> & Hf2 & _ & Hr); [by rewrite Hd1|].
  rewrite Hd1 in Hr. cbn [fst snd]. by exists s2.
Qed.

(** The canonical table is not touched by a manual walk, so the reports due are
    those of the table it started from. *)
Lemma sweep_records_report recs w s :
  st_faults s = [] -> OwnFindings job run (st_db s) ->
  exists s', sweep_records job run a et dp recs w s = (Ok (tallied a recs w), s') /\ st_faults s' = [] /\
    Rep (omap (record_report job run a (canonical_records (st_db s))) recs) (st_db s) (st_db s').
Proof using Hmode.
  revert w s. induction recs as [|rec recs IH]; intros w s Hf Ho; simpl.
  { exists s. do 2 (split; [done|]). by apply Reported_nil. }
  destruct (sweep_record_reports rec w s Hf Ho) as (s1 & E1 & Hf1 & R1).
  destruct (IH (tally_record a w rec) s1 Hf1) as (s2 & E2 & Hf2 & R2); [by eapply Reported_own|].
  exists s2. unfold mbind, M_bind. rewrite E1. do 2 (split; [done|]).
  rewrite (rep_canonical _ _ _ _ _ R1) in R2. pose proof (Reported_app _ _ _ _ _ _ _ R1 R2) as R3.
  by destruct (record_report _ _ _ _ rec).
Qed.

Lemma sweep_missing_reports seen cs s :
  st_faults s = [] -> OwnFindings job run (st_db s) ->
  exists s', sweep_missing job run et dp seen cs s = (Ok tt, s') /\ st_faults s' = [] /\
    sync_jobs (st_db s') = sync_jobs (st_db s) /\
    Rep (omap (missing_report run seen) cs) (st_db s) (st_db s').
Proof using Hmode.
  revert s. induction cs as [|c cs IH]; intros s Hf Ho; simpl.
  { exists s. do 3 (split; [done|]). by apply Reported_nil. }
  unfold missing_report at 1. destruct (cr_Tombstone c || _ || _).
  { destruct (IH s Hf Ho) as (s' & E & Hs'). exists s'. by unfold mbind, M_bind. }
  unfold ignore, mbind, M_bind.
  match goal with |- context [record _ _ _ _ ?rec _ _ _ s] =>
    destruct (record_reported FindingMissing rec (Some c) (cr_Fields c) s Hf Ho)
      as (r & s1 & -> & Hf1 & Hj1 & R1) end.
  destruct (IH s1 Hf1) as (s2 & E2 & Hf2 & Hj2 & R2); [by eapply Reported_own|].
  exists s2. do 2 (split; [done|]). split; [congruence|]. exact (Reported_app _ _ _ _ _ _ _ R1 R2).
Qed.

(** ** The pages *)

(** While the world is as [I] says, the provider answers the page [pages cur] at
    the cursor [cur], and the world stays so. *)
Definition Serves (I : World -> Prop) (pages : string -> Page) : Prop :=
  forall cur s, I (st_world s) -> st_faults s = [] ->
    exists s', ad_List a (mkListOptions cur (sj_BatchSize job) time_zero) s = (Ok (pages cur), s') /\
      st_db s' = st_db s /\ st_faults s' = [] /\ I (st_world s').

(** The bookkeeping of a sweep does not touch the world. *)
Definition SameProviders (s s' : St) : Prop := st_world s' = st_world s.
#[local] Instance SameProviders_preorder : PreOrder SameProviders.
Proof. split; unfold SameProviders; [done|]. intros s1 s2 s3. congruence. Qed.

Lemma SameProviders_tx {A} (body : Z -> nat -> DB -> Res A * DB) : Pres SameProviders (tx body).
Proof.
  intros s. unfold SameProviders, tx.
  destruct (head (st_faults s)) as [[]|]; simpl; try done; by destruct (body _ _ _) as [[]].
Qed.
Lemma SameProviders_metric n : Pres SameProviders (metric n).
Proof. by intros s. Qed.
Hint Resolve SameProviders_metric : pres.
Hint Extern 3 (Pres SameProviders _) => apply SameProviders_tx : pres.

Lemma sweep_records_providers recs w : Pres SameProviders (sweep_records job run a et dp recs w).
Proof using Hmode.
  revert w. induction recs as [|rec recs IH]; intros w; simpl; [pres|].
  unfold sweep_record, record, reconcile_abort. rewrite (seqb_ne _ _ Hmode). cbn [andb]. pres.
Qed.

Definition last_page (p : Page) : bool :=
  negb (pg_HasMore p) || ((if pg_HasMore p then pg_NextCursor p else "") =s "").

(** From [cur] the cursors lead through [n] pages with the records [recs]. *)
Inductive Chain (pages : string -> Page) : string -> list ProviderRecord -> nat -> Prop :=
| Chain_last cur : last_page (pages cur) = true -> Chain pages cur (pg_Records (pages cur)) 1
| Chain_next cur recs n :
    last_page (pages cur) = false -> Chain pages (pg_NextCursor (pages cur)) recs n ->
    Chain pages cur (pg_Records (pages cur) ++ recs) (S n).

(** The job's row shows the counters of [w], and no cursor. *)
Definition progress (w : Sweep) (d : DB) : Prop :=
  forall j, j ∈ sync_jobs d -> job_key (sj_TenantID job) (sj_ID job) j = true ->
    sj_Cursor j = None /\ sj_Processed j = sw_processed w /\ sj_Failed j = sw_failed w /\
    sj_Total j = sw_total w.

Lemma last_cursor p : last_page p = true -> (if pg_HasMore p then pg_NextCursor p else "") = "".
Proof. unfold last_page. destruct (pg_HasMore p); simpl; [intros E; by seqb_simpl|done]. Qed.

Lemma sweep_pages_report I pages cur recs n fuel w s :
  Serves I pages -> Chain pages cur recs n -> n <= fuel -> I (st_world s) -> st_faults s = [] ->
  OwnFindings job run (st_db s) ->
  exists s', sweep_pages job run a et dp fuel cur w s = (Ok (Some (tallied a recs w)), s') /\
    st_faults s' = [] /\ progress (tallied a recs w) (st_db s') /\
    Rep (omap (record_report job run a (canonical_records (st_db s))) recs) (st_db s) (st_db s').
Proof using Hmode.
  intros Hs Hc. revert fuel w s. induction Hc as [cur Hl|cur recs n Hl Hc IH];
    intros [|fuel] w s Hn Hi Hf Ho; try lia; simpl; unfold or_abort; rewrite bind_attempt;
    destruct (Hs cur s Hi Hf) as (s1 & -> & Hd1 & Hf1 & Hi1); cbn [fst snd];
    pose proof (sweep_records_providers (pg_Records (pages cur)) w s1) as Hsame;
    (destruct (sweep_records_report (pg_Records (pages cur)) w s1 Hf1) as (s2 & E2 & Hf2 & R2);
      [by rewrite Hd1|]);
    unfold mbind at 1, M_bind at 1; rewrite E2, bind_attempt; rewrite Hd1 in R2;
    unfold UpdateSyncJobProgress; match goal with |- context [tx ?b s2] =>
      destruct (calm_tx b s2 Hf2) as (s3 & -> & (_ & _ & Hw3 & _) & Hf3 & Hd3) end; cbn [fst snd] in *;
    fold (last_page (pages cur)); rewrite Hl.
  - exists s3. do 2 (split; [done|]). split; [|eapply Reported_then; [exact R2|by rewrite Hd3..]].
    rewrite Hd3. intros j (j0 & _ & ->)%elem_of_update_where Hk.
    destruct (job_key _ _ j0) eqn:Ek; [|congruence]. simpl. by rewrite (last_cursor _ Hl).
  - assert (Rep (omap (record_report job run a (canonical_records (st_db s))) (pg_Records (pages cur)))
              (st_db s) (st_db s3)) as R3 by (eapply Reported_then; [exact R2|by rewrite Hd3..]).
    assert (pg_HasMore (pages cur) = true) as Hmore
      by (unfold last_page in Hl; by destruct (pg_HasMore _)).
    rewrite Hmore. destruct (IH fuel (tallied a (pg_Records (pages cur)) w) s3) as (s4 & -> & Hf4 & Hp4 & R4);
      [lia|rewrite E2 in Hsame; unfold SameProviders in Hsame; simpl in Hsame; by rewrite Hw3, Hsame|done
      |by eapply Reported_own|].
    exists s4. unfold tallied in *. rewrite foldl_app. do 3 (split; [done|]).
    rewrite omap_app. rewrite (rep_canonical _ _ _ _ _ R3) in R4. by eapply Reported_app.
Qed.

(** ** The end of the run *)

(** Run and job are marked completed; the run's counters are the live records
    read and the findings by kind, and those of the job the live records that
    were compared, those the adapter refused, and both. *)
Record Closed (recs : list ProviderRecord) (d : DB) : Prop := mkClosed {
  closed_run : forall r, r ∈ reconciliation_runs d -> rr_ID r = rr_ID run ->
    rr_Status r = ReconcileComplete /\ rr_Error r = None /\
    rr_Total r = wrap64 (Z.of_nat (length (live recs))) /\
    rr_Drift r = count_findings (sj_TenantID job) (rr_ID run) (fun k => k =s FindingDrift) d /\
    rr_Missed r = count_findings (sj_TenantID job) (rr_ID run)
                    (fun k => (k =s FindingMissed) || (k =s FindingMissing)) d /\
    rr_Deleted r = count_findings (sj_TenantID job) (rr_ID run) (fun k => k =s FindingDeleted) d;
  closed_job : forall j, j ∈ sync_jobs d -> job_key (sj_TenantID job) (sj_ID job) j = true ->
    sj_Status j = "completed" /\ sj_LastError j = None /\ sj_Cursor j = None /\
    sj_Processed j = wrap64 (Z.of_nat (length (live recs) - length (invalid a recs))) /\
    sj_Failed j = wrap64 (Z.of_nat (length (invalid a recs))) /\
    sj_Total j = wrap64 (Z.of_nat (length (live recs)));
}.

Lemma sweep_finish_reports recs s :
  let w := tallied a recs (mkSweep 0 0 0 ∅) in
  st_faults s = [] -> OwnFindings job run (st_db s) -> progress w (st_db s) ->
  exists s', sweep_finish job run et dp w s = (Ok tt, s') /\ Closed recs (st_db s') /\
    Rep (omap (missing_report run (seen_ids recs))
           (select_where (of_source job run a) (canonical_records (st_db s)))) (st_db s) (st_db s').
Proof using Hmode.
  intros w Hf Ho Hp. destruct (tallied_counts a recs (mkSweep 0 0 0 ∅)) as (Wt & Wf & Wp & Ws); [done..|].
  fold w in Wt, Wf, Wp, Ws. simpl in Wt, Wf, Wp, Ws. rewrite (right_id_L ∅ (∪)) in Ws.
  rewrite Z.add_0_l in Wt, Wf, Wp. fold (seen_ids recs) in Ws. clearbody w. unfold progress in Hp. rewrite Wp, Wf, Wt in Hp.
  unfold sweep_finish, or_abort. rewrite bind_attempt. unfold ListCanonicalByProvider.
  edestruct (calm_query (A:=list CanonicalRecord)) as (s1 & -> & Hd1 & _ & Hf1); [exact Hf|].
  cbn [fst snd]. rewrite Ws, Wt.
  destruct (sweep_missing_reports (seen_ids recs)
    (select_where (of_source job run a) (canonical_records (st_db s))) s1 Hf1)
    as (s2 & E2 & Hf2 & Hj2 & R2); [by rewrite Hd1|].
  unfold mbind at 1, M_bind at 1.
  match goal with |- context [sweep_missing _ _ _ _ _ ?l s1] =>
    change l with (select_where (of_source job run a) (canonical_records (st_db s))) end.
  rewrite E2, bind_attempt.
  unfold CountReconciliationFindings.
  edestruct (calm_query (A:=Z * Z * Z)) as (s3 & -> & Hd3 & _ & Hf3); [exact Hf2|]. cbn [fst snd].
  rewrite bind_attempt. unfold UpdateReconciliationCounters.
  edestruct (calm_tx (A:=unit)) as (s4 & -> & _ & Hf4 & Hd4); [exact Hf3|]. cbn [fst snd].
  rewrite bind_attempt. unfold FinishReconciliationRun.
  edestruct (calm_tx (A:=unit)) as (s5 & -> & _ & Hf5 & Hd5); [exact Hf4|]. cbn [fst snd].
  rewrite bind_metric. unfold FinishSyncJob.
  edestruct (calm_tx (A:=unit)) as (s6 & -> & _ & Hf6 & Hd6); [exact Hf5|]. cbn [fst snd].
  exists s6. split; [done|]. rewrite Hd3 in Hd4. simpl in Hd4, Hd5, Hd6.
  assert (reconciliation_findings (st_db s6) = reconciliation_findings (st_db s2)) as Hfd
    by (by rewrite Hd6; simpl; rewrite Hd5; simpl; rewrite Hd4).
  split.
  - split.
    + intros r Hr Hid. unfold count_findings. rewrite Hfd. rewrite Hd6 in Hr. simpl in Hr. rewrite Hd5 in Hr. simpl in Hr. rewrite Hd4 in Hr. simpl in Hr.
      apply elem_of_update_where in Hr as (r1 & Hr1 & ->).
      apply elem_of_update_where in Hr1 as (r2 & Hr2 & ->).
      destruct (rr_ID r2 =s rr_ID run) eqn:Ei; simpl in *; rewrite Ei in *; simpl in *; [done|].
      by rewrite Hid, seqb_refl in Ei.
    + intros j Hj Hk. rewrite Hd6 in Hj. simpl in Hj. rewrite Hd5 in Hj. simpl in Hj. rewrite Hd4 in Hj. simpl in Hj.
      rewrite Hj2, Hd1 in Hj. apply elem_of_update_where in Hj as (j1 & Hj1 & ->).
      destruct (job_key _ _ j1) eqn:Ej; [|congruence]. simpl. do 2 (split; [done|]). by apply (Hp j1).
  - eapply Reported_then; [rewrite Hd1 in R2; exact R2|
      by rewrite Hd6; simpl; rewrite Hd5; simpl; rewrite Hd4|done].
Qed.
End walk.

(** Cursors that decrease some rank lead to a last page. *)
Lemma Chain_ranked pages (rank : string -> nat) cur :
  (forall c, last_page (pages c) = false -> rank (pg_NextCursor (pages c)) < rank c) ->
  exists recs n, Chain pages cur recs n /\ n <= S (rank cur).
Proof.
  intros Hr. remember (rank cur) as k eqn:Hk. revert cur Hk.
  induction k as [k IH] using lt_wf_ind. intros cur ->.
  destruct (last_page (pages cur)) eqn:E; [exists (pg_Records (pages cur)), 1; split; [by constructor|lia]|].
  specialize (Hr cur E). destruct (IH _ Hr _ eq_refl) as (recs & n & Hc & Hn).
  eexists _, (S n). split; [by constructor 2|lia].
Qed.

(** Connecting depends on the database only. *)
Lemma calm_connect `{Transport} t p s0 s a :
  st_faults s0 = [] -> st_db s = st_db s0 -> st_faults s = [] -> (connect t p s0).1 = Ok a ->
  exists s', connect t p s = (Ok a, s') /\ st_db s' = st_db s /\ st_faults s' = [] /\
    st_world s' = st_world s.
Proof.
  intros Hf0 Hs Hf E. unfold connect, mbind, M_bind, GetConnectionByProvider in *.
  edestruct (calm_query (A:=Connection)) as (s0' & E0 & _); [exact Hf0|]. rewrite E0 in E. clear E0.
  edestruct (calm_query (A:=Connection)) as (s1 & E1 & Hd & (_ & _ & Hw1 & _) & Hf1); [exact Hf|].
  rewrite E1, Hs. destruct (found_or _) as [c|e]; [|done].
  unfold adapterFor, ret_res in *. destruct (NewWithTimeout _ _); simplify_eq/=.
  exists s1. by rewrite Hd.
Qed.

(** A job that has not made a step yet. *)
Definition fresh_job (job : SyncJob) : Prop :=
  sj_Cursor job = None /\ sj_Processed job = 0%Z /\ sj_Failed job = 0%Z /\ sj_Total job = 0%Z.

(** The run, for whoever uses it. *)
Lemma manual_run_reports `{Transport} (job : SyncJob) (run : ReconciliationRun) (a : Adapter)
    (I : World -> Prop) (pages : string -> Page) (rank : string -> nat) (fuel : nat) (s : St) :
  st_faults s = [] -> I (st_world s) -> fresh_job job ->
  Unique finding_columns (reconciliation_findings (st_db s)) -> OwnFindings job run (st_db s) ->
  select_one (fun r => sql_eq (rr_JobID r) (sj_ID job)) (reconciliation_runs (st_db s)) = Some run ->
  rr_Status run = ReconcileRunning -> rr_Mode run <> "auto" ->
  (connect (sj_TenantID job) (rr_Source run) s).1 = Ok a ->
  Serves job a I pages ->
  (forall c, last_page (pages c) = false -> rank (pg_NextCursor (pages c)) < rank c) ->
  rank "" < fuel ->
  exists recs n s', Chain pages "" recs n /\
    reconcile_Run fuel job s = (Ok (Some tt), s') /\ Closed job run a recs (st_db s') /\
    Reported job run (due_reports job run a (canonical_records (st_db s)) recs) (st_db s) (st_db s') /\
    forall x, x ∈ due_reports job run a (canonical_records (st_db s)) recs ->
      exists f, select_where (finding_key (rr_ID run) (rp_Kind x) (rp_ProviderID x))
                  (reconciliation_findings (st_db s')) = [f].
Proof.
  intros Hf Hi (Jc & Jp & Jf & Jt) Hu Ho Hrun Hst Hmode Hconn Hserve Hrank Hfuel.
  destruct (Chain_ranked pages rank "" Hrank) as (recs & n & Hc & Hn).
  exists recs, n. unfold reconcile_Run. rewrite bind_attempt. unfold GetReconciliationRunByJobID.
  edestruct (calm_query (A:=ReconciliationRun)) as (s1 & -> & Hd1 & (_ & _ & Hw1 & _) & Hf1); [exact Hf|].
  cbn [fst snd]. rewrite Hrun. simpl. rewrite Hst. simpl. unfold run_sweep, or_abort.
  rewrite bind_attempt.
  destruct (calm_connect _ _ s s1 a Hf Hd1 Hf1 Hconn) as (s2 & -> & Hd2 & Hf2 & Hw2). cbn [fst snd].
  rewrite bind_attempt. unfold ListPolicies.
  edestruct (calm_query (A:=list SyncPolicy)) as (s3 & -> & Hd3 & (_ & _ & Hw3 & _) & Hf3); [exact Hf2|]. cbn [fst snd].
  set (dp := deletePolicyFor _ _). assert (st_db s3 = st_db s) as Hd by congruence.
  rewrite Jc, Jp, Jf, Jt. simpl.
  destruct (sweep_pages_report job run a dp Hmode I pages "" recs n fuel (mkSweep 0 0 0 ∅) s3 Hserve Hc)
    as (s4 & E4 & Hf4 & Hp4 & R4); [lia|by rewrite Hw3, Hw2, Hw1|done|by rewrite Hd|].
  unfold mbind at 1, M_bind at 1. rewrite E4.
  destruct (sweep_finish_reports job run a dp Hmode recs s4 Hf4) as (s5 & E5 & Hcl & R5);
    [eapply Reported_own; [exact R4|by rewrite Hd]|done|].
  unfold mbind, M_bind. rewrite E5. exists s5. do 3 (split; [done|]).
  rewrite Hd in R4. rewrite (rep_canonical _ _ _ _ _ R4) in R5.
  pose proof (Reported_app _ _ _ _ _ _ _ R4 R5) as R. split; [exact R|].
  intros x Hx. apply Reported_unique; [by apply (rep_once _ _ _ _ _ R)|by apply (rep_complete _ _ _ _ _ R)].
Qed.

(** C31: a fresh manual run that meets no fault ends, and reports exactly what it
    should.  Let the job be fresh (no cursor, no counts), its run still running
    and not in automatic mode, the findings table unique in its columns and its
    findings of the run of the job's tenant; and let the provider's cursors lead
    through pages of decreasing rank as long as the world is as [I] says, which
    its requests keep.  Then executing the job with fuel beyond the rank of the
    first cursor returns, marks run and job completed, with the number of live
    records and of findings by kind on the run and the numbers of live records
    compared, refused by the adapter, and both on the job; changes no canonical
    record; appends to the findings it had only pending findings for divergent
    live records ([missed], [deleted] or [drift]) and for canonical records of the
    source that the walk did not meet ([missing]), with both sides' fields; and
    for each of these there is then exactly one finding of the run with that kind
    and provider id. *)
Theorem manual_run_exact `{Transport} (job : SyncJob) (run : ReconciliationRun) (a : Adapter)
    (I : World -> Prop) (pages : string -> Page) (rank : string -> nat) (fuel : nat) (s : St) :
  st_faults s = [] -> I (st_world s) -> fresh_job job ->
  Unique finding_columns (reconciliation_findings (st_db s)) -> OwnFindings job run (st_db s) ->
  select_one (fun r => sql_eq (rr_JobID r) (sj_ID job)) (reconciliation_runs (st_db s)) = Some run ->
  rr_Status run = ReconcileRunning -> rr_Mode run <> "auto" ->
  (connect (sj_TenantID job) (rr_Source run) s).1 = Ok a ->
  Serves job a I pages ->
  (forall c, last_page (pages c) = false -> rank (pg_NextCursor (pages c)) < rank c) ->
  rank "" < fuel ->
  exists recs n s', Chain pages "" recs n /\
    reconcile_Run fuel job s = (Ok (Some tt), s') /\ Closed job run a recs (st_db s') /\
    Reported job run (due_reports job run a (canonical_records (st_db s)) recs) (st_db s) (st_db s') /\
    forall x, x ∈ due_reports job run a (canonical_records (st_db s)) recs ->
      exists f, select_where (finding_key (rr_ID run) (rp_Kind x) (rp_ProviderID x))
                  (reconciliation_findings (st_db s')) = [f].
Proof. apply manual_run_reports. Qed.

(** ** A provider of two pages *)

Definition listed (id first last email : string) : Json :=
  JObj [("id", JStr id); ("first_name", JStr first); ("last_name", JStr last);
        ("email", JStr email); ("phone", JStr "555"); ("company", JStr "Acme");
        ("version", JNum 6); ("deleted", JBool false)].

Definition first_page : Json :=
  JObj [("records", JArr [listed "sf-000001" "Ada" "Lovelace" "ada@moved.dev"]);
        ("next_cursor", JStr "c2"); ("has_more", JBool true)].
Definition second_page : Json :=
  JObj [("records", JArr [listed "sf-000002" "Alan" "Turing" "alan@acme.dev"]);
        ("next_cursor", JStr ""); ("has_more", JBool false)].

Definition listing : Transport :=
  isolated unit
    (fun w rq =>
       (w, HttpResp 200 "" "" (Some (if rq_path rq =s "/api/v1/customers?limit=50"
                                     then first_page else second_page))))
    (fun w _ _ _ => (w, true)).

Definition sweep_job : SyncJob :=
  mkSyncJob "job-1" "t1" "customer" "salesforce" "" "reconcile" "running" None 0 0 0 50
    (Some 900%Z) None None 800.
Definition manual_run : ReconciliationRun :=
  mkReconciliationRun "run-1" "t1" "customer" "salesforce" "manual" "running" (Some "job-1")
    0 0 0 0 800 None None.

(** The customer the provider no longer has. *)
Definition gone : CanonicalRecord :=
  mkCanonicalRecord "sync-3" "t1" "customer" "sf-000003"
    (list_to_map [("email", JStr "grace@acme.dev")]) 1 (list_to_map [("salesforce", 1%Z)]) ∅ false
    "salesforce" "evt-3" "" (list_to_map [("salesforce", "sf-000003")]) 0 0.

Definition swept_db : DB :=
  on_sync_jobs (fun _ => [sweep_job]) (on_reconciliation_runs (fun _ => [manual_run])
    (on_canonical_records (fun _ => [sample_canonical false; gone])
       (sample_db "last_writer_wins"))).
Definition sweep_start : @St listing := @mkSt listing swept_db tt 1000 [] [] 0 [] [] [] [].

Definition page_at (cur : string) : Page :=
  let rec j := default (mkProviderRecord "" 0 false ∅)
    (match into_map (Some j) with
     | Some raw => match Rest.toProviderRecord "id" raw with Ok r => Some r | Err _ => None end
     | None => None
     end) in
  if cur =s "" then mkPage [rec (listed "sf-000001" "Ada" "Lovelace" "ada@moved.dev")] "c2" true
  else mkPage [rec (listed "sf-000002" "Alan" "Turing" "alan@acme.dev")] "" false.

Lemma listing_serves :
  @Serves listing sweep_job (@Salesforce.adapter listing "http://sf") (fun _ => True) page_at.
Proof.
  intros cur s _ Hf.
  exists (@mkSt listing (st_db s) (st_world s) (st_now s) (st_faults s) (st_draws s) (st_seq s)
     (st_calls s ++ [mkHttpReq "GET" "http://sf"
        (Rest.list_path "/api/v1/customers" (mkListOptions cur 50 time_zero)) None])%list
     (st_published s) (st_metrics s) (st_log s)).
  split; [|done]. destruct cur as [|x cur]; vm_compute; reflexivity.
Qed.

(** The two divergent records and the absent one are found. *)
Lemma manual_run_exact_witness :
  exists s', @reconcile_Run listing 2 sweep_job sweep_start = (Ok (Some tt), s') /\
    Reported sweep_job manual_run
      [mkReport FindingDrift "sf-000001" (Some (sample_canonical false))
         (rp_Fields (default (mkReport "" "" None ∅) (record_report sweep_job manual_run
            (@Salesforce.adapter listing "http://sf") [sample_canonical false; gone]
            (default (mkProviderRecord "" 0 false ∅) (head (pg_Records (page_at "")))))));
       mkReport FindingMissed "sf-000002" None
         (rp_Fields (default (mkReport "" "" None ∅) (record_report sweep_job manual_run
            (@Salesforce.adapter listing "http://sf") [sample_canonical false; gone]
            (default (mkProviderRecord "" 0 false ∅) (head (pg_Records (page_at "c2")))))));
       mkReport FindingMissing "sf-000003" (Some gone) (cr_Fields gone)]
      swept_db (st_db s').
Proof.
  destruct (@manual_run_exact listing sweep_job manual_run (@Salesforce.adapter listing "http://sf")
    (fun _ => True) page_at (fun c => if c =s "" then 1 else 0) 2 sweep_start) as (recs & n & s' & Hc & Hr & _ & Hrep & _).
  - reflexivity.
  - exact Logic.I.
  - split; [reflexivity|]. split; [reflexivity|]. split; reflexivity.
  - apply NoDup_nil_2.
  - intros f Hin. by apply elem_of_nil in Hin.
  - reflexivity.
  - reflexivity.
  - discriminate.
  - reflexivity.
  - exact listing_serves.
  - intros c Hl. destruct (c =s "") eqn:E; unfold page_at in *; rewrite E in *; [simpl; lia|discriminate].
  - simpl. lia.
  - exists s'. split; [exact Hr|].
    inversion Hc as [c Hl|c recs' k Hl Hc']; subst; [discriminate|].
    inversion Hc' as [c Hl'|c recs'' k' Hl' Hc'']; subst; [|discriminate].
    match type of Hrep with Reported _ _ ?l _ _ => match goal with |- Reported _ _ ?l' _ _ =>
      assert (El : l = l') by (vm_compute; reflexivity); rewrite <- El; exact Hrep end end.
Defined.

Lemma manual_run_reads_witness :
  Reading sweep_tables sweep_start (@reconcile_Run listing 2 sweep_job sweep_start).2.
Proof.
  apply (@manual_run_reads listing 2 sweep_job sweep_start).
  intros run Hin _. apply list_elem_of_singleton in Hin as ->. discriminate.
Defined.

(** A sweep resumed at its second page has not seen the records of the first,
    and reports the customer it still lists there as missing. *)
Lemma resumed_sweep_missing :
  let job := mkSyncJob "job-1" "t1" "customer" "salesforce" "" "reconcile" "running" (Some "c2")
               1 0 1 50 (Some 900%Z) None None 800 in
  let s' := (@reconcile_Run listing 2 job sweep_start).2 in
  existsb (fun r => rec_ID r =s "sf-000001") (pg_Records (page_at "")) = true /\
  existsb (fun f => (rf_Kind f =s FindingMissing) && (rf_ProviderID f =s "sf-000001"))
    (reconciliation_findings (st_db s')) = true.
Proof. vm_compute. done. Qed.
