(* ===== verification/SimSweep.v ===== *)
(** * A reconciliation run over a simulated provider

    The run, the adapter, the HTTP client and the provider composed: what a
    fresh manual run reports is what the provider's store holds. *)

From S2P Require Import Prelude Json GoTime Crypto Encoding Totp JsonText Float64 Buckets SimStore.
From S2P Require Import SimWalk Events Model Tables Effects Store Schema Frame Connectors Run Adapters Worker.
From S2P Require Import Sample Ingestion Simulator SimSpec SimList Reconcile SyncJob ReconcileSpec.
From S2P Require Import SweepSpec.
Local Open Scope string_scope.

(** ** Cursors *)

(** The ids [List] goes through from a cursor. *)
Definition rest_of (st : Sim.Store) (cursor : string) : list string :=
  if cursor =s "" then Sim.ids st else default (Sim.ids st) (Sim.behind_cursor cursor (Sim.ids st)).

Lemma behind_split cursor l l' : Sim.behind_cursor cursor l = Some l' -> exists l1, l = (l1 ++ l')%list.
Proof.
  induction l as [|x l IH]; simpl; [done|]. case_match; [intros [= <-]; by exists [x]|].
  intros (l1 & ->)%IH. by exists (x :: l1).
Qed.

Lemma rest_split st cursor : exists l1, Sim.ids st = (l1 ++ rest_of st cursor)%list.
Proof.
  unfold rest_of. case_match; [by exists []|].
  destruct (Sim.behind_cursor cursor (Sim.ids st)) as [l|] eqn:E; [|by exists []].
  by apply behind_split in E.
Qed.

Lemma ids_length st : length (Sim.ids st) = size (Sim.ms_records st).
Proof. unfold Sim.ids. rewrite isort_perm, <- size_dom. done. Qed.

Lemma fill_next recs since limit l : forall n, (Sim.fill recs since limit n l).2 <> "" ->
  (Sim.fill recs since limit n l).2 ∈ l.
Proof.
  induction l as [|id l IH]; intros n; simpl; [done|].
  destruct (recs !! id) as [x|]; [|intros H; right; by apply IH].
  case_match; [intros H'; right; by apply IH|]. case_match; [intros _; by left|].
  pose proof (IH (S n)) as Hn. destruct (Sim.fill recs since limit (S n) l) as [out next]. simpl in *.
  intros H'. right. by apply Hn.
Qed.

Lemma sorted_split x l1 l2 :
  StronglySorted Sim.slt (l1 ++ l2)%list -> x ∈ l1 -> x ∈ l2 -> False.
Proof.
  induction l1 as [|y l1 IH]; intros Hs H1 H2; [by apply elem_of_nil in H1|].
  simpl in Hs. apply StronglySorted_inv in Hs as [Hs Hf]. apply elem_of_cons in H1 as [->|H1]; [|by eapply IH].
  rewrite Forall_forall in Hf. apply (Sim.slt_irrefl y), Hf, elem_of_app. by right.
Qed.

Lemma behind_app x p l : x ∉ p -> Sim.behind_cursor x (p ++ l)%list = Sim.behind_cursor x l.
Proof.
  induction p as [|y p IH]; intros Hx; [done|]. apply not_elem_of_cons in Hx as [Hy Hx]. simpl.
  rewrite seqb_ne by congruence. by apply IH.
Qed.

Lemma behind_shorter x l : x ∈ l -> exists l', Sim.behind_cursor x l = Some l' /\ length l' < length l.
Proof.
  induction l as [|y l IH]; intros Hx; [by apply elem_of_nil in Hx|]. simpl.
  destruct (y =s x) eqn:E; seqb_simpl; [by exists l; split; [done|lia]|].
  apply elem_of_cons in Hx as [->|Hx]; [done|]. destruct (IH Hx) as (l' & H1 & H2). exists l'. split; [done|lia].
Qed.

(** A cursor met in a listing leaves less to list. *)
Lemma rest_shorter st c x : x <> "" -> x ∈ rest_of st c -> length (rest_of st x) < length (rest_of st c).
Proof.
  intros Hne Hx. destruct (rest_split st c) as [p Hp]. pose proof (Sim.ids_sorted st) as Hs.
  unfold rest_of at 1. rewrite seqb_ne by done. rewrite Hp in *.
  destruct (behind_shorter x (rest_of st c) Hx) as (l' & H1 & H2).
  rewrite behind_app; [by rewrite H1|]. intros Hxp. exact (sorted_split x _ _ Hs Hxp Hx).
Qed.

Lemma List_facts prefix st (Hw : Wf prefix st) c limit :
  let r := Sim.List_ st c limit time_zero in
  (forall x, x ∈ r.1.1 -> Sim.ms_records st !! Sim.sr_ID x = Some x) /\
  r.2 = negb (r.1.2 =s "") /\ (r.1.2 <> "" -> is_Some (Sim.ms_records st !! r.1.2)).
Proof.
  cbv zeta. unfold Sim.List_. fold (rest_of st c).
  match goal with |- context [Sim.fill ?x ?y ?z 0 ?l] =>
    pose proof (fill_stored x y z l 0) as Hs; pose proof (fill_next x y z l 0) as Hn;
    destruct (Sim.fill x y z 0 l) as [o next] end.
  cbn in Hs, Hn |- *. split; [|split; [done|]].
  - intros x Hx. destruct (Hs x Hx) as [id Hid]. by rewrite (proj1 (wf_key _ _ Hw id x Hid)).
  - intros Hne. apply Sim.ids_elem. destruct (rest_split st c) as [l ->]. apply elem_of_app. right. auto.
Qed.

(** ** The pages of a run *)

Section run.
Context (source : Z -> nat -> Z) (seedRec : string -> Z -> Fields) (base : string) (spec : Simulator.Spec).
Context (a : @Adapter (sim_world source seedRec)) (Hp : Paired base spec a).
Context (p : Simulator.Process_) (sv : Simulator.Server) (Hu : Up base spec p sv).
Context (Hclean : clean (Simulator.pr_prefix p) = true) (limit : Z).
Local Abbreviation st := (Simulator.sv_Store sv).
Local Abbreviation recs := (Sim.ms_records st).
Local Abbreviation query c := (Simulator.ParseQuery (list_query c limit)).

Lemma id_clean id : is_Some (recs !! id) -> clean id = true /\ id <> "".
Proof using Hu Hclean.
  intros Hid. split; [|by eapply Wf_nonempty; [apply Hu|]]. destruct Hid as [r Hr].
  destruct (wf_key _ _ (up_wf _ _ _ _ Hu) id r Hr) as (_ & n & _ & ->). by apply clean_id.
Qed.

(** What is left to list at a cursor, as the provider reads it. *)
Definition left_at (c : string) : nat := length (rest_of st (Simulator.query_get (query c) "cursor")).

Lemma page_next c : pg_NextCursor (sim_page spec sv limit c) <> "" ->
  pg_NextCursor (sim_page spec sv limit c) ∈ rest_of st (Simulator.query_get (query c) "cursor").
Proof.
  unfold sim_page, Simulator.list_result, Sim.List_. fold (rest_of st (Simulator.query_get (query c) "cursor")).
  match goal with |- context [Sim.fill ?x ?y ?z 0 ?l] => pose proof (fill_next x y z l 0) as Hn;
    destruct (Sim.fill x y z 0 l) as [out next] end. exact Hn.
Qed.

Context (Hlim : (0 <= limit)%Z) (Hint : in_int64 limit = true).

(** The query of a clean cursor asks for what it says. *)
Lemma query_read c : c = "" \/ clean c = true ->
  Simulator.list_result (query c) sv = Sim.List_ st c limit time_zero /\
  Simulator.query_get (query c) "cursor" = c.
Proof using Hlim Hint.
  intros Hc. destruct (scan_int_pretty limit 100 Hlim Hint) as (Hs & Hk & Hne).
  assert (Hq : query c = ("limit", pretty limit) :: (if c =s "" then [] else [("cursor", c)])).
  { unfold Simulator.ParseQuery, list_query. destruct (clean_free _ Hk) as (Hf & _).
    assert (Hf' : free "&" ("limit=" +:+ pretty limit)) by (apply free_app; [free_literal|done]).
    pose proof (parse_pair_clean "limit" (pretty limit) eq_refl ltac:(done) Hk) as HL.
    change ("limit" +:+ "=" +:+ pretty limit) with ("limit=" +:+ pretty limit) in HL.
    destruct (c =s "") eqn:E; seqb_simpl.
    - rewrite str_app_nil_r, split_last by done. simpl. by rewrite HL.
    - destruct Hc as [?|Hc]; [done|]. rewrite <- str_app_assoc.
      change ("&cursor=" +:+ c) with (String "&" ("cursor=" +:+ c)). rewrite split_first by done.
      rewrite split_last by (apply free_app; [free_literal|by apply clean_free]).
      pose proof (parse_pair_clean "cursor" c eq_refl ltac:(done) Hc) as HC.
      change ("cursor" +:+ "=" +:+ c) with ("cursor=" +:+ c) in HC. simpl. by rewrite HL, HC. }
  unfold Simulator.list_result. rewrite Hq. unfold Simulator.query_get.
  destruct (c =s "") eqn:E; seqb_simpl; simpl; rewrite (seqb_ne (pretty limit)) by exact Hne; rewrite Hs; by subst.
Qed.

Lemma left_decreases c : last_page (sim_page spec sv limit c) = false ->
  left_at (pg_NextCursor (sim_page spec sv limit c)) < left_at c.
Proof using Hu Hclean Hlim Hint.
  set (x := pg_NextCursor (sim_page spec sv limit c)). intros Hl.
  assert (Hn : x <> "").
  { unfold last_page in Hl. destruct (pg_HasMore _); [|done]. cbn [negb orb] in Hl. by apply seqb_false in Hl. }
  pose proof (page_next c Hn) as Hin. fold x in Hin.
  assert (Hx : is_Some (recs !! x)).
  { apply Sim.ids_elem. destruct (rest_split st (Simulator.query_get (query c) "cursor")) as [l ->].
    apply elem_of_app. by right. }
  destruct (id_clean x Hx) as [Hxc _]. unfold left_at.
  rewrite (proj2 (query_read x (or_intror Hxc))). by apply rest_shorter.
Qed.

(** The pages a run reads are a walk. *)
Lemma chain_walk c out n :
  Chain (sim_page spec sv limit) c out n -> c = "" \/ is_Some (recs !! c) ->
  exists outs, out = read_record spec sv <$> outs /\ walk (Simulator.pr_prefix p) limit st c outs /\
    forall r, r ∈ outs -> recs !! Sim.sr_ID r = Some r.
Proof using Hu Hclean Hlim Hint.
  induction 1 as [c Hl|c out n Hl Hc IH]; intros Hcur;
    (assert (Hcc : c = "" \/ clean c = true) by (destruct Hcur as [?|?]; [by left|right; by apply id_clean]));
    destruct (query_read c Hcc) as [Hq _]; destruct (List_facts _ _ (up_wf _ _ _ _ Hu) c limit) as (Hs & Hm & Hn);
    unfold last_page, sim_page in *; rewrite Hq in *;
    destruct (Sim.List_ st c limit time_zero) as [[o next] more] eqn:E; cbn in Hl, Hs, Hm, Hn |- *;
    subst more; destruct (next =s "") eqn:En; cbn [negb orb] in Hl; try congruence; seqb_simpl; try done.
  - subst next. exists o. split; [done|]. split; [by apply walk_last|done].
  - cbn in IH. destruct IH as (outs & -> & Hw & Ho); [by right; apply Hn|].
    exists (o ++ outs)%list. split; [by rewrite fmap_app|]. split; [by eapply walk_more; [exact E| |exact Hw]|].
    intros r [Hr|Hr]%elem_of_app; auto.
Qed.
End run.

(** C9: a fresh manual run over a simulated provider compares exactly what the
    provider's store holds.  The simulator serves the provider with no injected
    faults and no rate limit in force ([Up]), under an id prefix that needs no
    escaping; the database has no faults, its findings are unique in their columns
    and those of the run are of the tenant; the job is fresh, its run still running
    and not in automatic mode; the page size is a non-negative 64-bit number and
    the fuel exceeds the size of the store.  Then the run ends; the records it
    reads are the store's, in strictly increasing order of their ids, deleted ones
    included, each shown as stored; run and job are closed with their counters,
    and of the findings of the run exactly one is there for each report due for
    those records, whatever the page size. *)
Theorem simulated_run_exact (source : Z -> nat -> Z) (seedRec : string -> Z -> Fields) (base : string)
    (spec : Simulator.Spec) (a : @Adapter (sim_world source seedRec)) (sv : Simulator.Server)
    (job : SyncJob) (run : ReconciliationRun) (fuel : nat) (s : @St (sim_world source seedRec)) :
  Paired base spec a -> Up base spec (st_world s) sv -> clean (Simulator.pr_prefix (st_world s)) = true ->
  st_faults s = [] -> fresh_job job ->
  Unique finding_columns (reconciliation_findings (st_db s)) -> OwnFindings job run (st_db s) ->
  select_one (fun r => sql_eq (rr_JobID r) (sj_ID job)) (reconciliation_runs (st_db s)) = Some run ->
  rr_Status run = ReconcileRunning -> rr_Mode run <> "auto" ->
  (connect (sj_TenantID job) (rr_Source run) s).1 = Ok a ->
  (0 <= sj_BatchSize job)%Z -> in_int64 (sj_BatchSize job) = true ->
  size (Sim.ms_records (Simulator.sv_Store sv)) < fuel ->
  exists recs s', reconcile_Run fuel job s = (Ok (Some tt), s') /\ Closed job run a recs (st_db s') /\
    Reported job run (due_reports job run a (canonical_records (st_db s)) recs) (st_db s) (st_db s') /\
    (forall x, x ∈ due_reports job run a (canonical_records (st_db s)) recs ->
       exists f, select_where (finding_key (rr_ID run) (rp_Kind x) (rp_ProviderID x))
                   (reconciliation_findings (st_db s')) = [f]) /\
    StronglySorted Sim.slt (rec_ID <$> recs) /\
    (forall id, is_Some (Sim.ms_records (Simulator.sv_Store sv) !! id) -> id ∈ rec_ID <$> recs) /\
    (forall x, x ∈ recs -> exists r, Sim.ms_records (Simulator.sv_Store sv) !! rec_ID x = Some r /\
       shows (reserved_keys spec) (rec_ID x) (entry r) x).
Proof.
  intros Hp Hu Hcl Hf Hfr Hun Hown Hrun Hst Hmode Hconn Hlim Hint Hfuel. set (limit := sj_BatchSize job) in *.
  destruct (manual_run_reports job run a (fun w => Up base spec w sv) (sim_page spec sv limit)
    (left_at sv limit) fuel s Hf Hu Hfr Hun Hown Hrun Hst Hmode Hconn) as (recs & n & s' & Hc & Hr & Hclo & Hrep & Hone).
  - intros cur s0 Hu0 Hf0. destruct (List_reads source seedRec base spec a Hp sv limit cur s0 Hu0)
      as (s1 & E & Hd & Hf1 & Hu1). exists s1. rewrite Hf1. auto.
  - apply (left_decreases base spec (st_world s)); done.
  - unfold left_at. rewrite (proj2 (query_read sv limit Hlim Hint "" (or_introl eq_refl))).
    unfold rest_of. simpl. by rewrite ids_length.
  - destruct (chain_walk base spec (st_world s) sv Hu Hcl limit Hlim Hint "" recs n Hc
      (or_introl eq_refl)) as (outs & -> & Hw & Ho). exists (read_record spec sv <$> outs), s'.
    do 4 (split; [done|]).
    destruct (walk_sees _ _ _ _ _ Hw (up_wf _ _ _ _ Hu) (or_introl eq_refl)) as (Hs & _ & Hall).
    assert (Hid : forall r, r ∈ outs -> shows (reserved_keys spec) (Sim.sr_ID r) (entry r) (read_record spec sv r)).
    { intros r Hin. by apply (read_shown source seedRec base spec a Hp (st_world s) sv), Ho. }
    assert (Hids : rec_ID <$> (read_record spec sv <$> outs) = Sim.sr_ID <$> outs).
    { rewrite <- list_fmap_compose. apply list_fmap_ext. intros i r Hi. simpl.
      apply list_elem_of_lookup_2 in Hi. by destruct (Hid r Hi). }
    rewrite Hids. split; [done|]. split; [intros id Hi; apply Hall; [done|by left]|].
    intros x (r & -> & Hin)%list_elem_of_fmap. exists r. destruct (Hid r Hin) as (Hi & Hrest). rewrite Hi.
    split; [by apply Ho|by split].
Qed.

Definition swept_state : @St (sim_world no_numbers seed_name) :=
  @mkSt (sim_world no_numbers seed_name) swept_db sf_process 1000 [] [] 0 [] [] [] [].

Lemma simulated_run_exact_witness :
  exists recs s', @reconcile_Run (sim_world no_numbers seed_name) 3 sweep_job swept_state = (Ok (Some tt), s') /\
    Reported sweep_job manual_run
      (due_reports sweep_job manual_run sf_adapter [sample_canonical false; gone] recs) swept_db (st_db s') /\
    "sf-000002" ∈ rec_ID <$> recs.
Proof.
  destruct (simulated_run_exact no_numbers seed_name "http://sf" salesforce_spec sf_adapter sf_server
    sweep_job manual_run 3 swept_state) as (recs & s' & Hr & _ & Hrep & _ & _ & Hall & _).
  - apply paired_salesforce.
  - apply sf_up.
  - reflexivity.
  - reflexivity.
  - split; [reflexivity|]. split; [reflexivity|]. split; reflexivity.
  - apply NoDup_nil_2.
  - intros f Hin. by apply elem_of_nil in Hin.
  - reflexivity.
  - reflexivity.
  - discriminate.
  - reflexivity.
  - discriminate.
  - reflexivity.
  - vm_compute. lia.
  - exists recs, s'. split; [exact Hr|]. split; [exact Hrep|]. apply Hall. vm_compute. eexists. reflexivity.
Defined.
