(* ===== verification/JobSpec.v ===== *)
(** * What a sync job guarantees

    A job ends when the provider's cursors do; with no fault in the database it
    ends marked completed or failed; a page that is synchronized again because
    the job was resumed changes nothing; and one finished reconciliation whose
    job was left running keeps every later job from being run. *)

From stdpp Require Import relations.
From S2P Require Import Prelude Json GoTime Events Model Conflict Backoff Tables Effects Store.
From S2P Require Import Frame Connectors Run Adapters Worker WorkerFrame WorkerCalls Sample.
From S2P Require Import WorkerSpec Retry Ingestion Operator History Reconcile SyncJob.
From S2P Require Import ReconcileSpec SweepSpec.
Local Open Scope string_scope.

Section ends.
Context `{Transport}.

(** Along the pages of [a] the cursors decrease in rank, whatever the provider
    is asked in between. *)
Definition Ranked (a : Adapter) (limit : Z) (rank : string -> nat) : Prop :=
  forall cur page, Returns (ad_List a (mkListOptions cur limit time_zero)) page ->
    last_page page = false -> rank (pg_NextCursor page) < rank cur.

Lemma sync_pages_end job a rank fuel total cur c s :
  Ranked a (sj_BatchSize job) rank -> rank cur < fuel ->
  (sync_pages job a fuel total cur c s).1 <> Ok None.
Proof.
  intros Hr. revert cur c s. induction fuel as [|fuel IH]; intros cur c s Hn; [lia|].
  intros E. destruct (sync_pages job a (S fuel) total cur c s) as [r s'] eqn:Es. simpl in E. subst r.
  simpl in Es. unfold or_job_abort, job_abort in Es. run_step Es.
  destruct x as [page|e]; [|by run Es]. run_step Es. run_step Es.
  match goal with H : UpdateSyncJobProgress _ _ _ _ _ _ _ = (?x, _) |- _ =>
    destruct x as [[]|e]; [|by run Es] end.
  fold (last_page page) in Es. destruct (last_page page) eqn:El; [by run Es|].
  assert (pg_HasMore page = true) as Hm by (unfold last_page in El; by destruct (pg_HasMore page)).
  rewrite Hm in Es. eapply IH; [|by rewrite Es].
  enough (rank (pg_NextCursor page) < rank cur) by lia. eapply Hr; [|done]. by eexists _, _.
Qed.

Lemma sweep_pages_end job run a et dp rank fuel cur w s :
  Ranked a (sj_BatchSize job) rank -> rank cur < fuel ->
  (sweep_pages job run a et dp fuel cur w s).1 <> Ok None.
Proof.
  intros Hr. revert cur w s. induction fuel as [|fuel IH]; intros cur w s Hn; [lia|].
  intros E. destruct (sweep_pages job run a et dp (S fuel) cur w s) as [r s'] eqn:Es.
  simpl in E. subst r. simpl in Es. unfold or_abort, reconcile_abort in Es. run_step Es.
  destruct x as [page|e]; [|by run Es]. run_step Es. run_step Es.
  match goal with H : UpdateSyncJobProgress _ _ _ _ _ _ _ = (?x, _) |- _ =>
    destruct x as [[]|e]; [|by run Es] end.
  fold (last_page page) in Es. destruct (last_page page) eqn:El; [by run Es|].
  assert (pg_HasMore page = true) as Hm by (unfold last_page in El; by destruct (pg_HasMore page)).
  rewrite Hm in Es. eapply IH; [|by rewrite Es].
  enough (rank (pg_NextCursor page) < rank cur) by lia. eapply Hr; [|done]. by eexists _, _.
Qed.

(** ** The end of a job *)

(** How the job's row looks after a run that came out as [r]. *)
Definition Ended (job : SyncJob) (r : Res (option unit)) (d : DB) : Prop :=
  forall j, j ∈ sync_jobs d -> job_key (sj_TenantID job) (sj_ID job) j = true ->
    sj_FinishedAt j <> None /\
    match r with
    | Ok _ => sj_Status j = "completed" /\ sj_LastError j = None
    | Err e => sj_Status j = "failed" /\ sj_LastError j = Some (Error e)
    end.

Lemma FinishSyncJob_ended job status err s :
  st_faults s = [] ->
  exists s', FinishSyncJob (sj_ID job) (sj_TenantID job) status err s = (Ok tt, s') /\
    forall j, j ∈ sync_jobs (st_db s') -> job_key (sj_TenantID job) (sj_ID job) j = true ->
      sj_FinishedAt j <> None /\ sj_Status j = status /\ sj_LastError j = err.
Proof.
  intros Hf. unfold FinishSyncJob.
  edestruct (calm_tx (A:=unit)) as (s' & -> & _ & _ & Hd); [exact Hf|].
  exists s'. split; [done|]. intros j Hj Hk. rewrite Hd in Hj.
  apply elem_of_update_where in Hj as (j1 & _ & ->).
  destruct (job_key _ _ j1) eqn:Ej; [done|congruence].
Qed.

Lemma job_abort_ended job e s r s' :
  st_faults s = [] -> job_abort (A:=option unit) job e s = (r, s') ->
  r = Err e /\ Ended job r (st_db s').
Proof.
  intros Hf E. unfold job_abort in E. rewrite bind_ignore in E.
  destruct (FinishSyncJob_ended job "failed" (Some (Error e)) s Hf) as (s1 & E1 & H1).
  rewrite E1 in E. apply run_throw in E as [-> ->]. done.
Qed.

Lemma sync_records_calm job a recs c : Pres Calm (sync_records job a recs c).
Proof.
  revert c. induction recs as [|rec recs IH]; intros c; simpl; [pres|].
  unfold sync_record, deadLetterProviderRecord. pres.
Qed.

Lemma sync_records_total job a recs c : Total (sync_records job a recs c).
Proof.
  revert c. induction recs as [|rec recs IH]; intros c; simpl; [total|].
  unfold sync_record, deadLetterProviderRecord, skip. total.
Qed.

Lemma sync_pages_ended job a fuel total cur c s r s' :
  (forall o, Pres Calm (ad_List a o)) -> st_faults s = [] ->
  sync_pages job a fuel total cur c s = (r, s') -> r <> Ok None -> Ended job r (st_db s').
Proof.
  intros Ha. revert cur c s. induction fuel as [|fuel IH]; intros cur c s Hf E Hr;
    [by apply run_ret in E as [-> _]|].
  simpl in E. unfold or_job_abort in E. rewrite bind_attempt in E.
  destruct (Ha (mkListOptions cur (sj_BatchSize job) time_zero) s Hf) as [Hf1 _].
  destruct (ad_List a _ s) as [[page|e] s1]; cbn [fst snd] in *;
    [|by apply (job_abort_ended job e s1 r s' Hf1)].
  destruct (sync_records_total job a (pg_Records page) c s1) as [c1 Ec].
  destruct (sync_records_calm job a (pg_Records page) c s1 Hf1) as [Hf2 _].
  unfold mbind at 1, M_bind at 1 in E. destruct (sync_records _ _ _ _ s1) as [r2 s2].
  cbn [fst snd] in *. subst r2. rewrite bind_attempt in E. unfold UpdateSyncJobProgress in E.
  match type of E with context [tx ?b s2] =>
    destruct (calm_tx b s2 Hf2) as (s3 & E3 & _ & Hf3 & _) end.
  rewrite E3 in E. cbn [fst snd] in E. destruct (_ || _); [|by eapply IH].
  destruct (FinishSyncJob_ended job "completed" None s3 Hf3) as (s4 & E4 & H4).
  unfold mbind, M_bind in E. rewrite E4 in E. by apply run_ret in E as [-> ->].
Qed.

Lemma reconcile_Run_end rank fuel job s :
  (forall p a, Returns (connect (sj_TenantID job) p) a -> Ranked a (sj_BatchSize job) rank) ->
  rank (default "" (sj_Cursor job)) < fuel -> (reconcile_Run fuel job s).1 <> Ok None.
Proof.
  intros Hr Hfuel Eo. destruct (reconcile_Run fuel job s) as [r s'] eqn:E. simpl in Eo. subst r.
  unfold reconcile_Run, run_sweep, reconcile_abort, or_abort in E.
  run_step E. destruct x as [rr|e]; [|destruct e; by run E]. run_step E.
  run_step E. destruct x as [a|e]; [|by unfold reconcile_abort in E; run E].
  run_step E. destruct x as [ps|e]; [|by unfold reconcile_abort in E; run E].
  apply run_bind in E as [(e & _ & ?)|(w & s5 & E5 & E)]; [done|].
  destruct w as [w|]; [by run E|].
  eapply sweep_pages_end; [eapply Hr; by eexists _, _|exact Hfuel|by rewrite E5].
Qed.

Lemma execute_ended rank fuel job s :
  (forall p a, Returns (connect (sj_TenantID job) p) a -> Ranked a (sj_BatchSize job) rank) ->
  rank (default "" (sj_Cursor job)) < fuel -> sj_Type job <> "reconcile" ->
  (execute fuel job s).1 <> Ok None /\
  (st_faults s = [] -> Ended job (execute fuel job s).1 (st_db (execute fuel job s).2)).
Proof.
  intros Hr Hfuel Ht. destruct (execute fuel job s) as [r s'] eqn:E. unfold execute in E. simpl.
  rewrite (seqb_ne _ _ Ht) in E. unfold or_job_abort in E. rewrite bind_attempt in E.
  pose proof (connect_calm (sj_TenantID job) (sj_Source job) s) as C1.
  destruct (connect _ (sj_Source job) s) as [[a|e] s1] eqn:E1; cbn [fst snd] in *.
  2: { split; [by unfold job_abort in E; run E|]. intros Hf. by eapply job_abort_ended; [apply C1|]. }
  rewrite bind_attempt in E. pose proof (connect_calm (sj_TenantID job) (sj_Destination job) s1) as C2.
  destruct (connect _ (sj_Destination job) s1) as [[b|e] s2]; cbn [fst snd] in *.
  2: { split; [by unfold job_abort in E; run E|]. intros Hf.
       eapply job_abort_ended; [|exact E]. by apply C2, C1. }
  rewrite bind_attempt in E.
  assert (Ha : Returns (connect (sj_TenantID job) (sj_Source job)) a) by (by eexists _, _).
  destruct (connect_lawful _ _ _ Ha) as [base L].
  destruct (law_step Calm) as (Hh & Hl & _); [intros; apply Calm_http|].
  specialize (Hh s2). destruct (ad_HealthCheck a s2) as [h s3]. cbn [fst snd] in *. split.
  - intros ->. eapply sync_pages_end; [by eapply Hr|exact Hfuel|by rewrite E].
  - intros Hf. eapply sync_pages_ended; [exact Hl| |exact E|].
    + by apply Hh, C2, C1.
    + intros ->. eapply sync_pages_end; [by eapply Hr|exact Hfuel|by rewrite E].
Qed.
End ends.

(** C32: jobs end.  Where the cursors of the providers decrease in rank, running
    a job with fuel beyond the rank of the cursor it starts from never runs out
    of it, whatever fails.  And when the database does not fail, a job that is not
    a reconciliation (a full synchronization) leaves its row completed exactly when
    it succeeded, and failed with the text of the error it returned otherwise.
    (A reconciliation job can be left running: [finished_run_starves].) *)
Theorem job_ends `{Transport} (rank : string -> nat) (fuel : nat) (job : SyncJob) (s : St) :
  (forall p a, Returns (connect (sj_TenantID job) p) a -> Ranked a (sj_BatchSize job) rank) ->
  rank (default "" (sj_Cursor job)) < fuel ->
  (execute fuel job s).1 <> Ok None /\
  (sj_Type job <> "reconcile" -> st_faults s = [] ->
   Ended job (execute fuel job s).1 (st_db (execute fuel job s).2)).
Proof.
  intros Hr Hfuel. destruct (decide (sj_Type job = "reconcile")) as [Et|Et].
  - split; [|done]. unfold execute. rewrite Et. simpl. by eapply reconcile_Run_end.
  - destruct (execute_ended rank fuel job s Hr Hfuel Et). by split.
Qed.

(** ** A finished run whose job is still running *)

Section starved.
Context `{Transport}.

(** [j] is the reconcile job the runner picks from the time [t0] on; it is
    marked running, and its run is already finished.  [Run] gets there when the
    statement that completes the run is followed by one that fails to complete
    the job. *)
Record Starving (t0 : Z) (j : SyncJob) (d : DB) : Prop := mkStarving {
  starve_next : forall now, (t0 <= now)%Z -> next_job now d = Some j;
  starve_running : sj_Status j = "running" /\ sj_StartedAt j <> None;
  starve_key : forall x, x ∈ sync_jobs d -> job_key (sj_TenantID j) (sj_ID j) x = true -> x = j;
  starve_type : sj_Type j = "reconcile";
  starve_run : exists run,
    select_one (fun r => sql_eq (rr_JobID r) (sj_ID j)) (reconciliation_runs d) = Some run /\
    (rr_Status run = ReconcileComplete \/ rr_Status run = ReconcileFailed);
}.

Lemma start_job_running now j :
  sj_Status j = "running" -> sj_StartedAt j <> None -> start_job now j = j.
Proof. intros Hs Ht. unfold start_job. destruct j, sj_StartedAt; simplify_eq/=; done. Qed.

Lemma update_where_id {A} (p : A -> bool) f t :
  (forall x, x ∈ t -> p x = true -> f x = x) -> update_where p f t = t.
Proof.
  intros Hf. unfold update_where. rewrite <- (map_id t) at 2. apply map_ext_in.
  intros x Hx%list_elem_of_In. destruct (p x) eqn:E; [by apply Hf|done].
Qed.

Definition SameClock (s s' : St) : Prop := st_now s' = st_now s.

#[global] Instance SameClock_preorder : PreOrder SameClock.
Proof. split; unfold SameClock; [by intros s|]. intros s1 s2 s3. congruence. Qed.

Lemma SameClock_tx {A} (body : Z -> nat -> DB -> Res A * DB) : Pres SameClock (tx body).
Proof. intros s. unfold tx, SameClock. by repeat case_match. Qed.

Lemma Claim_clock : Pres SameClock ClaimNextSyncJob.
Proof. unfold ClaimNextSyncJob. pres; apply SameClock_tx. Qed.
Hint Resolve Claim_clock : pres.

Lemma Claim_starving t0 j s r s' :
  Starving t0 j (st_db s) -> (t0 <= st_now s)%Z -> ClaimNextSyncJob s = (r, s') ->
  st_now s' = st_now s /\ st_db s' = st_db s /\ (r = Ok j \/ exists e, r = Err e).
Proof.
  intros Hst Hnow E. split.
  { frame E SameClock. exact P. }
  revert Hst Hnow E. intros [Hn [Hs Ht] Hk _ _] Hnow E. unfold ClaimNextSyncJob in E.
  apply run_bind in E as [(e & E & ->)|(j1 & s1 & E1 & E)].
  { apply run_tx in E as [_ [(a & d & [= _ <-] & Hd & _)|[Hd _]]]; eauto. }
  apply run_tx in E1 as [(_ & _ & _ & Hn1) [(a & d & Eb & Hd & Hr)|[_ [e ?]]]]; [|done].
  rewrite (Hn _ Hnow) in Eb. simpl in Eb. injection Eb as <- <-.
  destruct Hr as [[= ->]|?]; [|done].
  assert (update_where (job_key (sj_TenantID j) (sj_ID j)) (start_job (st_now s1))
            (sync_jobs (st_db s1)) = sync_jobs (st_db s1)) as Hu.
  { apply update_where_id. rewrite Hd. intros x Hx Hkx. rewrite (Hk x Hx Hkx). by apply start_job_running. }
  apply run_bind in E as [(e & E & ->)|([] & s2 & E2 & E)].
  - apply run_tx in E as [_ [(a & d & [= _ <-] & -> & _)|[-> _]]]; [|by eauto].
    unfold on_sync_jobs. rewrite Hu, <- Hd. destruct (st_db s1). by eauto.
  - apply run_tx in E2 as [_ [(a & d & [= _ <-] & Hd2 & _)|[_ [e ?]]]]; [|done].
    injection E as <- <-. rewrite Hd2. unfold on_sync_jobs. rewrite Hu, <- Hd, start_job_running by done.
    destruct (st_db s1). by eauto.
Qed.

Lemma tick_starving t0 j fuel s :
  Starving t0 j (st_db s) -> (t0 <= st_now s)%Z ->
  st_db (runner_tick fuel s).2 = st_db s /\ st_now (runner_tick fuel s).2 = st_now s.
Proof.
  intros Hst Hnow. destruct (runner_tick fuel s) as [r s'] eqn:E. simpl. unfold runner_tick in E.
  rewrite bind_attempt in E. destruct (ClaimNextSyncJob s) as [x s1] eqn:Ec. cbn [fst snd] in E.
  destruct (Claim_starving _ _ _ _ _ Hst Hnow Ec) as (Hc & Hd & [->|[e ->]]);
    [|injection E as _ <-; by split].
  apply run_ignore in E as (y & E & _). unfold execute in E. rewrite (starve_type _ _ _ Hst) in E.
  simpl in E. unfold reconcile_Run in E. rewrite bind_attempt in E.
  destruct (GetReconciliationRunByJobID _ s1) as [z s2] eqn:Eg. cbn [fst snd] in E.
  apply run_query in Eg as [(Hd2 & _ & _ & _ & Hc2) Hz]. rewrite Hd in Hz.
  destruct (starve_run _ _ _ Hst) as (run & Hrun & Hfin). rewrite Hrun in Hz. simpl in Hz.
  destruct Hz as [->| ->]; [|run E; split; congruence].
  assert ((rr_Status run =s ReconcileComplete) || (rr_Status run =s ReconcileFailed) = true) as Hb
    by (by destruct Hfin as [-> | ->]).
  rewrite Hb in E. run E. split; congruence.
Qed.

(** The runner on its own: ticks, and moves of the environment that leave the
    database alone and let the clock go on. *)
Inductive runner_step : St -> St -> Prop :=
| tick_environment s s' : st_db s' = st_db s -> (st_now s <= st_now s')%Z -> runner_step s s'
| tick_runner fuel s : runner_step s (runner_tick fuel s).2.
End starved.

(** A finished reconciliation whose job is still marked running stops the
    runner for good.  The engine returns success for it without completing the
    job, the runner keeps choosing it as the oldest stale job, and however often
    the runner ticks afterwards, at whatever times and with whatever faults, the
    database stays as it is: no other job is ever started. *)
Theorem finished_run_starves `{Transport} (t0 : Z) (j : SyncJob) (s s' : St) :
  Starving t0 j (st_db s) -> (t0 <= st_now s)%Z -> rtc runner_step s s' ->
  st_db s' = st_db s.
Proof.
  intros Hst Hnow Hs. induction Hs as [s|s s1 s' Hstep _ IH]; [done|].
  enough (st_db s1 = st_db s /\ (t0 <= st_now s1)%Z) as [Hd Hn].
  { rewrite IH; [done|by rewrite Hd|done]. }
  destruct Hstep as [s s1 Hd Ht|fuel s]; [by split; [|lia]|].
  destruct (tick_starving t0 j fuel s Hst Hnow) as [-> ->]. done.
Qed.

(** ** Resuming *)

(** A page that is synchronized again is a no-op.  When every record of the
    page is deleted or valid and already claimed by this job, going over it
    again (after a crash between the records and the checkpoint) changes neither
    the database nor the outside world and makes no request. *)
Theorem page_replayed `{Transport} (job : SyncJob) (a : Adapter) (recs : list ProviderRecord)
    (c : Z * Z) (s : St) :
  (forall rec, rec ∈ recs -> rec_Deleted rec = true \/
     (ad_Validate a rec = None /\
      claimed (record_event 0 job (ad_CanonicalEntityType a) rec) (st_db s) = true)) ->
  Quiet s (sync_records job a recs c s).2.
Proof.
  revert c s. induction recs as [|rec recs IH]; intros c s Hrecs; [done|]. simpl.
  assert (Quiet s (sync_record job a rec c s).2) as Q.
  { unfold sync_record. destruct c as [p f].
    destruct (Hrecs rec) as [->|[Hv Hc]]; [by left|done|]. rewrite Hv. case_match; [done|].
    unfold mbind at 1, M_bind at 1. cbn [now]. rewrite bind_attempt.
    rewrite (claimed_Key _ (record_event (st_now s) job (ad_CanonicalEntityType a) rec)) in Hc by done.
    apply Process_claimed in Hc as [Q _]. by destruct (Process _ s) as [[[]|e] s1]. }
  unfold mbind, M_bind. destruct (sync_record job a rec c s) as [[c1|e] s1]; [|done].
  etrans; [exact Q|]. apply IH. intros r Hr. destruct Q as (Hd & _). simpl in Hd. rewrite Hd. apply Hrecs. by right.
Qed.

(** ** Witnesses *)

Lemma listing_ranked p a : Returns (@connect listing "t1" p) a ->
  @Ranked listing a 50 (fun c => if c =s "" then 1 else 0).
Proof.
  intros Ha. unfold connect, adapterFor, ret_res, NewWithTimeout in Ha. returns.
  intros cur page (s & s' & E) Hl.
  destruct (_ =s Salesforce.Provider); [|destruct (_ =s Hubspot.Provider); [|done]]; simplify_eq;
    destruct cur as [|ch cur]; vm_compute in E; simplify_eq; vm_compute in Hl; try discriminate Hl.
  vm_compute. lia.
Qed.

Definition full_job : SyncJob :=
  mkSyncJob "job-2" "t1" "customer" "salesforce" "hubspot" "initial" "running" None 0 0 0 50
    (Some 900%Z) None None 800.
Definition full_start : @St listing :=
  @mkSt listing (on_sync_jobs (fun _ => [full_job]) swept_db) tt 1000 [] [] 0 [] [] [] [].

Lemma job_ends_witness :
  (@execute listing 2 full_job full_start).1 <> Ok None /\
  Ended full_job (@execute listing 2 full_job full_start).1
    (st_db (@execute listing 2 full_job full_start).2).
Proof.
  destruct (@job_ends listing (fun c => if c =s "" then 1 else 0) 2 full_job full_start) as [H1 H2].
  - exact listing_ranked.
  - simpl. lia.
  - split; [exact H1|]. apply H2; [discriminate|reflexivity].
Defined.

(** The job whose run is finished, and one that waits behind it. *)
Definition waiting_job : SyncJob :=
  mkSyncJob "job-3" "t1" "customer" "salesforce" "hubspot" "initial" "pending" None 0 0 0 50
    None None None 850.
Definition starved_db : DB :=
  on_sync_jobs (fun _ => [sweep_job; waiting_job])
    (on_reconciliation_runs (fun _ => [mkReconciliationRun "run-1" "t1" "customer" "salesforce"
       "manual" ReconcileComplete (Some "job-1") 0 0 0 0 800 (Some 950%Z) None])
       (sample_db "last_writer_wins")).
Definition starved : @St up := @mkSt up starved_db 0 60000001000 [] [] 0 [] [] [] [].

Lemma finished_run_starves_witness : st_db (@runner_tick up 5 (@runner_tick up 5 starved).2).2 = starved_db.
Proof.
  apply (@finished_run_starves up 60000001000 sweep_job starved).
  - split; [|by split| |done|by eexists; split; [reflexivity|left]].
    + intros now Hn. unfold next_job. simpl.
      assert (Hc : (900 <? now - stale_after)%Z = true) by (unfold stale_after; lia).
      unfold claimable. simpl. rewrite Hc. reflexivity.
    + intros x Hx Hk. apply list_elem_of_In in Hx. destruct Hx as [<-|[<-|[]]]; [done|discriminate].
  - simpl. lia.
  - eapply rtc_l; [apply (tick_runner 5)|]. apply rtc_once. apply tick_runner.
Defined.

Definition synced_page : @St up := (@Process up (record_event 0 full_job "customer"
  (mkProviderRecord "sf-000001" 6 false (list_to_map [("first_name", JStr "Ada");
     ("last_name", JStr "Lovelace"); ("email", JStr "ada@new.dev")])))
  (state_up (sample_db "last_writer_wins"))).2.

Lemma page_replayed_witness : Quiet synced_page (@sync_records up full_job
  (@Salesforce.adapter up "http://sf")
  [mkProviderRecord "sf-000001" 6 false (list_to_map [("first_name", JStr "Ada");
     ("last_name", JStr "Lovelace"); ("email", JStr "ada@new.dev")])] (0, 0)%Z synced_page).2.
Proof.
  apply (@page_replayed up). intros rec ->%list_elem_of_singleton. right.
  split; vm_compute; reflexivity.
Defined.
