(* ===== verification/System.v ===== *)
(** * The system: every component, all at once

    The components run concurrently and share nothing but the database.  A run of
    a component is an HTTP request to the API (an operator's, a user's or an
    administrator's request, a sign-in of any kind, a webhook delivery), an
    ingestion drain, a message handled by the worker, a drain of the retry queue,
    a tick of the job runner or a seed of the demo tenant, with whatever answers
    the outside world gives it, any faults, any clock; [Process] is there as well,
    for the one application of an event that the worker, the retry engine and the
    jobs all make.  A history of the system is any interleaving of the
    transactions of any number of such runs, begun at any time and left at any
    point: a run that never ends its log is one that is under way, or crashed. *)

From S2P Require Import Prelude Json GoTime Crypto Events Model Conflict Backoff Tables Effects.
From S2P Require Import Store Frame Interleave Connectors Run Adapters Worker WorkerFrame WorkerCalls.
From S2P Require Import Sample WorkerSpec WorkerApply Retry Ingestion Operator History.
From S2P Require Import Reconcile SyncJob Crypto Encoding Totp JsonText AuthStore Auth Accounts AuthSpec.
From S2P Require Import TenantStore Schema Admin Oidc Config Api OperatorSpec AdminSpec OidcSpec ApiSpec.
Local Open Scope string_scope.

Section system.
Context `{Bcrypt} `{Rsa}.

(** What one run commits, among others. *)
Inductive component : Log -> Prop :=
| run_http (O : Outside) cfg out rq en s : component (commits (Router cfg out rq en) s)
| run_ingest (O : Outside) s : component (commits ingest_drain s)
| run_worker (O : Outside) opts value s : component (commits (Handle opts value) s)
| run_retry (O : Outside) opts s : component (commits (drain opts) s)
| run_runner (O : Outside) fuel s : component (commits (runner_tick fuel) s)
| run_seed (O : Outside) scfg salt s : component (commits (seed scfg salt) s)
| run_process (O : Outside) ev s : component (commits (Process ev) s).

Lemma component_conducted l : component l -> Conducted l.
Proof.
  assert (K : forall (O : Outside) A (m : M A) s, Pres (Promise false) m -> Conducted (commits m s))
    by (intros O A m s Hm; by apply (Logged_commits Conducted)).
  destruct 1; apply K.
  - apply Router_kept.
  - apply ingest_drain_kept.
  - apply Handle_kept.
  - apply drain_kept.
  - apply runner_tick_kept.
  - apply seed_kept.
  - apply Process_kept.
Qed.

Lemma components_conducted ls : Forall component ls -> Forall Conducted ls.
Proof. intros HF. eapply Forall_impl; [exact HF|apply component_conducted]. Qed.

Lemma components_kept ls d ls' d' : Forall component ls -> Interleaved ls d ls' d' -> Kept d d'.
Proof. intros HF. by apply Conducted_history, components_conducted. Qed.

Lemma components_owned ls : Forall component ls -> Forall (Owned holds nothing) ls.
Proof. intros HF. eapply Forall_impl; [by apply components_conducted|]. by intros l []. Qed.

Lemma components_recorded ls : Forall component ls -> Forall (Forall (fun e => Recorded e.1 e.2)) ls.
Proof. intros HF. eapply Forall_impl; [by apply components_conducted|]. by intros l []. Qed.
End system.

(** ** What no history takes back *)

(** C2: nothing that was recorded is taken back, whatever runs at once.  In any
    interleaving of the transactions of any runs of the components, with any
    faults: the audit log and the ledger of destination writes only grow; every
    canonical identity, ingested event (all but its status), dead letter and
    conflict (all but its resolution) is still there; a conflict that is no longer
    pending is never pending again, and a dismissed one is exactly as it was; a finding that was applied, skipped or dismissed keeps its
    status, reason and time; every event claimed at the start stays claimed; and
    revoked sessions and disabled API keys stay revoked and disabled.  (Not
    final are a resolution, which a dismissal at the same time overwrites, and what
    an operator decides on a dead letter.) *)
Theorem history_kept `{Bcrypt} `{Rsa} (ls ls' : list Log) (d d' : DB) :
  Forall component ls -> Interleaved ls d ls' d' -> Kept d d'.
Proof. apply components_kept. Qed.

(** C3: the database stays well typed.  From a database that satisfies the
    constraints of the schema, every database that concurrent runs of the
    components can make of it satisfies them: in each table the columns declared
    unique are unique, and every status, mode, kind, direction, role and provider
    is one its CHECK clause admits, whichever component wrote the row.  So the
    statements that store a value without looking at it are never refused for
    it. *)
Theorem schema_kept `{Bcrypt} `{Rsa} (ls ls' : list Log) (d d' : DB) :
  Forall component ls -> Interleaved ls d ls' d' -> Schema d -> Schema d'.
Proof. intros HF HI. apply (kept_schema _ _ (kept_recorded _ _ (components_kept _ _ _ _ HF HI))). Qed.

(** C1: exactly-once effects under concurrency.  Take any interleaving of any
    runs, in which the [i]-th applies an event, has ended, talked to a provider
    and reported success.  Then every other run that applies an event of the same
    tenant, source and id and has ended in success made no request at all; and
    from there on applying such an event changes neither the database nor the
    outside world, makes no request and reports success, unless the claim
    statement itself fails. *)
Theorem exactly_once `{Bcrypt} `{Rsa} (ls ls' : list Log) (d d' : DB) (i : nat)
    (O : Outside) (ev : Event) (s : @St O) :
  Forall component ls -> Interleaved ls d ls' d' ->
  ls !! i = Some (commits (@Process O ev) s) -> ls' !! i = Some [] ->
  (@Process O ev s).1 = Ok tt -> st_calls (@Process O ev s).2 <> st_calls s ->
  (forall j (O2 : Outside) (ev2 : Event) (s2 : @St O2), j <> i -> Key ev2 = Key ev ->
     ls !! j = Some (commits (@Process O2 ev2) s2) -> ls' !! j = Some [] ->
     (@Process O2 ev2 s2).1 = Ok tt -> st_calls (@Process O2 ev2 s2).2 = st_calls s2) /\
  (forall (T : Transport) (ev2 : Event) (s2 : @St T), st_db s2 = d' -> Key ev2 = Key ev ->
     let r := @Process T ev2 s2 in Quiet s2 r.2 /\ (r.1 = Ok tt \/ r.1 = Err ErrDB)).
Proof.
  intros HF HI Hi Ei Hr Hc. apply components_owned in HF.
  assert (Hkey : forall ev2, Key ev2 = Key ev -> event_claim ev2 = event_claim ev)
    by (intros ev2; unfold Key, event_claim; congruence).
  pose proof (@Process_keeps O ev s Hr Hc) as HK. split.
  - intros j O2 ev2 s2 Hne Hk Hj Ej Hr2.
    destruct (decide (st_calls (@Process O2 ev2 s2).2 = st_calls s2)) as [|Hc2]; [done|].
    pose proof (@Process_keeps O2 ev2 s2 Hr2 Hc2) as HK2. rewrite (Hkey _ Hk) in HK2. destruct Hne.
    by eapply (interleaved_once holds).
  - intros T ev2 s2 Hd Hk. apply Process_claimed, claimed_view. rewrite Hd, (Hkey _ Hk).
    by eapply (interleaved_keeps holds).
Qed.

(** C26: signing out is for good.  When, among any other runs, a logout has ended
    and was answered 200 for a token that verified as [c], then no token with the
    same tenant and token id verifies against the database, whatever requests,
    refreshes and logins were made before, after or at the same time.  (A logout
    that could not verify the token is answered 200 too: [logout_unrevoked].) *)
Theorem logout_final `{Bcrypt} `{Rsa} (ls ls' : list Log) (d d' : DB) (i : nat) (O : Outside)
    (cfg : AuthConfig) (r : Req) (c : sessionClaims) (s s1 : @St O) (resp : Response) :
  Forall component ls -> Interleaved ls d ls' d' ->
  ls !! i = Some (commits (handleLogout cfg r) s) -> ls' !! i = Some [] ->
  verifySessionToken cfg (bearerTokenFrom r) s = (Ok c, s1) ->
  (handleLogout cfg r s).1 = Ok resp -> rs_code resp = 200%Z ->
  forall (T : Transport) (cfg' : AuthConfig) (c' : sessionClaims) (token : string) (s3 s4 : @St T),
    st_db s3 = d' -> cl_TenantID c' = cl_TenantID c -> cl_JTI c' = cl_JTI c ->
    @verifySessionToken T cfg' token s3 <> (Ok c', s4).
Proof.
  intros HF HI Hi Ei Ev El Hc T cfg' c' token s3 s4 Hd Ht Hj. apply dead_verify. rewrite Ht, Hj, Hd.
  destruct (logout_dead cfg r s c s1 resp Ev El Hc) as (e & He & Hdead).
  eapply (interleaved_stable Recorded (fun d => dead_session (cl_TenantID c) (cl_JTI c) (sessions d)));
    [|exact HI|by apply components_recorded|exact Hi|exact Ei|exact He|exact Hdead].
  intros d1 d2 HR. apply (kept_sessions _ _ HR).
Qed.

(** ** A history in which two runs apply the same event *)

(** A run that finds the database [d] at each of its transactions. *)
Definition beside (d : DB) : Outside :=
  {| World := nat; http_step w _ := (S w, HttpResp 200 "" "" (Some sample_answer));
     publish_step w _ _ _ := (w, true); others _ _ := d |}.

Definition beside_state (d : DB) : @St (beside d) := @mkSt (beside d) d 0 1000 [] [] 0 [] [] [] [].

(** The second run comes when the first has claimed the event. *)
Definition first_run : Log := commits (@Process up (sample_update 7)) synced.
Definition claimed_db : DB := default empty_db (snd <$> head first_run).
Definition second_run : Log := commits (@Process (beside claimed_db) (sample_update 7)) (beside_state claimed_db).
Definition race : list Log := [first_run; second_run].

Local Abbreviation ends := (st_db (@Process up (sample_update 7) synced).2).

Lemma race_interleaved : Interleaved race (st_db synced) [[]; []] ends.
Proof.
  destruct (@Process_kept up (sample_update 7) synced) as (l & El & HL & _).
  assert (first_run = l) as E1 by (unfold first_run, commits; by rewrite El).
  assert (second_run = [(claimed_db, claimed_db)]) as E2 by (vm_compute; reflexivity).
  assert (length first_run = 10) as Hlen by (vm_compute; reflexivity).
  assert (claimed_db = default empty_db (snd <$> head l)) as Ed by (unfold claimed_db; by rewrite E1).
  unfold race. rewrite E2, Ed, E1 in *. clear E1 E2 Ed El.
  destruct l as [|[a b] l]; [discriminate Hlen|]. destruct HL as [[n ->] HL]. rewrite tr_alone. simpl.
  apply (inter_turn _ 0 _ b l); [done|]. apply (inter_turn _ 1 _ b []); [done|].
  by apply (@Linked_interleaved up [l; []] 0 l).
Qed.

Lemma race_components : @Forall Log (@component plain_bcrypt no_rsa) race.
Proof.
  apply Forall_cons. split; [apply (@run_process plain_bcrypt no_rsa up)|]. apply Forall_cons.
  split; [apply (@run_process plain_bcrypt no_rsa (beside claimed_db))|constructor].
Qed.

Lemma history_kept_witness : Kept (st_db synced) ends.
Proof. exact (@history_kept plain_bcrypt no_rsa _ _ _ _ race_components race_interleaved). Defined.

Lemma schema_kept_witness : Schema (st_db synced) /\ Schema ends.
Proof.
  assert (Schema (st_db synced)) as S.
  { constructor; apply (bool_decide_unpack _); vm_compute; exact I. }
  split; [exact S|]. exact (@schema_kept plain_bcrypt no_rsa _ _ _ _ race_components race_interleaved S).
Defined.

Lemma state_up_db (d : DB) : st_db (state_up d) = d.
Proof. reflexivity. Qed.

Lemma exactly_once_witness :
  st_calls (@Process (beside claimed_db) (sample_update 7) (beside_state claimed_db)).2 = [] /\
  Quiet (state_up ends) (@Process up (sample_update 7) (state_up ends)).2.
Proof.
  destruct (@exactly_once plain_bcrypt no_rsa race [[]; []] (st_db synced) ends 0 up (sample_update 7) synced
    race_components race_interleaved) as [Hothers Hlater].
  - reflexivity.
  - vm_compute. reflexivity.
  - vm_compute. reflexivity.
  - vm_compute. discriminate.
  - split.
    + apply (Hothers 1 (beside claimed_db) (sample_update 7) (beside_state claimed_db));
        [discriminate|reflexivity|reflexivity|vm_compute; reflexivity|vm_compute; reflexivity].
    + exact (proj1 (Hlater up (sample_update 7) (state_up ends) (state_up_db ends) eq_refl)).
Defined.

(** ** A history with a logout *)

Definition logout_env : Env := fun k => if k =s "SYNCFORGE_AUTH_SECRET" then Some "s3cret" else None.
Definition logout_config : AuthConfig := auth_config (Load logout_env).
Definition logout_post : HttpRequest :=
  mkHttpRequest "POST" "/api/v1/auth/logout" (fun _ => "") (ada_request None) "" "".

(** The retry engine looks at its queue while Ada logs out. *)
Definition leaving : Log := commits (@handleLogout up logout_config (ada_request None)) accounts.
Definition revoked_db : DB := default empty_db (snd <$> leaving !! 1).
Definition idle_drain : Log := commits (@drain (beside revoked_db) New_retry_opts) (beside_state revoked_db).
Definition farewell : list Log := [leaving; idle_drain].

Lemma farewell_interleaved :
  Interleaved farewell (st_db accounts) (play [0; 0; 1; 0] farewell (st_db accounts)).1
    (play [0; 0; 1; 0] farewell (st_db accounts)).2.
Proof. apply fits_interleaved. vm_compute. reflexivity. Qed.

Lemma farewell_components : @Forall Log (@component plain_bcrypt no_rsa) farewell.
Proof.
  apply Forall_cons. split.
  - exact (@run_http plain_bcrypt no_rsa up (Load logout_env) no_text logout_post no_inputs accounts).
  - apply Forall_cons. split; [apply (@run_retry plain_bcrypt no_rsa (beside revoked_db))|constructor].
Qed.

Local Abbreviation checked := (@verifySessionToken up logout_config (bearerTokenFrom (ada_request None)) accounts).
Local Abbreviation later := (state_up (play [0; 0; 1; 0] farewell (st_db accounts)).2).

Lemma logout_final_witness :
  @verifySessionToken up sample_auth ada_token later
  <> (Ok (mkClaims "j-1" "u-1" "t1" "ADMIN" 43200), later).
Proof.
  apply (@logout_final plain_bcrypt no_rsa farewell (play [0; 0; 1; 0] farewell (st_db accounts)).1
    (st_db accounts) (play [0; 0; 1; 0] farewell (st_db accounts)).2 0 up logout_config (ada_request None)
    (mkClaims "j-1" "u-1" "t1" "ADMIN" 43200) accounts checked.2
    (mkResponse 200 [("status", JStr "logged_out")]) farewell_components farewell_interleaved).
  - exact eq_refl.
  - vm_compute. reflexivity.
  - assert (E : checked.1 = Ok (mkClaims "j-1" "u-1" "t1" "ADMIN" 43200)) by (vm_compute; reflexivity).
    rewrite <- E. exact (surjective_pairing checked).
  - vm_compute. reflexivity.
  - exact eq_refl.
  - exact eq_refl.
  - exact eq_refl.
  - exact eq_refl.
Defined.

(** The database fails while the token's session is looked up: the logout is
    answered 200, and the session is still live. *)
Lemma logout_unrevoked :
  let s := @mkSt up accounts_db 0 1000000000 [Ffail] [] 0 [] [] [] [] in
  let r := @handleLogout up logout_config (ada_request None) s in
  r.1 = Ok (mkResponse 200 [("status", JStr "logged_out")]) /\
  ss_RevokedAt <$> sessions (st_db r.2) = [None] /\
  match (@verifySessionToken up logout_config (bearerTokenFrom (ada_request None)) r.2).1 with
  | Ok c => cl_JTI c = "j-1" | Err _ => False
  end.
Proof. vm_compute. split_and!; reflexivity. Qed.
