(* ===== verification/SimMain.v ===== *)
(** * [cmd/sim-salesforce] and [cmd/sim-hubspot]: the provider simulators as programs

    What the two commands start: the names the seeded records are made of, the
    records, and the options from the environment.  Names are ASCII, so a loop
    over the characters of a string is one over its bytes. *)

From S2P Require Import Prelude Json GoTime Crypto Encoding Totp JsonText Float64 Buckets SimStore.
From S2P Require Import SimWalk Events Model Conflict Tables Effects Store Frame Connectors Run Adapters.
From S2P Require Import Worker Sample Ingestion Simulator SimSpec Config.
Local Open Scope string_scope.

Definition firstNames : string :=
  "Ava,Noah,Emma,Olivia,Liam,Mia,Sofia,Ethan,Lucas,Amelia,Hazel,Isla,Ruby,Chloe,Zoe,Lily,Nora,Penelope,Willow,Elena".
Definition lastNames : string :=
  "Smith,Johnson,Williams,Brown,Jones,Garcia,Miller,Davis,Rodriguez,Martinez,Hernandez,Lopez,Gonzalez,Wilson,Anderson,Thomas,Taylor,Moore,Jackson,Martin".

(** [split]: [cur] is the part read so far. *)
Fixpoint split_from (cur s : string) : list string :=
  match s with
  | "" => [cur]
  | String c s => if Ascii.eqb c "," then cur :: split_from "" s else split_from (cur +:+ String c "") s
  end.
Definition split : string -> list string := split_from "".

(** [lower]. *)
Fixpoint lower (s : string) : string :=
  match s with
  | "" => ""
  | String c s =>
      let n := N_of_ascii c in
      String (if (65 <=? n)%N && (n <=? 90)%N then ascii_of_N (n + 32) else c) (lower s)
  end.

Definition fnames : list string := split firstNames.
Definition lnames : list string := split lastNames.

(** [names[n%len(names)]]; the records are counted from zero, so [n] is not
    negative and the index is in range ([pick_in_range]). *)
Definition pick (names : list string) (n : Z) : string :=
  default "" (names !! Z.to_nat (Z.rem n (Z.of_nat (length names)))).

(** [fmt.Sprintf("%04d", n)]. *)
Definition pad4 (n : Z) : string :=
  let s := Sim.itoa n in
  if (String.length s <? 4)%nat then str_repeat "0" (4 - String.length s) +:+ s else s.

(** [SeedRec] of [cmd/sim-salesforce]. *)
Definition salesforce_seed (id : string) (n : Z) : Fields :=
  let fn := pick fnames n in
  let ln := pick lnames n in
  list_to_map [("first_name", JStr fn); ("last_name", JStr ln);
    ("email", JStr (lower fn +:+ "." +:+ lower ln +:+ "@example.com"));
    ("phone", JStr ("+1-555-" +:+ pad4 (Z.rem n 10000)));
    ("company", JStr ("Acme Corp " +:+ Sim.itoa (Z.rem n 50)))].

(** [SeedRec] of [cmd/sim-hubspot]. *)
Definition hubspot_seed (id : string) (n : Z) : Fields :=
  let fn := pick fnames (wrap64 (n * 3 + 1)) in
  let ln := pick lnames (wrap64 (n * 5 + 2)) in
  list_to_map [("firstName", JStr fn); ("lastName", JStr ln);
    ("emailAddress", JStr (lower fn +:+ "." +:+ lower ln +:+ "@acme.io"));
    ("phoneNumber", JStr ("+44-20-" +:+ pad4 (Z.rem n 10000)));
    ("organization", JStr ("Acme Corp " +:+ Sim.itoa (Z.rem n 50)))].

(** [getIntEnv]: unlike [config.getInt], a value that is empty is not the default
    but fails to parse, which gives the default as well. *)
Definition getIntEnv (env : Env) (key : string) (def : Z) : Z :=
  match env key with Some v => default def (atoi v) | None => def end.

(** The server [main] starts, at [base]. *)
Definition salesforce_main (env : Env) (base : string) : Simulator.Process_ -> Simulator.Process_ :=
  Simulator.start base salesforce_spec (getIntEnv env "SIM_RATE_LIMIT" 100) (get env "SIM_WEBHOOK_URL" "")
    (get env "SIM_WEBHOOK_SECRET" "sfs-dev-secret") (getIntEnv env "SIM_SEED_COUNT" 100) (Some salesforce_seed).
Definition hubspot_main (env : Env) (base : string) : Simulator.Process_ -> Simulator.Process_ :=
  Simulator.start base hubspot_spec (getIntEnv env "SIM_RATE_LIMIT" 50) (get env "SIM_WEBHOOK_URL" "")
    (get env "SIM_WEBHOOK_SECRET" "sfh-dev-secret") (getIntEnv env "SIM_SEED_COUNT" 100) (Some hubspot_seed).

(** ** The seeded records *)

Lemma pick_in_range (names : list string) (n : Z) :
  names <> [] -> (0 <= n)%Z -> exists x, names !! Z.to_nat (Z.rem n (Z.of_nat (length names))) = Some x /\
    pick names n = x.
Proof.
  intros Hne Hn. assert (0 < Z.of_nat (length names))%Z by (destruct names; simpl in *; [done|lia]).
  pose proof (Z.rem_bound_pos n (Z.of_nat (length names)) Hn ltac:(lia)).
  destruct (lookup_lt_is_Some_2 names (Z.to_nat (Z.rem n (Z.of_nat (length names))))) as [x Hx]; [lia|].
  exists x. unfold pick. by rewrite Hx.
Qed.

(** Names repeat every twenty records, and with them the addresses, which are what
    customers are matched by. *)
Lemma seed_emails_repeat (id id' : string) (n : Z) :
  (0 <= n)%Z -> salesforce_seed id' (n + 20) !! "email" = salesforce_seed id n !! "email".
Proof.
  intros Hn. assert (forall names, length names = 20 -> pick names (n + 20) = pick names n) as E.
  { intros names Hl. unfold pick. rewrite Hl. change (Z.of_nat 20) with 20%Z.
    rewrite !Z.rem_mod_nonneg by lia. by rewrite <- Zplus_mod_idemp_r, Z_mod_same_full, Z.add_0_r. }
  unfold salesforce_seed. rewrite (E fnames), (E lnames) by reflexivity. reflexivity.
Qed.

Definition seeded_event (id : string) (n : Z) : Event :=
  mkEvent ("evt-" +:+ id) "t1" "salesforce" "customer" id EventCreated 1
    1709202600250000000 1709202601000000000 "" no_provenance
    {["fields" := of_fields (<["id" := JStr id]> (salesforce_seed id n))]}.

(** The first and the twenty-first seeded customer, processed one after the other:
    both runs succeed, one canonical record is left, with the fields of the first
    and the id of the second, and HubSpot was sent only the first. *)
Lemma seeded_customers_merged :
  let s0 := state_up (sample_db "last_write_wins") in
  let s1 := (@Process up (seeded_event "sf-000001" 0) s0).2 in
  let r2 := @Process up (seeded_event "sf-000021" 20) s1 in
  (@Process up (seeded_event "sf-000001" 0) s0).1 = Ok tt /\ r2.1 = Ok tt /\
  ((fun c => (cr_EntityID c, cr_ProviderIDs c !! "salesforce", cr_Fields c !! "phone")) <$>
     canonical_records (st_db r2.2)) = [("sf-000001", Some "sf-000021", Some (JStr "+1-555-0000"))] /\
  length (sync_operations (st_db r2.2)) = 1.
Proof. vm_compute. repeat split. Qed.
