(* ===== verification/Metrics.v ===== *)
(** * [internal/observability]: instruments, and what the worker counts

    The instruments a service creates, by the field that holds them, and the
    accounting of the worker: which counters the handling of a message increments,
    by what became of it, whatever fails and whatever other runs do. *)

From S2P Require Import Prelude Json GoTime Events Model Conflict Backoff Tables Effects Store.
From S2P Require Import Frame Connectors Run Adapters Worker WorkerFrame Sample.
Local Open Scope string_scope.

(** ** Instruments *)

(** [NewSyncMetrics]: field and name of each instrument, in order of creation. *)
Definition SyncMetrics : list (string * string) :=
  [("EventsTotal", "sync_events_total"); ("EventsSuccess", "sync_events_success_total");
   ("EventsFailed", "sync_events_failed_total"); ("Duplicates", "sync_duplicates_total");
   ("DestinationWrites", "sync_destination_writes_total");
   ("ProcessingDuration", "sync_processing_duration_seconds"); ("StaleEvents", "sync_stale_events_total");
   ("LoopsPrevented", "sync_loop_events_prevented_total"); ("RetryScheduled", "sync_retry_scheduled_total");
   ("DLQEvents", "sync_dlq_events_total"); ("ConflictsDetected", "sync_conflicts_detected_total");
   ("ConflictsResolved", "sync_conflicts_resolved_total"); ("ReconcileRuns", "sync_reconcile_runs_total");
   ("ReconcileFindings", "sync_reconcile_findings_total"); ("ReconcileRepairs", "sync_reconcile_repairs_total")].

(** [NewServiceMetrics]. *)
Definition ServiceMetrics : list (string * string) :=
  [("HTTPRequests", "http_requests_total"); ("HTTPDuration", "http_request_duration_seconds");
   ("HTTPInflight", "http_inflight_requests")].

(** No two instruments of a process share a name, so that the exporter keeps
    them apart. *)
Lemma instruments_distinct : NoDup SyncMetrics.*2 /\ NoDup SyncMetrics.*1 /\ NoDup ServiceMetrics.*2.
Proof. split_and!; apply (bool_decide_unpack _); vm_compute; exact I. Qed.

(** ** Counting *)

Definition tally (n : string) (l : list string) : nat := length (List.filter (seqb n) l).

Lemma tally_app n l1 l2 : tally n (l1 ++ l2)%list = tally n l1 + tally n l2.
Proof. unfold tally. by rewrite List.filter_app, length_app. Qed.

(** The counters of the outcome of a message. *)
Definition outcomes : list string :=
  ["EventsTotal"; "EventsSuccess"; "EventsFailed"; "Duplicates"; "RetryScheduled"; "DLQEvents"].

(** A counter of the apply in between. *)
Definition inner (n : string) : bool :=
  existsb (seqb n) SyncMetrics.*1 && negb (existsb (seqb n) outcomes).

Lemma inner_tally n l : existsb (seqb n) outcomes = true -> Forall (fun m => inner m = true) l -> tally n l = 0.
Proof.
  intros Hn. induction 1 as [|m l Hm _ IH]; [done|]. unfold tally in *. simpl.
  destruct (n =s m) eqn:E; [|exact IH]. seqb_simpl. subst m. unfold inner in Hm.
  rewrite Hn, andb_false_r in Hm. done.
Qed.

Section metered.
Context `{Outside}.

(** Between [s] and [s'] only counters of the apply were incremented, and the
    destination writes counted exceed the requests made by at most [c]. *)
Definition Metered (c : Z) (s s' : St) : Prop :=
  exists l n, st_metrics s' = (st_metrics s ++ l)%list /\ length (st_calls s') = length (st_calls s) + n /\
    Forall (fun m => inner m = true) l /\ (Z.of_nat (tally "DestinationWrites" l) <= Z.of_nat n + c)%Z.

Lemma Metered_trans c1 c2 c s1 s2 s3 :
  (c1 + c2 <= c)%Z -> Metered c1 s1 s2 -> Metered c2 s2 s3 -> Metered c s1 s3.
Proof.
  intros Hc (l1 & n1 & M1 & C1 & F1 & T1) (l2 & n2 & M2 & C2 & F2 & T2).
  exists (l1 ++ l2)%list, (n1 + n2). rewrite M2, M1, C2, C1, app_assoc, tally_app. split_and!; [done|lia| |lia].
  by apply Forall_app.
Qed.

Lemma Metered_still c s s' :
  (0 <= c)%Z -> st_metrics s' = st_metrics s -> length (st_calls s') = length (st_calls s) -> Metered c s s'.
Proof. intros Hc E1 E2. exists [], 0. rewrite app_nil_r. split; [done|]. split; [lia|]. split; [by apply Forall_nil|unfold tally; simpl; lia]. Qed.

#[global] Instance Metered_preorder : PreOrder (Metered 0).
Proof. split; [intros s; by apply Metered_still|]. intros s1 s2 s3. by apply Metered_trans. Qed.

Lemma Metered_tx {A} (body : Z -> nat -> DB -> Res A * DB) : Pres (Metered 0) (tx body).
Proof.
  intros s. unfold tx. destruct (head (st_faults s)) as [[]|]; try by apply Metered_still.
  all: destruct (body _ _ _) as [[a|e] d]; by apply Metered_still.
Qed.

Lemma Metered_http rq : Pres (Metered 0) (http rq).
Proof.
  intros s. unfold http. destruct (http_step _ _) as [w out]. exists [], 1. simpl.
  rewrite app_nil_r, length_app. simpl. split; [done|]. split; [lia|]. split; [by apply Forall_nil|unfold tally; simpl; lia].
Qed.

Lemma Metered_draw : Pres (Metered 0) draw.
Proof. intros s. by apply Metered_still. Qed.

Lemma Metered_metric n :
  inner n = true -> n <> "DestinationWrites" -> Pres (Metered 0) (metric n).
Proof.
  intros Hi Hn s. exists [n], 0. split_and!; [done|simpl; lia|by repeat constructor|].
  unfold tally. simpl. by rewrite (seqb_ne "DestinationWrites" n) by done.
Qed.

(** What was earned by a request may be spent on a count. *)
Lemma Metered_pay {A B} (m : M A) (k : A -> M B) :
  (forall s, match m s with (Ok _, s1) => Metered (-1) s s1 | (Err _, s1) => Metered 0 s s1 end) ->
  (forall a, Returns m a -> Pres (Metered 1) (k a)) -> Pres (Metered 0) (m ≫= k).
Proof.
  intros Hm Hk s. unfold mbind, M_bind. specialize (Hm s).
  destruct (m s) as [[a|e] s1] eqn:E; [|exact Hm].
  eapply Metered_trans; [|exact Hm|apply Hk; by exists s, s1]. lia.
Qed.

Lemma Metered_owe {A B} (m : M A) (k : A -> M B) :
  Pres (Metered 0) m -> (forall a, Pres (Metered 1) (k a)) -> Pres (Metered 1) (m ≫= k).
Proof.
  intros Hm Hk s. unfold mbind, M_bind. specialize (Hm s). destruct (m s) as [[a|e] s1] eqn:E.
  - eapply Metered_trans; [|exact Hm|apply Hk]. lia.
  - eapply (Metered_trans 0 1); [lia|exact Hm|by apply Metered_still].
Qed.

Lemma Metered_write {B} (k : M B) : Pres (Metered 0) k -> Pres (Metered 1) (metric "DestinationWrites";; k).
Proof.
  intros Hk s. eapply (Metered_trans 1 0); [lia| |apply Hk].
  exists ["DestinationWrites"], 0. split_and!; [done|simpl; lia|by repeat constructor|]. vm_compute. discriminate.
Qed.
End metered.

Create HintDb meter discriminated.
#[export] Hint Resolve Metered_draw : pres.
#[export] Hint Extern 2 (Pres (Metered 0) (metric _)) => (by apply Metered_metric) : pres.
#[export] Hint Extern 3 (Pres (Metered 0) _) => (apply Metered_tx) : pres.

(** ** The apply *)

Section apply.
Context `{Outside}.

(** One request, and no count. *)
Definition Single {A} (m : M A) : Prop :=
  Pres (Metered 0) m /\ forall s, Metered (-1) s (m s).2.

Lemma lawful_quiet base a {A} (m : M A) :
  LawfulAdapter base a ->
  (forall R : St -> St -> Prop, PreOrder R -> (forall rq, rq_base rq = base -> Pres R (http rq)) -> Pres R m) ->
  (forall s, length (st_calls (m s).2) = S (length (st_calls s))) -> Single m.
Proof.
  intros L HR H1. assert (Hm : forall s, Metered (-1) s (m s).2).
  { intros s. exists [], 1. rewrite app_nil_r, H1. split; [|split; [lia|split; [by apply Forall_nil|done]]].
    apply (HR (fun s s' => st_metrics s' = st_metrics s)).
    - split; [by intros ?|]. intros ??? E1 E2. by rewrite E2.
    - intros rq _ s0. unfold http. by destruct (http_step _ _). }
  split; [|done]. intros s. eapply (Metered_trans (-1) 0); [lia|apply Hm|done].
Qed.

Lemma create_single t p a r : Returns (connect t p) a -> Single (ad_Create a r).
Proof.
  intros [base L]%connect_lawful. eapply (lawful_quiet base a); [done|intros R HR Hh; by apply (law_step R Hh)|].
  intros s. apply (law_single base a s).
Qed.
Lemma update_single t p a i r : Returns (connect t p) a -> Single (ad_Update a i r).
Proof.
  intros [base L]%connect_lawful. eapply (lawful_quiet base a); [done|intros R HR Hh; by apply (law_step R Hh)|].
  intros s. apply (law_single base a s).
Qed.
Lemma delete_single t p a i : Returns (connect t p) a -> Single (ad_Delete a i).
Proof.
  intros [base L]%connect_lawful. eapply (lawful_quiet base a); [done|intros R HR Hh; by apply (law_step R Hh)|].
  intros s. apply (law_single base a s).
Qed.

(** Successful runs of [m] have made a request they did not count. *)
Definition Earns {A} (m : M A) : Prop :=
  forall s, match m s with (Ok _, s1) => Metered (-1) s s1 | (Err _, s1) => Metered 0 s s1 end.

Lemma Single_earns {A B} (m : M A) (k : A -> M B) :
  Single m -> (forall a, Pres (Metered 0) (k a)) -> Earns (m ≫= k).
Proof.
  intros [Hm H1] Hk s. unfold mbind, M_bind. specialize (Hm s). specialize (H1 s).
  destruct (m s) as [[a|e] s1]; [|exact Hm]. specialize (Hk a s1).
  destruct (k a s1) as [[b|e] s2]; (eapply Metered_trans; [|exact H1|exact Hk]); lia.
Qed.

Lemma connect_metered t p : Pres (Metered 0) (connect t p).
Proof. unfold connect, adapterFor, ret_res. pres. Qed.
Hint Resolve connect_metered : pres.

Lemma push_metered t cust dst c : Pres (Metered 0) (push t cust dst c).
Proof.
  unfold push. apply Pres_bind; [typeclasses eauto|apply connect_metered|]. intros a Ha. cbv zeta.
  apply Metered_pay.
  - case_if; apply Single_earns; [by eapply create_single| |by eapply update_single|]; intros; pres.
  - intros c' _. apply Metered_write. pres.
Qed.
Hint Resolve push_metered : pres.

Lemma propagate_metered ev et cust ps : forall c outs ops, Pres (Metered 0) (propagate ev et cust ps c outs ops).
Proof. induction ps as [|p ps IH]; intros c outs ops; simpl; pres. Qed.
Lemma push_all_metered t et src v eid cust ps : forall c, Pres (Metered 0) (push_all t et src v eid cust ps c).
Proof.
  induction ps as [|p ps IH]; intros c; simpl; [pres|]. unfold push_recorded, recordSyncOperation. pres.
Qed.
Hint Resolve propagate_metered push_all_metered : pres.

Lemma delete_all_metered ev et ps : forall c, Pres (Metered 0) (delete_all ev et ps c).
Proof.
  induction ps as [|p ps IH]; intros c; simpl; [pres|]. unfold recordSyncOperation, skip.
  apply Pres_bind; [typeclasses eauto| |intros; apply IH]. case_if; [pres|].
  apply Pres_bind; [typeclasses eauto|apply connect_metered|]. intros a Ha.
  destruct (delete_single _ _ a (default "" (cr_ProviderIDs c !! po_Destination p)) Ha) as [H0 H1].
  apply Metered_pay; [|intros _ _; apply Metered_write; pres].
  intros s. specialize (H0 s). specialize (H1 s). by destruct (ad_Delete _ _ s) as [[]].
Qed.
Hint Resolve delete_all_metered : pres.

Lemma applyUpsert_metered ev et ps : Pres (Metered 0) (applyUpsert ev et ps).
Proof.
  unfold applyUpsert, applyResolution, merge_and_propagate, resolveCanonical, isEcho, recordConflict, encodable, skip.
  pres.
Qed.
Lemma applyDelete_metered ev et ps : Pres (Metered 0) (applyDelete ev et ps).
Proof. unfold applyDelete. pres. Qed.

Lemma Single_attempt {A} (m : M A) : Single m -> Single (attempt m).
Proof.
  intros [H0 H1]. split; [by apply Pres_attempt|]. intros s. specialize (H1 s). unfold attempt. by destruct (m s).
Qed.

Lemma Single_pay {A B} (m : M A) (k : A -> M B) :
  Single m -> (forall a, Pres (Metered 1) (k a)) -> Pres (Metered 0) (m ≫= k).
Proof.
  intros [H0 H1] Hk. apply Metered_pay; [|by intros]. intros s. specialize (H0 s). specialize (H1 s).
  by destruct (m s) as [[]].
Qed.

Lemma reconcileFail_metered {A} f e : Pres (Metered 0) (reconcileFail (A:=A) f e).
Proof. unfold reconcileFail. pres. Qed.
Hint Resolve reconcileFail_metered : pres.

Lemma pushRepair_earns t p a f rec : Returns (connect t p) a -> Earns (pushRepair a f rec).
Proof.
  intros Ha. pose proof (create_single _ _ a rec Ha) as Hc. unfold pushRepair, or_reconcileFail.
  case_if; (apply Single_earns; [by apply Single_attempt, Hc || (eapply Single_attempt, update_single; exact Ha)|]);
    intros; pres. all: destruct Hc; pres.
Qed.

Lemma applyReconcileFinding_metered ev et ps : Pres (Metered 0) (applyReconcileFinding ev et ps).
Proof.
  unfold applyReconcileFinding. cbv zeta. apply Pres_bind; [typeclasses eauto|pres|]. intros r _.
  destruct r as [f|e]; [|pres]. case_if; [pres|].
  apply Pres_bind; [typeclasses eauto|pres|]. intros run _.
  apply Pres_bind; [typeclasses eauto|pres|]. intros a Ha. unfold reconcileApplied, reconcileSkip, recordSyncOperation.
  case_if; [|case_if; [|case_if]].
  - apply Single_pay; [by eapply Single_attempt, delete_single|]. intros d.
    apply Metered_owe; [unfold skip; pres|]. intros _. apply Metered_write. pres.
  - apply Pres_bind; [typeclasses eauto|pres|]. intros r _. destruct r as [c|e]; [|pres].
    apply Metered_pay; [by eapply pushRepair_earns|]. intros u _.
    do 2 (apply Metered_owe; [pres|intros _]). apply Metered_write. pres.
  - unfold applyAdoptProvider, adoptCanonical, encodable, reconcileApplied. pres.
  - pres.
Qed.
End apply.

(** ** The outcome of a message *)

Definition is_outcome (n : string) : bool := existsb (seqb n) outcomes.

Section outcome.
Context `{Outside}.

(** Between [s] and [s'] the counters of outcomes were incremented as [cs] says,
    in this order; every counter is an instrument, and no more destination writes
    were counted than requests made. *)
Definition Account (cs : list string) (s s' : St) : Prop :=
  exists l n, st_metrics s' = (st_metrics s ++ l)%list /\ length (st_calls s') = length (st_calls s) + n /\
    List.filter is_outcome l = cs /\ Forall (fun m => existsb (seqb m) SyncMetrics.*1 = true) l /\
    tally "DestinationWrites" l <= n.

Lemma Account_trans cs1 cs2 s1 s2 s3 :
  Account cs1 s1 s2 -> Account cs2 s2 s3 -> Account (cs1 ++ cs2)%list s1 s3.
Proof.
  intros (l1 & n1 & M1 & C1 & O1 & F1 & T1) (l2 & n2 & M2 & C2 & O2 & F2 & T2).
  exists (l1 ++ l2)%list, (n1 + n2). rewrite M2, M1, C2, C1, app_assoc, tally_app, List.filter_app, O1, O2.
  do 2 (split; [done || lia|]). split; [done|]. split; [by apply Forall_app|lia].
Qed.

Lemma Metered_account s s' : Metered 0 s s' -> Account [] s s'.
Proof.
  intros (l & n & M & C & F & T). exists l, n. do 2 (split; [done|]). split; [|split; [|lia]].
  - clear -F. induction F as [|m l Hm _ IH]; [done|]. simpl. unfold inner, is_outcome in *.
    destruct (existsb (seqb m) outcomes); [by rewrite andb_false_r in Hm|exact IH].
  - eapply Forall_impl; [exact F|]. intros m Hm. simpl in Hm. unfold inner in Hm. by destruct (existsb _ SyncMetrics.*1).
Qed.

(** How [m] may end: the counters of a success, and those of an error. *)
Definition Ends {A} (m : M A) (ok err : list (list string)) : Prop :=
  forall s, match m s with
            | (Ok _, s') => exists cs, cs ∈ ok /\ Account cs s s'
            | (Err _, s') => exists cs, cs ∈ err /\ Account cs s s'
            end.

(** [m] always succeeds, and counts [cs]. *)
Definition Always {A} (m : M A) (cs : list string) : Prop := forall s, exists a s', m s = (Ok a, s') /\ Account cs s s'.

Lemma Ends_after {A B} (m : M A) (k : A -> M B) cs ok err :
  Always m cs -> (forall a, Ends (k a) ok err) -> Ends (m ≫= k) (app cs <$> ok) (app cs <$> err).
Proof.
  intros Hm Hk s. destruct (Hm s) as (a & s1 & E & H1). unfold mbind, M_bind. rewrite E.
  specialize (Hk a s1). destruct (k a s1) as [[b|e] s2]; destruct Hk as (cs2 & Hin & H2);
    exists (cs ++ cs2)%list; (split; [by apply list_elem_of_fmap_2|by eapply Account_trans]).
Qed.

(** A step that counts no outcome, and may fail. *)
Lemma Ends_try {A B} (m : M A) (k : A -> M B) ok err :
  Pres (Metered 0) m -> [] ∈ err -> (forall a, Ends (k a) ok err) -> Ends (m ≫= k) ok err.
Proof.
  intros Hm Hn Hk s. specialize (Hm s). apply Metered_account in Hm. unfold mbind, M_bind.
  destruct (m s) as [[a|e] s1]; [|by exists []]. specialize (Hk a s1). simpl in Hm.
  destruct (k a s1) as [[b|e] s2]; destruct Hk as (cs2 & Hin & H2); exists cs2;
    (split; [done|by apply (Account_trans [] cs2 _ s1)]).
Qed.

Lemma Ends_mono {A} (m : M A) ok err ok' err' : Ends m ok err -> ok ⊆ ok' -> err ⊆ err' -> Ends m ok' err'.
Proof. intros Hm Ho He s. specialize (Hm s). destruct (m s) as [[a|e] s']; naive_solver. Qed.

Lemma Always_ends {A} (m : M A) cs : Always m cs -> Ends m [cs] [].
Proof. intros Hm s. destruct (Hm s) as (a & s' & -> & HA). exists cs. split; [by left|done]. Qed.

Lemma Always_attempt {A} (m : M A) : Pres (Metered 0) m -> Always (attempt m) [].
Proof.
  intros Hm s. specialize (Hm s). unfold attempt. destruct (m s) as [r s']. exists r, s'.
  split; [done|by apply Metered_account].
Qed.
Lemma Always_ignore {A} (m : M A) : Pres (Metered 0) m -> Always (ignore m) [].
Proof.
  intros Hm s. specialize (Hm s). unfold ignore. destruct (m s) as [r s']. exists tt, s'.
  split; [done|by apply Metered_account].
Qed.
Lemma Always_draw : Always draw [].
Proof. intros s. eexists _, _. split; [reflexivity|]. apply Metered_account, (Metered_draw s). Qed.

Lemma Always_outcome n : is_outcome n = true -> existsb (seqb n) SyncMetrics.*1 = true -> Always (metric n) [n].
Proof.
  intros Hn Hk s. eexists tt, _. split; [reflexivity|]. exists [n], 0. split; [done|]. split; [simpl; lia|].
  split; [simpl; by rewrite Hn|]. split; [by repeat constructor|]. unfold tally. simpl.
  case_eq ("DestinationWrites" =s n); intros E; [|done]. seqb_simpl. by subst n.
Qed.

Lemma Ends_throw {A} e : Ends (throw (A:=A) e) [] [[]].
Proof. intros s. exists []. split; [by left|]. apply Metered_account. done. Qed.
Lemma Ends_ret {A} (a : A) : Ends (mret a) [[]] [].
Proof. intros s. exists []. split; [by left|]. apply Metered_account. done. Qed.

Lemma fail_ends {A} ev e : Ends (fail ev;; throw (A:=A) e) [] [["EventsFailed"]].
Proof.
  assert (Hf : Always (fail ev) ["EventsFailed"]).
  { intros s. unfold fail, mbind, M_bind.
    destruct (Always_outcome "EventsFailed" eq_refl eq_refl s) as (a & s1 & -> & H1).
    destruct (Always_ignore (ReleaseProcessedEvent (ev_TenantID ev) (ev_Source ev) (ev_EventID ev))
      (Metered_tx _) s1) as (b & s2 & -> & H2).
    destruct (Always_ignore (SetSourceEventStatus (ev_TenantID ev) (ev_EventID ev) "validated" "failed")
      (Metered_tx _) s2) as (c & s3 & -> & H3).
    exists c, s3. split; [done|]. apply (Account_trans ["EventsFailed"] [] _ s1); [exact H1|].
    by apply (Account_trans [] [] _ s2). }
  apply (Ends_after _ _ _ [] [[]] Hf). intros _. apply Ends_throw.
Qed.

Lemma succeed_ends ev : Ends (succeed ev) [["EventsSuccess"]] [].
Proof.
  unfold succeed. apply (Ends_after _ _ [] [["EventsSuccess"]] []); [by apply Always_ignore, Metered_tx|].
  intros _. by apply Always_ends, Always_outcome.
Qed.

(** The tenant has no policy for the event: what [process_claimed] finds out by
    its first two reads, when these succeed. *)
Definition unmatched (ev : Event) (s : St) : bool :=
  match ListPolicies (ev_TenantID ev) s with
  | (Ok ps, s1) =>
      match canonicalEntityType ev s1 with
      | (Ok et, _) => (pv_ReconcileFindingID (ev_Provenance ev) =s "") && bool_decide (targets ev et ps = [])
      | (Err _, _) => false
      end
  | (Err _, _) => false
  end.

Lemma Ends_one {A} (m : M A) s ok err :
  Ends m [ok] [err] ->
  match m s with (Ok _, s') => Account ok s s' | (Err _, s') => Account err s s' end.
Proof.
  intros HE. specialize (HE s). destruct (m s) as [[]]; destruct HE as (cs & Hin & HA);
    by apply list_elem_of_singleton in Hin as ->.
Qed.

Lemma or_fail_run {A B} ev (m : M A) (k : A -> M B) s ok :
  Pres (Metered 0) m ->
  (forall a s1, m s = (Ok a, s1) ->
     match k a s1 with (Ok _, s') => Account ok s1 s' | (Err _, s') => Account ["EventsFailed"] s1 s' end) ->
  match or_fail ev m k s with (Ok _, s') => Account ok s s' | (Err _, s') => Account ["EventsFailed"] s s' end.
Proof.
  intros Hm Hk. unfold or_fail. rewrite bind_attempt. specialize (Hm s). apply Metered_account in Hm.
  destruct (m s) as [[a|e] s1]; cbn [fst snd] in *.
  - specialize (Hk a s1 eq_refl). destruct (k a s1) as [[b|e] s2]; by apply (Account_trans [] _ _ s1).
  - assert (HF : Ends (fail ev;; throw (A:=B) e) [ok] [["EventsFailed"]])
      by (eapply Ends_mono; [apply fail_ends|set_solver..]).
    apply (Ends_one _ s1) in HF. destruct ((fail ev;; throw e) s1) as [[b|e'] s2];
      by apply (Account_trans [] _ _ s1).
Qed.

Lemma succeed_run ev s :
  match succeed ev s with
  | (Ok _, s') => Account ["EventsSuccess"] s s' | (Err _, s') => Account ["EventsFailed"] s s'
  end.
Proof.
  apply Ends_one. eapply Ends_mono; [apply succeed_ends|set_solver..].
Qed.

Lemma process_claimed_counts ev s :
  match process_claimed ev s with
  | (Ok _, s') => Account (if unmatched ev s then [] else ["EventsSuccess"]) s s'
  | (Err _, s') => Account ["EventsFailed"] s s'
  end.
Proof.
  unfold process_claimed. apply or_fail_run; [apply Metered_tx|]. intros ps s1 E1.
  apply or_fail_run; [unfold canonicalEntityType; pose proof connect_metered; pres|]. intros et s2 E2.
  unfold unmatched. rewrite E1, E2. destruct (pv_ReconcileFindingID (ev_Provenance ev) =s ""); simpl.
  - destruct (targets ev et ps) as [|p l].
    + rewrite bool_decide_true by done.
      apply Ends_one, (Ends_after _ _ [] [[]] [["EventsFailed"]]); [by apply Always_ignore, Metered_tx|].
      intros _. eapply Ends_mono; [apply (Always_ends _ []), Always_ignore, Metered_tx|set_solver..].
    + rewrite bool_decide_false by done. apply or_fail_run; [|intros; apply succeed_run].
      case_if; [apply applyDelete_metered|apply applyUpsert_metered].
  - apply or_fail_run; [apply applyReconcileFinding_metered|intros; apply succeed_run].
Qed.

(** The claim [Process] makes first. *)
Definition claim (ev : Event) : M bool :=
  ClaimProcessedEvent (ev_TenantID ev) (ev_Source ev) (ev_EventID ev) (ev_EntityType ev) (ev_EntityID ev).

Lemma Process_counts ev s :
  let c := claim ev (add_metric "EventsTotal" s) in
  match Process ev s with
  | (Ok _, s') =>
      exists cs, Account cs s s' /\
        (c.1 = Ok false /\ cs = ["EventsTotal"; "Duplicates"] \/
         c.1 = Ok true /\ cs = if unmatched ev c.2 then ["EventsTotal"] else ["EventsTotal"; "EventsSuccess"])
  | (Err _, s') => c.1 <> Ok false /\ Account ["EventsTotal"; "EventsFailed"] s s'
  end.
Proof.
  cbv zeta. unfold Process. rewrite bind_metric, bind_attempt.
  pose proof (Always_outcome "EventsTotal" eq_refl eq_refl s) as (a & s0 & E0 & H0).
  assert (add_metric "EventsTotal" s = s0) as -> by (unfold add_metric; by rewrite E0).
  fold (claim ev). pose proof (Metered_tx _ s0 : Metered 0 s0 (claim ev s0).2) as Hc.
  apply Metered_account in Hc. pose proof (Account_trans _ _ _ _ _ H0 Hc) as H1. clear H0 Hc E0.
  destruct (claim ev s0) as [[[]|e] s1]; cbn [fst snd] in *.
  - pose proof (process_claimed_counts ev s1) as HP.
    destruct (process_claimed ev s1) as [[[]|e] s2]; pose proof (Account_trans _ _ _ _ _ H1 HP) as H2.
    + eexists. split; [exact H2|]. right. split; [done|]. by destruct (unmatched ev s1).
    + by split.
  - destruct (Always_outcome "Duplicates" eq_refl eq_refl s1) as (b & s2 & -> & H2).
    eexists. split; [by eapply Account_trans|]. by left.
  - destruct (Always_outcome "EventsFailed" eq_refl eq_refl s1) as (b & s2 & E2 & H2).
    unfold mbind, M_bind. rewrite E2. split; [done|]. by apply (Account_trans ["EventsTotal"] _ _ s1).
Qed.

Lemma encodable_metered {A} (o : option A) : Pres (Metered 0) (encodable o).
Proof. unfold encodable. pres. Qed.

Lemma deadLetter_ends ev reason class : Ends (deadLetter ev reason class) [["DLQEvents"]] [[]].
Proof.
  unfold deadLetter. apply Ends_try; [apply encodable_metered|by left|]. intros state.
  apply Ends_try; [apply Metered_tx|by left|]. intros _.
  apply (Ends_after _ _ [] [["DLQEvents"]] [[]]); [by apply Always_ignore, Metered_tx|]. intros _.
  eapply Ends_mono; [by apply Always_ends, Always_outcome|set_solver..].
Qed.

Lemma dispatchFailure_counts opts ev e s :
  match dispatchFailure opts ev e s with
  | (Ok _, s') => Account [if ShouldRetry (Classify e).1 then "RetryScheduled" else "DLQEvents"] s s'
  | (Err _, s') => Account [] s s'
  end.
Proof.
  apply Ends_one. unfold dispatchFailure. destruct (Classify e) as [kind ra]. simpl.
  destruct (ShouldRetry kind); simpl; [|apply deadLetter_ends].
  apply (Ends_after _ _ [] [["RetryScheduled"]] [[]]); [apply Always_draw|]. intros k.
  apply Ends_try; [apply encodable_metered|by left|]. intros state.
  apply Ends_try; [apply Metered_tx|by left|]. intros _.
  eapply Ends_mono; [by apply Always_ends, Always_outcome|set_solver..].
Qed.

(** C15: the counters tell what became of a message, whatever fails and whatever
    other runs do meanwhile.  Every message is counted in [EventsTotal].  If the
    claim finds it processed before, it counts in [Duplicates] and in nothing
    else.  If it is claimed and its processing succeeds, it counts in
    [EventsSuccess] and in nothing else, except that an event for which the
    tenant has no policy counts in neither; a success is an apply that returned
    without an error, so a stale, echoed or looping event and a parked conflict
    count as one.  If its processing fails, it counts in [EventsFailed], and when
    the failure became durable in exactly one of [RetryScheduled] and
    [DLQEvents], which one depending on whether the error is of a kind that is
    retried; in neither when the message goes back to the broker.  No destination
    write is counted without a request. *)
Theorem handle_counted (opts : Options) (ev : Event) (s : St) :
  let c := claim ev (add_metric "EventsTotal" s) in
  let p := Process ev s in let h := handle_event opts ev s in
  exists cs, Account cs s h.2 /\
    match p.1, h.1 with
    | Ok _, Ok _ =>
        c.1 = Ok false /\ cs = ["EventsTotal"; "Duplicates"] \/
        c.1 = Ok true /\ cs = if unmatched ev c.2 then ["EventsTotal"] else ["EventsTotal"; "EventsSuccess"]
    | Err e, Ok _ =>
        c.1 <> Ok false /\
        cs = ["EventsTotal"; "EventsFailed"; if ShouldRetry (Classify e).1 then "RetryScheduled" else "DLQEvents"]
    | Err _, Err _ => c.1 <> Ok false /\ cs = ["EventsTotal"; "EventsFailed"]
    | Ok _, Err _ => False
    end.
Proof.
  cbv zeta. unfold handle_event. rewrite bind_attempt. pose proof (Process_counts ev s) as HP. cbv zeta in HP.
  destruct (Process ev s) as [[[]|e] s1]; cbn [fst snd] in *; [exact HP|]. destruct HP as [Hc H1].
  pose proof (dispatchFailure_counts opts ev e s1) as HD.
  destruct (dispatchFailure opts ev e s1) as [[[]|e'] s2]; cbn [fst snd] in *;
    pose proof (Account_trans _ _ _ _ _ H1 HD) as H2; eexists; (split; [exact H2|by split]).
Qed.
End outcome.
