(* ===== verification/Startup.v ===== *)
(** * Starting and stopping: [cmd/api], [cmd/engine], [internal/db/db.go],
      [internal/observability], [cmd/sim-oidc]

    A process opens what it needs in order, gives up with [os.Exit(1)] at the first
    failure that matters, serves, and closes what it opened by deferred calls when
    it ends by itself; [os.Exit] skips them.  Whether a call to a library succeeds
    is an argument ([ext]); the trace lists the calls, what was opened and closed,
    and when the process began to serve. *)

From S2P Require Import Prelude Json GoTime Crypto Encoding JsonText Tables Effects Simulator SimSpec Oidc.
From S2P Require Import Idp Config Metrics.
Local Open Scope string_scope.

(** ** Processes *)

Inductive Resource := AppPool | AdminPool | Redis | Meter | Tracer | Bus.
#[global] Instance Resource_eq_dec : EqDecision Resource.
Proof. solve_decision. Defined.

(** The calls whose outcome is decided outside. *)
Inductive Ext :=
| ParseConfig (url : string) | NewWithConfig (r : Resource) (url : string) | Ping (r : Resource)
| RunMigrations | NewExporter | NewInstrument (name : string) | NewTraceExporter (endpoint : string)
| SeedTenant | NewClient (brokers : list string) | ListenAndServe (addr : string).

Inductive Ev := Asked (e : Ext) (ok : bool) | Opened (r : Resource) | Closed (r : Resource)
| Looping (loop : string) | Serving (addr : string) | ShutDown.

(** [None] is [os.Exit(1)]. *)
Definition P (A : Type) : Type := (option A * list Ev)%type.

#[global] Instance P_ret : MRet P := fun A a => (Some a, []).
#[global] Instance P_bind : MBind P := fun A B k m =>
  match m with
  | (Some a, t) => let (b, t') := k a in (b, (t ++ t')%list)
  | (None, t) => (None, t)
  end.

Definition emit (e : Ev) : P unit := (Some tt, [e]).
Definition os_exit {A} : P A := (None, []).

(** [defer c] before the rest of a function. *)
Definition defer {A} (c : P unit) (m : P A) : P A := a ← m; c;; mret a.

Section processes.
Context (ext : Ext -> bool).

Definition ask (e : Ext) : P bool := (Some (ext e), [Asked e (ext e)]).

(** [if err != nil { os.Exit(1) }]. *)
Definition must (m : P bool) : P unit := ok ← m; if (ok : bool) then mret tt else os_exit.

(** *** [internal/db/db.go] *)

Definition newPool (r : Resource) (url : string) : P bool :=
  ok ← ask (ParseConfig url);
  if negb ok then mret false
  else
    ok ← ask (NewWithConfig r url);
    if negb ok then mret false
    else
      emit (Opened r);;
      ok ← ask (Ping r);
      if negb ok then emit (Closed r);; mret false else mret true.

Definition Connect (appURL adminURL : string) : P bool :=
  ok ← newPool AppPool appURL;
  if negb ok then mret false
  else
    ok ← newPool AdminPool adminURL;
    if negb ok then emit (Closed AppPool);; mret false else mret true.

Definition Close : P unit := emit (Closed AppPool);; emit (Closed AdminPool).

(** *** [internal/observability] *)

Definition InitMetrics : P bool :=
  ok ← ask NewExporter;
  if negb ok then mret false else emit (Opened Meter);; mret true.

(** [NewServiceMetrics], [NewSyncMetrics]: the instruments in order. *)
Fixpoint instruments (names : list string) : P bool :=
  match names with
  | [] => mret true
  | n :: names => ok ← ask (NewInstrument n); if negb ok then mret false else instruments names
  end.

(** [strings.HasSuffix]. *)
Definition HasSuffix (s suf : string) : bool :=
  bool_decide (suffix (String.list_ascii_of_string suf) (String.list_ascii_of_string s)).

(** The address traces are posted to. *)
Definition trace_endpoint (endpoint : string) : string :=
  let e := Oidc.trim_slash endpoint in if HasSuffix e "/v1/traces" then e else e +:+ "/v1/traces".

(** [InitTracing]; its result is the function that shuts the provider down. *)
Definition InitTracing (endpoint : string) : P (option (P unit)) :=
  if endpoint =s "" then mret (Some (mret tt))
  else
    ok ← ask (NewTraceExporter (trace_endpoint endpoint));
    if negb ok then mret None else emit (Opened Tracer);; mret (Some (emit (Closed Tracer))).

(** *** [cmd/api] *)

Definition api_main (cfg : Config) : P unit :=
  must (Connect (cf_DBURL cfg) (cf_AdminDBURL cfg));;
  defer Close (
  must (ask RunMigrations);;
  emit (Opened Redis);;
  ask (Ping Redis);;
  defer (emit (Closed Redis)) (
  must InitMetrics;;
  defer (emit (Closed Meter)) (
  must (instruments ServiceMetrics.*2);;
  tracing ← InitTracing (cf_OTLPEndpoint cfg);
  match tracing with
  | None => os_exit
  | Some shutdownTracing =>
      defer shutdownTracing (
      (if cf_SeedAcme cfg then must (ask SeedTenant) else mret tt);;
      emit (Serving (cf_HTTPAddr cfg));;
      must (ask (ListenAndServe (cf_HTTPAddr cfg)));;
      emit ShutDown)
  end))).

(** *** [cmd/engine] *)

(** The bus: in process without brokers, or Redpanda. *)
Definition in_process (cfg : Config) : bool :=
  (TrimSpace (cf_KafkaBrokers cfg) =s "") || (cf_KafkaBrokers cfg =s "memory").

Definition new_bus (cfg : Config) : P unit :=
  (if in_process cfg then mret tt
   else must (ask (NewClient (Simulator.split_at "," (cf_KafkaBrokers cfg)))));;
  emit (Opened Bus).

(** The failure of a loop or of the listener ends the engine as a signal does. *)
Definition engine_main (cfg : Config) : P unit :=
  must (Connect (cf_DBURL cfg) (cf_AdminDBURL cfg));;
  defer Close (
  must (ask RunMigrations);;
  must InitMetrics;;
  defer (emit (Closed Meter)) (
  must (instruments SyncMetrics.*2);;
  tracing ← InitTracing (cf_OTLPEndpoint cfg);
  match tracing with
  | None => os_exit
  | Some shutdownTracing =>
      defer shutdownTracing (
      new_bus cfg;;
      defer (emit (Closed Bus)) (
      emit (Looping "ingestion");; emit (Looping "worker");; emit (Looping "retry");; emit (Looping "jobs");;
      emit (Serving (cf_HTTPAddr cfg));;
      ask (ListenAndServe (cf_HTTPAddr cfg));;
      emit ShutDown))
  end)).
End processes.

(** *** [cmd/sim-oidc] *)

Definition oidc_main `{RsaKeys} (env : Env) (key : rsa_private) : Idp.OIDCProvider :=
  Idp.AddUser (Idp.mkUser "sub-sso-1" (get env "OIDC_USER_EMAIL" "sso@acme.dev") true "SSO User")
    (Idp.NewOIDCProvider "http://sim-oidc:9083" (get env "OIDC_CLIENT_ID" "syncforge-cli") key).

(** ** What a start guarantees *)

Definition opens (t : list Ev) : list Resource := omap (fun e => match e with Opened r => Some r | _ => None end) t.
Definition closes (t : list Ev) : list Resource := omap (fun e => match e with Closed r => Some r | _ => None end) t.
Definition serves (t : list Ev) : bool := existsb (fun e => match e with Serving _ => true | _ => false end) t.
(** What happened before the process began to serve. *)
Fixpoint before (t : list Ev) : list Ev :=
  match t with
  | [] | Serving _ :: _ => []
  | e :: t => e :: before t
  end.

Section guarantees.
Context (ext : Ext -> bool).

(** A connection attempt that fails leaves no pool behind. *)
Lemma connect_no_leak appURL adminURL :
  let (ok, t) := Connect ext appURL adminURL in
  if default false ok then opens t = [AppPool; AdminPool] /\ closes t = []
  else closes t ≡ₚ opens t.
Proof.
  unfold Connect, newPool, ask, mbind, P_bind.
  repeat (match goal with |- context [ext ?e] => destruct (ext e) end; cbn); try done.
  all: try apply Permutation_swap. all: try (split; reflexivity).
Qed.

(** The steps between the connection and the listener. *)
Definition connects (cfg : Config) : bool :=
  ext (ParseConfig (cf_DBURL cfg)) && ext (NewWithConfig AppPool (cf_DBURL cfg)) && ext (Ping AppPool) &&
  ext (ParseConfig (cf_AdminDBURL cfg)) && ext (NewWithConfig AdminPool (cf_AdminDBURL cfg)) && ext (Ping AdminPool).
Definition traces (cfg : Config) : bool :=
  (cf_OTLPEndpoint cfg =s "") || ext (NewTraceExporter (trace_endpoint (cf_OTLPEndpoint cfg))).

Definition api_ready (cfg : Config) : bool :=
  connects cfg && ext RunMigrations && ext NewExporter &&
  forallb (fun n => ext (NewInstrument n)) ServiceMetrics.*2 && traces cfg &&
  (negb (cf_SeedAcme cfg) || ext SeedTenant).
Definition engine_ready (cfg : Config) : bool :=
  connects cfg && ext RunMigrations && ext NewExporter &&
  forallb (fun n => ext (NewInstrument n)) SyncMetrics.*2 && traces cfg &&
  (in_process cfg || ext (NewClient (Simulator.split_at "," (cf_KafkaBrokers cfg)))).

(** A process that serves exactly when it is [ready], only after the calls
    [needs] succeeded, that exits with an error otherwise, and that has closed what
    it opened when it ends by itself. *)
Definition Started (ready : bool) (needs : list Ext) (m : P unit) : Prop :=
  serves m.2 = ready /\ (ready = false -> m.1 = None) /\
  (ready = true -> Forall (fun e => Asked e true ∈ before m.2) needs) /\
  (m.1 = Some tt -> closes m.2 ≡ₚ opens m.2).
End guarantees.


Lemma before_app t1 t2 : serves t1 = false -> before (t1 ++ t2)%list = (t1 ++ before t2)%list.
Proof.
  induction t1 as [|e t1 IH]; [done|]. simpl. intros [He Ht]%orb_false_iff. rewrite <- IH by done. by destruct e.
Qed.

Lemma serves_app t1 t2 : serves (t1 ++ t2)%list = serves t1 || serves t2.
Proof. apply existsb_app. Qed.

Lemma opens_app t1 t2 : opens (t1 ++ t2)%list = (opens t1 ++ opens t2)%list.
Proof. apply omap_app. Qed.
Lemma closes_app t1 t2 : closes (t1 ++ t2)%list = (closes t1 ++ closes t2)%list.
Proof. apply omap_app. Qed.

(** Acquiring [rs], or failing, before anything is served. *)
Definition Acquires {A} (m : P A) (rs : list Resource) : Prop :=
  serves m.2 = false /\ forall a, m.1 = Some a -> opens m.2 = rs /\ closes m.2 = [].

Lemma Started_after {A} ready needs asked (m : P A) (a : A) (rs : list Resource) (c k : P unit) :
  m.1 = Some a -> Acquires m rs -> Forall (fun e => Asked e true ∈ m.2) asked ->
  c.1 = Some tt -> serves c.2 = false -> opens c.2 = [] -> closes c.2 ≡ₚ rs ->
  Started ready needs k -> Started ready (asked ++ needs)%list (m ≫= fun _ => defer c k).
Proof.
  intros Ea [Hs Hm] Hask Ec Hcs Hco Hcc (H1 & H2 & H3 & H4). destruct (Hm a Ea) as [Ho Hc].
  destruct m as [x t], c as [y tc], k as [z tk]. cbn [fst snd] in *. subst x y. unfold Started, defer, mbind, P_bind, mret, P_ret.
  destruct z as [[]|]; cbn [fst snd]; rewrite ?app_nil_r, !serves_app, ?Hs, ?Hcs, ?orb_false_r; (split; [exact H1|]).
  - split; [done|]. split.
    + intros E. specialize (H3 E). rewrite before_app by done. apply Forall_app. split.
      * eapply Forall_impl; [exact Hask|]. intros e He. apply elem_of_app. by left.
      * eapply Forall_impl; [exact H3|]. intros e He. apply elem_of_app. right.
        clear -He. induction tk as [|x tk IH]; simpl in *; [by apply not_elem_of_nil in He|].
        destruct x; try (apply elem_of_cons in He as [->|He]; [by left|right; by apply IH]). by apply not_elem_of_nil in He.
    + intros _. rewrite !opens_app, !closes_app, Ho, Hc, Hco, (H4 eq_refl), Hcc, app_nil_r. simpl. apply Permutation_app_comm.
  - split; [done|]. split; [|done]. intros E. specialize (H3 E). rewrite before_app by done. apply Forall_app.
    split; (eapply Forall_impl; [eassumption|]); intros e He; apply elem_of_app; auto.
Qed.

Lemma Started_never {A} needs (m : P A) (k : A -> P unit) :
  m.1 = None -> serves m.2 = false -> Started false needs (m ≫= k).
Proof. destruct m as [x t]. cbn. intros -> Hs. by repeat split. Qed.

Lemma defer_nothing (k : P unit) : defer (mret tt) k = k.
Proof. destruct k as [[[]|] t]; unfold defer, mbind, P_bind, mret, P_ret; simpl; by rewrite ?app_nil_r. Qed.

(** A step the process cannot do without, with what it defers. *)
Lemma Started_must ready needs asked (ok : bool) (m : P bool) (rs : list Resource) (c k : P unit) :
  m.1 = Some ok -> serves m.2 = false ->
  (ok = true -> opens m.2 = rs /\ closes m.2 = [] /\ Forall (fun e => Asked e true ∈ m.2) asked) ->
  c.1 = Some tt -> serves c.2 = false -> opens c.2 = [] -> closes c.2 ≡ₚ rs ->
  Started ready needs k -> Started (ok && ready) (asked ++ needs)%list (must m;; defer c k).
Proof.
  intros E Hs Hok Hc1 Hc2 Hc3 Hc4 HS. destruct m as [x t]. cbn [fst snd] in *. subst x.
  destruct ok.
  - destruct (Hok eq_refl) as (Ho & Hc & Ha).
    eapply (Started_after ready needs asked _ tt rs); try eassumption; unfold must, mbind, P_bind, mret, P_ret; simpl.
    + done.
    + split; simpl; rewrite app_nil_r; [done|]. by intros _ _.
    + by rewrite app_nil_r.
  - apply Started_never; unfold must, mbind, P_bind, os_exit; simpl; by rewrite ?app_nil_r.
Qed.

(** A step without resources. *)
Lemma Started_step ready needs asked (ok : bool) (m : P bool) (k : P unit) :
  m.1 = Some ok -> serves m.2 = false -> opens m.2 = [] -> closes m.2 = [] ->
  (ok = true -> Forall (fun e => Asked e true ∈ m.2) asked) ->
  Started ready needs k -> Started (ok && ready) (asked ++ needs)%list (must m;; k).
Proof.
  intros. rewrite <- (defer_nothing k). eapply (Started_must ready needs asked ok m []); try done. by auto.
Qed.

Section stages.
Context (ext : Ext -> bool).

Lemma ask_step ready needs e (k : P unit) :
  Started ready needs k -> Started (ext e && ready) (e :: needs) (must (ask ext e);; k).
Proof. apply (Started_step ready needs [e] (ext e) (ask ext e)); try done. simpl. intros ->. by repeat constructor. Qed.

Lemma instruments_run names :
  (instruments ext names).1 = Some (forallb (fun n => ext (NewInstrument n)) names) /\
  serves (instruments ext names).2 = false /\ opens (instruments ext names).2 = [] /\ closes (instruments ext names).2 = [].
Proof.
  induction names as [|n names IH]; [done|]. simpl. unfold ask, mbind, P_bind.
  destruct (ext (NewInstrument n)); simpl; [|done]. by destruct (instruments ext names).
Qed.

Lemma Connect_run cfg :
  let m := Connect ext (cf_DBURL cfg) (cf_AdminDBURL cfg) in
  m.1 = Some (connects ext cfg) /\ serves m.2 = false /\
  (connects ext cfg = true -> opens m.2 = [AppPool; AdminPool] /\ closes m.2 = []).
Proof.
  unfold connects, Connect, newPool, ask, mbind, P_bind.
  destruct (ext (ParseConfig (cf_DBURL cfg))) eqn:?; cbn; [|done].
  destruct (ext (NewWithConfig AppPool (cf_DBURL cfg))); cbn; [|done]. destruct (ext (Ping AppPool)); cbn; [|done].
  destruct (ext (ParseConfig (cf_AdminDBURL cfg))) eqn:?; cbn; [|done].
  destruct (ext (NewWithConfig AdminPool (cf_AdminDBURL cfg))); cbn; [|done]. by destruct (ext (Ping AdminPool)).
Qed.

Lemma connect_stage ready needs cfg k :
  Started ready needs k ->
  Started (connects ext cfg && ready) needs (must (Connect ext (cf_DBURL cfg) (cf_AdminDBURL cfg));; defer Close k).
Proof.
  destruct (Connect_run cfg) as (H1 & H2 & H3).
  apply (Started_must ready needs [] _ _ [AppPool; AdminPool]); try done. intros E. by destruct (H3 E).
Qed.

Lemma metrics_stage ready needs names k :
  Started ready needs k ->
  Started (ext NewExporter && (forallb (fun n => ext (NewInstrument n)) names && ready)) needs
    (must (InitMetrics ext);; defer (emit (Closed Meter)) (must (instruments ext names);; k)).
Proof.
  intros HS. destruct (instruments_run names) as (H1 & H2 & H3 & H4).
  apply (Started_must _ needs [] (ext NewExporter) _ [Meter]); try done;
    try (unfold InitMetrics, ask, mbind, P_bind; by destruct (ext NewExporter)).
  by apply (Started_step ready needs [] _ (instruments ext names)).
Qed.

Lemma tracing_stage ready needs cfg (k : P unit) :
  Started ready needs k ->
  Started (traces ext cfg && ready) needs
    (tracing ← InitTracing ext (cf_OTLPEndpoint cfg);
     match tracing with None => os_exit | Some shutdown => defer shutdown k end).
Proof.
  intros HS. unfold traces, InitTracing. destruct (cf_OTLPEndpoint cfg =s "") eqn:E.
  { unfold mbind, P_bind, mret, P_ret. cbn -[defer]. rewrite defer_nothing. by destruct k. }
  set (e := NewTraceExporter _). cbn [orb].
  replace (_ ≫= _) with (must (ok ← ask ext e; if negb ok then mret false else emit (Opened Tracer);; mret true);;
                         defer (emit (Closed Tracer)) k).
  - apply (Started_must ready needs [] (ext e) _ [Tracer]); try done; unfold ask, mbind, P_bind; by destruct (ext e).
  - unfold must, ask, mbind, P_bind, mret, P_ret, emit, os_exit. by destruct (ext e).
Qed.
End stages.

Lemma if_step (ext : Ext -> bool) (b : bool) ready needs e (k : P unit) :
  Started ready needs k ->
  Started ((negb b || ext e) && ready) ((if b then [e] else []) ++ needs)%list
    ((if b then must (ask ext e) else mret tt);; k).
Proof.
  intros HS. destruct b; [by apply (ask_step ext ready needs e)|].
  unfold mbind, P_bind, mret, P_ret. simpl. by destruct k.
Qed.

(** The API and the engine serve only a database that was migrated (and, where
    asked for, seeded): they begin to serve exactly when the pools, the migrations,
    the metrics and the trace exporter came up, and the demo tenant was seeded or
    the bus was made, after all these; a cache that is down does not matter; any
    other failure ends the process with an error before it serves.  When the
    process ends by itself it has closed what it opened. *)
Theorem processes_start (ext : Ext -> bool) (cfg : Config) :
  Started (api_ready ext cfg) (RunMigrations :: if cf_SeedAcme cfg then [SeedTenant] else []) (api_main ext cfg) /\
  Started (engine_ready ext cfg) [RunMigrations] (engine_main ext cfg) /\
  api_ready (fun e => match e with Ping Redis => false | _ => ext e end) cfg = api_ready ext cfg.
Proof.
  split; [|split; [|done]].
  - unfold api_ready, api_main. rewrite <- !andb_assoc.
    apply (connect_stage ext), ask_step.
    set (needs := if cf_SeedAcme cfg then _ else _).
    set (rest := defer (emit (Closed Redis)) _).
    replace (emit (Opened Redis);; _) with ((emit (Opened Redis);; ask ext (Ping Redis)) ≫= fun _ => rest)
      by (unfold mbind, P_bind; simpl; by destruct rest).
    apply (Started_after _ needs [] _ (ext (Ping Redis)) [Redis]); try done.
    apply (metrics_stage ext), (tracing_stage ext). rewrite <- (app_nil_r needs), <- (andb_true_r (negb _ || _)).
    apply if_step. unfold must, ask, mbind, P_bind. destruct (ext (ListenAndServe _)); by repeat split.
  - unfold engine_ready, engine_main. rewrite <- !andb_assoc.
    apply (connect_stage ext), ask_step, (metrics_stage ext), (tracing_stage ext).
    rewrite <- (negb_involutive (in_process cfg)), <- (andb_true_r (negb _ || _)). unfold new_bus.
    set (rest := defer (emit (Closed Bus)) _).
    assert (HS : Started true [] (emit (Opened Bus);; rest)).
    { by apply (Started_after true [] [] (emit (Opened Bus)) tt [Bus]). }
    pose proof (if_step ext (negb (in_process cfg)) true [] (NewClient (Simulator.split_at "," (cf_KafkaBrokers cfg))) _ HS)
      as HI. destruct HI as (I1 & I2 & I3 & I4).
    replace (_ ≫= fun _ => rest) with
      ((if negb (in_process cfg) then must (ask ext (NewClient (Simulator.split_at "," (cf_KafkaBrokers cfg)))) else mret tt);;
       emit (Opened Bus);; rest); [by split_and!|].
    destruct (in_process cfg); simpl; unfold must, ask, mbind, P_bind; [by destruct rest|].
    destruct (ext _); simpl; [by destruct rest|done].
Qed.

(** ** The trace exporter's address *)

Lemma trim_slash_app s c t : t <> "" -> Oidc.trim_slash (s +:+ String c t) = s +:+ Oidc.trim_slash (String c t).
Proof.
  intros Ht. induction s as [|a s IH]; [done|]. simpl. rewrite IH. simpl.
  destruct (s +:+ String c t) eqn:E; [by destruct s|]. destruct a as [[] [] [] [] [] [] [] []]; reflexivity.
Qed.

Lemma HasSuffix_spec s suf : HasSuffix s suf = true <-> exists x, s = x +:+ suf.
Proof.
  unfold HasSuffix. rewrite bool_decide_eq_true. split.
  - intros [k E]. exists (String.string_of_list_ascii k).
    rewrite <- (String.string_of_list_ascii_of_string s), E. clear.
    induction k as [|c k IH]; simpl; [apply String.string_of_list_ascii_of_string|by rewrite IH].
  - intros [x ->]. rewrite list_ascii_app. by eexists.
Qed.

(** Traces are posted to the signal's path, however the address was given: with
    it, without it, or with a slash at the end. *)
Lemma trace_endpoint_exact (base : string) :
  base <> "" -> Oidc.trim_slash base = base ->
  trace_endpoint (base +:+ "/v1/traces") = base +:+ "/v1/traces" /\
  (HasSuffix base "/v1/traces" = false ->
     trace_endpoint base = base +:+ "/v1/traces" /\ trace_endpoint (base +:+ "/") = base +:+ "/v1/traces").
Proof.
  intros Hne Hb. assert (Hsl : Oidc.trim_slash (base +:+ "/") = base).
  { clear Hne. induction base as [|a base IH]; [done|]. simpl in Hb |- *.
    destruct base as [|b base]; [by destruct a as [[] [] [] [] [] [] [] []]|].
    assert (E : Oidc.trim_slash (String b base) = String b base)
      by (destruct a as [[] [] [] [] [] [] [] []]; by simplify_eq).
    rewrite (IH E). by destruct a as [[] [] [] [] [] [] [] []]. }
  split.
  - unfold trace_endpoint. rewrite trim_slash_app by done.
    change (Oidc.trim_slash "/v1/traces") with "/v1/traces".
    by rewrite (proj2 (HasSuffix_spec _ _) (ex_intro _ base eq_refl)).
  - intros Hf. unfold trace_endpoint. by rewrite Hsl, Hb, Hf.
Qed.

(** ** The bus *)

(** The branch for no brokers is out of reach of an empty setting: the
    configuration reads it as its default. *)
Lemma empty_brokers_not_in_process (env : Env) : env "KAFKA_BROKERS" = Some "" -> in_process (Load env) = false.
Proof. intros E. unfold in_process, Load, get. cbn [cf_KafkaBrokers]. rewrite E. vm_compute. reflexivity. Qed.
