(* ===== verification/LoadTest.v ===== *)
(** * [load_test] and [cmd/loadgen]: the load generator

    A burst of signed webhooks, each from a goroutine of its own, and the summary
    of their answers.  The goroutines finish in any order: the summary is a
    function of the answers in the order in which they came in, with the measured
    latencies as arguments.  The clock lies in the years 0 to 9999, so that its
    text is that of [time_marshal]; the fields a caller adds are JSON values, so that
    encoding a payload does not fail. *)

From S2P Require Import Prelude Json GoTime Crypto Float64 Events Tables Effects Store Frame.
From S2P Require Import Connectors Run Sample Ingestion.
Local Open Scope string_scope.

(** [Generator], as far as the requests depend on it. *)
Record Generator := mkGenerator { gn_WebhookSecret : string; gn_Source : string; gn_TenantSlug : string }.

(** [fmt.Sprintf("%05d", i)]. *)
Definition pad5 (i : nat) : string :=
  let s := pretty i in
  if (String.length s <? 5)%nat then str_repeat "0" (5 - String.length s) +:+ s else s.

Definition load_entity (prefix : string) (i : nat) : string := prefix +:+ "-" +:+ pad5 i.
Definition load_event (prefix : string) (i : nat) : string := "load-" +:+ prefix +:+ "-" +:+ pretty i.

(** The members of the payload; [custom] is what [fieldsFn] returned. *)
Definition load_fields (prefix : string) (i : nat) (custom : Fields) : Fields :=
  custom ∪ list_to_map [("id", JStr (load_entity prefix i)); ("first_name", JStr "Load");
    ("last_name", JStr ("Gen" +:+ pretty i)); ("email", JStr (load_entity prefix i +:+ "@example.com"));
    ("phone", JStr "+1-555-0000"); ("company", JStr "LoadTest")].

Definition load_payload (g : Generator) (prefix start : string) (i : nat) (custom : Fields)
    : list (string * Json) :=
  [("event_id", JStr (load_event prefix i)); ("source", JStr (gn_Source g)); ("entity_type", JStr "customer");
   ("entity_id", JStr (load_entity prefix i)); ("event_type", JStr "created"); ("source_version", JNum 1);
   ("occurred_at", JStr start);
   ("payload", JObj [("fields", of_fields (load_fields prefix i custom))])].

(** [send]: the request, to [/webhooks/<source>/<slug>]. *)
Definition send (g : Generator) (payload : list (string * Json)) : WebhookReq :=
  let body := marshal (JObj payload) in
  mkWebhookReq (gn_Source g) (gn_TenantSlug g) body (Some (JObj payload))
    ("sha256=" +:+ hex_encode (mac_of (gn_WebhookSecret g) body)).

(** What a request came back with: no answer, or a status. *)
Inductive Outcome := Failed | Answered (status : Z).

(** [percentile]. *)
Definition percentile (sorted : list Z) (p : Z) : Z :=
  match sorted with
  | [] => 0
  | _ => default 0 (sorted !! Z.to_nat (f_to_int (fmul (f_of_int (Z.of_nat (length sorted) - 1)) p)))
  end%Z.

(** The constants 0.50, 0.95 and 0.99. *)
Definition p50 : Z := rne (50 * f1) 100.
Definition p95 : Z := rne (95 * f1) 100.
Definition p99 : Z := rne (99 * f1) 100.

Record Result := mkResult {
  re_Sent : nat; re_Accepted : nat; re_Rejected : nat; re_Errors : nat; re_Elapsed : Z;
  re_Throughput : Z; re_LatenciesMS : list Z; re_P50 : Z; re_P95 : Z; re_P99 : Z;
}.

(** The counters a goroutine increments. *)
Definition is_accepted (o : Outcome) : bool :=
  match o with Answered c => (c =? 202)%Z || (c =? 200)%Z | Failed => false end.
Definition is_failed (o : Outcome) : bool := match o with Failed => true | Answered _ => false end.
Definition is_rejected (o : Outcome) : bool := negb (is_accepted o) && negb (is_failed o).

(** [float64(d.Microseconds()) / 1000.0]. *)
Definition latency_ms (us : Z) : Z := fdiv (f_of_int us) (f_of_int 1000).

(** The end of [Burst]: [outs] are the latencies (in microseconds) and outcomes in
    the order of completion. *)
Definition summary (n : nat) (elapsed : Z) (outs : list (Z * Outcome)) : Result :=
  let lat := isort Z.leb (latency_ms ∘ fst <$> outs) in
  let accepted := length (List.filter (fun o => is_accepted o.2) outs) in
  mkResult n accepted (length (List.filter (fun o => is_rejected o.2) outs))
    (length (List.filter (fun o => is_failed o.2) outs)) elapsed
    (fdiv (f_of_int (Z.of_nat accepted)) (Seconds elapsed)) lat
    (percentile lat p50) (percentile lat p95) (percentile lat p99).

(** ** The summary *)

Lemma counted (outs : list (Z * Outcome)) :
  length (List.filter (fun o => is_accepted o.2) outs) + length (List.filter (fun o => is_rejected o.2) outs) +
  length (List.filter (fun o => is_failed o.2) outs) = length outs.
Proof.
  induction outs as [|[us o] outs IH]; simpl; [done|]. unfold is_rejected in *.
  destruct o as [|c]; simpl; [lia|]. destruct ((c =? 202)%Z || (c =? 200)%Z); simpl; lia.
Qed.

Local Open Scope Z_scope.

Lemma rounded (u v E w : Z) :
  0 < E -> Z.abs (u - v) * E <= w -> E * u <= v * E + w /\ v * E - w <= E * u.
Proof. intros HE Hw. split; destruct (Z.abs_spec (u - v)) as [[_ Ea]|[_ Ea]]; rewrite Ea in Hw; nia. Qed.

(** A product of three roundings is within a two-hundredth of its value. *)
Lemma three_roundings (E F L num a p x : Z) :
  0 < E -> 0 < F -> 0 <= L -> 0 <= num -> 0 <= a -> 0 <= p -> 0 <= x ->
  2 * num * (E + 1) ^ 3 <= (2 * num + 1) * E ^ 3 -> (2 * num - 1) * E ^ 3 <= 2 * num * (E - 1) ^ 3 -> 1 < E ->
  Z.abs (a - L * F) * E <= L * F -> Z.abs (100 * p - num * F) * E <= num * F ->
  Z.abs (x * F - a * p) * E <= a * p ->
  (2 * num - 1) * (L * F) <= 200 * x <= (2 * num + 1) * (L * F).
Proof.
  intros HE HF HL Hn Ha Hp Hx Hu Hl HE1 H1 H2 H3.
  apply rounded in H1 as [A1 A2]; [|done]. apply rounded in H2 as [B1 B2]; [|done].
  apply rounded in H3 as [C1 C2]; [|done].
  replace (L * F * E + L * F) with (L * F * (E + 1)) in A1 by ring.
  replace (L * F * E - L * F) with (L * F * (E - 1)) in A2 by ring.
  replace (num * F * E + num * F) with (num * F * (E + 1)) in B1 by ring.
  replace (num * F * E - num * F) with (num * F * (E - 1)) in B2 by ring.
  replace (a * p * E + a * p) with (a * p * (E + 1)) in C1 by ring.
  replace (a * p * E - a * p) with (a * p * (E - 1)) in C2 by ring.
  assert (D1 : (E * a) * (E * (100 * p)) <= (L * F * (E + 1)) * (num * F * (E + 1))).
  { apply Z.mul_le_mono_nonneg; [|done| |done]; apply Z.mul_nonneg_nonneg; lia. }
  assert (D2 : (L * F * (E - 1)) * (num * F * (E - 1)) <= (E * a) * (E * (100 * p))).
  { apply Z.mul_le_mono_nonneg; [|done| |done]; repeat apply Z.mul_nonneg_nonneg; lia. }
  assert (HLF : 0 <= L * F * F) by (repeat apply Z.mul_nonneg_nonneg; lia).
  assert (HE3 : 0 < E ^ 3 * F) by (apply Z.mul_pos_pos; [apply Z.pow_pos_nonneg; lia|done]).
  split; apply (Z.mul_le_mono_pos_l _ _ (E ^ 3 * F) HE3).
  - transitivity (2 * num * (E - 1) ^ 3 * (L * F * F)).
    + replace (E ^ 3 * F * ((2 * num - 1) * (L * F))) with ((2 * num - 1) * E ^ 3 * (L * F * F)) by ring.
      by apply Z.mul_le_mono_nonneg_r.
    + replace (2 * num * (E - 1) ^ 3 * (L * F * F))
        with (2 * ((E - 1) * ((L * F * (E - 1)) * (num * F * (E - 1))))) by ring.
      replace (E ^ 3 * F * (200 * x)) with (2 * (E * E * (100 * (E * (x * F))))) by ring.
      apply Z.mul_le_mono_nonneg_l; [lia|].
      transitivity ((E - 1) * ((E * a) * (E * (100 * p)))); [apply Z.mul_le_mono_nonneg_l; lia|].
      replace ((E - 1) * (E * a * (E * (100 * p)))) with (E * E * (100 * (a * p * (E - 1)))) by ring.
      apply Z.mul_le_mono_nonneg_l; [apply Z.mul_nonneg_nonneg; lia|lia].
  - transitivity (2 * num * (E + 1) ^ 3 * (L * F * F)).
    + replace (2 * num * (E + 1) ^ 3 * (L * F * F))
        with (2 * ((E + 1) * ((L * F * (E + 1)) * (num * F * (E + 1))))) by ring.
      replace (E ^ 3 * F * (200 * x)) with (2 * (E * E * (100 * (E * (x * F))))) by ring.
      apply Z.mul_le_mono_nonneg_l; [lia|].
      transitivity ((E + 1) * ((E * a) * (E * (100 * p)))); [|apply Z.mul_le_mono_nonneg_l; lia].
      replace ((E + 1) * (E * a * (E * (100 * p)))) with (E * E * (100 * (a * p * (E + 1)))) by ring.
      apply Z.mul_le_mono_nonneg_l; [apply Z.mul_nonneg_nonneg; lia|lia].
    + replace (E ^ 3 * F * ((2 * num + 1) * (L * F))) with ((2 * num + 1) * E ^ 3 * (L * F * F)) by ring.
      by apply Z.mul_le_mono_nonneg_r.
Qed.

Lemma f1_large53 : 2 ^ 60 <= f1.
Proof. unfold f1. apply Z.pow_le_mono_r; lia. Qed.

(** The position a percentile is read at. *)
Definition position (L p : Z) : Z := f_to_int (fmul (f_of_int L) p).

Lemma position_near (L num : Z) :
  1 <= L -> num = 50 \/ num = 95 \/ num = 99 ->
  exists x, position L (rne (num * f1) 100) = Z.quot x f1 /\
    (2 * num - 1) * (L * f1) <= 200 * x <= (2 * num + 1) * (L * f1).
Proof.
  intros HL Hnum. set (p := rne (num * f1) 100). exists (fmul (f_of_int L) p). split; [done|].
  pose proof f1_pos as HF. pose proof f1_large53 as Hbig.
  assert (Hp : 0 <= p) by (apply rne_nonneg; lia).
  assert (Ha : 0 <= f_of_int L) by (apply rne_nonneg; lia).
  assert (H1 : Z.abs (f_of_int L - L * f1) * 2 ^ 53 <= L * f1).
  { pose proof (rne_err (L * f1) 1 ltac:(lia)) as E. unfold f_of_int. rewrite Z.mul_1_r in E.
    assert (1 * 2 ^ 52 <= L * f1) by nia. lia. }
  assert (H2 : Z.abs (100 * p - num * f1) * 2 ^ 53 <= num * f1).
  { pose proof (rne_err (num * f1) 100 ltac:(lia)) as E. fold p in E.
    rewrite (Z.mul_comm p 100) in E. lia. }
  assert (H3 : Z.abs (fmul (f_of_int L) p * f1 - f_of_int L * p) * 2 ^ 53 <= f_of_int L * p).
  { pose proof (rne_err (f_of_int L * p) f1 HF) as E. fold (fmul (f_of_int L) p) in E.
    assert (2 * f_of_int L >= f1) by nia. assert (4 * p >= f1) by nia.
    assert (f1 * f1 <= 8 * (f_of_int L * p)) by nia. assert (f1 * 2 ^ 60 <= f1 * f1) by nia.
    assert (0 <= f_of_int L * p) by nia. lia. }
  assert (Hx : 0 <= fmul (f_of_int L) p) by (apply rne_nonneg; nia).
  apply (three_roundings (2 ^ 53) f1 L num (f_of_int L) p); try lia; destruct Hnum as [->|[->| ->]]; lia.
Qed.

(** The positions are those of records, in order. *)
Lemma positions_ordered (L : Z) :
  1 <= L -> 0 <= position L p50 <= position L p95 /\ position L p95 <= position L p99 < L.
Proof.
  intros HL. pose proof f1_pos as HF.
  destruct (position_near L 50 HL ltac:(auto)) as (x & Ex & Hx).
  destruct (position_near L 95 HL ltac:(auto)) as (y & Ey & Hy).
  destruct (position_near L 99 HL ltac:(auto)) as (z & Ez & Hz).
  unfold p50, p95, p99. rewrite Ex, Ey, Ez. assert (0 < L * f1) by nia.
  rewrite !Z.quot_div_nonneg by lia. split; split.
  - apply Z.div_pos; lia.
  - apply Z.div_le_mono; lia.
  - apply Z.div_le_mono; lia.
  - apply Z.div_lt_upper_bound; lia.
Qed.

Lemma sorted_lookup (l : list Z) (i j : nat) (x y : Z) :
  Sorted (fun a b => (a <=? b) = true) l -> (i <= j)%nat -> l !! i = Some x -> l !! j = Some y -> x <= y.
Proof.
  intros Hs%Sorted_StronglySorted; [|intros a b c H1 H2; lia].
  revert i j. induction Hs as [|a l _ IH HF]; intros [|i] [|j] Hij Hi Hj; simplify_eq/=; try lia.
  - rewrite Forall_forall in HF. apply list_elem_of_lookup_2, HF in Hj. lia.
  - eapply (IH i j); [lia|done..].
Qed.

(** The three percentiles of a burst with an answer are latencies of the burst,
    in order; and every request is counted once. *)
Lemma summary_sound (n : nat) (elapsed : Z) (outs : list (Z * Outcome)) :
  let r := summary n elapsed outs in
  (re_Accepted r + re_Rejected r + re_Errors r)%nat = length outs /\
  (outs <> [] -> re_P50 r <= re_P95 r <= re_P99 r /\
     forall x, x ∈ [re_P50 r; re_P95 r; re_P99 r] -> exists us o, (us, o) ∈ outs /\ x = latency_ms us).
Proof.
  split; [apply counted|]. intros Hne. unfold summary. cbn [re_P50 re_P95 re_P99].
  set (lat := isort Z.leb (latency_ms ∘ fst <$> outs)).
  assert (Hlen : length lat = length outs) by (unfold lat; by rewrite length_isort, length_fmap).
  assert (Hs : Sorted (fun a b => (a <=? b) = true) lat) by (apply isort_sorted; intros; lia).
  assert (Hin : forall x, x ∈ lat -> exists us o, (us, o) ∈ outs /\ x = latency_ms us).
  { intros x Hx. unfold lat in Hx. apply elem_of_isort, list_elem_of_fmap in Hx as ([us o] & -> & Ho). by exists us, o. }
  assert (Hpos : (0 < length lat)%nat) by (rewrite Hlen; destruct outs; [done|simpl; lia]).
  assert (Hat : exists i j k, (i <= j <= k)%nat /\ lat !! i = Some (percentile lat p50) /\
    lat !! j = Some (percentile lat p95) /\ lat !! k = Some (percentile lat p99)).
  { exists (Z.to_nat (position (Z.of_nat (length lat) - 1) p50)), (Z.to_nat (position (Z.of_nat (length lat) - 1) p95)),
      (Z.to_nat (position (Z.of_nat (length lat) - 1) p99)).
    assert (Hb : 0 <= position (Z.of_nat (length lat) - 1) p50 <= position (Z.of_nat (length lat) - 1) p95 /\
      position (Z.of_nat (length lat) - 1) p95 <= position (Z.of_nat (length lat) - 1) p99 < Z.of_nat (length lat)).
    { destruct (decide (length lat = 1%nat)) as [->|Hn1].
      - vm_compute. repeat split; discriminate.
      - pose proof (positions_ordered (Z.of_nat (length lat) - 1) ltac:(lia)). lia. }
    assert (Hget : forall p, 0 <= position (Z.of_nat (length lat) - 1) p < Z.of_nat (length lat) ->
      lat !! Z.to_nat (position (Z.of_nat (length lat) - 1) p) = Some (percentile lat p)).
    { intros p Hp. unfold percentile. fold (position (Z.of_nat (length lat) - 1) p).
      destruct (lookup_lt_is_Some_2 lat (Z.to_nat (position (Z.of_nat (length lat) - 1) p))) as [x Hx]; [lia|].
      rewrite Hx. by destruct lat. }
    split; [lia|]. split_and!; apply Hget; lia. }
  destruct Hat as (i & j & k & [Hij Hjk] & Hi & Hj & Hk). clearbody lat. revert Hi Hj Hk.
  generalize (percentile lat p50), (percentile lat p95), (percentile lat p99). intros a b c Hi Hj Hk. split.
  - split; [by eapply (sorted_lookup lat i j)|by eapply (sorted_lookup lat j k)].
  - intros x Hx. apply Hin. rewrite !elem_of_cons in Hx.
    destruct Hx as [->|[->|[->|Hx]]]; [by eapply list_elem_of_lookup_2..|by apply not_elem_of_nil in Hx].
Qed.
Close Scope Z_scope.

(** ** A burst at the gateway *)

(** What the gateway reads in a request of the burst. *)
Definition load_webhook (g : Generator) (prefix : string) (start : Z) (i : nat) (custom : Fields) : providerWebhook :=
  mkWebhook (load_event prefix i) (gn_Source g) "customer" (load_entity prefix i) "created" 1 start "" ∅
    {[ "fields" := of_fields (load_fields prefix i custom) ]}.

Lemma decode_load g prefix start text i custom :
  time_marshal start = Some text ->
  decode_webhook (Some (JObj (load_payload g prefix text i custom))) = Some (load_webhook g prefix start i custom).
Proof.
  intros Et%time_roundtrip. unfold decode_webhook, into_struct, load_payload, dec_time, dec_int64, dec_fields.
  simpl. by rewrite Et.
Qed.

Lemma load_event_inj prefix i j : load_event prefix i = load_event prefix j -> i = j.
Proof. intros E. do 3 apply str_app_inj_l in E. by apply (inj pretty) in E. Qed.

Lemma all_accepted c (lat : list Z) (elapsed : Z) :
  is_accepted (Answered c) = true ->
  re_Accepted (summary (length lat) elapsed (zip lat (Answered <$> replicate (length lat) c))) = length lat.
Proof.
  intros Hc. unfold summary. cbn [re_Accepted]. induction lat as [|x lat IH]; [done|].
  cbn -[is_accepted]. rewrite Hc. simpl. by f_equal.
Qed.

Section burst.
Context `{Transport} (g : Generator) (prefix text : string) (start : Z) (fieldsFn : nat -> Fields).

Definition load_request (i : nat) : WebhookReq := send g (load_payload g prefix text i (fieldsFn i)).

(** The statuses of a burst whose requests the gateway serves in the order [ks]. *)
Fixpoint burst (ks : list nat) : M (list Z) :=
  match ks with
  | [] => mret []
  | i :: ks => r ← handleWebhook (load_request i); rest ← burst ks; mret (rs_code r :: rest)
  end.

(** The gateway knows the generator. *)
Definition admits (d : DB) (tenant : Tenant) (conn : Connection) : Prop :=
  select_one (fun r => tn_Slug r =s gn_TenantSlug g) (tenants d) = Some tenant /\
  select_one (fun r => (cn_TenantID r =s tn_ID tenant) && (cn_Provider r =s gn_Source g)) (connections d) = Some conn /\
  cn_WebhookSecret conn = gn_WebhookSecret g /\ gn_WebhookSecret g <> "" /\ gn_Source g <> "" /\
  time_marshal start = Some text.

(** The request of an index, recorded or not yet. *)
Definition load_known (tenant : Tenant) (d : DB) (i : nat) : bool :=
  existsb (source_event_key (tn_ID tenant) (gn_Source g) (load_event prefix i)) (source_events d).

Definition load_row (tenant : Tenant) (i : nat) (row : SourceEvent) : Prop :=
  row_of (tn_ID tenant) (load_webhook g prefix start i (fieldsFn i)) (wq_json (load_request i)) row.

Lemma request_served tenant conn i s :
  st_faults s = [] -> admits (st_db s) tenant conn ->
  exists resp s', handleWebhook (load_request i) s = (Ok resp, s') /\ st_faults s' = [] /\
    if load_known tenant (st_db s) i then rs_code resp = 200%Z /\ st_db s' = st_db s
    else rs_code resp = 202%Z /\ exists row, load_row tenant i row /\
           st_db s' = on_source_events (fun l => l ++ [row])%list (st_db s).
Proof.
  intros Hf (Ht & Hc & Hsec & Hne & Hsrc & Htext).
  apply (webhook_stored (load_request i) (load_webhook g prefix start i (fieldsFn i)) tenant conn s); try done.
  - by rewrite Hsec.
  - by rewrite Hsec.
  - by apply decode_load.
  - by destruct prefix.
Qed.

Lemma known_after tenant d i j row :
  load_row tenant i row ->
  load_known tenant (on_source_events (fun l => l ++ [row])%list d) j = load_known tenant d j || bool_decide (i = j).
Proof.
  intros (id & now & ->). unfold load_known. simpl. rewrite existsb_app. f_equal. simpl. rewrite orb_false_r.
  unfold source_event_key. simpl. rewrite !seqb_refl. simpl. case_bool_decide as E; subst; [apply seqb_refl|].
  apply seqb_ne. intros E'. by apply load_event_inj in E'.
Qed.

Lemma burst_fresh tenant conn ks : forall s,
  st_faults s = [] -> admits (st_db s) tenant conn -> NoDup ks ->
  Forall (fun i => load_known tenant (st_db s) i = false) ks ->
  exists rows s', burst ks s = (Ok (replicate (length ks) 202%Z), s') /\ st_faults s' = [] /\
    Forall2 (load_row tenant) ks rows /\ st_db s' = on_source_events (fun l => l ++ rows)%list (st_db s).
Proof.
  induction ks as [|i ks IH]; intros s Hf Ha Hnd Hfr.
  { exists [], s. split_and!; [done..|constructor|]. by destruct (st_db s); unfold on_source_events; rewrite app_nil_r. }
  apply NoDup_cons in Hnd as [Hi Hnd]. apply Forall_cons in Hfr as [Hfi Hfr].
  destruct (request_served tenant conn i s Hf Ha) as (resp & s1 & E1 & Hf1 & H1). rewrite Hfi in H1.
  destruct H1 as (Hc1 & row & Hrow & Hd1).
  destruct (IH s1 Hf1) as (rows & s2 & E2 & Hf2 & Hrows & Hd2); [by rewrite Hd1|done| |].
  { rewrite Forall_forall in Hfr |- *. intros j Hj. rewrite Hd1, (known_after _ _ _ _ _ Hrow), (Hfr _ Hj).
    apply bool_decide_eq_false. by intros ->. }
  exists (row :: rows), s2. split_and!; [|done|by constructor|].
  - simpl. unfold mbind, M_bind. rewrite E1, E2. simpl. by rewrite Hc1.
  - rewrite Hd2, Hd1. unfold on_source_events. simpl. by rewrite <- app_assoc.
Qed.

Lemma burst_repeated tenant conn ks : forall s,
  st_faults s = [] -> admits (st_db s) tenant conn ->
  Forall (fun i => load_known tenant (st_db s) i = true) ks ->
  exists s', burst ks s = (Ok (replicate (length ks) 200%Z), s') /\ st_faults s' = [] /\ st_db s' = st_db s.
Proof.
  induction ks as [|i ks IH]; intros s Hf Ha Hk; [by exists s|]. apply Forall_cons in Hk as [Hki Hk].
  destruct (request_served tenant conn i s Hf Ha) as (resp & s1 & E1 & Hf1 & H1). rewrite Hki in H1.
  destruct H1 as (Hc1 & Hd1). destruct (IH s1 Hf1) as (s2 & E2 & Hf2 & Hd2); [by rewrite Hd1..|].
  exists s2. split_and!; [|done|by rewrite Hd2]. simpl. unfold mbind, M_bind. rewrite E1, E2. simpl. by rewrite Hc1.
Qed.

(** A burst of new events, served in any order on a working database, is answered
    with 202 throughout and adds exactly one row per request, with the request's
    content; the same burst again, in any order, is answered with 200 throughout,
    stores nothing, and is summed up as accepted all the same. *)
Theorem burst_ingested (n : nat) (ks js : list nat) (tenant : Tenant) (conn : Connection) (s : St) (elapsed : Z)
    (lat : list Z) :
  ks ≡ₚ seq 0 n -> js ≡ₚ seq 0 n -> length lat = n ->
  st_faults s = [] -> admits (st_db s) tenant conn ->
  Forall (fun i => load_known tenant (st_db s) i = false) (seq 0 n) ->
  exists rows s' s'',
    burst ks s = (Ok (replicate n 202%Z), s') /\ Forall2 (load_row tenant) ks rows /\
    st_db s' = on_source_events (fun l => l ++ rows)%list (st_db s) /\
    burst js s' = (Ok (replicate n 200%Z), s'') /\ st_db s'' = st_db s' /\
    re_Accepted (summary n elapsed (zip lat (Answered <$> replicate n 202%Z))) = n /\
    re_Accepted (summary n elapsed (zip lat (Answered <$> replicate n 200%Z))) = n.
Proof.
  intros Hi Hj Hlat Hf Ha Hfr.
  destruct (burst_fresh tenant conn ks s Hf Ha) as (rows & s' & E & Hf' & Hrows & Hd).
  { rewrite Hi. apply NoDup_seq. }
  { by rewrite Hi. }
  assert (Hli : length ks = n) by (rewrite Hi; apply length_seq).
  assert (Hlj : length js = n) by (rewrite Hj; apply length_seq).
  destruct (burst_repeated tenant conn js s' Hf') as (s'' & E' & _ & Hd'); [by rewrite Hd| |].
  { rewrite Forall_forall. intros j Hjs. rewrite Hj, <- Hi in Hjs. rewrite Hd. unfold load_known. simpl.
    apply existsb_exists. eapply list_elem_of_lookup_1 in Hjs as [k Hk].
    eapply Forall2_lookup_l in Hrows as (row & Hr & (id & now & Erow)); [|exact Hk].
    exists row. split; [apply in_or_app; right; apply list_elem_of_In; by eapply list_elem_of_lookup_2|].
    rewrite Erow. unfold source_event_key. simpl. by rewrite !seqb_refl. }
  rewrite Hli in E. rewrite Hlj in E'. exists rows, s', s''. split_and!; try done.
  all: subst n; by apply all_accepted.
Qed.
End burst.

(** The command's burst at the sample tenant. *)
Definition sample_generator : Generator := mkGenerator "secret" "salesforce" "acme".

Definition sample_burst (ks : list nat) : @M up (list Z) :=
  burst sample_generator "salesforce" "2024-02-29T10:30:00.25Z" (fun _ => ∅) ks.

Lemma burst_ingested_witness :
  exists rows s' s'',
    sample_burst [1; 0; 2] undelivered = (Ok [202; 202; 202]%Z, s') /\ length rows = 3 /\
    st_db s' = on_source_events (fun l => l ++ rows)%list (st_db undelivered) /\
    sample_burst [2; 1; 0] s' = (Ok [200; 200; 200]%Z, s'') /\ st_db s'' = st_db s'.
Proof.
  destruct (burst_ingested (H := up) sample_generator "salesforce" "2024-02-29T10:30:00.25Z" 1709202600250000000
    (fun _ => ∅) 3 [1; 0; 2] [2; 1; 0] (mkTenant "t1" "Acme" "acme" "active" 0)
    (sample_connection "salesforce" "http://sf") undelivered 1000 [7; 5; 9]%Z)
    as (rows & s' & s'' & H1 & H2 & H3 & H4 & H5 & _).
  - apply perm_swap.
  - change [2; 1; 0] with (reverse (seq 0 3)). apply reverse_Permutation.
  - reflexivity.
  - reflexivity.
  - repeat split; try discriminate; vm_compute; reflexivity.
  - repeat constructor.
  - exists rows, s', s''. apply Forall2_length in H2. by split_and!.
Defined.

(** ** [cmd/loadgen] *)

Definition envOr (env : string -> string) (k def : string) : string :=
  let v := env k in if v =s "" then def else v.

(** The generator, with the flags at their defaults. *)
Definition loadgen_generator (env : string -> string) : Generator :=
  mkGenerator (envOr env "SYNCFORGE_WEBHOOK_SECRET" "sfs-dev-secret") (envOr env "SYNCFORGE_SOURCE" "salesforce")
    (envOr env "SYNCFORGE_TENANT_SLUG" "acme").

(** The exit code, after the burst. *)
Definition loadgen_exit (r : Result) : Z :=
  if (re_Accepted r =? 0)%nat && (re_Rejected r =? 0)%nat && (re_Errors r =? 0)%nat then 1 else 0.

(** A gateway that never answers is no failure of the command: each request
    counts as an error, and the check for an unreachable gateway asks for none. *)
Lemma unreachable_exits_zero (n : nat) (elapsed : Z) (outs : list (Z * Outcome)) :
  outs <> [] -> Forall (fun o => o.2 = Failed) outs -> loadgen_exit (summary n elapsed outs) = 0%Z.
Proof.
  intros Hne Hall. unfold loadgen_exit, summary. cbn [re_Accepted re_Rejected re_Errors].
  destruct outs as [|[us o] outs]; [done|]. apply Forall_cons in Hall as [Ho _]. simpl in Ho. subst o. simpl.
  by rewrite !andb_false_r.
Qed.

(** The check fires for a burst of no requests only. *)
Lemma loadgen_exit_one (n : nat) (elapsed : Z) (outs : list (Z * Outcome)) :
  loadgen_exit (summary n elapsed outs) = 1%Z <-> outs = [].
Proof.
  pose proof (counted outs) as Hc. unfold loadgen_exit, summary. cbn [re_Accepted re_Rejected re_Errors]. split.
  - destruct (_ && _) eqn:E; [|done]. rewrite !andb_true_iff, !Nat.eqb_eq in E. intros _.
    destruct E as [[E1 E2] E3]. rewrite E1, E2, E3 in Hc. by destruct outs.
  - by intros ->.
Qed.
