(* ===== verification/Races.v ===== *)
(** * What concurrency can break

    The claims keep an event from being applied twice, and every transaction keeps
    what is recorded; but an apply reads the canonical record in one transaction
    and replaces it in another, so two applies of different events to one record
    are not isolated from each other.  Nor are the two decisions on a conflict:
    only a dismissal is guarded in the statement.  And a decision on a dead letter
    is not guarded at all. *)

From S2P Require Import Prelude Json GoTime Crypto Events Model Conflict Backoff Tables Effects.
From S2P Require Import Store Frame Interleave Connectors Run Adapters Worker Sample WorkerSpec History.
From S2P Require Import Operator OperatorSpec Auth AuthSpec Oidc OidcSpec ApiSpec System.
Local Open Scope string_scope.

(** The database becomes [d] just before the [k]-th transaction of a run. *)
Definition overtaken (k : nat) (d : DB) : Outside :=
  {| World := nat; http_step w _ := (S w, HttpResp 200 "" "" (Some sample_answer));
     publish_step w _ _ _ := (w, true); others n d0 := if (n =? k)%nat then d else d0 |}.

(** An older version of the record than that of [sample_update 7], delayed, for
    instance in the retry queue. *)
Definition older_update : Event :=
  mkEvent "evt-6" "t1" "salesforce" "customer" "sf-000001" EventUpdated 6
    1709202600000000000 1709202601000000000 "" no_provenance
    (list_to_map [("fields", JObj [("first_name", JStr "Ada"); ("last_name", JStr "Lovelace");
       ("email", JStr "ada@old.dev"); ("phone", JStr "555"); ("company", JStr "Acme")])]).

(** It has read the record and written to HubSpot, and is about to persist. *)
Definition before_persist : DB :=
  default empty_db (snd <$> commits (@Process up older_update) synced !! 7).
(** Now the newer version is applied. *)
Definition newer_run : Log := commits (@Process up (sample_update 7)) (state_up before_persist).
Definition newer_applied : DB := st_db (@Process up (sample_update 7) (state_up before_persist)).2.
(** And then the older one goes on. *)
Definition older_start : @St (overtaken 8 newer_applied) :=
  @mkSt (overtaken 8 newer_applied) (st_db synced) 0 1000 [] [] 0 [] [] [] [].
Definition older_run : Log := commits (@Process (overtaken 8 newer_applied) older_update) older_start.

Definition overtaking : list nat := (replicate 8 1 ++ replicate 10 0 ++ [1; 1])%list.

(** The email and the Salesforce version of the record. *)
Definition email_and_version (d : DB) : option (option Json * option Z) :=
  (fun c => (cr_Fields c !! "email", cr_SourceVersions c !! "salesforce")) <$> head (canonical_records d).

(** The version check passes for both, since the older event was checked before
    the newer one was persisted: the record ends with the older email and the
    older version, although both events were applied with success. *)
Lemma old_overwrites_new :
  exists d, Interleaved [newer_run; older_run] (st_db synced) [[]; []] d /\
    (@Process up (sample_update 7) (state_up before_persist)).1 = Ok tt /\
    (@Process (overtaken 8 newer_applied) older_update older_start).1 = Ok tt /\
    email_and_version newer_applied = Some (Some (JStr "ada@new.dev"), Some 7%Z) /\
    email_and_version d = Some (Some (JStr "ada@old.dev"), Some 6%Z).
Proof.
  exists (play overtaking [newer_run; older_run] (st_db synced)).2. split.
  - assert (E : (play overtaking [newer_run; older_run] (st_db synced)).1 = [[]; []])
      by (vm_compute; reflexivity).
    rewrite <- E. apply fits_interleaved. vm_compute. reflexivity.
  - split_and!; vm_compute; reflexivity.
Qed.

(** ** Decisions overtaken *)

(** The conflict is resolved while an operator dismisses it: the dismissal has
    read it as pending, and the statement excludes only dismissed conflicts. *)
Definition resolved_meanwhile : DB :=
  st_db (@SetConflictStatus up "t1" "conf-1" ConflictResolved "manual" "operator" parked_state).2.

Lemma resolved_conflict_dismissed :
  let s := @mkSt (overtaken 1 resolved_meanwhile) (st_db parked_state) 0 1000 [] [] 0 [] [] [] [] in
  let r := @handleDismissConflict (overtaken 1 resolved_meanwhile) an_admin "conf-1" s in
  code_of r.1 = Some 200%Z /\ co_Status <$> conflicts resolved_meanwhile = [ConflictResolved] /\
  co_Status <$> conflicts (st_db r.2) = [ConflictDismissed].
Proof. vm_compute. split_and!; reflexivity. Qed.

(** A dead letter the operator has discarded can be replayed. *)
Lemma discarded_letter_replayed :
  let d := @handleDLQDiscard up an_admin "dl-1" parked_state in
  let r := @handleDLQRetry up sample_cfg an_admin "dl-1" d.2 in
  code_of d.1 = Some 200%Z /\ dl_Status <$> dead_letter (st_db d.2) = ["discarded"] /\
  code_of r.1 = Some 200%Z /\ dl_Status <$> dead_letter (st_db r.2) = ["retrying"] /\
  rt_EventID <$> retry_queue (st_db r.2) = ["evt-9"].
Proof. vm_compute. split_and!; reflexivity. Qed.
